(* ===== verification/_CoqProject ===== *)
-Q . S2P
Prelude.v
Cli.v
GoStrings.v
Paths.v
World.v
FSFacts.v
Logic.v
Types.v
Filesystem.v
Quiet.v
Config.v
Job.v
Metrics.v
Queues.v
Worker.v
Store.v
WorkSafety.v
WorkCarry.v
WorkFrame.v
Scenario.v
TarSpec.v
WorkSpec.v
MetricsSpec.v
WorkRefine.v
WorkOutcome.v
WorkFailure.v
WorkLive.v
JobSpec.v
Scanner.v
Broker.v
BrokerNet.v
Http.v
Server.v
Pool.v
Mux.v
Serve.v
HandlerSpec.v
ListingSpec.v
BrokerSpec.v
LogSpec.v
IndexSpec.v
PoolSpec.v
PoolStop.v
ConfigSpec.v
ServeSpec.v
Concurrent.v
BrokerLive.v
Client.v
ClientSpec.v
EndToEnd.v
