(* ===== verification/Prelude.v ===== *)
(** * mistry: a verification development

    mistry is a build service.  A server (cmd/mistryd) takes requests for jobs over
    HTTP, builds each job in a Docker container inside a directory of its own, and
    keeps the artifacts; equal jobs are built once, from a result cache or by waiting
    for the build that is under way.  A command-line client (cmd/mistry) asks for a
    job and fetches its artifacts with scp or rsync.  This library translates the
    Go code into definitions that compute, and proves what the code promises.

    ** The parts and where they are

    - GoStrings, Paths: the functions of [strings], [sort], [encoding/hex] and
      [path/filepath] that the code uses.
    - World: the state of the server (file system, job queue, project mutexes, calls
      on the metrics) and Go's [os] and [io/ioutil] on it.  A file system is a finite
      map from lists of names to directories, files and symbolic links.  FSFacts has
      its lemmas; Logic the triples and frame classes used to reason about
      computations; Quiet those for runs without faults.
    - Types: pkg/types.  Filesystem: pkg/utils (with [Tar]) and pkg/filesystem.  The
      interface of the file system adapters is a record with a contract, the class
      [FileSystemSpec]; both adapters (plainfs, btrfs) are proved to keep it, and the
      theorems about builds use nothing but the contract.
    - Config: cmd/mistryd/config.go; Metrics: cmd/mistryd/metrics; Job: job.go, with
      the seed of the job ID, the image build, the container, and the directory of a
      build; Queues: job_queue.go and project_queue.go as one goroutine sees them.
    - Worker: worker.go, function [Work] and the functions it calls, deferred
      functions included, in the order in which Go runs them.
    - Scanner: [bufio.Scanner] with its buffer, and [io.Pipe] read by one.  Broker:
      pkg/tailer and pkg/broker, and the goroutine that scans a log.  BrokerNet: the
      broker, the handlers of requests for logs and the tailers as goroutines over
      their channels, with one action for each channel operation.
    - Http: response writers of [net/http]; Mux: its request multiplexer.  Server: the
      handlers of server.go, the listings, the clean-up at start-up, the rebuilding of
      images.  Serve: [NewServer] with its routes, the dispatch of a request,
      [StartServer], and the commands and flags of cmd/mistryd/main.go.
    - Pool: worker_pool.go as a machine whose state has the queue, the workers and the
      result channels, with one action for each step of a goroutine.  Concurrent: the
      calls of many goroutines on the project mutexes and on the job queue, step by
      step.
    - Client: cmd/mistry/main.go and transport.go; Cli: the flags of both programs.

    A Go function that touches the outside is a computation in the state monad of
    this file; errors are values, as in Go.  The steps between two calls that other
    goroutines could see are the same as in the code.

    ** What the theorems show

    - Store, WorkSafety and WorkSpec: the invariant of the build directory
      ([store_ok]: real directories where the server makes them, complete ready
      builds, latest links that lead to ready builds that succeeded) is kept by every
      run of [Work], for all faults of the system calls, all answers of Docker, and
      all changes of others that keep it.  A build that ends without error is
      published with the information it returns ([published]), and the latest link
      leads to it when its exit code is 0.
    - WorkRefine: the specification.  An abstract store has the published builds and
      the latest links; what a job may do to it is [job_step].  Every run of [Work] is
      a sequence of such steps ([Work_refines]), and since none of them touches a
      successful build, such a build lasts ([successful_builds_last]).  WorkCarry has
      the triples that carry a property through a whole build.
    - WorkLive: progress.  A build that nothing prevents (no faults, a daemon that
      does what it is asked, the project there, no earlier build of the job) ends
      without error; every call on its way is shown to succeed.
    - TarSpec: [Tar] returns the archive of the regular files below its root in the
      order of their paths, a reference given without the walk.
    - WorkOutcome, WorkFrame: the result cache (a successful build is found again, a
      failed one is built anew), the job queue and the mutexes after each run.
      MetricsSpec: the calls on the metrics account for each run.
    - WorkFailure: coalescing, and what is left behind by builds that fail.
    - JobSpec: what the ID of a job depends on, and the jobs that [NewJob] makes.
    - HandlerSpec, IndexSpec, ListingSpec: the answers of the handlers, the index, the
      accounts of rebuilding images, the listing of projects, the clean-up.
    - ServeSpec: which handler a path reaches, that no path leads out of the builds of
      a project, and that the URL of a build leads to it.
    - BrokerSpec, LogSpec: the lines that are appended to a log reach each client that
      watches the build, once and in order.  BrokerLive: the goroutines of BrokerNet
      refine the steps of the broker alone; it always comes back to its select.
    - PoolSpec, PoolStop, Concurrent: jobs are neither lost nor run twice and each has
      one result; Stop returns, with a bound on the actions until then; mutual
      exclusion and absence of deadlock.
    - ConfigSpec, ClientSpec: the configuration and the pools it starts on 64-bit
      integers, and the client's arguments, target directory, request and transfer.
    - EndToEnd: the client against the server.  An answer of [Work] with the exit code
      0 is reported by the ready directory on every path (built, cached, coalesced),
      and a client that fetches artifacts fetches those of the job it asked for.
    - Scenario: a concrete server (project yarn, an empty build directory, a Docker
      whose answers are given), on which the theorems' hypotheses are shown to hold.

    Where the code does not do what it means to, theorems state what it does:
    [failed_start_is_served], [coalesce_waits_forever], [stale_pending_blocks],
    [pool_settings] (which settings are accepted and then panic),
    [project_log_crashes]; lemmas [job_id_collision], [param_names_escape],
    [missing_log_crashes], [getJobs_mixes_projects], [long_line_ends_log],
    [verbose_rebuild_hangs], [StartServer_never_stops], [hosted_round_nil],
    [work_result_content_type], [no_wait_needs_transport], [root_target] and
    [rsync_source_wrong] do the same.

    ** Parameters

    Code outside the repository is a parameter: external commands, the clock, faults,
    the order of [range] and other goroutines are the class [Env] of World; the
    Docker client is [Docker], the hash [Sha256] (Job), archive/tar's header bytes
    [TarFormat] (Filesystem), encoding/json [JSON] (Types) and [JobJSON] (Server),
    the network [Network] (Http) and [ClientEnv] (Client), templates [Templates]
    (Server), the registration of collectors [Prometheus] (Metrics).  Their laws,
    where a theorem needs any, are fields of these classes or hypotheses by name
    (decoding gives back what was encoded; cp(1) and btrfs(8) do what their manuals
    say); Scenario has an instance of each.  In EndToEnd the network is the server
    itself, behind a function that says which requests get no answer.

    ** Bounds

    Path lookup follows at most 40 links, as the kernel does, and
    [filepath.EvalSymlinks] at most 255.  The coalescing loop takes as fuel the
    number of its ticks: it ends when the build is published
    ([coalesce_returns]), and never otherwise ([coalesce_waits_forever]).  [Tar]
    takes as fuel the number of nodes of the tree, which bounds its depth
    ([Tar_returns_archive] shows that it never runs out).
    [MkdirAll] takes the length of the path, which shrinks in each call
    ([ensure_target_creates] shows that it suffices).  A write to a pipe takes its
    length and one more, since each read takes at least a byte ([pipe_write_spec]).
    A scanner holds at most 64 KiB of a line.  Durations and the default backlog are
    64-bit integers ([wrap64], [time_sub]); [chan_max] is the largest channel that
    the run time can make.

    ** What is not modelled

    Log lines and what the programs print; modes and owners of files; relative paths
    are resolved against the root.  JSON texts, but for the laws above.  Function
    [Work] and the handlers are sequential: other goroutines act on the file system
    while it sleeps, and on the queue, the mutexes and the broker in Pool, Concurrent
    and BrokerNet.  [sort.Slice] is taken to be stable.  The data race on the map
    CloseClientC of the broker (a goroutine reads it while the loop may write) is not
    expressed: BrokerNet takes the read to be one with the start of the goroutine.
    The files of other libraries that the server serves (promhttp, the embedded web
    assets) are parameters of [serve].

    ** Still to do

    Several [Work]s on one project at a time, with their system calls interleaved:
    [Env] would say what others do between two calls, the triples of Logic would ask
    for assertions that are stable under it, and the job queue and the project's mutex
    would give the rely condition (nobody else touches the build of a job, nor the
    latest links while the mutex is held).  Progress of [Work] when a group has a
    build to clone. *)
From stdpp Require Export base tactics list gmap strings fin_maps sorting pretty.
From Stdlib Require Export ZArith Lia.

#[global] Set Default Goal Selector "!".

Declare Scope go_scope.
Delimit Scope go_scope with go.
#[global] Open Scope go_scope.

Create HintDb mistry.

(** ** Results of Go functions that return [(T, error)] *)

Inductive result (E A : Type) : Type :=
| Ok (a : A)
| Err (e : E).
Arguments Ok {E A} a.
Arguments Err {E A} e.

Definition is_ok {E A} (r : result E A) : bool :=
  match r with Ok _ => true | Err _ => false end.

(** The [error] half of a result, [None] being Go's [nil]. *)
Definition err_of {E A} (r : result E A) : option E :=
  match r with Ok _ => None | Err e => Some e end.

#[export] Instance result_eq_dec {E A} `{EqDecision E, EqDecision A} :
  EqDecision (result E A).
Proof. solve_decision. Defined.

(** ** The state monad of the development *)

Definition M (S A : Type) : Type := S → A * S.

#[export] Instance M_ret {S} : MRet (M S) := λ A a s, (a, s).
#[export] Instance M_bind {S} : MBind (M S) := λ A B k m s, let '(a, s') := m s in k a s'.

Definition get {S} : M S S := λ s, (s, s).
Definition modify {S} (f : S → S) : M S () := λ s, ((), f s).
Definition gets {S A} (f : S → A) : M S A := λ s, (f s, s).

(** [m ;? k] is the Go idiom [err := m; if err != nil { return err }; k]. *)
Definition andM {S E} (m k : M S (option E)) : M S (option E) :=
  e ← m; match e with Some _ => mret e | None => k end.
Notation "m ';?' k" := (andM m k) (at level 100, k at level 200, right associativity) : go_scope.

(** [x ←? m ; k] is [x, err := m; if err != nil { return nil, err }; k]. *)
Definition bindR {S E A B} (m : M S (result E A)) (k : A → M S (result E B)) : M S (result E B) :=
  r ← m; match r with Ok a => k a | Err e => mret (Err e) end.
Notation "x '←?' m ; k" := (bindR m (λ x, k))
  (at level 20, m at level 100, k at level 200, only parsing) : go_scope.

(** Loop over a list that stops at the first error. *)
Fixpoint forM {S E A} (f : A → M S (option E)) (l : list A) : M S (option E) :=
  match l with
  | [] => mret None
  | x :: l' => f x ;? forM f l'
  end.

(** Replace the error of a computation, as [if err != nil { return wrap(err) }]. *)
Definition wrapM {S E} (f : E → E) (m : M S (option E)) : M S (option E) :=
  e ← m; mret (f <$> e).

Section monad_laws.
Context {S : Type}.

Lemma bind_run {A B} (m : M S A) (k : A → M S B) s :
  (m ≫= k) s = k (m s).1 (m s).2.
Proof. unfold mbind, M_bind. by destruct (m s). Qed.

Lemma ret_run {A} (a : A) (s : S) : (mret a : M S A) s = (a, s).
Proof. done. Qed.

Lemma andM_run {E} (m k : M S (option E)) s :
  (m ;? k) s = match (m s).1 with Some e => (Some e, (m s).2) | None => k (m s).2 end.
Proof. unfold andM. rewrite bind_run. by destruct (m s) as [[e|] s']. Qed.

Lemma bindR_run {E A B} (m : M S (result E A)) (k : A → M S (result E B)) s :
  bindR m k s = match (m s).1 with Ok a => k a (m s).2 | Err e => (Err e, (m s).2) end.
Proof. unfold bindR. rewrite bind_run. by destruct (m s) as [[a|e] s']. Qed.

Lemma wrapM_run {E} (f : E → E) (m : M S (option E)) s :
  wrapM f m s = (f <$> (m s).1, (m s).2).
Proof. unfold wrapM. by rewrite bind_run. Qed.
End monad_laws.

(** ** Lists *)

Lemma NoDup_omap_inj {A B} (f : A → option B) l :
  (∀ x y b, x ∈ l → y ∈ l → f x = Some b → f y = Some b → x = y) → NoDup l → NoDup (omap f l).
Proof.
  intros Hf Hl. induction Hl as [|x l Hx Hl IH]; [constructor|].
  cbn [omap list_omap]. assert (Hrest : NoDup (omap f l)).
  { apply IH. intros y z b Hy Hz. apply Hf; by right. }
  destruct (f x) as [b|] eqn:Hb; [|done]. constructor; [|done].
  intros (y & Hy & Hfy)%list_elem_of_omap. destruct Hx.
  by rewrite (Hf x y b ltac:(by left) ltac:(by right) Hb Hfy).
Qed.

Lemma StronglySorted_weaken {A} (R S : relation A) l :
  (∀ a b, R a b → S a b) → StronglySorted R l → StronglySorted S l.
Proof.
  intros HRS. induction 1 as [|x l Hl IH Hx]; constructor; [done|]. eapply Forall_impl; [done|]. eauto.
Qed.
