(* ===== verification/Cli.v ===== *)
(** Declarations for the library urfave/cli: the flags of a command, by their names,
    default value and usage.  Reading the command line is the library's. *)
From S2P Require Import Prelude.

Open Scope string_scope.

(** [cli.StringFlag], [cli.BoolFlag] and [cli.StringSliceFlag]. *)
Inductive Flag :=
| StringFlag (Name Value Usage : string)
| BoolFlag (Name Usage : string)
| StringSliceFlag (Name Usage : string).
