(* ===== verification/GoStrings.v ===== *)
(** Go's [strings], [sort] and [encoding/hex] functions, as far as the sources
    under src/ use them, on byte strings ([String.string] is a list of bytes).
    [Split] and [Contains] are given for one-byte separators, the only ones the
    sources use with them. *)
From S2P Require Import Prelude.
From Stdlib Require Import Ascii.

Open Scope string_scope.
Open Scope list_scope.

Definition slash : ascii := "/"%char.

(** [strings.Split(s, sep)]: always at least one part. *)
Fixpoint Split (sep : ascii) (s : string) : list string :=
  match s with
  | EmptyString => [EmptyString]
  | String c s' =>
      if decide (c = sep) then EmptyString :: Split sep s'
      else match Split sep s' with
           | h :: t => String c h :: t
           | [] => [String c EmptyString]
           end
  end.

(** [strings.Join(l, sep)]. *)
Fixpoint Join (sep : string) (l : list string) : string :=
  match l with
  | [] => ""
  | [x] => x
  | x :: l' => x +:+ sep +:+ Join sep l'
  end.

(** [strings.HasPrefix(s, p)]. *)
Fixpoint HasPrefix (s p : string) : bool :=
  match p, s with
  | EmptyString, _ => true
  | String c p', String d s' => bool_decide (c = d) && HasPrefix s' p'
  | String _ _, EmptyString => false
  end.

(** [s[n:]]. *)
Fixpoint str_drop (n : nat) (s : string) : string :=
  match n, s with
  | S n', String _ s' => str_drop n' s'
  | _, _ => s
  end.

(** [s[:n]]; the sources' slices are in range. *)
Fixpoint str_take (n : nat) (s : string) : string :=
  match n, s with
  | S n', String c s' => String c (str_take n' s')
  | _, _ => EmptyString
  end.

(** [strings.TrimPrefix(s, p)]. *)
Definition TrimPrefix (s p : string) : string :=
  if HasPrefix s p then str_drop (String.length p) s else s.

(** [c] is one of the bytes of [s]: [strings.Contains] for a one-byte string. *)
Fixpoint Contains (s : string) (c : ascii) : bool :=
  match s with
  | EmptyString => false
  | String d s' => bool_decide (c = d) || Contains s' c
  end.

(** [strings.TrimLeft(s, cutset)]: drops every leading byte that occurs in
    [cutset]; a cutset is a set of characters, not a prefix. *)
Fixpoint TrimLeft (s cutset : string) : string :=
  match s with
  | EmptyString => EmptyString
  | String c s' => if Contains cutset c then TrimLeft s' cutset else s
  end.

(** [strings.Index(s, sub)], [None] for -1: the first occurrence. *)
Fixpoint Index (s sub : string) : option nat :=
  if HasPrefix s sub then Some 0
  else match s with
       | EmptyString => None
       | String _ s' => S <$> Index s' sub
       end.

(** Byte order on strings, as Go's [<=] and [sort.Strings] use it. *)
Fixpoint str_le (a b : string) : bool :=
  match a, b with
  | EmptyString, _ => true
  | String _ _, EmptyString => false
  | String c a', String d b' =>
      if decide (c = d) then str_le a' b' else N.ltb (N_of_ascii c) (N_of_ascii d)
  end.

Definition str_leP (a b : string) : Prop := str_le a b = true.

#[export] Instance str_leP_dec a b : Decision (str_leP a b).
Proof. unfold str_leP. apply _. Defined.

(** [sort.Strings]. *)
Definition sort_strings (l : list string) : list string := merge_sort str_leP l.

Definition hex_digit (n : N) : ascii :=
  if N.ltb n 10 then ascii_of_N (48 + n) else ascii_of_N (87 + n).

(** [hex.EncodeToString], which is also what the verb %x prints for bytes. *)
Fixpoint hex (s : string) : string :=
  match s with
  | EmptyString => EmptyString
  | String c s' =>
      String (hex_digit (N.div (N_of_ascii c) 16))
        (String (hex_digit (N.modulo (N_of_ascii c) 16)) (hex s'))
  end.

(** [fmt]'s %d and [strconv.Itoa]. *)
Definition itoa (n : Z) : string := pretty n.

(** ** Lemmas *)

Lemma str_app_nil_r (a : string) : a +:+ "" = a.
Proof. induction a as [|c a IH]; [done|]. change (String c (a +:+ "") = String c a). by rewrite IH. Qed.

Lemma str_app_assoc (a b c : string) : (a +:+ b) +:+ c = a +:+ (b +:+ c).
Proof. induction a as [|x a IH]; [done|]. change (String x ((a +:+ b) +:+ c) = String x (a +:+ (b +:+ c))). by rewrite IH. Qed.

Lemma str_app_cons c a b : String c a +:+ b = String c (a +:+ b).
Proof. done. Qed.

Lemma str_length_app a b : String.length (a +:+ b) = String.length a + String.length b.
Proof. induction a as [|c a IH]; [done|]. rewrite str_app_cons. simpl. by rewrite IH. Qed.

Lemma Split_not_nil sep s : Split sep s ≠ [].
Proof. destruct s as [|c s]; simpl; [done|]. case_decide; [done|]. by destruct (Split sep s). Qed.

Lemma Split_app_sep sep a b : Split sep (a +:+ String sep b) = Split sep a ++ Split sep b.
Proof.
  induction a as [|c a IH].
  - simpl. by rewrite decide_True.
  - rewrite str_app_cons. simpl. rewrite IH. case_decide; [done|].
    destruct (Split sep a) as [|h t] eqn:E; [|done]. by destruct (Split_not_nil sep a).
Qed.

Lemma Split_none sep s : Contains s sep = false → Split sep s = [s].
Proof.
  induction s as [|c s IH]; simpl; [done|]. intros [Hc Hs]%orb_false_iff.
  case_bool_decide; [done|]. rewrite decide_False by congruence. by rewrite IH.
Qed.

Lemma HasPrefix_app p s : HasPrefix (p +:+ s) p = true.
Proof.
  induction p as [|c p IH]; [by destruct s|]. rewrite str_app_cons. simpl.
  by rewrite bool_decide_true, IH.
Qed.

Lemma HasPrefix_spec s p : HasPrefix s p = true → s = p +:+ str_drop (String.length p) s.
Proof.
  revert s. induction p as [|c p IH]; intros s H; [done|].
  destruct s as [|d s]; simpl in H; [done|].
  apply andb_true_iff in H as [H1%bool_decide_eq_true H2]. subst.
  rewrite str_app_cons. simpl. by rewrite <- IH.
Qed.

Lemma str_drop_app p s : str_drop (String.length p) (p +:+ s) = s.
Proof. induction p as [|c p IH]; [by destruct s|]. rewrite str_app_cons. simpl. exact IH. Qed.

Lemma Contains_app a b c : Contains (a +:+ b) c = Contains a c || Contains b c.
Proof.
  induction a as [|d a IH]; [done|]. rewrite str_app_cons. simpl. rewrite IH.
  by destruct (bool_decide _).
Qed.

Lemma hex_length s : String.length (hex s) = 2 * String.length s.
Proof. induction s as [|c s IH]; [done|]. simpl. rewrite IH. simpl. lia. Qed.

(** [str_le] is the lexicographic total order, so a sorted list of keys is
    determined by the keys. *)
Lemma N_of_ascii_inj c d : N_of_ascii c = N_of_ascii d → c = d.
Proof. intros H. by rewrite <-(ascii_N_embedding c), H, ascii_N_embedding. Qed.

Lemma N_of_ascii_neq c d : c ≠ d → N_of_ascii c ≠ N_of_ascii d.
Proof. intros H ?%N_of_ascii_inj. congruence. Qed.

#[export] Instance str_le_refl : Reflexive str_leP.
Proof. intros a. unfold str_leP. induction a as [|c a IH]; simpl; [done|]. by rewrite decide_True. Qed.

#[export] Instance str_le_total : Total str_leP.
Proof.
  intros a. unfold str_leP. induction a as [|c a IH]; intros [|d b]; simpl; auto.
  destruct (decide (c = d)) as [->|Hne]; [by rewrite decide_True|].
  rewrite (decide_False (P := d = c)) by congruence.
  apply N_of_ascii_neq in Hne. rewrite !N.ltb_lt. lia.
Qed.

#[export] Instance str_le_antisymm : AntiSymm (=) str_leP.
Proof.
  intros a. unfold str_leP. induction a as [|c a IH]; intros [|d b]; simpl; auto; [done..|].
  destruct (decide (c = d)) as [->|Hne].
  - rewrite decide_True by done. intros. f_equal. by apply IH.
  - rewrite decide_False by congruence. rewrite !N.ltb_lt. lia.
Qed.

#[export] Instance str_le_trans : Transitive str_leP.
Proof.
  intros a. unfold str_leP. induction a as [|c a IH]; intros [|d b] [|e f]; simpl; auto; [done..|].
  repeat case_decide; subst; rewrite ?N.ltb_lt; try congruence; try lia.
  apply IH.
Qed.

Lemma sort_strings_perm l : sort_strings l ≡ₚ l.
Proof. apply merge_sort_Permutation. Qed.

Lemma sort_strings_sorted l : StronglySorted str_leP (sort_strings l).
Proof. apply StronglySorted_merge_sort; apply _. Qed.

(** Sorting forgets the order in which the strings arrive. *)
Lemma sort_strings_proper l1 l2 : l1 ≡ₚ l2 → sort_strings l1 = sort_strings l2.
Proof.
  intros H. apply (StronglySorted_unique str_leP); [apply sort_strings_sorted..|].
  by rewrite !sort_strings_perm.
Qed.
