(* ===== verification/Paths.v ===== *)
(** [path/filepath]'s [Clean] and [Join], and the correspondence between path
    strings and lists of components.  Job paths are strings, as in the sources;
    the file system of World.v resolves their components. *)
From S2P Require Import Prelude GoStrings.
From Stdlib Require Import Ascii.

Open Scope string_scope.
Open Scope list_scope.

(** The path has a leading slash. *)
Definition rooted (s : string) : bool := HasPrefix s "/".

(** One element of [filepath.Clean]'s loop: the stack holds the output
    components, last one first. *)
Definition clean_step (abs : bool) (stack : list string) (c : string) : list string :=
  if decide (c = "") then stack
  else if decide (c = ".") then stack
  else if decide (c = "..") then
    match stack with
    | [] => if abs then [] else [".."]
    | d :: stack' => if decide (d = "..") then ".." :: stack else stack'
    end
  else c :: stack.

(** The string with the given cleaned components. *)
Definition render (abs : bool) (cs : list string) : string :=
  if abs then "/" +:+ GoStrings.Join "/" cs
  else match cs with [] => "." | _ => GoStrings.Join "/" cs end.

(** [filepath.Clean(path)]. *)
Definition Clean (s : string) : string :=
  render (rooted s) (reverse (foldl (clean_step (rooted s)) [] (Split slash s))).

(** [filepath.Join(elem...)]: the elements after the leading empty ones, joined
    and cleaned. *)
Fixpoint Join (elem : list string) : string :=
  match elem with
  | [] => ""
  | e :: elem' => if decide (e = "") then Join elem' else Clean (GoStrings.Join "/" elem)
  end.

(** The components a path lookup walks through. *)
Definition comps (s : string) : list string := filter (λ c, c ≠ "") (Split slash s).

(** The absolute path with the given components. *)
Definition abs_path (cs : list string) : string := render true cs.

(** A component that is an ordinary file name. *)
Definition plain (c : string) : Prop :=
  c ≠ "" ∧ c ≠ "." ∧ c ≠ ".." ∧ Contains c slash = false.

#[export] Instance plain_dec c : Decision (plain c).
Proof. unfold plain. apply _. Defined.

(** Proves that a literal name is plain. *)
Ltac plain_const := vm_compute; split_and!; (discriminate || reflexivity).

(** ** Lemmas *)

Lemma comps_Split_cat a b : comps (a +:+ String slash b) = comps a ++ comps b.
Proof. unfold comps. by rewrite Split_app_sep, filter_app. Qed.

Lemma plain_not_empty c : plain c → c ≠ "".
Proof. by intros [? _]. Qed.

Lemma comps_plain c : plain c → comps c = [c].
Proof.
  intros (H1 & _ & _ & H2). unfold comps. rewrite Split_none by done.
  by rewrite filter_cons_True.
Qed.

Lemma comps_Join_sep cs : comps (GoStrings.Join "/" cs) = mjoin (comps <$> cs).
Proof.
  induction cs as [|c cs IH]; [done|]. destruct cs as [|d cs].
  - csimpl. by rewrite app_nil_r.
  - change (GoStrings.Join "/" (c :: d :: cs)) with (c +:+ String slash (GoStrings.Join "/" (d :: cs))).
    by rewrite comps_Split_cat, IH.
Qed.

Lemma mjoin_comps_plain cs : Forall plain cs → mjoin (comps <$> cs) = cs.
Proof. induction 1 as [|c cs Hc _ IH]; [done|]. csimpl. by rewrite (comps_plain c), IH. Qed.

Lemma comps_abs_path cs : Forall plain cs → comps (abs_path cs) = cs.
Proof.
  intros H. unfold abs_path, render.
  change ("/" +:+ GoStrings.Join "/" cs) with ("" +:+ String slash (GoStrings.Join "/" cs)).
  rewrite comps_Split_cat, comps_Join_sep. by apply mjoin_comps_plain.
Qed.

Lemma abs_path_inj cs ds :
  Forall plain cs → Forall plain ds → abs_path cs = abs_path ds → cs = ds.
Proof. intros Hc Hd H. by rewrite <-(comps_abs_path cs), <-(comps_abs_path ds), H. Qed.

(** Empty components do not matter to the loop of [Clean]. *)
Lemma clean_fold_filter abs st l :
  foldl (clean_step abs) st l = foldl (clean_step abs) st (filter (λ c, c ≠ "") l).
Proof.
  revert st. induction l as [|c l IH]; intros st; [done|]. simpl.
  destruct (decide (c = "")) as [->|Hne].
  - rewrite filter_cons_False by (intros H; by apply H). apply IH.
  - rewrite filter_cons_True by done. apply IH.
Qed.

Lemma clean_fold_plain abs st cs :
  Forall plain cs → foldl (clean_step abs) st cs = reverse cs ++ st.
Proof.
  intros H. revert st. induction H as [|c cs (H1 & H2 & H3 & _) _ IH]; intros st; [done|].
  simpl. rewrite IH. unfold clean_step.
  rewrite !decide_False by done. by rewrite reverse_cons, <-app_assoc.
Qed.

Lemma Clean_abs s cs :
  rooted s = true → comps s = cs → Forall plain cs → Clean s = abs_path cs.
Proof.
  intros Hr Hc Hp. unfold Clean, abs_path. rewrite Hr, clean_fold_filter.
  change (filter _ (Split slash s)) with (comps s).
  by rewrite Hc, clean_fold_plain, app_nil_r, reverse_involutive.
Qed.

Lemma rooted_app a b : rooted a = true → rooted (a +:+ b) = true.
Proof.
  unfold rooted. destruct a as [|c a]; [done|]. rewrite str_app_cons. simpl.
  intros [-> _]%andb_true_iff. by destruct (a +:+ b).
Qed.

Lemma rooted_abs_path cs : rooted (abs_path cs) = true.
Proof. unfold rooted, abs_path, render. apply (HasPrefix_app "/"). Qed.

(** Joining plain names, or names with a leading slash, below a clean absolute
    directory appends the names' components. *)
Lemma Join_abs B es :
  Forall plain B → Forall plain (mjoin (comps <$> es)) →
  Join (abs_path B :: es) = abs_path (B ++ mjoin (comps <$> es)).
Proof.
  intros HB Hes. cbn [Join]. rewrite decide_False by (by destruct B).
  apply Clean_abs.
  - destruct es as [|e es]; [apply rooted_abs_path|].
    apply rooted_app, rooted_abs_path.
  - rewrite comps_Join_sep. csimpl. by rewrite comps_abs_path.
  - by apply Forall_app_2.
Qed.

(** Hexadecimal strings have no slash. *)
Lemma Contains_hex s : Contains (hex s) slash = false.
Proof.
  induction s as [|c s IH]; [done|]. simpl. rewrite IH.
  assert (H : ∀ n, (n < 16)%N → bool_decide (slash = hex_digit n) = false).
  { intros n Hn. apply bool_decide_eq_false. intros Heq%(f_equal N_of_ascii).
    unfold hex_digit in Heq. destruct (N.ltb_spec n 10); rewrite N_ascii_embedding in Heq by lia;
      vm_compute (N_of_ascii slash) in Heq; lia. }
  pose proof (N_ascii_bounded c). rewrite !H; [done|..].
  - apply N.mod_lt. done.
  - apply N.Div0.div_lt_upper_bound. lia.
Qed.
