(* ===== verification/World.v ===== *)
(** The state the server's code acts on and the part of Go's [os], [io/ioutil],
    [path/filepath] and [time] that it uses.

    The file system is a finite map from absolute paths (lists of components) to
    nodes.  Path lookup follows symbolic links, in the middle of a path and, for
    the calls that do so, at its end, with the kernel's limit on links.  Relative
    paths are resolved against the root.  Modes and owners are not modelled.

    Everything outside the program is an oracle of the class [Env], indexed by the
    number of system calls made so far: I/O faults, the clock, the order in which
    [range] visits a map, external commands and what other goroutines do to the
    file system while this one sleeps. *)
From S2P Require Import Prelude GoStrings Paths.

Open Scope string_scope.
Open Scope list_scope.

(** ** Errors *)

(** Faults that may strike any system call, whatever the state. *)
Inductive fault := EIO | EACCES | ENOSPC | EMFILE.

Inductive errno :=
| ENOENT | EEXIST | ENOTDIR | EISDIR | ENOTEMPTY | EINVAL | EBUSY | ELOOP
| Fault (f : fault).

(** Values of Go's [error] interface: [*os.PathError], [*os.LinkError],
    [types.ErrImageBuild] and the opaque strings of [errors.New] and
    [fmt.Errorf]. *)
Inductive goerr :=
| PathError (op path : string) (e : errno)
| LinkError (op old new : string) (e : errno)
| ErrImageBuild (Image : string) (Err : goerr)
| ErrString (s : string).

Abbreviation error := (option goerr).
Abbreviation gores := (result goerr).

#[export] Instance fault_eq_dec : EqDecision fault.
Proof. solve_decision. Defined.
#[export] Instance errno_eq_dec : EqDecision errno.
Proof. solve_decision. Defined.
#[export] Instance goerr_eq_dec : EqDecision goerr.
Proof. solve_decision. Defined.

Definition errno_string (e : errno) : string :=
  match e with
  | ENOENT => "no such file or directory"
  | EEXIST => "file exists"
  | ENOTDIR => "not a directory"
  | EISDIR => "is a directory"
  | ENOTEMPTY => "directory not empty"
  | EINVAL => "invalid argument"
  | EBUSY => "device or resource busy"
  | ELOOP => "too many levels of symbolic links"
  | Fault EIO => "input/output error"
  | Fault EACCES => "permission denied"
  | Fault ENOSPC => "no space left on device"
  | Fault EMFILE => "too many open files"
  end.

(** The [Error] method.  The format of [ErrImageBuild] is that of
    [types.ErrImageBuild.Error]. *)
Fixpoint Error (e : goerr) : string :=
  match e with
  | PathError op path e => op +:+ " " +:+ path +:+ ": " +:+ errno_string e
  | LinkError op old new e => op +:+ " " +:+ old +:+ " " +:+ new +:+ ": " +:+ errno_string e
  | ErrImageBuild image err =>
      "could not build docker image '" +:+ image +:+ "': " +:+ Error err
  | ErrString s => s
  end.

(** [os.IsNotExist]. *)
Definition IsNotExist (e : goerr) : bool :=
  match e with
  | PathError _ _ ENOENT | LinkError _ _ _ ENOENT => true
  | _ => false
  end.

(** ** The file system *)

Inductive node :=
| Dir
| File (data : string)
| Symlink (target : string).

#[export] Instance node_eq_dec : EqDecision node.
Proof. solve_decision. Defined.

Abbreviation path := (list string).
Abbreviation FS := (@gmap (list string) (@list_eq_dec string String.eq_dec)
  (@list_countable string String.eq_dec String.countable) node).

Definition is_dir (n : node) : bool := match n with Dir => true | _ => false end.

Definition parent (p : path) : path := take (length p - 1) p.

(** Path lookup from directory [cur] along [rest]. [follow] tells whether a link
    in last position is followed, [links] how many more links may be.  The
    result is the location, which need not exist, in an existing directory. *)
Fixpoint walk (fs : FS) (follow : bool) (links : nat) : path → list string → errno + path :=
  fix go (cur : path) (rest : list string) {struct rest} : errno + path :=
    match rest with
    | [] => inr cur
    | c :: rest' =>
        if decide (c = ".") then go cur rest'
        else if decide (c = "..") then go (parent cur) rest'
        else
          let p := cur ++ [c] in
          match fs !! p with
          | None => match rest' with [] => inr p | _ => inl ENOENT end
          | Some Dir => go p rest'
          | Some (File _) => match rest' with [] => inr p | _ => inl ENOTDIR end
          | Some (Symlink t) =>
              match rest', follow with
              | [], false => inr p
              | _, _ =>
                  match links with
                  | O => inl ELOOP
                  | S links' =>
                      walk fs follow links' (if rooted t then [] else cur) (comps t ++ rest')
                  end
              end
          end
    end.

(** The kernel follows at most 40 links, [filepath.EvalSymlinks] 255.  The empty
    path names nothing. *)
Definition locate (fs : FS) (follow : bool) (s : string) : errno + path :=
  if decide (s = "") then inl ENOENT else walk fs follow 40 [] (comps s).

(** The node at a location. *)
Definition at_location (fs : FS) (l : errno + path) : errno + node :=
  match l with
  | inl e => inl e
  | inr p => match fs !! p with Some n => inr n | None => inl ENOENT end
  end.

(** [stat(2)] and [lstat(2)]. *)
Definition k_stat (fs : FS) (s : string) : errno + node := at_location fs (locate fs true s).
Definition k_lstat (fs : FS) (s : string) : errno + node := at_location fs (locate fs false s).

(** [mkdir(2)] and [symlink(2)]: the name must be free. *)
Definition k_make (n : node) (fs : FS) (s : string) : errno + FS :=
  match locate fs false s with
  | inl e => inl e
  | inr p => match fs !! p with Some _ => inl EEXIST | None => inr (<[p := n]> fs) end
  end.

(** [open(2)] with O_CREAT|O_TRUNC, then writing [data]. *)
Definition k_write (fs : FS) (s data : string) : errno + FS :=
  match locate fs true s with
  | inl e => inl e
  | inr p => match fs !! p with Some Dir => inl EISDIR | _ => inr (<[p := File data]> fs) end
  end.

(** Appending to a file that is already open at a location. *)
Definition k_append (fs : FS) (s data : string) : errno + FS :=
  match locate fs true s with
  | inl e => inl e
  | inr p => match fs !! p with
             | Some (File d) => inr (<[p := File (d +:+ data)]> fs)
             | Some _ => inl EISDIR
             | None => inl ENOENT
             end
  end.

Definition k_read (fs : FS) (s : string) : errno + string :=
  match k_stat fs s with
  | inl e => inl e
  | inr (File d) => inr d
  | inr _ => inl EISDIR
  end.

(** Everything at or below [p]. *)
Definition remove_tree (p : path) (fs : FS) : FS := filter (λ kn, ¬ p `prefix_of` kn.1) fs.

(** The names in directory [p], with their nodes. *)
Definition child_of (p k : path) : option string :=
  if decide (p `prefix_of` k) then
    match drop (length p) k with [c] => Some c | _ => None end
  else None.

Definition children (fs : FS) (p : path) : list string :=
  omap (λ kn, child_of p kn.1) (map_to_list fs).

(** [os.Remove]: [unlink(2)], or [rmdir(2)] for an empty directory. *)
Definition k_remove (fs : FS) (s : string) : errno + FS :=
  match locate fs false s with
  | inl e => inl e
  | inr p =>
      match fs !! p with
      | None => inl ENOENT
      | Some Dir =>
          if decide (p = []) then inl EBUSY
          else if decide (children fs p = []) then inr (delete p fs)
          else inl ENOTEMPTY
      | Some _ => inr (delete p fs)
      end
  end.

(** [os.RemoveAll]: no error when there is nothing to remove. *)
Definition k_remove_all (fs : FS) (s : string) : errno + FS :=
  match locate fs false s with
  | inl ENOENT | inl ENOTDIR => inr fs
  | inl e => inl e
  | inr p => if decide (p = []) then inl EBUSY else inr (remove_tree p fs)
  end.

(** The nodes of the subtree at [po], placed at [pn]; and the tree after it moved
    there, replacing what was there. *)
Definition moved_entry (po pn : path) (kn : path * node) : option (path * node) :=
  if decide (po `prefix_of` kn.1) then Some (pn ++ drop (length po) kn.1, kn.2) else None.

Definition graft (po pn : path) (fs : FS) : FS :=
  list_to_map (omap (moved_entry po pn) (map_to_list fs)).

Definition move_tree (po pn : path) (fs : FS) : FS :=
  graft po pn fs ∪ remove_tree pn (remove_tree po fs).

(** [os.Rename]: Go refuses a directory as the new name before it calls
    [rename(2)]. *)
Definition k_rename (fs : FS) (old new : string) : errno + FS :=
  match locate fs false old with
  | inl e => inl e
  | inr po =>
      match fs !! po with
      | None => inl ENOENT
      | Some n =>
          match locate fs false new with
          | inl e => inl e
          | inr pn =>
              match fs !! pn with
              | Some Dir => if decide (po = pn ∧ old ≠ new) then inr fs else inl EEXIST
              | tgt =>
                  if decide (po = pn) then inr fs
                  else if decide (po `prefix_of` pn) then inl EINVAL
                  else match n, tgt with
                       | Dir, Some _ => inl ENOTDIR
                       | _, _ => inr (move_tree po pn fs)
                       end
              end
          end
      end
  end.

(** [ioutil.ReadDir]: the entries in the order of their names, each as [lstat]
    sees it. *)
Definition k_readdir (fs : FS) (s : string) : errno + list (string * node) :=
  match locate fs true s with
  | inl e => inl e
  | inr p =>
      match fs !! p with
      | None => inl ENOENT
      | Some Dir =>
          inr (omap (λ c, n ← fs !! (p ++ [c]); Some (c, n)) (sort_strings (children fs p)))
      | Some _ => inl ENOTDIR
      end
  end.

(** [filepath.EvalSymlinks]. *)
Definition k_eval_symlinks (fs : FS) (s : string) : errno + string :=
  match walk fs true 255 [] (comps s) with
  | inl e => inl e
  | inr p => match fs !! p with Some _ => inr (abs_path p) | None => inl ENOENT end
  end.

(** ** The state and its environment *)

(** A call on one of the server's Prometheus collectors. *)
Inductive collector :=
| BuildsHosted | BuildsStarted | BuildsFinished | BuildsCoalesced
| BuildsProcessedIncrementally | BuildsSucceeded | BuildsFailed | CacheUtilization.

Inductive metric_call :=
| Inc (c : collector) (project : string)
| SetGauge (c : collector) (project : string) (v : Z)
| Observe (c : collector) (project : string) (nanoseconds : Z).

#[export] Instance collector_eq_dec : EqDecision collector.
Proof. solve_decision. Defined.
#[export] Instance metric_call_eq_dec : EqDecision metric_call.
Proof. solve_decision. Defined.

(** The state of the server process: the file system, the number of system calls
    made, [JobQueue.jobs], the mutexes of [ProjectQueue.p] with whether each is
    held, whether this goroutine blocked forever or crashed on a mutex, and the
    calls made on the collectors ([None] when [s.metrics] is nil). *)
Record World := mkWorld {
  w_fs : FS;
  w_step : nat;
  w_jobs : gmap string bool;
  w_locks : gmap string bool;
  w_stuck : bool;
  w_metrics : option (list metric_call);
}.

Definition set_fs (f : FS) (w : World) : World :=
  mkWorld f (w_step w) (w_jobs w) (w_locks w) (w_stuck w) (w_metrics w).
Definition tick (w : World) : World :=
  mkWorld (w_fs w) (S (w_step w)) (w_jobs w) (w_locks w) (w_stuck w) (w_metrics w).
Definition set_jobs (q : gmap string bool) (w : World) : World :=
  mkWorld (w_fs w) (w_step w) q (w_locks w) (w_stuck w) (w_metrics w).
Definition set_locks (l : gmap string bool) (w : World) : World :=
  mkWorld (w_fs w) (w_step w) (w_jobs w) l (w_stuck w) (w_metrics w).
Definition set_stuck (w : World) : World :=
  mkWorld (w_fs w) (w_step w) (w_jobs w) (w_locks w) true (w_metrics w).
Definition set_metrics (m : option (list metric_call)) (w : World) : World :=
  mkWorld (w_fs w) (w_step w) (w_jobs w) (w_locks w) (w_stuck w) m.

(** What lies outside the program.  [env_cmd n args fs] is the external command
    [args] run as system call [n]: its combined output, its error and its effect;
    [env_others] is what other goroutines did to the file system while this one
    slept; [env_random] is the random source. *)
Class Env := {
  env_fault : nat → option fault;
  env_clock : nat → Z;
  env_range : nat → gmap string string → list (string * string);
  env_range_perm n m : env_range n m ≡ₚ map_to_list m;
  env_cmd : nat → list string → FS → string * error * FS;
  env_others : nat → FS → FS;
  env_random : nat → string;
}.

Section calls.
Context {E : Env}.

(** A system call: it may be struck by a fault, and otherwise does [f]. *)
Definition syscall {A} (wrap : errno → goerr) (f : FS → errno + (A * FS)) : M World (gores A) :=
  λ w,
    let w' := tick w in
    match env_fault (w_step w) with
    | Some e => (Err (wrap (Fault e)), w')
    | None =>
        match f (w_fs w) with
        | inl e => (Err (wrap e), w')
        | inr (a, fs') => (Ok a, set_fs fs' w')
        end
    end.

(** A system call that only reads, and one that only writes. *)
Definition sys_read {A} (op : string) (s : string) (f : FS → errno + A) : M World (gores A) :=
  syscall (PathError op s) (λ fs, match f fs with inl e => inl e | inr a => inr (a, fs) end).
Definition sys_write (wrap : errno → goerr) (f : FS → errno + FS) : M World error :=
  r ← syscall wrap (λ fs, match f fs with inl e => inl e | inr fs' => inr ((), fs') end);
  mret (err_of r).

Definition Stat (s : string) : M World (gores node) := sys_read "stat" s (λ fs, k_stat fs s).
Definition Lstat (s : string) : M World (gores node) := sys_read "lstat" s (λ fs, k_lstat fs s).
Definition Mkdir (s : string) : M World error := sys_write (PathError "mkdir" s) (λ fs, k_make Dir fs s).
Definition SymlinkTo (old new : string) : M World error :=
  sys_write (LinkError "symlink" old new) (λ fs, k_make (Symlink old) fs new).
Definition WriteFile (s data : string) : M World error :=
  sys_write (PathError "open" s) (λ fs, k_write fs s data).
Definition CreateFile (s : string) : M World error := WriteFile s "".
Definition AppendFile (s data : string) : M World error :=
  sys_write (PathError "write" s) (λ fs, k_append fs s data).
Definition ReadFile (s : string) : M World (gores string) := sys_read "open" s (λ fs, k_read fs s).
Definition Remove (s : string) : M World error := sys_write (PathError "remove" s) (λ fs, k_remove fs s).
Definition RemoveAll (s : string) : M World error :=
  sys_write (PathError "unlinkat" s) (λ fs, k_remove_all fs s).
Definition Rename (old new : string) : M World error :=
  sys_write (LinkError "rename" old new) (λ fs, k_rename fs old new).
Definition ReadDir (s : string) : M World (gores (list (string * node))) :=
  sys_read "open" s (λ fs, k_readdir fs s).
Definition EvalSymlinks (s : string) : M World (gores string) :=
  sys_read "lstat" s (λ fs, k_eval_symlinks fs s).

(** A call on an open descriptor that only succeeds or fails: [Sync], [Close]. *)
Definition FdCall (op s : string) : M World error := sys_write (PathError op s) inr.

(** [time.Now], in nanoseconds. *)
Definition Now : M World Z := λ w, (env_clock (w_step w), tick w).

(** [for k, v := range m], the order being the runtime's. *)
Definition Range (m : gmap string string) : M World (list (string * string)) :=
  λ w, (env_range (w_step w) m, tick w).

(** A sleep, during which other goroutines run. *)
Definition Sleep : M World () := λ w, ((), set_fs (env_others (w_step w) (w_fs w)) (tick w)).

(** [crypto/rand.Read] into a buffer of 16 bytes. *)
Definition RandRead : M World string := λ w, (env_random (w_step w), tick w).

(** [utils.RunCmd]: an external command and its combined output. *)
Definition RunCmd (args : list string) : M World (string * error) :=
  λ w, let '(out, e, fs') := env_cmd (w_step w) args (w_fs w) in ((out, e), set_fs fs' (tick w)).

End calls.

(** A call on a collector, which the sources make only when [s.metrics] is not
    nil. *)
Definition Record_ (c : metric_call) : M World () :=
  modify (λ w, set_metrics ((λ l, l ++ [c]) <$> w_metrics w) w).
