(* ===== verification/FSFacts.v ===== *)
(** Facts about the file system of World.v: well-formed trees, path lookup in the
    absence of links, and what each call does to the nodes of a tree. *)
From S2P Require Import Prelude GoStrings Paths World.

Open Scope string_scope.
Open Scope list_scope.

(** The root is a directory and so is the parent of every node. *)
Definition wf (fs : FS) : Prop :=
  fs !! [] = Some Dir ∧ ∀ p c n, fs !! (p ++ [c]) = Some n → fs !! p = Some Dir.

(** An executable form of [wf]. *)
Definition wf_check (fs : FS) : bool :=
  bool_decide (fs !! [] = Some Dir) &&
  forallb (λ kn, bool_decide (kn.1 = []) || bool_decide (fs !! parent kn.1 = Some Dir)) (map_to_list fs).

(** No strict prefix of [p] is a file or a link. *)
Definition clear (fs : FS) (p : path) : Prop :=
  ∀ q r n, p = q ++ r → r ≠ [] → fs !! q = Some n → n = Dir.

(** [fs'] agrees with [fs] outside the subtree of [p]. *)
Definition same_outside (p : path) (fs fs' : FS) : Prop :=
  ∀ q, ¬ p `prefix_of` q → fs' !! q = fs !! q.

Lemma parent_snoc p c : parent (p ++ [c]) = p.
Proof. unfold parent. rewrite length_app. simpl. by rewrite take_app_length' by lia. Qed.

Lemma wf_check_sound fs : wf_check fs = true → wf fs.
Proof.
  intros [H1%bool_decide_eq_true H2]%andb_true_iff. split; [done|].
  intros p c n Hn. apply elem_of_map_to_list in Hn.
  rewrite forallb_forall in H2. specialize (H2 _ (proj1 (list_elem_of_In _ _) Hn)).
  simpl in H2. rewrite parent_snoc in H2.
  apply orb_true_iff in H2 as [H%bool_decide_eq_true|H%bool_decide_eq_true]; [|done].
  by destruct p.
Qed.

Lemma wf_prefix fs p r n : wf fs → fs !! (p ++ r) = Some n → r ≠ [] → fs !! p = Some Dir.
Proof.
  intros [_ Hw]. revert n. induction r as [|c r IH] using rev_ind; intros n Hn Hr; [done|].
  rewrite app_assoc in Hn. apply Hw in Hn. destruct r as [|d r].
  - by rewrite app_nil_r in Hn.
  - by apply (IH Dir).
Qed.

Lemma wf_clear fs p n : wf fs → fs !! p = Some n → clear fs p.
Proof. intros Hw Hp q r n' -> Hr Hq. pose proof (wf_prefix _ _ _ _ Hw Hp Hr). congruence. Qed.

Lemma wf_clear_child fs p c : wf fs → fs !! p = Some Dir → clear fs (p ++ [c]).
Proof.
  intros Hw Hp q r n Heq Hr Hq. destruct r as [|d r _] using rev_ind; [done|].
  rewrite app_assoc in Heq. apply app_inj_tail in Heq as [-> ->].
  destruct r as [|e r]; [rewrite app_nil_r in *; congruence|].
  pose proof (wf_prefix _ _ _ _ Hw Hp ltac:(discriminate)). congruence.
Qed.

(** ** Path lookup *)

Lemma walk_nil fs fo k cur : walk fs fo k cur [] = inr cur.
Proof. by destruct k. Qed.

Lemma walk_cons fs fo k cur c rest :
  c ≠ "." → c ≠ ".." →
  walk fs fo k cur (c :: rest) =
  match fs !! (cur ++ [c]) with
  | None => match rest with [] => inr (cur ++ [c]) | _ => inl ENOENT end
  | Some Dir => walk fs fo k (cur ++ [c]) rest
  | Some (File _) => match rest with [] => inr (cur ++ [c]) | _ => inl ENOTDIR end
  | Some (Symlink t) =>
      match rest, fo with
      | [], false => inr (cur ++ [c])
      | _, _ => match k with
                | O => inl ELOOP
                | S k' => walk fs fo k' (if rooted t then [] else cur) (comps t ++ rest)
                end
      end
  end.
Proof. intros H1 H2. destruct k; cbn [walk]; rewrite !decide_False by done; done. Qed.

Lemma walk_dot fs fo k cur rest : walk fs fo k cur ("." :: rest) = walk fs fo k cur rest.
Proof. by destruct k. Qed.

Lemma walk_dotdot fs fo k cur rest : walk fs fo k cur (".." :: rest) = walk fs fo k (parent cur) rest.
Proof. by destruct k. Qed.

#[global] Opaque walk.

(** Existing directories are walked through. *)
Lemma walk_dirs fs fo k r : ∀ q s,
  wf fs → Forall plain r → fs !! (q ++ r) = Some Dir →
  walk fs fo k q (r ++ s) = walk fs fo k (q ++ r) s.
Proof.
  induction r as [|c r IH]; intros q s Hw Hp Hd; [by rewrite app_nil_r|].
  apply Forall_cons in Hp as [(_ & Hc1 & Hc2 & _) Hp]. simpl. rewrite walk_cons by done.
  assert (Hq : fs !! (q ++ [c]) = Some Dir).
  { rewrite (app_assoc q [c] r : q ++ c :: r = _) in Hd. destruct r as [|d r].
    - by rewrite app_nil_r in Hd.
    - by apply (wf_prefix _ _ _ _ Hw Hd). }
  rewrite Hq, IH; [by rewrite <-app_assoc|done..|by rewrite <-app_assoc].
Qed.

(** With nothing but directories above it, a path leads to itself, or lookup
    reports that a directory is missing. *)
Lemma walk_clear fs fo k r : ∀ q,
  Forall plain r → (∀ r1 r2 n, r = r1 ++ r2 → r2 ≠ [] → r1 ≠ [] → fs !! (q ++ r1) = Some n → n = Dir) →
  (fo = false ∨ ∀ t, fs !! (q ++ r) ≠ Some (Symlink t)) →
  walk fs fo k q r = inr (q ++ r) ∨ (walk fs fo k q r = inl ENOENT ∧ ∃ r1 r2, r = r1 ++ r2 ∧ r2 ≠ [] ∧ fs !! (q ++ r1) = None).
Proof.
  induction r as [|c r IH]; intros q Hp Hc Hl; [left; by rewrite walk_nil, app_nil_r|].
  apply Forall_cons in Hp as [(_ & Hc1 & Hc2 & _) Hp]. rewrite walk_cons by done.
  change (q ++ c :: r) with (q ++ [c] ++ r) in *. rewrite (app_assoc q) in *.
  destruct r as [|d r].
  - rewrite app_nil_r in *. destruct (fs !! (q ++ [c])) as [[|x|t]|] eqn:Hn; auto.
    + left. by rewrite walk_nil.
    + destruct Hl as [->|Hl]; [by left|by destruct (Hl t)].
  - destruct (fs !! (q ++ [c])) as [n|] eqn:Hn.
    + rewrite (Hc [c] (d :: r) n) in Hn |- *; try done.
      destruct (IH (q ++ [c])) as [?|[Hwk (r1 & r2 & Heq & Hr2 & Hnone)]]; auto.
      * intros r1 r2 n' Heq Hr2 Hr1 Hr. apply (Hc (c :: r1) r2 n'); [by rewrite Heq|done..|].
        by rewrite <-app_assoc in Hr.
      * right. split; [done|]. exists (c :: r1), r2. split; [by rewrite Heq|]. split; [done|].
        by rewrite <-app_assoc in Hnone.
    + right. split; [done|]. by exists [c], (d :: r).
Qed.

(** Lookup only ever ends in an existing directory, or at a name in one. *)
Lemma walk_ends fs fo k : ∀ rest cur p,
  wf fs → fs !! cur = Some Dir → walk fs fo k cur rest = inr p →
  fs !! p = Some Dir ∨ fs !! parent p = Some Dir.
Proof.
  induction k as [k IHk] using lt_wf_ind. intros rest.
  induction rest as [|c rest IH]; intros cur p Hw Hc; [rewrite walk_nil; naive_solver|].
  destruct (decide (c = ".")) as [->|H1]; [rewrite walk_dot; by apply IH|].
  destruct (decide (c = "..")) as [->|H2].
  { rewrite walk_dotdot. apply IH; [done|].
    destruct cur as [|d cur _] using rev_ind; [apply Hw|].
    rewrite parent_snoc. by eapply Hw. }
  rewrite walk_cons by done.
  destruct (fs !! (cur ++ [c])) as [[|x|t]|] eqn:Hn; [by apply IH|..].
  - destruct rest; [intros [= <-]; right; by rewrite parent_snoc|done].
  - assert (Hk : match k with O => inl ELOOP | S k' => walk fs fo k' (if rooted t then [] else cur) (comps t ++ rest) end = inr p →
        fs !! p = Some Dir ∨ fs !! parent p = Some Dir).
    { destruct k as [|k]; [done|]. apply IHk; [lia|done|]. destruct (rooted t); [apply Hw|done]. }
    destruct rest; [|done]. destruct fo; [done|]. intros [= <-]. right. by rewrite parent_snoc.
  - destruct rest; [intros [= <-]; right; by rewrite parent_snoc|done].
Qed.

Section lookup.
Context (fs : FS) (Hwf : wf fs).

Lemma locate_abs p fo : Forall plain p → locate fs fo (abs_path p) = walk fs fo 40 [] p.
Proof.
  intros Hp. unfold locate. rewrite decide_False, comps_abs_path by (done || by unfold abs_path, render). done.
Qed.

Lemma locate_parent s fo p : locate fs fo s = inr p → p ≠ [] → fs !! parent p = Some Dir.
Proof.
  unfold locate. case_decide; [done|]. intros Hl Hne. destruct (walk_ends fs fo 40 (comps s) [] p) as [Hd|Hd]; auto.
  - by apply Hwf.
  - destruct p as [|c p _] using rev_ind; [done|]. rewrite parent_snoc. by eapply Hwf.
Qed.

Lemma locate_dir p fo : Forall plain p → fs !! p = Some Dir → locate fs fo (abs_path p) = inr p.
Proof.
  intros Hp Hd. rewrite locate_abs by done.
  rewrite <-(app_nil_r p) at 1. rewrite walk_dirs by done. apply walk_nil.
Qed.

Lemma locate_child p c fo :
  Forall plain (p ++ [c]) → fs !! p = Some Dir →
  (fo = false ∨ ∀ t, fs !! (p ++ [c]) ≠ Some (Symlink t)) →
  locate fs fo (abs_path (p ++ [c])) = inr (p ++ [c]).
Proof.
  intros Hp Hd Hl. rewrite locate_abs by done.
  apply Forall_app in Hp as [Hp Hc]. rewrite walk_dirs by done.
  apply Forall_cons in Hc as [(_ & Hc1 & Hc2 & _) _].
  rewrite app_nil_l, walk_cons by assumption.
  destruct (fs !! (p ++ [c])) as [[|x|t]|] eqn:Hn; rewrite ?walk_nil; try reflexivity.
  destruct Hl as [->|Hl]; [done|by destruct (Hl t)].
Qed.

Lemma locate_node p n fo :
  Forall plain p → fs !! p = Some n → (fo = false ∨ ∀ t, n ≠ Symlink t) →
  locate fs fo (abs_path p) = inr p.
Proof.
  intros Hp Hn Hl. destruct p as [|c p _] using rev_ind.
  - apply locate_dir; [done|]. apply Hwf.
  - apply locate_child; [done|by eapply Hwf|]. destruct Hl as [?|Hl]; [by left|right].
    intros t Ht. apply (Hl t). congruence.
Qed.

Lemma locate_clear p fo :
  Forall plain p → clear fs p → (fo = false ∨ ∀ t, fs !! p ≠ Some (Symlink t)) →
  locate fs fo (abs_path p) = inr p ∨ (locate fs fo (abs_path p) = inl ENOENT ∧ fs !! p = None).
Proof.
  intros Hp Hc Hl. rewrite locate_abs by done.
  destruct (walk_clear fs fo 40 p []) as [?|[H (r1 & r2 & -> & Hr & Hn)]]; auto.
  - intros r1 r2 n -> Hr _ Hn. by apply (Hc r1 r2 n).
  - right. split; [done|]. destruct (fs !! (r1 ++ r2)) eqn:Heq; [|done].
    pose proof (wf_prefix _ _ _ _ Hwf Heq Hr). simpl in *. congruence.
Qed.

(** A link to a directory, given by its clean absolute path, resolves to it. *)
Lemma eval_link p q :
  Forall plain p → Forall plain q → fs !! p = Some (Symlink (abs_path q)) → fs !! q = Some Dir →
  k_eval_symlinks fs (abs_path p) = inr (abs_path q).
Proof.
  intros Hp Hq Hl Hd. unfold k_eval_symlinks. rewrite comps_abs_path by done.
  destruct p as [|c p _] using rev_ind; [by rewrite (proj1 Hwf) in Hl|].
  apply Forall_app in Hp as [Hp Hc]. apply Forall_cons in Hc as [(_ & Hc1 & Hc2 & _) _].
  rewrite (walk_dirs fs true 255 p [] [c]) by (done || by eapply Hwf).
  rewrite app_nil_l, walk_cons by done. rewrite Hl, rooted_abs_path, app_nil_r, comps_abs_path by done.
  rewrite <-(app_nil_r q) at 1. rewrite walk_dirs by done. rewrite walk_nil. simpl. by rewrite Hd.
Qed.

Lemma eval_missing p :
  Forall plain p → clear fs p → fs !! p = None → ∃ e, k_eval_symlinks fs (abs_path p) = inl e.
Proof.
  intros Hp Hc Hn. unfold k_eval_symlinks. rewrite comps_abs_path by done.
  destruct (walk_clear fs true 255 p []) as [H|[H _]]; [done| |right; intros t; simpl; congruence|..].
  - intros r1 r2 n -> Hr _ Hn'. by apply (Hc r1 r2 n).
  - rewrite H. simpl. rewrite Hn. eauto.
  - rewrite H. eauto.
Qed.

Lemma k_stat_clear p :
  Forall plain p → clear fs p → (∀ t, fs !! p ≠ Some (Symlink t)) →
  k_stat fs (abs_path p) = match fs !! p with Some n => inr n | None => inl ENOENT end.
Proof.
  intros Hp Hc Hl. unfold k_stat, at_location.
  destruct (locate_clear p true) as [->|[-> ->]]; auto.
Qed.

Lemma k_lstat_clear p :
  Forall plain p → clear fs p →
  k_lstat fs (abs_path p) = match fs !! p with Some n => inr n | None => inl ENOENT end.
Proof.
  intros Hp Hc. unfold k_lstat, at_location.
  destruct (locate_clear p false) as [->|[-> ->]]; auto.
Qed.

Lemma k_make_child n p c :
  Forall plain (p ++ [c]) → fs !! p = Some Dir → fs !! (p ++ [c]) = None →
  k_make n fs (abs_path (p ++ [c])) = inr (<[p ++ [c] := n]> fs).
Proof. intros Hp Hd Hn. unfold k_make. rewrite locate_child by auto. by rewrite Hn. Qed.

Lemma k_make_exists n m p :
  Forall plain p → fs !! p = Some m → k_make n fs (abs_path p) = inl EEXIST.
Proof. intros Hp Hn. unfold k_make. rewrite (locate_node p m) by auto. by rewrite Hn. Qed.

Lemma k_write_child p c d :
  Forall plain (p ++ [c]) → fs !! p = Some Dir → fs !! (p ++ [c]) ≠ Some Dir →
  (∀ t, fs !! (p ++ [c]) ≠ Some (Symlink t)) →
  k_write fs (abs_path (p ++ [c])) d = inr (<[p ++ [c] := File d]> fs).
Proof.
  intros Hp Hd Hn Hl. unfold k_write. rewrite locate_child by auto.
  by destruct (fs !! (p ++ [c])) as [[]|].
Qed.

Lemma k_append_file p c d e :
  Forall plain (p ++ [c]) → fs !! (p ++ [c]) = Some (File d) →
  k_append fs (abs_path (p ++ [c])) e = inr (<[p ++ [c] := File (d +:+ e)]> fs).
Proof.
  intros Hp Hn. unfold k_append. rewrite (locate_node _ (File d)) by auto. by rewrite Hn.
Qed.

Lemma k_read_file p d :
  Forall plain p → fs !! p = Some (File d) → k_read fs (abs_path p) = inr d.
Proof.
  intros Hp Hn. unfold k_read, k_stat, at_location.
  rewrite (locate_node p (File d)) by auto. by rewrite Hn.
Qed.

Lemma k_remove_link p t :
  Forall plain p → fs !! p = Some (Symlink t) → k_remove fs (abs_path p) = inr (delete p fs).
Proof. intros Hp Hn. unfold k_remove. rewrite (locate_node p (Symlink t)) by auto. by rewrite Hn. Qed.

Lemma k_remove_all_node p n :
  Forall plain p → p ≠ [] → fs !! p = Some n →
  k_remove_all fs (abs_path p) = inr (remove_tree p fs).
Proof.
  intros Hp Hne Hn. unfold k_remove_all. rewrite (locate_node p n) by auto.
  by rewrite decide_False.
Qed.
End lookup.

(** ** Trees after removal and renaming *)

Lemma lookup_remove_tree p fs q :
  remove_tree p fs !! q = if decide (p `prefix_of` q) then None else fs !! q.
Proof.
  unfold remove_tree. rewrite map_lookup_filter. destruct (fs !! q) as [n|]; simpl.
  - case_guard; case_decide; naive_solver.
  - by case_decide.
Qed.

Lemma prefix_drop (p q : path) : p `prefix_of` q → q = p ++ drop (length p) q.
Proof. intros [r ->]. by rewrite drop_app_length. Qed.

Lemma moved_entry_spec po pn k n q m :
  moved_entry po pn (k, n) = Some (q, m) ↔ ∃ r, k = po ++ r ∧ q = pn ++ r ∧ m = n.
Proof.
  unfold moved_entry. simpl. case_decide as Hp.
  - pose proof (prefix_drop _ _ Hp) as Hk. split.
    + intros [= <- <-]. eauto.
    + intros (r & -> & -> & ->). by rewrite drop_app_length.
  - split; [done|]. intros (r & -> & _). destruct Hp. by exists r.
Qed.

Lemma lookup_graft po pn fs q :
  graft po pn fs !! q = if decide (pn `prefix_of` q) then fs !! (po ++ drop (length pn) q) else None.
Proof.
  unfold graft. set (l := omap _ _).
  assert (Hl : ∀ q' m, (q', m) ∈ l ↔ ∃ r, q' = pn ++ r ∧ fs !! (po ++ r) = Some m).
  { intros q' m. unfold l. rewrite list_elem_of_omap. split.
    - intros ([k n] & Hk%elem_of_map_to_list & (r & -> & -> & ->)%moved_entry_spec). eauto.
    - intros (r & -> & Hr). exists (po ++ r, m). split; [by apply elem_of_map_to_list|].
      apply moved_entry_spec. eauto. }
  case_decide as Hq.
  - pose proof (prefix_drop _ _ Hq) as Hd.
    destruct (fs !! (po ++ drop (length pn) q)) as [n|] eqn:Hn.
    + apply elem_of_list_to_map_1'; [|apply Hl; eauto].
      intros y (r & Hr & Hy)%Hl. rewrite Hr, drop_app_length in Hn. congruence.
    + apply not_elem_of_list_to_map. intros ((q' & m) & -> & (r & Hr & Hm)%Hl)%list_elem_of_fmap.
      simpl in *. rewrite Hr, drop_app_length in Hn. congruence.
  - apply not_elem_of_list_to_map. intros ((q' & m) & -> & (r & Hr & _)%Hl)%list_elem_of_fmap.
    simpl in *. destruct Hq. rewrite Hr. by exists r.
Qed.

Lemma lookup_move_tree po pn fs q :
  move_tree po pn fs !! q =
  if decide (pn `prefix_of` q) then fs !! (po ++ drop (length pn) q)
  else if decide (po `prefix_of` q) then None else fs !! q.
Proof.
  unfold move_tree. rewrite lookup_union, !lookup_remove_tree, lookup_graft. case_decide.
  - by rewrite (right_id_L None _).
  - by rewrite (left_id_L None _).
Qed.

Lemma k_rename_free fs po pn c :
  wf fs → Forall plain po → Forall plain (pn ++ [c]) → fs !! po = Some Dir →
  fs !! pn = Some Dir → fs !! (pn ++ [c]) = None → ¬ po `prefix_of` (pn ++ [c]) →
  k_rename fs (abs_path po) (abs_path (pn ++ [c])) = inr (move_tree po (pn ++ [c]) fs).
Proof.
  intros Hw Hpo Hpn Hd Hp Hn Hpre. unfold k_rename.
  rewrite (locate_dir fs Hw po) by done. rewrite Hd.
  rewrite (locate_child fs Hw pn c) by auto. rewrite Hn.
  rewrite decide_False by congruence. by rewrite decide_False.
Qed.

(** ** Well-formed trees stay well-formed *)

Lemma wf_parent fs p n : wf fs → fs !! p = Some n → p ≠ [] → fs !! parent p = Some Dir.
Proof.
  intros Hw Hn Hne. destruct p as [|c p _] using rev_ind; [done|].
  rewrite parent_snoc. by eapply Hw.
Qed.

Lemma wf_insert fs p n :
  wf fs → p ≠ [] → fs !! parent p = Some Dir → (n = Dir ∨ fs !! p ≠ Some Dir) → wf (<[p := n]> fs).
Proof.
  intros [Hr Hw] Hne Hp Hn. split.
  - by rewrite lookup_insert_ne.
  - intros q c m Hq. destruct (decide (p = q)) as [->|Hpq].
    + rewrite lookup_insert_eq. destruct Hn as [->|Hn]; [done|]. destruct Hn.
      apply lookup_insert_Some in Hq as [[Hq _]|[_ Hq]]; [|by eapply Hw].
      exfalso. apply (f_equal length) in Hq. rewrite length_app in Hq. simpl in Hq. lia.
    + rewrite lookup_insert_ne by done.
      apply lookup_insert_Some in Hq as [[-> _]|[_ Hq]]; [by rewrite parent_snoc in Hp|].
      by eapply Hw.
Qed.

Lemma wf_remove_tree fs p : wf fs → p ≠ [] → wf (remove_tree p fs).
Proof.
  intros [Hr Hw] Hne. split.
  - rewrite lookup_remove_tree, decide_False; [done|]. by intros ->%prefix_nil_inv.
  - intros q c n. rewrite !lookup_remove_tree. do 2 case_decide; try done.
    + intros _. destruct H. by apply prefix_app_r.
    + apply Hw.
Qed.

Lemma child_of_spec p k c : child_of p k = Some c ↔ k = p ++ [c].
Proof.
  unfold child_of. case_decide as Hp.
  - pose proof (prefix_drop _ _ Hp) as Hk. split.
    + destruct (drop _ k) as [|d [|? ?]] eqn:Hd; [done| |done]. by intros [= <-].
    + intros ->. by rewrite drop_app_length.
  - split; [done|]. intros ->. destruct Hp. by exists [c].
Qed.

Lemma elem_of_children fs p c : c ∈ children fs p ↔ is_Some (fs !! (p ++ [c])).
Proof.
  unfold children. rewrite list_elem_of_omap. split.
  - intros ([k n] & Hk%elem_of_map_to_list & Hc). simpl in Hc. apply child_of_spec in Hc as ->. eauto.
  - intros [n Hn]. exists (p ++ [c], n). split; [by apply elem_of_map_to_list|]. by apply child_of_spec.
Qed.

Lemma wf_delete fs p :
  wf fs → p ≠ [] → (∀ c, fs !! (p ++ [c]) = None) → wf (delete p fs).
Proof.
  intros [Hr Hw] Hne Hc. split; [by rewrite lookup_delete_ne|].
  intros q c n. rewrite !lookup_delete. do 2 case_decide; try done; [|apply Hw].
  intros Hq. subst. by rewrite Hc in Hq.
Qed.

Lemma wf_leaf fs p n c : wf fs → fs !! p = Some n → n ≠ Dir → fs !! (p ++ [c]) = None.
Proof.
  intros Hw Hn Hd. destruct (fs !! (p ++ [c])) eqn:Hc; [|done].
  apply Hw in Hc. congruence.
Qed.

Lemma prefix_snoc_inv (p q : path) c : p `prefix_of` q ++ [c] → p = q ++ [c] ∨ p `prefix_of` q.
Proof.
  intros [r Hr]. destruct r as [|d r _] using rev_ind.
  - left. by rewrite app_nil_r in Hr.
  - right. rewrite app_assoc in Hr. apply app_inj_tail in Hr as [-> _]. by exists r.
Qed.

Lemma wf_move_tree fs po pn :
  wf fs → pn ≠ [] → fs !! parent pn = Some Dir → ¬ po `prefix_of` pn → wf (move_tree po pn fs).
Proof.
  intros Hw Hne Hp Hpre. split.
  - rewrite lookup_move_tree, decide_False by (by intros ->%prefix_nil_inv).
    rewrite decide_False; [apply Hw|]. intros ->%prefix_nil_inv. destruct Hpre. apply prefix_nil.
  - intros q c n. rewrite !lookup_move_tree.
    destruct (decide (pn `prefix_of` q)) as [Hq|Hq].
    + rewrite decide_True by (by apply prefix_app_r). destruct Hq as [r ->].
      rewrite <-app_assoc, !drop_app_length, app_assoc. apply Hw.
    + destruct (decide (pn `prefix_of` q ++ [c])) as [[->|?]%prefix_snoc_inv|Hqc]; [|done|].
      * intros _. rewrite parent_snoc in Hp. rewrite decide_False; [done|].
        intros ?. destruct Hpre. by apply prefix_app_r.
      * destruct (decide (po `prefix_of` q ++ [c])) as [|Hpo]; [done|].
        rewrite decide_False; [apply Hw|]. intros ?. destruct Hpo. by apply prefix_app_r.
Qed.

(** ** Names and listings *)

(** Every name in the tree is a file name. *)
Definition names_ok (fs : FS) : Prop := ∀ p n, fs !! p = Some n → Forall plain p.

(** [fs'] is [fs] with some nodes removed. *)
Definition pruned (fs fs' : FS) : Prop := ∀ q n, fs' !! q = Some n → fs !! q = Some n.

#[export] Instance pruned_preorder : PreOrder pruned.
Proof. split; [by intros fs q n|]. intros f1 f2 f3 H1 H2 q n Hq. by apply H1, H2. Qed.

Lemma names_ok_pruned fs fs' : pruned fs fs' → names_ok fs → names_ok fs'.
Proof. intros Hp Hn p n H. by eapply Hn, Hp. Qed.

Lemma readdir_name fs s l name n :
  k_readdir fs s = inr l → (name, n) ∈ l → ∃ p, locate fs true s = inr p ∧ fs !! (p ++ [name]) = Some n.
Proof.
  unfold k_readdir. destruct (locate fs true s) as [e|p]; [done|].
  destruct (fs !! p) as [[| |]|]; try done. intros [= <-].
  intros (c & _ & Hc)%list_elem_of_omap. destruct (fs !! (p ++ [c])) as [m|] eqn:Hm; [|done].
  injection Hc as <- <-. eauto.
Qed.

Lemma readdir_complete fs s l p name n :
  k_readdir fs s = inr l → locate fs true s = inr p → fs !! (p ++ [name]) = Some n → (name, n) ∈ l.
Proof.
  unfold k_readdir. intros H Hp Hn. rewrite Hp in H. destruct (fs !! p) as [[| |]|]; try done.
  injection H as <-. apply list_elem_of_omap. exists name. split.
  - rewrite sort_strings_perm. apply elem_of_children. eauto.
  - by rewrite Hn.
Qed.

Lemma readdir_plain fs s l name n : names_ok fs → k_readdir fs s = inr l → (name, n) ∈ l → plain name.
Proof.
  intros Hn Hl Hin. destruct (readdir_name fs s l name n Hl Hin) as (p & _ & Hp).
  apply Hn, Forall_app in Hp as [_ Hp]. by apply Forall_cons in Hp as [? _].
Qed.

Lemma names_ok_insert fs p n : Forall plain p → names_ok fs → names_ok (<[p := n]> fs).
Proof. intros Hp Hn q m [[<- _]|[_ Hq]]%lookup_insert_Some; [done|by eapply Hn]. Qed.
