(* ===== verification/Logic.v ===== *)
(** Program logic for the state monad over [World]: Hoare triples on the file
    system, and the components of the state that a computation leaves alone. *)
From S2P Require Import Prelude GoStrings Paths World FSFacts.

Open Scope list_scope.

(** ** Triples whose assertions are about the file system *)

Definition triple {A : Type} (P : FS → Prop) (m : M World A) (Q : A → FS → Prop) : Prop :=
  ∀ w, P (w_fs w) → Q (m w).1 (w_fs (m w).2).

Section triples.
Context {E : Env}.

Lemma triple_ret {A : Type} (a : A) (P : FS → Prop) (Q : A → FS → Prop) :
  (∀ fs, P fs → Q a fs) → triple P (mret a) Q.
Proof. intros H w HP. by apply H. Qed.

Lemma triple_bind {A B : Type} P (m : M World A) R (k : A → M World B) Q :
  triple P m R → (∀ a, triple (R a) (k a) Q) → triple P (m ≫= k) Q.
Proof.
  intros Hm Hk w HP. rewrite bind_run. apply Hk, Hm, HP.
Qed.

Lemma triple_weaken {A : Type} (P P' : FS → Prop) (m : M World A) (Q Q' : A → FS → Prop) :
  triple P' m Q' → (∀ fs, P fs → P' fs) → (∀ a fs, Q' a fs → Q a fs) → triple P m Q.
Proof. intros Hm HP HQ w Hw. by apply HQ, Hm, HP. Qed.

(** A computation keeps what it is given to carry along. *)
Lemma triple_pre {A : Type} (P : FS → Prop) (m : M World A) Q :
  (∀ w0, P (w_fs w0) → triple (λ fs, fs = w_fs w0) m Q) → triple P m Q.
Proof. intros H w HP. by apply (H w HP). Qed.

Lemma triple_at {A : Type} (P : FS → Prop) fs0 (m : M World A) Q :
  P fs0 → triple P m Q → triple (λ fs, fs = fs0) m Q.
Proof. intros HP Hm w Hw. apply Hm. cbv beta in Hw. by rewrite Hw. Qed.

Lemma triple_andM {X : Type} P (m k : M World (option X)) R Q :
  triple P m R → (∀ e fs, R (Some e) fs → Q (Some e) fs) → triple (R None) k Q →
  triple P (m ;? k) Q.
Proof.
  intros Hm Hs Hk. apply (triple_bind P m R); [done|]. intros [e|]; [|done].
  apply triple_ret. eauto.
Qed.

Lemma triple_bindR {X A B : Type} P (m : M World (result X A)) (k : A → M World (result X B)) R Q :
  triple P m R → (∀ e fs, R (Err e) fs → Q (Err e) fs) → (∀ a, triple (R (Ok a)) (k a) Q) →
  triple P (bindR m k) Q.
Proof.
  intros Hm Hs Hk. apply (triple_bind P m R); [done|]. intros [a|e]; [done|].
  apply triple_ret. eauto.
Qed.

Lemma triple_wrapM {X : Type} P (f : X → X) (m : M World (option X)) R Q :
  triple P m R → (∀ e fs, R e fs → Q (f <$> e) fs) → triple P (wrapM f m) Q.
Proof. intros Hm HQ. apply (triple_bind P m R); [done|]. intros e. apply triple_ret. eauto. Qed.

Lemma triple_forM {X A : Type} (I : FS → Prop) (f : A → M World (option X)) l :
  (∀ x, x ∈ l → triple I (f x) (λ _ fs, I fs)) → triple I (forM f l) (λ _ fs, I fs).
Proof.
  induction l as [|x l IH]; intros Hf; simpl.
  - by apply triple_ret.
  - eapply triple_andM.
    + apply Hf. by left.
    + done.
    + apply IH. intros y Hy. apply Hf. by right.
Qed.

(** System calls: an error leaves the file system as it was, and is either a
    fault or the one the state determines. *)
Definition may_fail {A : Type} (r : errno + A) (e : errno) : Prop := r = inl e ∨ ∃ x, e = Fault x.

Lemma triple_syscall {A : Type} (wrap : errno → goerr) (f : FS → errno + (A * FS)) (P : FS → Prop) (Q : gores A → FS → Prop) :
  (∀ fs e, P fs → may_fail (f fs) e → Q (Err (wrap e)) fs) →
  (∀ fs a fs', P fs → f fs = inr (a, fs') → Q (Ok a) fs') →
  triple P (syscall wrap f) Q.
Proof.
  intros He Ho w HP. unfold syscall. destruct (env_fault (w_step w)) as [x|].
  - apply He; [done|]. right. by exists x.
  - destruct (f (w_fs w)) as [e|[a fs']] eqn:Hf; simpl.
    + apply He; [done|]. by left.
    + by eapply Ho.
Qed.

Lemma triple_read {A : Type} (op s : string) (f : FS → errno + A) (P : FS → Prop) (Q : gores A → FS → Prop) :
  (∀ fs e, P fs → may_fail (f fs) e → Q (Err (PathError op s e)) fs) →
  (∀ fs a, P fs → f fs = inr a → Q (Ok a) fs) →
  triple P (sys_read op s f) Q.
Proof.
  intros He Ho. apply triple_syscall.
  - intros fs e HP [Hf|Hx]; apply He; auto; [left|by right].
    destruct (f fs); [congruence|done].
  - intros fs a fs' HP Hf. destruct (f fs) eqn:Hfs; [done|]. injection Hf as -> ->. eauto.
Qed.

Lemma triple_write (wrap : errno → goerr) (f : FS → errno + FS) (P : FS → Prop) (Q : error → FS → Prop) :
  (∀ fs e, P fs → may_fail (f fs) e → Q (Some (wrap e)) fs) →
  (∀ fs fs', P fs → f fs = inr fs' → Q None fs') →
  triple P (sys_write wrap f) Q.
Proof.
  intros He Ho. eapply triple_bind.
  - apply (triple_syscall _ _ P (λ r fs, Q (err_of r) fs)).
    + intros fs e HP [Hf|Hx]; apply He; auto; [left|by right].
      destruct (f fs); [congruence|done].
    + intros fs [] fs' HP Hf. destruct (f fs) eqn:Hfs; [done|]. injection Hf as ->. eauto.
  - intros r. by apply triple_ret.
Qed.

(** Computations that do not touch the file system. *)
Lemma triple_pure {A : Type} (m : M World A) (P : FS → Prop) :
  (∀ w, w_fs (m w).2 = w_fs w) → triple P m (λ _ fs, P fs).
Proof. intros H w HP. by rewrite H. Qed.

End triples.

(** ** What a computation leaves alone *)

(** [m] only relates states by the preorder [R]. *)
Class Pres {A : Type} (R : World → World → Prop) (m : M World A) : Prop := pres : ∀ w, R w (m w).2.

(** The component [f] of the state is left as it was. *)
Definition same {X : Type} (f : World → X) (w w' : World) : Prop := f w' = f w.

Abbreviation Keeps f m := (Pres (same f) m).

(** An assertion about the state goes on holding. *)
Definition keeps_true (I : World → Prop) (w w' : World) : Prop := I w → I w'.

#[export] Instance same_preorder {X : Type} (f : World → X) : PreOrder (same f).
Proof. split; [by intros w|]. intros w1 w2 w3. unfold same. congruence. Qed.

#[export] Instance keeps_true_preorder I : PreOrder (keeps_true I).
Proof. split; unfold keeps_true; [by intros w|by eauto]. Qed.

Section pres.
Context {E : Env} (R : World → World → Prop) `{!PreOrder R}.

#[export] Instance pres_ret {A : Type} (a : A) : Pres R (mret a).
Proof. intros w. done. Qed.

#[export] Instance pres_bind {A B : Type} (m : M World A) (k : A → M World B) :
  Pres R m → (∀ a, Pres R (k a)) → Pres R (m ≫= k).
Proof. intros Hm Hk w. rewrite bind_run. etrans; [apply Hm|apply Hk]. Qed.

#[export] Instance pres_gets {A : Type} (g : World → A) : Pres R (gets g).
Proof. intros w. done. Qed.

#[export] Instance pres_andM {Y : Type} (m k : M World (option Y)) :
  Pres R m → Pres R k → Pres R (m ;? k).
Proof. intros Hm Hk. apply pres_bind; [done|]. by intros [|]; [apply pres_ret|]. Qed.

#[export] Instance pres_bindR {Y A B : Type} (m : M World (result Y A)) (k : A → M World (result Y B)) :
  Pres R m → (∀ a, Pres R (k a)) → Pres R (bindR m k).
Proof. intros Hm Hk. apply pres_bind; [done|]. intros [a|e]; [apply Hk|apply pres_ret]. Qed.

#[export] Instance pres_wrapM {Y : Type} (g : Y → Y) (m : M World (option Y)) :
  Pres R m → Pres R (wrapM g m).
Proof. intros Hm. apply pres_bind; [done|]. intros e. apply pres_ret. Qed.

#[export] Instance pres_forM {Y A : Type} (g : A → M World (option Y)) l :
  (∀ x, Pres R (g x)) → Pres R (forM g l).
Proof. intros Hg. induction l as [|x l IH]; simpl; [apply pres_ret|]. by apply pres_andM. Qed.
End pres.

(** Goes through a computation, one case at a time. *)
Ltac solve_pres :=
  repeat first
    [ progress intros
    | solve [apply _]
    | match goal with
      | |- Pres _ (if ?b then _ else _) => destruct b
      | |- Pres _ (match ?x with _ => _ end) => destruct x
      | |- Pres _ (let '_ := ?x in _) => destruct x
      end
    | apply pres_bind; [solve [apply _]| |]
    | apply pres_andM; [solve [apply _]| |]
    | apply pres_bindR; [solve [apply _]| |]
    | apply pres_wrapM; [solve [apply _]|]
    | apply pres_forM; [solve [apply _]|]
    | progress cbv zeta ].

(** The components of the state that system calls never change. *)
Definition w_rest (w : World) : gmap string bool * gmap string bool * bool * option (list metric_call) :=
  (w_jobs w, w_locks w, w_stuck w, w_metrics w).

Section keeps_calls.
Context {E : Env}.

#[export] Instance keeps_syscall {A : Type} (wrap : errno → goerr) (g : FS → errno + (A * FS)) : Keeps w_rest (syscall wrap g).
Proof.
  intros w. unfold syscall. destruct (env_fault _); [done|].
  by destruct (g (w_fs w)) as [|[]].
Qed.

#[export] Instance keeps_read {A : Type} (op s : string) (g : FS → errno + A) : Keeps w_rest (sys_read op s g).
Proof. apply keeps_syscall. Qed.

#[export] Instance keeps_write (wrap : errno → goerr) (g : FS → errno + FS) : Keeps w_rest (sys_write wrap g).
Proof. apply _. Qed.

#[export] Instance keeps_Now : Keeps w_rest Now.
Proof. done. Qed.
#[export] Instance keeps_Range m : Keeps w_rest (Range m).
Proof. done. Qed.
#[export] Instance keeps_Sleep : Keeps w_rest Sleep.
Proof. done. Qed.
#[export] Instance keeps_RandRead : Keeps w_rest RandRead.
Proof. done. Qed.
#[export] Instance keeps_RunCmd args : Keeps w_rest (RunCmd args).
Proof. intros w. unfold RunCmd. by destruct (env_cmd _ _ _) as [[]]. Qed.
End keeps_calls.

(** Relations that hold whenever [w_rest] is kept. *)
Lemma pres_of_rest {A : Type} (R : World → World → Prop) (m : M World A) :
  (∀ w w', w_rest w' = w_rest w → R w w') → Keeps w_rest m → Pres R m.
Proof. intros HR Hm w. apply HR, Hm. Qed.

#[export] Instance keeps_jobs {A : Type} (m : M World A) : Keeps w_rest m → Keeps w_jobs m.
Proof. apply pres_of_rest. intros w w' H. by injection H. Qed.
