(* ===== verification/Types.v ===== *)
(** pkg/types: the data shared by the server and the client, and the interface of
    [encoding/json] that the server uses on it. *)
From S2P Require Import Prelude GoStrings World.

Open Scope string_scope.
Open Scope list_scope.
#[local] Open Scope Z_scope.

(** [types.Params]. *)
Abbreviation Params := (gmap string string).

Definition ContainerPendingExitCode : Z := -999.
Definition ContainerSuccessExitCode : Z := 0.

(** The two values of the string type [types.TransportMethod]. *)
Definition Rsync := "rsync".
Definition Scp := "scp".

(** [types.BuildInfo]; times and durations are in nanoseconds. *)
Record BuildInfo := mkBuildInfo {
  bi_Params : Params;
  bi_Group : string;
  bi_Path : string;
  bi_Cached : bool;
  bi_Coalesced : bool;
  bi_Incremental : bool;
  bi_ExitCode : Z;
  bi_ErrBuild : string;
  bi_ContainerStdouterr : string;
  bi_ContainerStderr : string;
  bi_TransportMethod : string;
  bi_StartedAt : Z;
  bi_Duration : Z;
  bi_URL : string;
}.

(** [types.JobRequest]. *)
Record JobRequest := mkJobRequest {
  jr_Project : string;
  jr_Params : Params;
  jr_Group : string;
  jr_Rebuild : bool;
}.

(** [types.NewBuildInfo], given the current time. *)
Definition NewBuildInfo (now : Z) : BuildInfo :=
  {| bi_Params := ∅; bi_Group := ""; bi_Path := ""; bi_Cached := false;
     bi_Coalesced := false; bi_Incremental := false;
     bi_ExitCode := ContainerPendingExitCode; bi_ErrBuild := "";
     bi_ContainerStdouterr := ""; bi_ContainerStderr := ""; bi_TransportMethod := "";
     bi_StartedAt := now; bi_Duration := -1 * 1000000000; bi_URL := "" |}.

(** Assignments to the fields of a [BuildInfo]. *)
Definition set_Cached (b : bool) (i : BuildInfo) : BuildInfo :=
  mkBuildInfo (bi_Params i) (bi_Group i) (bi_Path i) b (bi_Coalesced i) (bi_Incremental i)
    (bi_ExitCode i) (bi_ErrBuild i) (bi_ContainerStdouterr i) (bi_ContainerStderr i)
    (bi_TransportMethod i) (bi_StartedAt i) (bi_Duration i) (bi_URL i).
Definition set_Coalesced (b : bool) (i : BuildInfo) : BuildInfo :=
  mkBuildInfo (bi_Params i) (bi_Group i) (bi_Path i) (bi_Cached i) b (bi_Incremental i)
    (bi_ExitCode i) (bi_ErrBuild i) (bi_ContainerStdouterr i) (bi_ContainerStderr i)
    (bi_TransportMethod i) (bi_StartedAt i) (bi_Duration i) (bi_URL i).
Definition set_Incremental (b : bool) (i : BuildInfo) : BuildInfo :=
  mkBuildInfo (bi_Params i) (bi_Group i) (bi_Path i) (bi_Cached i) (bi_Coalesced i) b
    (bi_ExitCode i) (bi_ErrBuild i) (bi_ContainerStdouterr i) (bi_ContainerStderr i)
    (bi_TransportMethod i) (bi_StartedAt i) (bi_Duration i) (bi_URL i).
Definition set_ExitCode (c : Z) (i : BuildInfo) : BuildInfo :=
  mkBuildInfo (bi_Params i) (bi_Group i) (bi_Path i) (bi_Cached i) (bi_Coalesced i)
    (bi_Incremental i) c (bi_ErrBuild i) (bi_ContainerStdouterr i) (bi_ContainerStderr i)
    (bi_TransportMethod i) (bi_StartedAt i) (bi_Duration i) (bi_URL i).
Definition set_ErrBuild (e : string) (i : BuildInfo) : BuildInfo :=
  mkBuildInfo (bi_Params i) (bi_Group i) (bi_Path i) (bi_Cached i) (bi_Coalesced i)
    (bi_Incremental i) (bi_ExitCode i) e (bi_ContainerStdouterr i) (bi_ContainerStderr i)
    (bi_TransportMethod i) (bi_StartedAt i) (bi_Duration i) (bi_URL i).
Definition set_ContainerLogs (outerr err : string) (i : BuildInfo) : BuildInfo :=
  mkBuildInfo (bi_Params i) (bi_Group i) (bi_Path i) (bi_Cached i) (bi_Coalesced i)
    (bi_Incremental i) (bi_ExitCode i) (bi_ErrBuild i) outerr err
    (bi_TransportMethod i) (bi_StartedAt i) (bi_Duration i) (bi_URL i).
Definition set_Duration (d : Z) (i : BuildInfo) : BuildInfo :=
  mkBuildInfo (bi_Params i) (bi_Group i) (bi_Path i) (bi_Cached i) (bi_Coalesced i)
    (bi_Incremental i) (bi_ExitCode i) (bi_ErrBuild i) (bi_ContainerStdouterr i)
    (bi_ContainerStderr i) (bi_TransportMethod i) (bi_StartedAt i) d (bi_URL i).

#[export] Instance BuildInfo_eq_dec : EqDecision BuildInfo.
Proof. solve_decision. Defined.

(** Signed 64-bit arithmetic. *)
Definition int64_min : Z := - 2 ^ 63.
Definition int64_max : Z := 2 ^ 63 - 1.
Definition wrap64 (z : Z) : Z := (z + 2 ^ 63) mod 2 ^ 64 - 2 ^ 63.

(** [time.Time.Sub] saturates; [Duration.Truncate(m)] rounds toward zero to a
    multiple of [m]. *)
Definition time_sub (t u : Z) : Z := Z.max int64_min (Z.min int64_max (t - u)).
Definition duration_truncate (d m : Z) : Z := if m <=? 0 then d else d - Z.rem d m.
Definition Millisecond : Z := 1000000.
Definition Second : Z := 1000000000.

(** [encoding/json] on a [BuildInfo].  [Unmarshal] writes over the value it is
    given.  The law is that decoding an encoding over the value of [NewBuildInfo]
    gives the encoded value back, for the values [persistBuildInfo] encodes: the
    two fields tagged omitempty are empty, and [good] tells that the strings are
    valid UTF-8, which the encoder would otherwise replace. *)
Class JSON := {
  json_good : BuildInfo → Prop;
  json_marshal : BuildInfo → gores string;
  json_unmarshal : string → BuildInfo → gores BuildInfo;
  json_exit_code : ∀ bi s now bi',
    json_marshal bi = Ok s → json_unmarshal s (NewBuildInfo now) = Ok bi' →
    bi_ExitCode bi' = bi_ExitCode bi;
  json_roundtrip : ∀ bi now,
    json_good bi → bi_ContainerStdouterr bi = "" → bi_ContainerStderr bi = "" →
    ∃ s, json_marshal bi = Ok s ∧ json_unmarshal s (NewBuildInfo now) = Ok bi;
}.
