(* ===== verification/Filesystem.v ===== *)
(** pkg/utils and pkg/filesystem: directory helpers, the project archive, the
    [FileSystem] interface with its laws, and its two implementations. *)
From S2P Require Import Prelude GoStrings Paths World FSFacts Logic.

Open Scope string_scope.
Open Scope list_scope.

(** What [archive/tar]'s writer makes of a file, given its path, its name in the
    archive and its bytes (its header comes from the file's metadata, which are
    not modelled and are taken to go with the path), and the archive's end. *)
Class TarFormat := {
  tar_entry : string → string → string → string;
  tar_close : string;
}.

Section utils.
Context {E : Env}.

(** [utils.PathIsDir]. *)
Definition PathIsDir (p : string) : M World error :=
  fi ← Stat p;
  match fi with
  | Err e => mret (Some e)
  | Ok n => if is_dir n then mret None
            else mret (Some (ErrString ("Path " +:+ p +:+ " is not a directory")))
  end.

(** [utils.EnsureDirExists]. *)
Definition EnsureDirExists (path : string) : M World error :=
  fi ← Stat path;
  match fi with
  | Ok n => if is_dir n then mret None
            else mret (Some (ErrString (path +:+ " is not a directory")))
  | Err e => if IsNotExist e then Mkdir path else mret (Some e)
  end.

Context {T : TarFormat}.

(** The [walkFn] of [utils.Tar] on a regular file: it is read and added, under its
    name relative to the root. *)
Definition tar_file (path rel : string) : M World (gores string) :=
  data ←? ReadFile path;
  mret (Ok (tar_entry path rel data)).

(** The loop of [filepath.Walk] over the names in a directory. *)
Fixpoint tar_entries (walk : string → string → node → M World (gores string)) (path rel : string)
    (names : list (string * node)) : M World (gores string) :=
  match names with
  | [] => mret (Ok "")
  | (name, _) :: names =>
      let filename := Join [path; name] in
      info ←? Lstat filename;
      a ←? walk filename (Join [rel; name]) info;
      b ←? tar_entries walk path rel names;
      mret (Ok (a +:+ b))
  end.

(** [filepath.Walk] with that function: nodes that are neither a directory nor a
    regular file are skipped.  [fuel] bounds the depth. *)
Fixpoint tar_walk (fuel : nat) (path rel : string) (n : node) : M World (gores string) :=
  match n with
  | Symlink _ => mret (Ok "")
  | File _ => tar_file path rel
  | Dir =>
      match fuel with
      | O => mret (Err (ErrString "walk: out of fuel"))
      | S fuel' =>
          names ←? ReadDir path;
          tar_entries (tar_walk fuel') path rel names
      end
  end.

(** [utils.Tar]. *)
Definition Tar (root : string) : M World (gores string) :=
  info ←? Lstat root;
  fuel ← gets (λ w, size (w_fs w));
  a ←? tar_walk fuel root "." info;
  mret (Ok (a +:+ tar_close)).

End utils.

(** The interface [filesystem.FileSystem]. *)
Record FileSystem := mkFileSystem {
  fs_Create : string → M World error;
  fs_Clone : string → string → M World error;
  fs_Remove : string → M World error;
}.

(** [filesystem.Get], on the registry the packages' [init] functions filled. *)
Definition FSGet (Registry : gmap string FileSystem) (s : string) : gores FileSystem :=
  match Registry !! s with
  | None => Err (ErrString ("unknown filesystem '" +:+ s +:+ "'"))
  | Some fs => Ok fs
  end.

(** ** The contract of the interface *)

(** What a copy may leave at a place: the same kind of node. *)
Definition same_kind (n m : node) : Prop :=
  match n, m with
  | Dir, Dir | File _, File _ => True
  | Symlink t, Symlink u => t = u
  | _, _ => False
  end.

(** Creating directory [p]: it was free, and nothing else changes; on an error
    something may be left at [p], but no link. *)
Definition creates (p : path) (fs : FS) (e : error) (fs' : FS) : Prop :=
  match e with
  | None => fs !! p = None ∧ fs !! parent p = Some Dir ∧ fs' = <[p := Dir]> fs
  | Some _ => fs' = fs
  end.

(** Cloning [src] to [dst].  An existing directory [dst] receives the copy under
    the name of [src]; a copy that failed may be partial. *)
Definition clones (src dst : path) (fs : FS) (e : error) (fs' : FS) : Prop :=
  wf fs' ∧
  match fs !! dst with
  | None =>
      same_outside dst fs fs' ∧
      (∀ r n, fs' !! (dst ++ r) = Some n → ∃ m, fs !! (src ++ r) = Some m ∧ same_kind n m) ∧
      (e = None → ∀ r, fs' !! (dst ++ r) = fs !! (src ++ r))
  | Some _ => same_outside (dst ++ [default "" (last src)]) fs fs'
  end.

(** Removing [p] and what is below it; a failed removal may be partial. *)
Definition removes (p : path) (fs : FS) (fs' : FS) : Prop :=
  wf fs' ∧ same_outside p fs fs' ∧ ∀ q n, fs' !! q = Some n → fs !! q = Some n.

(** The laws that the server relies on, for paths with no links above them. *)
Class FileSystemSpec {E : Env} (f : FileSystem) : Prop := {
  create_rest p : Keeps w_rest (fs_Create f p);
  clone_rest src dst : Keeps w_rest (fs_Clone f src dst);
  remove_rest p : Keeps w_rest (fs_Remove f p);
  create_spec p fs0 :
    wf fs0 → Forall plain p → p ≠ [] → clear fs0 p →
    triple (λ fs, fs = fs0) (fs_Create f (abs_path p)) (λ e fs, creates p fs0 e fs);
  clone_spec src dst fs0 :
    wf fs0 → Forall plain src → Forall plain dst → dst ≠ [] → clear fs0 dst →
    fs0 !! src = Some Dir → ¬ src `prefix_of` dst →
    triple (λ fs, fs = fs0) (fs_Clone f (abs_path src) (abs_path dst)) (λ e fs, clones src dst fs0 e fs);
  remove_spec p fs0 :
    wf fs0 → Forall plain p → p ≠ [] → clear fs0 p →
    triple (λ fs, fs = fs0) (fs_Remove f (abs_path p)) (λ _ fs, removes p fs0 fs);
}.
#[export] Existing Instances create_rest clone_rest remove_rest.

(** What the manuals of cp(1) and btrfs-subvolume(8) say of the commands run. *)
Class CpSpec {E : Env} : Prop := {
  cp_clones n src dst fs out e fs' :
    wf fs → Forall plain src → Forall plain dst → clear fs dst → fs !! src = Some Dir →
    ¬ src `prefix_of` dst →
    env_cmd n ["cp"; "-r"; abs_path src; abs_path dst] fs = (out, e, fs') → clones src dst fs e fs';
}.

Class BtrfsSpec {E : Env} : Prop := {
  btrfs_creates n p fs out e fs' :
    wf fs → Forall plain p → clear fs p →
    env_cmd n ["btrfs"; "subvolume"; "create"; abs_path p] fs = (out, e, fs') → creates p fs e fs';
  btrfs_clones n src dst fs out e fs' :
    wf fs → Forall plain src → Forall plain dst → clear fs dst → fs !! src = Some Dir →
    ¬ src `prefix_of` dst →
    env_cmd n ["btrfs"; "subvolume"; "snapshot"; abs_path src; abs_path dst] fs = (out, e, fs') →
    clones src dst fs e fs';
  btrfs_removes n p fs out e fs' :
    wf fs → Forall plain p → clear fs p →
    env_cmd n ["btrfs"; "subvolume"; "delete"; abs_path p] fs = (out, e, fs') → removes p fs fs';
}.

Section implementations.
Context {E : Env}.

(** Package plainfs. *)
Definition PlainFS_Create (path : string) : M World error := Mkdir path.
Definition PlainFS_Clone (src dst : string) : M World error :=
  r ← RunCmd ["cp"; "-r"; src; dst];
  match r with
  | (out, Some e) => mret (Some (ErrString (Error e +:+ " (" +:+ out +:+ ")")))
  | (_, None) => mret None
  end.
Definition PlainFS_Remove (path : string) : M World error := RemoveAll path.
Definition PlainFS : FileSystem := mkFileSystem PlainFS_Create PlainFS_Clone PlainFS_Remove.

(** Package btrfs. *)
Definition btrfs_runCmd (args : list string) : M World error :=
  r ← RunCmd args;
  match r with
  | (out, Some e) => mret (Some (ErrString (Error e +:+ " (" +:+ out +:+ ")")))
  | (_, None) => mret None
  end.
Definition Btrfs_Create (path : string) : M World error :=
  btrfs_runCmd ["btrfs"; "subvolume"; "create"; path].
Definition Btrfs_Clone (src dst : string) : M World error :=
  btrfs_runCmd ["btrfs"; "subvolume"; "snapshot"; src; dst].
Definition Btrfs_Remove (path : string) : M World error :=
  r ← Stat path;
  match r with
  | Ok _ => btrfs_runCmd ["btrfs"; "subvolume"; "delete"; path]
  | Err _ => mret None
  end.
Definition Btrfs : FileSystem := mkFileSystem Btrfs_Create Btrfs_Clone Btrfs_Remove.

(** [filesystem.Registry] after both packages are initialised. *)
Definition Registry : gmap string FileSystem := <["plain" := PlainFS]> (<["btrfs" := Btrfs]> ∅).

End implementations.

(** ** The implementations keep the contract *)

Section contract.
Context {E : Env}.

Lemma removes_refl p fs : wf fs → removes p fs fs.
Proof. intros H. by split_and!. Qed.

Lemma removes_remove_tree p fs : wf fs → p ≠ [] → removes p fs (remove_tree p fs).
Proof.
  intros Hw Hne. split_and!.
  - by apply wf_remove_tree.
  - intros q Hq. by rewrite lookup_remove_tree, decide_False.
  - intros q n. rewrite lookup_remove_tree. by case_decide.
Qed.

(** A command that reports to [fmt.Errorf] does what the command does. *)
Lemma triple_run args (Q : error → FS → Prop) fs0 :
  (∀ n out e fs', env_cmd n args fs0 = (out, e, fs') → ∀ e', (e = None ↔ e' = None) → Q e' fs') →
  triple (λ fs, fs = fs0)
    (r ← RunCmd args; match r with
                      | (out, Some e) => mret (Some (ErrString (Error e +:+ " (" +:+ out +:+ ")")))
                      | (_, None) => mret None
                      end) Q.
Proof.
  intros HQ w Hw. cbv beta in Hw. subst fs0. rewrite bind_run. unfold RunCmd.
  destruct (env_cmd (w_step w) args (w_fs w)) as [[out e] fs'] eqn:Hc. simpl.
  destruct e as [e|]; simpl; by eapply HQ.
Qed.

Lemma clones_err src dst fs e e' fs' :
  (e = None ↔ e' = None) → clones src dst fs e fs' → clones src dst fs e' fs'.
Proof. intros He [Hw Hc]. split; [done|]. destruct (fs !! dst); [done|]. by rewrite <-He. Qed.

Lemma creates_err p fs e e' fs' : (e = None ↔ e' = None) → creates p fs e fs' → creates p fs e' fs'.
Proof. unfold creates. destruct e, e'; intros [H1 H2]; [done|by discriminate H2|by discriminate H1|done]. Qed.

Lemma Mkdir_creates p fs0 :
  wf fs0 → Forall plain p → p ≠ [] → clear fs0 p →
  triple (λ fs, fs = fs0) (Mkdir (abs_path p)) (λ e fs, creates p fs0 e fs).
Proof.
  intros Hw Hp Hne Hc. apply triple_write; [by intros fs e -> _|].
  intros fs fs' -> Hk. unfold k_make in Hk.
  destruct (locate_clear fs0 Hw p false) as [Hl|[Hl Hn]]; auto; rewrite Hl in Hk; [|done].
  destruct (fs0 !! p) eqn:Hn; [done|]. injection Hk as <-. split_and!; try done.
  by apply (locate_parent fs0 Hw (abs_path p) false p).
Qed.

#[export] Instance PlainFS_spec `{!CpSpec} : FileSystemSpec PlainFS.
Proof.
  split; try (intros; apply _).
  - intros src dst. apply pres_bind; [apply _..|]. intros [out [e|]]; apply _.
  - apply Mkdir_creates.
  - intros src dst fs0 Hw Hs Hd Hne Hc Hsrc Hpre. apply triple_run.
    intros n out e fs' Hcmd e' He. eapply clones_err; [done|]. by eapply cp_clones.
  - intros p fs0 Hw Hp Hne Hc. apply triple_write.
    + intros fs e -> _. by apply removes_refl.
    + intros fs fs' -> Hk. unfold k_remove_all in Hk.
      destruct (locate_clear fs0 Hw p false) as [Hl|[Hl _]]; auto; rewrite Hl in Hk.
      * rewrite decide_False in Hk by done. injection Hk as <-. by apply removes_remove_tree.
      * injection Hk as <-. by apply removes_refl.
Qed.

#[export] Instance Btrfs_spec `{!BtrfsSpec} : FileSystemSpec Btrfs.
Proof.
  assert (Hk : ∀ args, Keeps w_rest (btrfs_runCmd args)).
  { intros args. apply pres_bind; [apply _..|]. intros [out [e|]]; apply _. }
  split; try (intros; apply Hk).
  - intros p. apply pres_bind; [apply _..|]. intros [n|e]; [apply Hk|apply _].
  - intros p fs0 Hw Hp Hne Hc. apply triple_run. intros n out e fs' Hcmd e' He.
    eapply creates_err; [done|]. by eapply btrfs_creates.
  - intros src dst fs0 Hw Hs Hd Hne Hc Hsrc Hpre. apply triple_run.
    intros n out e fs' Hcmd e' He. eapply clones_err; [done|]. by eapply btrfs_clones.
  - intros p fs0 Hw Hp Hne Hc. eapply triple_bind.
    + apply (triple_read _ _ _ _ (λ _ fs, fs = fs0)); [by intros ?? -> _|by intros ?? -> _].
    + intros [n|e]; [|apply triple_ret; intros fs ->; by apply removes_refl].
      apply triple_run. intros m out e fs' Hcmd e' He. by eapply btrfs_removes.
Qed.
End contract.
