(* ===== verification/Quiet.v ===== *)
(** Runs in which no fault strikes: system calls fail only when the state says
    so, which gives triples that rule errors out. *)
From S2P Require Import Prelude GoStrings Paths World FSFacts Logic Types Filesystem.

Open Scope string_scope.
Open Scope list_scope.

(** No system call is struck by a fault. *)
Definition quiet (E : Env) : Prop := ∀ n, env_fault n = None.

Section quiet.
Context {E : Env} (Hq : quiet E).

Lemma syscall_quiet {A : Type} wrap (f : FS → errno + (A * FS)) w :
  syscall wrap f w =
  match f (w_fs w) with
  | inl e => (Err (wrap e), tick w)
  | inr (a, fs') => (Ok a, set_fs fs' (tick w))
  end.
Proof. unfold syscall. rewrite (Hq _). by destruct (f (w_fs w)) as [|[]]. Qed.

Lemma read_quiet {A : Type} op s (f : FS → errno + A) w :
  sys_read op s f w =
  match f (w_fs w) with
  | inl e => (Err (PathError op s e), tick w)
  | inr a => (Ok a, tick w)
  end.
Proof.
  unfold sys_read. rewrite syscall_quiet. destruct (f (w_fs w)); [done|]. by destruct w.
Qed.

Lemma write_quiet wrap (f : FS → errno + FS) w :
  sys_write wrap f w =
  match f (w_fs w) with
  | inl e => (Some (wrap e), tick w)
  | inr fs' => (None, set_fs fs' (tick w))
  end.
Proof. unfold sys_write. rewrite bind_run, syscall_quiet. by destruct (f (w_fs w)). Qed.

(** Calls that the state lets through. *)
Lemma quiet_read {A : Type} op s (f : FS → errno + A) (P : FS → Prop) (Q : gores A → FS → Prop) :
  (∀ fs, P fs → ∃ a, f fs = inr a ∧ Q (Ok a) fs) → triple P (sys_read op s f) Q.
Proof. intros H w HP. rewrite read_quiet. destruct (H _ HP) as (a & -> & HQ). done. Qed.

Lemma quiet_write wrap (f : FS → errno + FS) (P : FS → Prop) (Q : error → FS → Prop) :
  (∀ fs, P fs → ∃ fs', f fs = inr fs' ∧ Q None fs') → triple P (sys_write wrap f) Q.
Proof. intros H w HP. rewrite write_quiet. destruct (H _ HP) as (a & -> & HQ). done. Qed.

(** A call on an open descriptor. *)
Lemma quiet_fd op s (P : FS → Prop) (Q : error → FS → Prop) :
  (∀ fs, P fs → Q None fs) → triple P (FdCall op s) Q.
Proof. intros H. apply quiet_write. eauto. Qed.
End quiet.

(** Two triples of one computation. *)
Lemma triple_conj {A : Type} P P' (m : M World A) Q Q' :
  triple P m Q → triple P' m Q' → triple (λ fs, P fs ∧ P' fs) m (λ a fs, Q a fs ∧ Q' a fs).
Proof. intros H H' w [HP HP']. split; auto. Qed.
