(* ===== verification/Config.v ===== *)
(** cmd/mistryd/config.go: the server's configuration. *)
From S2P Require Import Prelude GoStrings Paths World Types FSFacts Logic Filesystem.

Open Scope string_scope.
Open Scope list_scope.
#[local] Open Scope Z_scope.

(** [Config]. *)
Record Config := mkConfig {
  cfg_Addr : string;
  cfg_FileSystem : FileSystem;
  cfg_UID : string;
  cfg_ProjectsPath : string;
  cfg_BuildPath : string;
  cfg_Mounts : gmap string string;
  cfg_Concurrency : Z;
  cfg_Backlog : Z;
}.

Definition set_UID (u : string) (c : Config) : Config :=
  mkConfig (cfg_Addr c) (cfg_FileSystem c) u (cfg_ProjectsPath c) (cfg_BuildPath c) (cfg_Mounts c)
    (cfg_Concurrency c) (cfg_Backlog c).
Definition set_Concurrency (n : Z) (c : Config) : Config :=
  mkConfig (cfg_Addr c) (cfg_FileSystem c) (cfg_UID c) (cfg_ProjectsPath c) (cfg_BuildPath c)
    (cfg_Mounts c) n (cfg_Backlog c).
Definition set_Backlog (n : Z) (c : Config) : Config :=
  mkConfig (cfg_Addr c) (cfg_FileSystem c) (cfg_UID c) (cfg_ProjectsPath c) (cfg_BuildPath c)
    (cfg_Mounts c) (cfg_Concurrency c) n.

Section config.
Context {E : Env}.

(** [os.Getuid] and [runtime.NumCPU]. *)
Variable getuid : Z.
Variable num_cpu : Z.
(** [json.Decoder.Decode]: it writes the settings it finds over the value it is
    given, or fails. *)
Variable decode : string → Config → gores Config.

(** [ParseConfig].  The default backlog is computed on 64-bit integers. *)
Definition ParseConfig (addr : string) (fs : FileSystem) (r : string) : M World (gores Config) :=
  if decide (addr = "") then mret (Err (ErrString "addr must be provided"))
  else match decode r (mkConfig addr fs "" "" "" ∅ 0 0) with
       | Err e => mret (Err e)
       | Ok cfg =>
           let cfg := if decide (cfg_UID cfg = "") then set_UID (itoa getuid) cfg else cfg in
           err ← PathIsDir (cfg_ProjectsPath cfg);
           match err with
           | Some e => mret (Err e)
           | None =>
               err ← PathIsDir (cfg_BuildPath cfg);
               match err with
               | Some e => mret (Err e)
               | None =>
                   let cfg := if decide (cfg_Concurrency cfg = 0) then set_Concurrency num_cpu cfg else cfg in
                   let cfg := if decide (cfg_Backlog cfg = 0)
                              then set_Backlog (wrap64 (cfg_Concurrency cfg * 2)) cfg else cfg in
                   mret (Ok cfg)
               end
           end
       end.

End config.
