(* ===== verification/Job.v ===== *)
(** cmd/mistryd/job.go: jobs, their identity and paths, their Docker image and
    container, and the directories of a build. *)
From S2P Require Import Prelude GoStrings Paths World Types FSFacts Filesystem Config.

Open Scope string_scope.
Open Scope list_scope.
#[local] Open Scope Z_scope.

(** Constants of cmd/mistryd/main.go. *)
Definition DataDir := "/data".
Definition CacheDir := "/cache".
Definition ArtifactsDir := "/artifacts".
Definition ParamsDir := "/params".
Definition BuildLogFname := "out.log".
Definition BuildInfoFname := "build_info.json".
Definition ImgCntPrefix := "mistry-".

(** [crypto/sha256.Sum256]: 32 bytes. *)
Class Sha256 := {
  sha256 : string → string;
  sha256_length : ∀ s, String.length (sha256 s) = 32%nat;
}.

(** The Docker client library and daemon, call by call; the first argument is the
    number of system calls made before.  Containers see the mounted directories:
    [d_container_fs] is what a started container does to the file system, which
    by the meaning of a bind mount is confined to the sources of its mounts. *)
Class Docker := {
  d_NewEnvClient : nat → error;
  d_Close : nat → error;
  d_ImageBuild : nat → string → string → string → bool → bool → gores string;
  d_DisplayJSONMessagesStream : nat → string → string * error;
  d_ImageInspect : nat → string → error;
  d_ContainerList : nat → string → gores (list string);
  d_ContainerRename : nat → string → string → error;
  d_ContainerCreate : nat → string → string → list (string * string) → string → gores string;
  d_ContainerStart : nat → string → error;
  d_container_fs : nat → list (string * string) → FS → FS;
  d_ContainerLogs : nat → string → error;
  d_log_frames : nat → string → list (bool * string) * error;
  d_ContainerInspect : nat → string → gores string;
  d_decode_exit_code : string → gores Z;
  d_ContainerRemove : nat → string → error;
}.

(** [q] lies below directory [p], and is not [p] itself. *)
Definition strictly_below (p q : path) : Prop := ∃ c r, q = p ++ c :: r.

Class DockerSpec {D : Docker} : Prop := {
  container_wf n mnts fs : wf fs → wf (d_container_fs n mnts fs);
  container_frame n mnts fs q :
    (∀ src, src ∈ mnts.*1 → ¬ strictly_below (comps src) q) →
    d_container_fs n mnts fs !! q = fs !! q;
}.

(** [Job]; the fields [BuildInfo] and [State] are those after [NewJob], and the
    logger is left out. *)
Record Job := mkJob {
  j_ID : string;
  j_Project : string;
  j_Params : Params;
  j_Group : string;
  j_Rebuild : bool;
  j_RootBuildPath : string;
  j_PendingBuildPath : string;
  j_ReadyBuildPath : string;
  j_LatestBuildPath : string;
  j_ReadyDataPath : string;
  j_ProjectPath : string;
  j_BuildLogPath : string;
  j_BuildInfoFilePath : string;
  j_Image : string;
  j_ImageTar : string;
  j_Container : string;
  j_StartedAt : Z;
  j_BuildInfo : BuildInfo;
  j_State : string;
}.

(** [BuildLogPath]. *)
Definition BuildLogPath (jobPath : string) : string := Join [jobPath; BuildLogFname].

(** The latest link of a project and group. *)
Definition latest_path (root group : string) : string :=
  if decide (group = "") then Join [root; "latest"] else Join [root; "groups"; group].

(** The seed of a job's ID: project, group, the parameters in the order of their
    names, and the project archive.  Parameters whose name starts with an
    underscore are left out. *)
Definition id_keys (keys : list string) : list string :=
  sort_strings (filter (λ k, HasPrefix k "_" = false) keys).

Definition id_seed (project group : string) (keys : list string) (params : Params) (tar : string) : string :=
  foldl (λ seed k, seed +:+ k +:+ default "" (params !! k)) (project +:+ group) (id_keys keys) +:+ tar.

(** [Job.String]. *)
Definition Job_String (j : Job) : string :=
  "{project=" +:+ j_Project j +:+ " group=" +:+ j_Group j +:+ " id=" +:+ str_take 7 (j_ID j) +:+ "}".

Section newjob.
Context {E : Env} {T : TarFormat} {H : Sha256}.

(** The job of [NewJob] once the archive, the parameter names in the order of
    [range] and the two times are known. *)
Definition make_job (project : string) (params : Params) (group : string) (cfg : Config)
    (tar : string) (keys : list string) (now now' : Z) : Job :=
  let root := Join [cfg_BuildPath cfg; project] in
  let id := hex (sha256 (id_seed project group keys params tar)) in
  let pending := Join [root; "pending"; id] in
  let ready := Join [root; "ready"; id] in
  {| j_ID := id; j_Project := project; j_Params := params; j_Group := group;
     j_Rebuild := false; j_RootBuildPath := root; j_PendingBuildPath := pending;
     j_ReadyBuildPath := ready; j_LatestBuildPath := latest_path root group;
     j_ReadyDataPath := Join [ready; DataDir];
     j_ProjectPath := Join [cfg_ProjectsPath cfg; project];
     j_BuildLogPath := BuildLogPath pending;
     j_BuildInfoFilePath := Join [pending; BuildInfoFname];
     j_Image := ImgCntPrefix +:+ project; j_ImageTar := tar;
     j_Container := ImgCntPrefix +:+ id; j_StartedAt := now;
     j_BuildInfo := NewBuildInfo now'; j_State := "pending" |}.

(** [NewJob]; a [None] configuration is Go's nil pointer. *)
Definition NewJob (project : string) (params : Params) (group : string) (cfg : option Config) :
    M World (gores Job) :=
  if decide (project = "") then mret (Err (ErrString "no project given"))
  else match cfg with
       | None => mret (Err (ErrString "invalid configuration"))
       | Some cfg =>
           tar ← Tar (Join [cfg_ProjectsPath cfg; project]);
           match tar with
           | Err e =>
               if IsNotExist e then mret (Err (ErrString ("Unknown project '" +:+ project +:+ "'")))
               else mret (Err e)
           | Ok tar =>
               kvs ← Range params;
               now ← Now;
               now' ← Now;
               mret (Ok (make_job project params group cfg tar kvs.*1 now now'))
           end
       end.

End newjob.

(** [j.Rebuild = b]. *)
Definition set_Rebuild (b : bool) (j : Job) : Job :=
  mkJob (j_ID j) (j_Project j) (j_Params j) (j_Group j) b (j_RootBuildPath j)
    (j_PendingBuildPath j) (j_ReadyBuildPath j) (j_LatestBuildPath j) (j_ReadyDataPath j)
    (j_ProjectPath j) (j_BuildLogPath j) (j_BuildInfoFilePath j) (j_Image j) (j_ImageTar j)
    (j_Container j) (j_StartedAt j) (j_BuildInfo j) (j_State j).

(** [workErr] of cmd/mistryd/worker.go. *)
Definition workErr (s : string) (e : error) : goerr :=
  let s := "work: " +:+ s in
  ErrString (match e with Some e => s +:+ "; " +:+ Error e | None => s end).

Section docker.
Context {E : Env} {D : Docker}.

(** A call to the Docker daemon. *)
Definition docker {A} (f : nat → A) : M World A := λ w, (f (w_step w), tick w).

(** [Job.BuildImage].  [out] writes to the destination of the build log. *)
Definition BuildImage (j : Job) (uid : string) (out : string → M World error)
    (pullParent noCache : bool) : M World error :=
  resp ← docker (λ n, d_ImageBuild n (j_Image j) uid (j_ImageTar j) pullParent noCache);
  match resp with
  | Err e => mret (Some (ErrImageBuild (j_Image j) e))
  | Ok body =>
      shown ← docker (λ n, d_DisplayJSONMessagesStream n body);
      werr ← out shown.1;
      match werr with
      | Some e => mret (Some (ErrImageBuild (j_Image j) e))
      | None =>
          match shown.2 with
          | Some e => mret (Some (ErrImageBuild (j_Image j) e))
          | None =>
              err ← docker (λ n, d_ImageInspect n (j_Image j));
              mret (match err with
                    | Some e => Some (ErrImageBuild (j_Image j) e)
                    | None => None
                    end)
          end
      end
  end.

Definition randomHexString : M World string := buf ← RandRead; mret (hex buf).

(** [renameIfExists]: stops at the first container that cannot be renamed. *)
Definition renameIfExists (name : string) : M World error :=
  cs ← docker (λ n, d_ContainerList n name);
  match cs with
  | Err e => mret (Some e)
  | Ok cs =>
      forM (λ c, r ← randomHexString;
                 docker (λ n, d_ContainerRename n c (name +:+ "-renamed-" +:+ r))) cs
  end.

(** [stdcopy.StdCopy(out, io.MultiWriter(out, outErr), logs)]: the frames of the
    log stream go to [out], those of stderr also to [outErr], whose contents are
    returned.  It stops at the first error of a write or of the stream. *)
Fixpoint StdCopy (out : string → M World error) (frames : list (bool * string)) (last : error)
    (outErr : string) : M World (string * error) :=
  match frames with
  | [] => mret (outErr, last)
  | (is_err, data) :: frames' =>
      e ← out data;
      match e with
      | Some e => mret (outErr, Some e)
      | None => StdCopy out frames' last (if is_err : bool then outErr +:+ data else outErr)
      end
  end.

(** The mounts of a job's container: its data directory and those configured. *)
Definition container_mounts (j : Job) (extra : list (string * string)) : list (string * string) :=
  (Join [j_PendingBuildPath j; DataDir], DataDir) :: extra.

(** [Job.StartContainer]: exit code, contents of [outErr], error.  The exit code
    is 0 whenever the error is not nil.  The container's effect on its mounts is
    placed at its start; removing it in the end only logs its error. *)
Definition StartContainer (j : Job) (cfg : Config) (out : string → M World error) :
    M World (Z * string * error) :=
  extra ← Range (cfg_Mounts cfg);
  let mnts := container_mounts j extra in
  _ ← renameIfExists (j_Container j);
  res ← docker (λ n, d_ContainerCreate n (cfg_UID cfg) (j_Image j) mnts (j_Container j));
  match res with
  | Err e => mret (0, "", Some e)
  | Ok id =>
      err ← docker (λ n, d_ContainerStart n id);
      match err with
      | Some e => mret (0, "", Some e)
      | None =>
          (λ w, ((), set_fs (d_container_fs (w_step w) mnts (w_fs w)) (tick w)));;
          r ← (err ← docker (λ n, d_ContainerLogs n id);
               match err with
               | Some e => mret (0, "", Some e)
               | None =>
                   fr ← docker (λ n, d_log_frames n id);
                   '(outErr, err) ← StdCopy out fr.1 fr.2 "";
                   match err with
                   | Some e => mret (0, outErr, Some e)
                   | None =>
                       raw ← docker (λ n, d_ContainerInspect n id);
                       match raw with
                       | Err e => mret (0, outErr, Some e)
                       | Ok raw =>
                           match d_decode_exit_code raw with
                           | Err e => mret (0, outErr, Some e)
                           | Ok code => mret (code, outErr, None)
                           end
                       end
                   end
               end);
          _ ← docker (λ n, d_ContainerRemove n id);
          mret r
      end
  end.

End docker.

Section build_dirs.
Context {E : Env} {J : JSON}.

(** [GetState]. *)
Definition GetState (path project id : string) : M World (gores string) :=
  r ← Stat (Join [path; project; "pending"; id]);
  match r with
  | Ok _ => mret (Ok "pending")
  | Err _ =>
      r ← Stat (Join [path; project; "ready"; id]);
      match r with
      | Ok _ => mret (Ok "ready")
      | Err _ => mret (Err (ErrString ("job with id=" +:+ id +:+ " not found error")))
      end
  end.

(** [Job.CloneSrcPath]. *)
Definition CloneSrcPath (j : Job) : M World string :=
  if decide (j_Group j = "") then mret ""
  else r ← EvalSymlinks (j_LatestBuildPath j);
       mret (match r with Ok s => s | Err _ => "" end).

(** The directories of a build below its pending path. *)
Definition build_dirs (j : Job) : list string :=
  [Join [j_PendingBuildPath j; DataDir];
   Join [j_PendingBuildPath j; DataDir; CacheDir];
   Join [j_PendingBuildPath j; DataDir; ArtifactsDir];
   Join [j_PendingBuildPath j; DataDir; ParamsDir]].

(** [Job.BootstrapBuildDir], on the job's [BuildInfo]. *)
Definition BootstrapBuildDir (j : Job) (fs : FileSystem) (bi : BuildInfo) : M World (BuildInfo * error) :=
  cloneSrc ← CloneSrcPath j;
  '(bi, err) ← (if decide (cloneSrc = "") then
                  e ← fs_Create fs (j_PendingBuildPath j); mret (bi, e)
                else
                  e ← fs_Clone fs cloneSrc (j_PendingBuildPath j);
                  mret (set_Incremental true bi, e));
  match err with
  | Some e => mret (bi, Some (workErr "could not create pending build path" (Some e)))
  | None =>
      err ← (if decide (cloneSrc = "") then mret None
             else wrapM (λ e, workErr "could not remove params dir" (Some e))
                    (RemoveAll (Join [j_PendingBuildPath j; DataDir; ParamsDir])));
      match err with
      | Some e => mret (bi, Some e)
      | None =>
          err ← wrapM (λ e, workErr "could not ensure directory exists" (Some e))
                  (forM EnsureDirExists (build_dirs j));
          mret (bi, err)
      end
  end.

(** [ReadJobLogs]. *)
Definition ReadJobLogs (jobPath : string) : M World (gores string) := ReadFile (BuildLogPath jobPath).

(** [ReadJobBuildInfo]. *)
Definition ReadJobBuildInfo (path : string) (logs : bool) : M World (gores BuildInfo) :=
  now ← Now;
  bytes ←? ReadFile (Join [path; BuildInfoFname]);
  match json_unmarshal bytes (NewBuildInfo now) with
  | Err e => mret (Err e)
  | Ok bi =>
      if logs then
        log ←? ReadJobLogs path;
        mret (Ok (set_ContainerLogs log (bi_ContainerStderr bi) bi))
      else mret (Ok bi)
  end.

End build_dirs.
