(* ===== verification/Metrics.v ===== *)
(** cmd/mistryd/metrics/metrics.go: which collectors each event of the server
    reaches.  The collectors themselves belong to the Prometheus client library;
    the model keeps the sequence of calls made on them. *)
From S2P Require Import Prelude GoStrings Paths World Types FSFacts.

Open Scope string_scope.
Open Scope list_scope.

(** ** The collectors *)

(** The options of a collector: a gauge, a counter or a histogram with linear
    buckets (start, width and count), by project. *)
Inductive collector_kind :=
| GaugeVec
| CounterVec
| HistogramVec (LinearBuckets : Z * Z * nat).

Record Opts := mkOpts {
  o_kind : collector_kind;
  o_Namespace : string;
  o_Name : string;
  o_Help : string;
  o_labels : list string;
}.

Definition namespace : string := "mistry".

Definition buildTimeBuckets : Z * Z * nat := (120, 120, 3%nat)%Z.

(** The field of [Recorder] for each collector. *)
Definition recorder_opts (c : collector) : Opts :=
  match c with
  | BuildsHosted =>
      mkOpts GaugeVec namespace "builds_hosted" "The number of finished build hosted currently in the server" ["project"]
  | BuildsStarted =>
      mkOpts CounterVec namespace "builds_started" "The total number builds started by the server" ["project"]
  | BuildsFinished => mkOpts CounterVec namespace "builds_finished" "The number of builds finished." ["project"]
  | BuildsCoalesced =>
      mkOpts CounterVec namespace "builds_coalesced" "The number of builds that coalesced and were not processed" ["project"]
  | BuildsProcessedIncrementally =>
      mkOpts CounterVec namespace "builds_processed_incrementally"
        "The number builds processed incrementally by the server" ["project"]
  | BuildsSucceeded =>
      mkOpts (HistogramVec buildTimeBuckets) namespace "builds_succeeded_seconds"
        "Build duration and count for successful results." ["project"]
  | BuildsFailed =>
      mkOpts (HistogramVec buildTimeBuckets) namespace "builds_failed_seconds"
        "Build duration and count for failed results." ["project"]
  | CacheUtilization => mkOpts CounterVec namespace "cache_utilization" "Build result cache utilization" ["project"]
  end.

(** The order in which they are made. *)
Definition collectors : list collector :=
  [BuildsHosted; BuildsStarted; BuildsFinished; BuildsCoalesced; BuildsProcessedIncrementally;
   BuildsSucceeded; BuildsFailed; CacheUtilization].

(** The Prometheus library: making a collector with [promauto] registers it, and
    panics ([None]) when the registry refuses it. *)
Class Prometheus := {
  PromRegistry : Type;
  promauto : Opts → PromRegistry → option PromRegistry;
}.

(** [NewRecorder], by what it does to the registry. *)
Fixpoint make_collectors `{Prometheus} (cs : list collector) (reg : PromRegistry) : option PromRegistry :=
  match cs with
  | [] => Some reg
  | c :: cs => reg ← promauto (recorder_opts c) reg; make_collectors cs reg
  end.
Definition NewRecorder `{Prometheus} (reg : PromRegistry) : option PromRegistry := make_collectors collectors reg.

(** ** What is recorded *)

Definition RecordBuildStarted (project : string) : M World () := Record_ (Inc BuildsStarted project).
Definition RecordBuildCoalesced (project : string) : M World () := Record_ (Inc BuildsCoalesced project).
Definition RecordCacheUtilization (project : string) : M World () := Record_ (Inc CacheUtilization project).

(** [Recorder.RecordBuildFinished]. *)
Definition RecordBuildFinished (project : string) (success incremental : bool) (duration : Z) : M World () :=
  Record_ (Inc BuildsFinished project);;
  if success then
    (if incremental then Record_ (Inc BuildsProcessedIncrementally project) else mret ());;
    Record_ (Observe BuildsSucceeded project duration)
  else Record_ (Observe BuildsFailed project duration).

Lemma RecordBuildFinished_fs project success incremental d w :
  w_fs (RecordBuildFinished project success incremental d w).2 = w_fs w.
Proof. by destruct success, incremental. Qed.

Section hosted.
Context {E : Env}.

(** The loop of [Recorder.RecordHostedBuilds]. *)
Fixpoint record_hosted (buildPath : string) (projects : list (string * node)) : M World () :=
  match projects with
  | [] => mret ()
  | (project, _) :: rest =>
      builds ← ReadDir (buildPath +:+ "/" +:+ project +:+ "/ready");
      (match builds with
       | Ok l => Record_ (SetGauge BuildsHosted project (Z.of_nat (length l)))
       | Err _ => mret ()
       end);;
      record_hosted buildPath rest
  end.

(** [Recorder.RecordHostedBuilds], on a recorder that is not nil. *)
Definition RecordHostedBuilds (buildPath projectsPath : string) : M World () :=
  projects ← ReadDir projectsPath;
  match projects with
  | Err _ => mret ()
  | Ok l => record_hosted buildPath l
  end.
End hosted.
