(* ===== verification/Queues.v ===== *)
(** cmd/mistryd/job_queue.go and project_queue.go: the set of jobs being built and
    the per-project mutexes, as one goroutine sees them.  Concurrent.v gives the
    steps of several goroutines. *)
From S2P Require Import Prelude GoStrings Paths World Types FSFacts Filesystem Config Job.

(** [q.jobs[id]], false when absent. *)
Definition jobs_has (jobs : gmap string bool) (id : string) : bool := default false (jobs !! id).

(** [JobQueue.Add] and [JobQueue.Delete] on the map; the queue's mutex makes each
    one atomic. *)
Definition jobs_add (id : string) (jobs : gmap string bool) : bool * gmap string bool :=
  if jobs_has jobs id then (false, jobs) else (true, <[id := true]> jobs).
Definition jobs_delete (id : string) (jobs : gmap string bool) : gmap string bool := delete id jobs.

Definition JobQueue_Add (j : Job) : M World bool :=
  λ w, let '(b, q) := jobs_add (j_ID j) (w_jobs w) in (b, set_jobs q w).
Definition JobQueue_Delete (j : Job) : M World () :=
  modify (λ w, set_jobs (jobs_delete (j_ID j) (w_jobs w)) w).

(** [ProjectQueue.Lock]: the project's mutex is made when it is missing.  Locking
    a held mutex blocks. *)
Definition ProjectQueue_Lock (project : string) : M World () :=
  modify (λ w, match w_locks w !! project with
               | Some true => set_stuck w
               | _ => set_locks (<[project := true]> (w_locks w)) w
               end).

(** [ProjectQueue.Unlock]: a missing or free mutex crashes the goroutine. *)
Definition ProjectQueue_Unlock (project : string) : M World () :=
  modify (λ w, match w_locks w !! project with
               | Some true => set_locks (<[project := false]> (w_locks w)) w
               | _ => set_stuck w
               end).

(** [q.Lock(p); defer q.Unlock(p); m]. *)
Definition with_lock {A} (project : string) (m : M World A) : M World A :=
  ProjectQueue_Lock project;; a ← m; ProjectQueue_Unlock project;; mret a.
