(* ===== verification/Worker.v ===== *)
(** cmd/mistryd/worker.go: the build of one job, with its result cache, build
    coalescing, directories, deferred clean-up and latest link. *)
From S2P Require Import Prelude GoStrings Paths World Types FSFacts Filesystem Config Job Metrics Queues.

Open Scope string_scope.
Open Scope list_scope.
#[local] Open Scope Z_scope.

(** [getJobURL] of cmd/mistryd/server.go. *)
Definition getJobURL (j : Job) : string := GoStrings.Join "/" ["job"; j_Project j; j_ID j].

(** The [BuildInfo] that [Work] starts from. *)
Definition initial_info (j : Job) (now : Z) : BuildInfo :=
  {| bi_Params := j_Params j; bi_Group := j_Group j;
     bi_Path := Join [j_ReadyBuildPath j; DataDir; ArtifactsDir]; bi_Cached := false;
     bi_Coalesced := false; bi_Incremental := false;
     bi_ExitCode := bi_ExitCode (NewBuildInfo now); bi_ErrBuild := "";
     bi_ContainerStdouterr := ""; bi_ContainerStderr := ""; bi_TransportMethod := Rsync;
     bi_StartedAt := j_StartedAt j; bi_Duration := bi_Duration (NewBuildInfo now);
     bi_URL := getJobURL j |}.

(** The error of a deferred call, put before the error there already was. *)
Definition add_deferred (errstr : string) (derr : goerr) (err : error) : goerr :=
  ErrString (errstr +:+ "; " +:+ Error derr +:+
             match err with Some e => " | " +:+ Error e | None => "" end).

(** [defer func() { ... }()] of a close call that may fail. *)
Definition defer_close {A} (errstr : string) (close : M World error) (body : M World (A * error)) :
    M World (A * error) :=
  '(a, err) ← body;
  derr ← close;
  mret (a, match derr with Some d => Some (add_deferred errstr d err) | None => err end).

Section work.
Context {E : Env} {J : JSON} {D : Docker}.
(** [s.cfg], and whether the context is done when the select of the coalescing
    loop wakes up ([context.Background] never is). *)
Variable cfg : Config.
Variable ctx_done : nat → bool.

(** [ExitCode]. *)
Definition ExitCode (j : Job) : M World (gores Z) :=
  r ← ReadJobBuildInfo (j_ReadyBuildPath j) false;
  mret (match r with Ok bi => Ok (bi_ExitCode bi) | Err e => Err e end).

(** [persistBuildInfo]. *)
Definition persistBuildInfo (j : Job) (bi : BuildInfo) : M World error :=
  match json_marshal (set_ContainerLogs "" "" bi) with
  | Err e => mret (Some e)
  | Ok out => WriteFile (j_BuildInfoFilePath j) out
  end.

(** [Server.BootstrapProject]. *)
Definition BootstrapProject (j : Job) : M World error :=
  with_lock (j_Project j)
    (EnsureDirExists (j_RootBuildPath j) ;?
     EnsureDirExists (Join [j_RootBuildPath j; "pending"]) ;?
     EnsureDirExists (Join [j_RootBuildPath j; "ready"]) ;?
     if decide (j_Group j = "") then mret None
     else EnsureDirExists (Join [j_RootBuildPath j; "groups"])).

(** The coalescing loop: every tick it looks for the ready path.  [None] when the
    ticks given by [fuel] are over and it is still waiting. *)
Fixpoint coalesce (fuel : nat) (j : Job) (bi : BuildInfo) :
    M World (option (option BuildInfo * error)) :=
  match fuel with
  | O => mret None
  | S fuel' =>
      Sleep;;
      now ← gets w_step;
      if ctx_done now then mret (Some (Some bi, Some (workErr "context cancelled while coalescing" None)))
      else
        st ← Stat (j_ReadyBuildPath j);
        match st with
        | Ok _ =>
            i ← ExitCode j;
            match i with
            | Err e => mret (Some (Some bi, Some e))
            | Ok i =>
                RecordBuildCoalesced (j_Project j);;
                mret (Some (Some (set_Coalesced true (set_ExitCode i bi)), None))
            end
        | Err e =>
            if IsNotExist e then coalesce fuel' j bi
            else mret (Some (Some bi, Some (workErr "could not coalesce" (Some e))))
        end
  end.

(** The parameter files. *)
Definition write_params (j : Job) : M World error :=
  kvs ← Range (j_Params j);
  wrapM (λ e, workErr "could not write param file" (Some e))
    (forM (λ kv, WriteFile (Join [j_PendingBuildPath j; DataDir; ParamsDir; kv.1]) kv.2) kvs).

(** From the image to the container's exit, with the log file and the Docker
    client open. *)
Definition run_container (j : Job) (start : Z) (bi : BuildInfo) : M World (BuildInfo * error) :=
  let out := AppendFile (j_BuildLogPath j) in
  err ← BuildImage j (cfg_UID cfg) out (j_Rebuild j) (j_Rebuild j);
  match err with
  | Some e => mret (bi, Some (workErr "could not build docker image" (Some e)))
  | None =>
      '(code, outErr, err) ← StartContainer j cfg out;
      let bi := set_ExitCode code bi in
      match err with
      | Some e => mret (bi, Some (workErr "could not start docker container" (Some e)))
      | None =>
          err ← FdCall "sync" (j_BuildLogPath j);
          match err with
          | Some e => mret (bi, Some (workErr "could not flush the output log" (Some e)))
          | None =>
              logs ← ReadJobLogs (j_PendingBuildPath j);
              match logs with
              | Err e => mret (bi, Some (workErr "could not read the job logs" (Some e)))
              | Ok stdouterr =>
                  now ← Now;
                  let bi := set_Duration (duration_truncate (time_sub now start) Millisecond)
                              (set_ContainerLogs stdouterr outErr bi) in
                  RecordBuildFinished (j_Project j)
                    (bool_decide (bi_ExitCode bi = ContainerSuccessExitCode))
                    (bi_Incremental bi) (bi_Duration bi);;
                  mret (bi, None)
              end
          end
      end
  end.

(** The body below the two outer deferred functions. *)
Definition build_body (j : Job) (start : Z) (bi : BuildInfo) : M World (BuildInfo * error) :=
  err ← write_params j;
  match err with
  | Some e => mret (bi, Some e)
  | None =>
      err ← CreateFile (j_BuildLogPath j);
      match err with
      | Some e => mret (bi, Some (workErr "could not create build log file" (Some e)))
      | None =>
          defer_close "could not close build log file" (FdCall "close" (j_BuildLogPath j))
            (err ← docker d_NewEnvClient;
             match err with
             | Some e => mret (bi, Some (workErr "could not create docker client" (Some e)))
             | None => defer_close "could not close docker client" (docker d_Close)
                         (run_container j start bi)
             end)
      end
  end.

(** The deferred function that records the error and persists the build info. *)
Definition deferred_persist (j : Job) (r : BuildInfo * error) : M World (BuildInfo * error) :=
  let '(bi, err) := r in
  let bi := match err with Some e => set_ErrBuild (Error e) bi | None => bi end in
  biErr ← persistBuildInfo j bi;
  mret (bi, match biErr with
            | Some e => Some (workErr "could not persist build info" (Some e))
            | None => err
            end).

(** The new latest link, under the project's mutex. *)
Definition update_latest (j : Job) : M World error :=
  with_lock (j_Project j)
    (st ← Lstat (j_LatestBuildPath j);
     let link := wrapM (λ e, workErr "could not create latest build link" (Some e))
                   (SymlinkTo (j_ReadyBuildPath j) (j_LatestBuildPath j)) in
     match st with
     | Ok _ =>
         wrapM (λ e, workErr "could not remove latest build link" (Some e))
           (Remove (j_LatestBuildPath j)) ;? link
     | Err e =>
         if IsNotExist e then link
         else mret (Some (workErr "could not stat the latest build link" (Some e)))
     end).

(** The deferred function that moves the build from pending to ready and, when it
    was successful, points the latest link to it. *)
Definition deferred_publish (j : Job) (r : BuildInfo * error) : M World (BuildInfo * error) :=
  let '(bi, err) := r in
  rerr ← Rename (j_PendingBuildPath j) (j_ReadyBuildPath j);
  let err := match rerr with
             | Some e => Some (add_deferred "could not move pending path" e err)
             | None => err
             end in
  if bool_decide (err = None) && bool_decide (bi_ExitCode bi = ContainerSuccessExitCode) then
    err ← update_latest j; mret (bi, err)
  else mret (bi, err).

(** The build proper, from the check of the project on. *)
Definition build (j : Job) (start : Z) (bi : BuildInfo) : M World (BuildInfo * error) :=
  st ← Stat (Join [cfg_ProjectsPath cfg; j_Project j]);
  match st with
  | Err e =>
      if IsNotExist e then mret (bi, Some (workErr "Unknown project" None))
      else mret (bi, Some (workErr "could not check for project" (Some e)))
  | Ok _ =>
      err ← BootstrapProject j;
      match err with
      | Some e => mret (bi, Some (workErr "could not bootstrap project" (Some e)))
      | None =>
          '(bi, err) ← BootstrapBuildDir j (cfg_FileSystem cfg) bi;
          match err with
          | Some e => mret (bi, Some (workErr "could not bootstrap build dir" (Some e)))
          | None =>
              err ← persistBuildInfo j bi;
              match err with
              | Some e => mret (bi, Some (workErr "could not persist build info" (Some e)))
              | None => r ← build_body j start bi; r ← deferred_persist j r; deferred_publish j r
              end
          end
      end
  end.

(** What the goroutine that registered the job does: the result cache, and the
    build when it does not apply. *)
Definition lead (j : Job) (start : Z) (bi : BuildInfo) : M World (option BuildInfo * error) :=
  let fresh := '(bi, err) ← build j start bi; mret (Some bi, err) in
  st ← Stat (j_ReadyBuildPath j);
  match st with
  | Ok _ =>
      r ← ReadJobBuildInfo (j_ReadyBuildPath j) true;
      match r with
      | Err e => mret (None, Some e)
      | Ok prev =>
          if bool_decide (bi_ExitCode prev ≠ 0) then
            err ← fs_Remove (cfg_FileSystem cfg) (j_ReadyBuildPath j);
            match err with
            | Some e => mret (Some prev, Some (workErr "could not remove existing failed build" (Some e)))
            | None => fresh
            end
          else
            RecordCacheUtilization (j_Project j);;
            mret (Some (set_Cached true prev), None)
      end
  | Err e =>
      if IsNotExist e then fresh
      else mret (Some bi, Some (workErr "could not check for ready path" (Some e)))
  end.

(** [Server.Work]; [None] when it is still coalescing after [fuel] ticks. *)
Definition Work (fuel : nat) (j : Job) : M World (option (option BuildInfo * error)) :=
  start ← Now;
  now ← Now;
  let bi := initial_info j now in
  RecordBuildStarted (j_Project j);;
  added ← JobQueue_Add j;
  if added : bool then
    r ← lead j start bi;
    JobQueue_Delete j;;
    mret (Some r)
  else coalesce fuel j bi.

End work.
