(* ===== verification/Store.v ===== *)
(** The build directory of the server as an abstract store, and its invariant:
    the directories of a project are real directories, builds have the shape the
    server gives them, and a latest link points to a successful build. *)
From S2P Require Import Prelude GoStrings Paths World FSFacts Logic Types Filesystem Config Job.

Open Scope string_scope.
Open Scope list_scope.

Definition dirn (fs : FS) (p : path) : Prop := fs !! p = None ∨ fs !! p = Some Dir.
Definition not_link (fs : FS) (p : path) : Prop := ∀ t, fs !! p ≠ Some (Symlink t).

(** A job ID: 64 hexadecimal digits. *)
Definition job_id (id : string) : Prop := plain id ∧ String.length id = 64.

(** A group name that stays inside its project: none, or an ordinary name. *)
Definition group_ok (g : string) : Prop := g = "" ∨ plain g.

(** The directories of a project that hold builds, and all of them. *)
Definition build_dir (d : string) : Prop := d = "pending" ∨ d = "ready".
Definition top_dir (d : string) : Prop := build_dir d ∨ d = "groups".

Section store.
Context {J : JSON}.
(** The components of [cfg.BuildPath]. *)
Variable B : path.

(** Where the parts of the store are. *)
Definition build_at (proj d id : string) : path := B ++ [proj; d; id].
Definition latest_at (proj group : string) : path :=
  B ++ (if decide (group = "") then [proj; "latest"] else [proj; "groups"; group]).

(** The directories and files the server itself makes in a build. *)
Definition build_shape (fs : FS) (p : path) : Prop :=
  dirn fs p ∧ dirn fs (p ++ ["data"]) ∧
  not_link fs (p ++ ["build_info.json"]) ∧ not_link fs (p ++ ["out.log"]).

(** The build info kept in directory [p] is [bi]. *)
Definition has_info (fs : FS) (p : path) (bi : BuildInfo) : Prop :=
  ∃ s, fs !! (p ++ ["build_info.json"]) = Some (File s) ∧ json_marshal bi = Ok s.

(** Directory [p] holds a finished build whose container exited with 0. *)
Definition successful (fs : FS) (p : path) : Prop :=
  ∃ bi, has_info fs p bi ∧ bi_ExitCode bi = 0%Z.

Record store_ok (fs : FS) : Prop := {
  so_wf : wf fs;
  so_base : fs !! B = Some Dir;
  so_proj proj : plain proj → dirn fs (B ++ [proj]);
  so_dirs proj d : plain proj → top_dir d → dirn fs (B ++ [proj; d]);
  so_builds proj d id :
    plain proj → job_id id → build_dir d → build_shape fs (build_at proj d id);
  so_links proj group n :
    plain proj → group_ok group → fs !! latest_at proj group = Some n →
    ∃ id, job_id id ∧ n = Symlink (abs_path (build_at proj "ready" id)) ∧
          successful fs (build_at proj "ready" id);
}.

(** The path fields of a job, for a project and a group that are ordinary names
    and parameters whose names are. *)
Record job_ok (j : Job) : Prop := {
  jo_base : Forall plain B;
  jo_proj : plain (j_Project j);
  jo_group : group_ok (j_Group j);
  jo_id : job_id (j_ID j);
  jo_params k v : j_Params j !! k = Some v → plain k;
  jo_root : j_RootBuildPath j = abs_path (B ++ [j_Project j]);
  jo_pending : j_PendingBuildPath j = abs_path (build_at (j_Project j) "pending" (j_ID j));
  jo_ready : j_ReadyBuildPath j = abs_path (build_at (j_Project j) "ready" (j_ID j));
  jo_latest : j_LatestBuildPath j = abs_path (latest_at (j_Project j) (j_Group j));
  jo_log : j_BuildLogPath j = abs_path (build_at (j_Project j) "pending" (j_ID j) ++ ["out.log"]);
  jo_info : j_BuildInfoFilePath j =
            abs_path (build_at (j_Project j) "pending" (j_ID j) ++ ["build_info.json"]);
}.

End store.

(** ** Names and positions in the store *)

Lemma plain_pending : plain "pending". Proof. plain_const. Qed.
Lemma plain_ready : plain "ready". Proof. plain_const. Qed.
Lemma plain_groups : plain "groups". Proof. plain_const. Qed.
Lemma plain_latest : plain "latest". Proof. plain_const. Qed.
Lemma plain_data : plain "data". Proof. plain_const. Qed.
Lemma plain_params : plain "params". Proof. plain_const. Qed.
Lemma plain_cache : plain "cache". Proof. plain_const. Qed.
Lemma plain_artifacts : plain "artifacts". Proof. plain_const. Qed.
Lemma plain_info : plain "build_info.json". Proof. plain_const. Qed.
Lemma plain_log : plain "out.log". Proof. plain_const. Qed.
#[export] Hint Resolve plain_pending plain_ready plain_groups plain_latest plain_data plain_params
  plain_cache plain_artifacts plain_info plain_log : mistry.

Lemma job_id_plain id : job_id id → plain id.
Proof. by intros [? _]. Qed.
#[export] Hint Resolve job_id_plain : mistry.

Ltac solve_plain :=
  repeat match goal with
  | |- Forall plain (_ ++ _) => apply Forall_app_2
  | |- Forall plain (_ :: _) => apply Forall_cons_2
  | |- Forall plain [] => apply Forall_nil_2
  end; eauto with mistry.

Lemma prefix_app_cancel (B p q : path) : B ++ p `prefix_of` B ++ q ↔ p `prefix_of` q.
Proof.
  split; intros [r Hr]; exists r.
  - rewrite <-app_assoc in Hr. by apply app_inv_head in Hr.
  - by rewrite <-app_assoc, Hr.
Qed.

Lemma prefix_cons_iff (x y : string) p q : x :: p `prefix_of` y :: q ↔ x = y ∧ p `prefix_of` q.
Proof.
  split.
  - intros H. split; [by eapply prefix_cons_inv_1|by eapply prefix_cons_inv_2].
  - intros [-> H]. by apply prefix_cons.
Qed.

Lemma Symlink_inj t u : Symlink t = Symlink u → t = u.
Proof. congruence. Qed.

Section positions.
Context (fs : FS).

Lemma clear_snoc p c : clear fs p → dirn fs p → clear fs (p ++ [c]).
Proof.
  intros Hc Hd q r n Heq Hr Hq. destruct r as [|d r _] using rev_ind; [done|].
  rewrite app_assoc in Heq. apply app_inj_tail in Heq as [-> ->].
  destruct r as [|e r].
  - rewrite app_nil_r in *. destruct Hd; congruence.
  - by apply (Hc q (e :: r) n).
Qed.

Lemma dirn_insert_dir p q : dirn fs q → dirn (<[p := Dir]> fs) q.
Proof.
  unfold dirn. intros Hd. destruct (decide (p = q)) as [->|].
  - right. by rewrite lookup_insert_eq.
  - by rewrite lookup_insert_ne.
Qed.

Lemma not_link_insert p q n : not_link fs q → (∀ t, n ≠ Symlink t) → not_link (<[p := n]> fs) q.
Proof. intros Hl Hn t Ht. apply lookup_insert_Some in Ht as [[_ ?]|[_ ?]]; [by eapply Hn|by eapply Hl]. Qed.

Lemma dirn_not_link p : dirn fs p → not_link fs p.
Proof. intros [H|H] t Ht; congruence. Qed.
End positions.

(** ** What keeps the store's invariant *)

Section invariant.
Context {J : JSON} (B : path).

Lemma build_at_snoc proj d id : build_at B proj d id = (B ++ [proj; d]) ++ [id].
Proof. unfold build_at. by rewrite <-app_assoc. Qed.

Section one_store.
Context (fs : FS) (Hok : store_ok B fs).

Lemma clear_proj proj : clear fs (B ++ [proj]).
Proof. apply wf_clear_child; apply Hok. Qed.

Lemma clear_dir proj d : plain proj → clear fs (B ++ [proj; d]).
Proof.
  intros Hp. change [proj; d] with ([proj] ++ [d]). rewrite app_assoc.
  apply clear_snoc; [apply clear_proj|by apply Hok].
Qed.

Lemma clear_build proj d id :
  plain proj → top_dir d → clear fs (build_at B proj d id).
Proof.
  intros Hp Hd. rewrite build_at_snoc. apply clear_snoc; [by apply clear_dir|by apply Hok].
Qed.

Lemma clear_latest proj group : plain proj → clear fs (latest_at B proj group).
Proof.
  intros Hp. unfold latest_at. case_decide.
  - by apply clear_dir.
  - apply (clear_build proj "groups" group); [done|]. by right.
Qed.

Lemma clear_below proj d id c :
  plain proj → job_id id → build_dir d → clear fs (build_at B proj d id ++ [c]).
Proof.
  intros Hp Hid Hd. apply clear_snoc.
  - apply clear_build; [done|]. by left.
  - by apply Hok.
Qed.

Lemma clear_data proj d id c :
  plain proj → job_id id → build_dir d → clear fs (build_at B proj d id ++ ["data"; c]).
Proof.
  intros Hp Hid Hd. change ["data"; c] with (["data"] ++ [c]). rewrite app_assoc.
  apply clear_snoc; [by apply clear_below|]. by apply Hok.
Qed.

(** A linked build is a directory with an info file. *)
Lemma successful_dir p : successful fs p → fs !! p = Some Dir.
Proof. intros (bi & (s & Hs & _) & _). apply (so_wf _ _ Hok) in Hs. done. Qed.

(** Making a missing directory anywhere but at a latest link. *)
Lemma store_ok_mkdir p :
  p ≠ [] → fs !! p = None → fs !! parent p = Some Dir →
  (∀ proj group, plain proj → group_ok group → p ≠ latest_at B proj group) →
  store_ok B (<[p := Dir]> fs).
Proof.
  intros Hne Hn Hp Hl. pose proof Hok as [Hw Hb Hproj Hdirs Hbuilds Hlinks]. split.
  - apply wf_insert; auto.
  - rewrite lookup_insert_ne; [done|congruence].
  - intros. by apply dirn_insert_dir, Hproj.
  - intros. by apply dirn_insert_dir, Hdirs.
  - intros proj d id H1 H2 H3. destruct (Hbuilds proj d id H1 H2 H3) as (?&?&?&?).
    split_and!; [by apply dirn_insert_dir..|by apply not_link_insert|by apply not_link_insert].
  - intros proj group n H1 H2. rewrite lookup_insert_ne by (by apply Hl).
    intros (id & Hid & Hn' & bi & (s & Hs & Hm) & Hc)%Hlinks; [|done..].
    exists id. split_and!; [done..|]. exists bi. split; [|done]. exists s. split; [|done].
    rewrite lookup_insert_ne; [done|congruence].
Qed.

(** What happens inside one build directory that no link points to. *)
Lemma store_ok_build fs' proj d id :
  plain proj → job_id id → build_dir d →
  wf fs' → (∀ r, ¬ build_at B proj d id `prefix_of` B ++ r → fs' !! (B ++ r) = fs !! (B ++ r)) →
  build_shape fs' (build_at B proj d id) →
  (d = "ready" → ∀ group, group_ok group →
    fs !! latest_at B proj group ≠ Some (Symlink (abs_path (build_at B proj d id)))) →
  Forall plain B →
  store_ok B fs'.
Proof.
  intros Hproj Hid Hd Hw Hs Hshape Hnl HB. pose proof Hok as [_ Hb Hproj' Hdirs Hbuilds Hlinks].
  assert (Hshort : ∀ r, length r < 3 → fs' !! (B ++ r) = fs !! (B ++ r)).
  { intros r Hr. apply Hs. unfold build_at. rewrite prefix_app_cancel.
    intros Hpre%prefix_length. simpl in Hpre. lia. }
  assert (Hother : ∀ p', ¬ [proj; d; id] `prefix_of` p' → fs' !! (B ++ p') = fs !! (B ++ p')).
  { intros p' Hp'. apply Hs. unfold build_at. by rewrite prefix_app_cancel. }
  split; [done|..].
  - rewrite <-(app_nil_r B), Hshort by (simpl; lia). by rewrite app_nil_r.
  - intros p Hp. unfold dirn. rewrite Hshort by (simpl; lia). by apply Hproj'.
  - intros p e Hp He. unfold dirn. rewrite Hshort by (simpl; lia). by apply Hdirs.
  - intros p e i Hp Hi He. destruct (decide ([p; e; i] = [proj; d; id])) as [Heq|Hne].
    { unfold build_at. by rewrite Heq. }
    assert (H : ∀ r, fs' !! (build_at B p e i ++ r) = fs !! (build_at B p e i ++ r)).
    { intros r. unfold build_at. rewrite <-app_assoc. apply Hother. simpl.
      rewrite !prefix_cons_iff. intros (-> & -> & -> & _). done. }
    destruct (Hbuilds p e i Hp Hi He) as (H1&H2&H3&H4).
    pose proof (H []) as H0. rewrite app_nil_r in H0.
    unfold build_shape, dirn, not_link in *. rewrite !H, H0. done.
  - intros p group n Hp Hg. unfold latest_at. rewrite Hother.
    2: { case_decide; rewrite !prefix_cons_iff; [intros (_ & _ & []%prefix_nil_not)|].
         intros (_ & -> & _). by destruct Hd. }
    intros Hl. destruct (Hlinks p group n Hp Hg Hl) as (i & Hi & Hn & bi & (s & Hinfo & Hm) & Hc).
    exists i. split_and!; [done..|]. exists bi. split; [|done]. exists s. split; [|done].
    unfold build_at in *. rewrite <-app_assoc in *. rewrite Hother; [done|]. simpl.
    rewrite !prefix_cons_iff. intros (-> & -> & -> & _).
    apply (Hnl eq_refl group Hg). rewrite <-Hn. done.
Qed.
End one_store.

(** A latest link is none of the places of the store's own directories. *)
Lemma latest_not_base proj group : latest_at B proj group ≠ B.
Proof.
  unfold latest_at. intros H%(f_equal length). rewrite length_app in H.
  case_decide; simpl in H; lia.
Qed.

Lemma latest_not_dir proj group l :
  (length l ≤ 2)%nat → (∀ p, l ≠ [p; "latest"]) → latest_at B proj group ≠ B ++ l.
Proof. unfold latest_at. intros Hl Hn <-%app_inv_head. case_decide; simpl in Hl; [by eapply Hn|lia]. Qed.

Lemma latest_not_build proj group p d id r : build_dir d → latest_at B proj group ≠ build_at B p d id ++ r.
Proof.
  unfold latest_at, build_at. rewrite <-app_assoc. intros Hd H%app_inv_head.
  case_decide; [done|]. injection H as -> <- _. by destruct Hd.
Qed.

Lemma latest_inj p g p' g' : latest_at B p g = latest_at B p' g' → p = p' ∧ g = g'.
Proof. unfold latest_at. intros H%app_inv_head. do 2 case_decide; naive_solver. Qed.

(** Changes at a latest link only. *)
Lemma store_ok_at_latest fs fs' proj group :
  store_ok B fs → wf fs' → (∀ q, q ≠ latest_at B proj group → fs' !! q = fs !! q) →
  (∀ n, fs' !! latest_at B proj group = Some n →
    ∃ id, job_id id ∧ n = Symlink (abs_path (build_at B proj "ready" id)) ∧
          successful fs (build_at B proj "ready" id)) →
  store_ok B fs'.
Proof.
  intros [_ Hb Hproj Hdirs Hbuilds Hlinks] Hw Ho Hl.
  assert (Hbuild : ∀ p d id r, build_dir d → fs' !! (build_at B p d id ++ r) = fs !! (build_at B p d id ++ r)).
  { intros. apply Ho. intros Heq. symmetry in Heq. by eapply latest_not_build. }
  assert (Hsucc : ∀ p id, successful fs (build_at B p "ready" id) → successful fs' (build_at B p "ready" id)).
  { intros p id (bi & (s & Hs & Hm) & Hc). exists bi. split; [|done]. exists s. split; [|done].
    rewrite Hbuild; [done|by right]. }
  split; [done|..].
  - rewrite Ho; [done|]. intros Heq. symmetry in Heq. by eapply latest_not_base.
  - intros p Hp. unfold dirn. rewrite Ho; [by apply Hproj|].
    intros Heq. symmetry in Heq. by eapply latest_not_dir in Heq; [|simpl; lia|].
  - intros p d Hp Hd. unfold dirn. rewrite Ho; [by apply Hdirs|].
    intros Heq. symmetry in Heq. eapply latest_not_dir in Heq; [done|simpl; lia|].
    intros q [= _ ->]. by destruct Hd as [[|]|].
  - intros p d id Hp Hid Hd. destruct (Hbuilds p d id Hp Hid Hd) as (H1&H2&H3&H4).
    pose proof (Hbuild p d id [] Hd) as H0. rewrite !app_nil_r in H0.
    unfold build_shape, dirn, not_link in *. rewrite !Hbuild, H0 by done. done.
  - intros p g n Hp Hg. destruct (decide (latest_at B p g = latest_at B proj group)) as [Heq|Hne].
    + apply latest_inj in Heq as [-> ->]. intros (id & Hid & Hn & Hs)%Hl. eauto.
    + rewrite Ho by done. intros H. destruct (Hlinks p g n Hp Hg H) as (id & Hid & Hn & Hs). eauto.
Qed.

Lemma store_ok_unlink fs proj group n :
  store_ok B fs → plain proj → group_ok group → fs !! latest_at B proj group = Some n →
  store_ok B (delete (latest_at B proj group) fs).
Proof.
  intros Hok Hp Hg Hn. destruct (so_links _ _ Hok _ _ _ Hp Hg Hn) as (id & _ & -> & _).
  apply (store_ok_at_latest fs _ proj group); [done|..].
  - apply wf_delete; [apply Hok|by intros H; rewrite H in Hn; rewrite (proj1 (so_wf _ _ Hok)) in Hn|].
    intros c. by eapply wf_leaf; [apply Hok|..].
  - intros q Hq. by apply lookup_delete_ne.
  - intros n'. by rewrite lookup_delete_eq.
Qed.

Lemma store_ok_link fs proj group id :
  store_ok B fs → plain proj → job_id id → successful fs (build_at B proj "ready" id) →
  fs !! latest_at B proj group = None → fs !! parent (latest_at B proj group) = Some Dir →
  store_ok B (<[latest_at B proj group := Symlink (abs_path (build_at B proj "ready" id))]> fs).
Proof.
  intros Hok Hp Hid Hs Hn Hd.
  apply (store_ok_at_latest fs _ proj group); [done|..].
  - apply wf_insert; [apply Hok| |done|].
    + intros H. rewrite H, (proj1 (so_wf _ _ Hok)) in Hn. done.
    + right. congruence.
  - intros q Hq. by apply lookup_insert_ne.
  - intros n'. rewrite lookup_insert_eq. intros [= <-]. eauto.
Qed.

(** Publishing a build: its directory moves from pending to ready. *)
Lemma store_ok_publish fs proj id :
  Forall plain B → store_ok B fs → plain proj → job_id id →
  fs !! build_at B proj "ready" id = None → fs !! (B ++ [proj; "ready"]) = Some Dir →
  store_ok B (move_tree (build_at B proj "pending" id) (build_at B proj "ready" id) fs).
Proof.
  set (pd := build_at B proj "pending" id). set (rd := build_at B proj "ready" id).
  intros HB Hok Hp Hid Hrd Hd.
  assert (Hpr : ¬ pd `prefix_of` rd).
  { unfold pd, rd, build_at. rewrite prefix_app_cancel, !prefix_cons_iff. by intros (_ & [=] & _). }
  assert (Hne : ∀ d, build_at B proj d id ≠ []).
  { intros d. unfold build_at. by destruct B. }
  assert (Hgone : ∀ r, remove_tree pd fs !! (pd ++ r) = None).
  { intros r. by rewrite lookup_remove_tree, decide_True by (by exists r). }
  assert (Hok1 : store_ok B (remove_tree pd fs)).
  { eapply (store_ok_build fs Hok _ proj "pending" id); [done|done|by left|..|done].
    - apply wf_remove_tree; [apply Hok|apply Hne].
    - intros q Hq. by rewrite lookup_remove_tree, decide_False.
    - fold pd. pose proof (Hgone []) as H0. rewrite app_nil_r in H0.
      unfold build_shape, dirn, not_link. rewrite !Hgone, H0. split_and!; auto; congruence.
    - done. }
  assert (Hready : ∀ r, move_tree pd rd fs !! (rd ++ r) = fs !! (pd ++ r)).
  { intros r. rewrite lookup_move_tree, decide_True by (by exists r). by rewrite drop_app_length. }
  eapply (store_ok_build _ Hok1 _ proj "ready" id); [done|done|by right|..|done].
  - apply wf_move_tree; [apply Hok|apply Hne| |done].
    unfold rd. rewrite build_at_snoc, parent_snoc. done.
  - intros q Hq. by rewrite lookup_move_tree, lookup_remove_tree, decide_False.
  - destruct (so_builds _ _ Hok proj "pending" id Hp Hid ltac:(by left)) as (H1&H2&H3&H4).
    fold pd in H1, H2, H3, H4. fold rd. pose proof (Hready []) as H0. rewrite !app_nil_r in H0.
    unfold build_shape, dirn, not_link in *. rewrite !Hready, H0. done.
  - intros _ group Hg Hl. destruct (so_links _ _ Hok1 _ _ _ Hp Hg Hl) as (i & Hi & Heq & Hs).
    apply Symlink_inj, abs_path_inj in Heq; [|unfold build_at; solve_plain..].
    rewrite <-Heq in Hs. apply (successful_dir _ Hok1) in Hs. fold rd in Hs.
    rewrite lookup_remove_tree, decide_False in Hs by done. congruence.
Qed.

Lemma has_info_publish fs proj id bi :
  has_info fs (build_at B proj "pending" id) bi →
  has_info (move_tree (build_at B proj "pending" id) (build_at B proj "ready" id) fs)
    (build_at B proj "ready" id) bi.
Proof.
  intros (s & Hs & Hm). exists s. split; [|done].
  rewrite lookup_move_tree, decide_True by (by eexists). by rewrite drop_app_length.
Qed.
End invariant.

(** ** The jobs that [NewJob] makes *)

Lemma comps_DataDir : comps DataDir = ["data"]. Proof. reflexivity. Qed.
Lemma comps_CacheDir : comps CacheDir = ["cache"]. Proof. reflexivity. Qed.
Lemma comps_ArtifactsDir : comps ArtifactsDir = ["artifacts"]. Proof. reflexivity. Qed.
Lemma comps_ParamsDir : comps ParamsDir = ["params"]. Proof. reflexivity. Qed.

(** [filepath.Join] below a clean absolute path, for names with or without a
    leading slash. *)
Lemma Join_below p es cs :
  Forall plain p → mjoin (comps <$> es) = cs → Forall plain cs → Join (abs_path p :: es) = abs_path (p ++ cs).
Proof. intros Hp <- Hc. by apply Join_abs. Qed.

Lemma hex_sha256_id `{Sha256} s : job_id (hex (sha256 s)).
Proof.
  pose proof (hex_length (sha256 s)) as Hl. rewrite sha256_length in Hl.
  split; [|lia]. split_and!; try (by intros Heq; rewrite Heq in Hl).
  apply Contains_hex.
Qed.

Lemma Join_build B proj d id :
  Forall plain B → plain proj → plain id → build_dir d →
  Join [abs_path (B ++ [proj]); d; id] = abs_path (build_at B proj d id).
Proof.
  intros HB Hp Hid Hd. assert (plain d) by (destruct Hd as [->| ->]; auto with mistry).
  rewrite (Join_below _ _ [d; id]); [unfold build_at; by rewrite <-app_assoc|solve_plain| |solve_plain].
  csimpl. by rewrite (comps_plain d), (comps_plain id).
Qed.

Lemma make_job_ok `{Sha256} B project params group cfg tar keys now now' :
  Forall plain B → cfg_BuildPath cfg = abs_path B → plain project → group_ok group →
  (∀ k v, params !! k = Some v → plain k) →
  job_ok B (make_job project params group cfg tar keys now now').
Proof.
  intros HB Hcfg Hp Hg Hk. set (j := make_job _ _ _ _ _ _ _ _).
  assert (Hid : job_id (j_ID j)) by apply hex_sha256_id.
  assert (Hroot : j_RootBuildPath j = abs_path (B ++ [project])).
  { change (j_RootBuildPath j) with (Join [cfg_BuildPath cfg; project]). rewrite Hcfg.
    apply Join_below; [done|csimpl; by rewrite (comps_plain project)|solve_plain]. }
  assert (Hd : ∀ d, build_dir d →
     Join [j_RootBuildPath j; d; j_ID j] = abs_path (build_at B project d (j_ID j))).
  { intros d Hd. rewrite Hroot. apply Join_build; auto. apply Hid. }
  split; try done.
  - exact (Hd "pending" ltac:(by left)).
  - exact (Hd "ready" ltac:(by right)).
  - change (j_LatestBuildPath j) with (latest_path (j_RootBuildPath j) group).
    rewrite Hroot. unfold latest_path, latest_at. change (j_Group j) with group.
    change (j_Project j) with project. case_decide.
    + rewrite (Join_below _ _ ["latest"]); [by rewrite <-app_assoc|solve_plain|done|solve_plain].
    + destruct Hg as [|Hg]; [done|].
      rewrite (Join_below _ _ ["groups"; group]); [by rewrite <-app_assoc|solve_plain| |solve_plain].
      csimpl. by rewrite (comps_plain group).
  - change (j_BuildLogPath j) with (Join [Join [j_RootBuildPath j; "pending"; j_ID j]; BuildLogFname]).
    rewrite Hd by (by left). apply Join_below; [unfold build_at; solve_plain|done|solve_plain].
  - change (j_BuildInfoFilePath j) with (Join [Join [j_RootBuildPath j; "pending"; j_ID j]; BuildInfoFname]).
    rewrite Hd by (by left). apply Join_below; [unfold build_at; solve_plain|done|solve_plain].
Qed.
