(* ===== verification/WorkSafety.v ===== *)
(** The store's invariant under cmd/mistryd/worker.go: every step of a build keeps
    it, whatever faults strike and whatever Docker answers. *)
From S2P Require Import Prelude GoStrings Paths World FSFacts Logic Types Filesystem Config Job Metrics Queues Worker Store.

Open Scope string_scope.
Open Scope list_scope.

Section safety.
Context {E : Env} {J : JSON} {D : Docker}.
Context (cfg : Config) (B : path).

(** What the configuration must give: a file system that keeps its contract, a
    Docker daemon that confines containers, and extra mounts away from the build
    directory. *)
Class config_ok : Prop := {
  co_fs :: FileSystemSpec (cfg_FileSystem cfg);
  co_docker :: DockerSpec;
  co_build : cfg_BuildPath cfg = abs_path B;
  co_mounts src target r : cfg_Mounts cfg !! src = Some target → ¬ comps src `prefix_of` (B ++ r);
}.

Section one_job.
Context (j : Job) (Hj : job_ok B j).

Abbreviation pd := (build_at B (j_Project j) "pending" (j_ID j)).
Abbreviation rd := (build_at B (j_Project j) "ready" (j_ID j)).
Abbreviation ld := (latest_at B (j_Project j) (j_Group j)).

Lemma plain_base : Forall plain B. Proof. apply Hj. Qed.
Lemma plain_pd r : Forall plain r → Forall plain (pd ++ r).
Proof. intros Hr. destruct Hj as [HB Hp _ [Hid _] _ _ _ _ _ _ _]. unfold build_at. solve_plain. Qed.
Lemma plain_rd r : Forall plain r → Forall plain (rd ++ r).
Proof. intros Hr. destruct Hj as [HB Hp _ [Hid _] _ _ _ _ _ _ _]. unfold build_at. solve_plain. Qed.
Lemma plain_ld : Forall plain ld.
Proof.
  destruct Hj as [HB Hp [Hg|Hg] _ _ _ _ _ _ _ _]; unfold latest_at; case_decide; solve_plain.
  done.
Qed.
Lemma build_at_not_nil d r : build_at B (j_Project j) d (j_ID j) ++ r ≠ [].
Proof. unfold build_at. by destruct B. Qed.

(** ** Directories *)

Lemma ensure_dir fs0 p :
  wf fs0 → Forall plain p → p ≠ [] → clear fs0 p →
  triple (λ fs, fs = fs0) (EnsureDirExists (abs_path p))
    (λ e fs, (fs = fs0 ∨ (fs0 !! p = None ∧ fs0 !! parent p = Some Dir ∧ fs = <[p := Dir]> fs0)) ∧
             (e = None → not_link fs0 p → fs !! p = Some Dir)).
Proof.
  intros Hw Hp Hne Hc. eapply triple_bind.
  - apply (triple_read _ _ _ _ (λ r fs, fs = fs0 ∧ ∀ n, r = Ok n → k_stat fs0 (abs_path p) = inr n)).
    + by intros fs e -> _.
    + intros fs n -> Hn. split; [done|]. by intros m [= <-].
  - intros [n|e].
    + destruct n; apply triple_ret; intros fs [-> Hn]; (split; [by left|]); try done.
      intros _ Hl. specialize (Hn Dir eq_refl). rewrite k_stat_clear in Hn by done.
      destruct (fs0 !! p); [by injection Hn as ->|done].
    + destruct (IsNotExist e); [|apply triple_ret; intros fs [-> _]; by split; [left|]].
      eapply triple_weaken; [by apply (Mkdir_creates p fs0)|by intros fs [-> _]|].
      intros [e'|] fs Hcr; [by rewrite Hcr; split; [left|]|].
      destruct Hcr as (Hn & Hd & ->). split; [right; done|].
      intros _ _. by rewrite lookup_insert_eq.
Qed.

(** Making sure of a directory of the store, with something else to carry along. *)
Lemma ensure_store (P : FS → Prop) p :
  Forall plain p → p ≠ [] → (∀ proj group, plain proj → group_ok group → p ≠ latest_at B proj group) →
  (∀ fs, store_ok B fs → P fs → clear fs p) →
  (∀ fs, P fs → P (<[p := Dir]> fs)) →
  triple (λ fs, store_ok B fs ∧ P fs) (EnsureDirExists (abs_path p))
    (λ e fs, (store_ok B fs ∧ P fs) ∧ (e = None → dirn fs p → fs !! p = Some Dir)).
Proof.
  intros Hp Hne Hnl Hc Hstable. apply triple_pre. intros w [Hok HP].
  eapply triple_weaken.
  - apply (ensure_dir (w_fs w) p); auto. apply Hok.
  - done.
  - intros e fs [[->|(Hn & Hd & ->)] He].
    + split; [done|]. intros -> Hdn. apply He; [done|]. by apply dirn_not_link.
    + split; [split; [by apply store_ok_mkdir|by apply Hstable]|].
      intros _ _. by rewrite lookup_insert_eq.
Qed.

Lemma triple_with_lock {A : Type} project (m : M World A) P Q : triple P m Q → triple P (with_lock project m) Q.
Proof.
  intros Hm. unfold with_lock. eapply triple_bind.
  - apply triple_pure. intros w. simpl. by destruct (w_locks w !! project) as [[]|].
  - intros []. eapply triple_bind; [exact Hm|]. intros a. eapply triple_bind.
    + apply triple_pure. intros w. simpl. by destruct (w_locks w !! project) as [[]|].
    + intros []. by apply triple_ret.
Qed.

(** What is true of a tree goes on being true when directories are made, down to
    those of a project, at places that are not for latest links. *)
Definition not_latest (p : path) : Prop :=
  ∀ proj group, plain proj → group_ok group → p ≠ latest_at B proj group.
Definition stable (P : FS → Prop) : Prop :=
  ∀ fs p, (length p ≤ length B + 2)%nat → not_latest p → P fs → P (<[p := Dir]> fs).

Lemma stable_and P Q : stable P → stable Q → stable (λ fs, P fs ∧ Q fs).
Proof. intros HP HQ fs p Hl Hn [? ?]. split; auto. Qed.

Lemma stable_dir p : stable (λ fs, fs !! p = Some Dir).
Proof. intros fs q Hl _ H. destruct (decide (q = p)) as [->|]; [by rewrite lookup_insert_eq|by rewrite lookup_insert_ne]. Qed.

Lemma ensure_top (P : FS → Prop) l :
  stable P → Forall plain l → l ≠ [] → (length l ≤ 2)%nat → (∀ fs, store_ok B fs → clear fs (B ++ l)) →
  (∀ fs, store_ok B fs → dirn fs (B ++ l)) →
  (∀ proj group, plain proj → group_ok group → B ++ l ≠ latest_at B proj group) →
  triple (λ fs, store_ok B fs ∧ P fs) (EnsureDirExists (abs_path (B ++ l)))
    (λ e fs, store_ok B fs ∧ P fs ∧ (e = None → fs !! (B ++ l) = Some Dir)).
Proof.
  intros HP Hl Hne Hlen Hc Hd Hnl. pose proof plain_base as HB. eapply triple_weaken.
  - apply (ensure_store P (B ++ l)); auto; [solve_plain|by destruct B|].
    intros fs. apply HP; [rewrite length_app; lia|done].
  - done.
  - intros e fs [[Hok HPf] He]. split_and!; auto.
Qed.

(** The directories that [BootstrapProject] makes sure of. *)
Definition bootstrapped (fs : FS) : Prop :=
  fs !! (B ++ [j_Project j; "pending"]) = Some Dir ∧ fs !! (B ++ [j_Project j; "ready"]) = Some Dir ∧
  (j_Group j ≠ "" → fs !! (B ++ [j_Project j; "groups"]) = Some Dir).

Lemma ensure_sub (P : FS → Prop) d :
  stable P → top_dir d →
  triple (λ fs, store_ok B fs ∧ P fs) (EnsureDirExists (Join [j_RootBuildPath j; d]))
    (λ e fs, store_ok B fs ∧ P fs ∧ (e = None → fs !! (B ++ [j_Project j; d]) = Some Dir)).
Proof.
  intros HP Hd. pose proof plain_base as HB. destruct Hj as [_ Hp _ _ _ Hroot _ _ _ _ _].
  assert (plain d) as Hdp by (destruct Hd as [[-> | ->] | ->]; auto with mistry).
  rewrite Hroot, (Join_below _ _ [d]); [|solve_plain|csimpl; by rewrite comps_plain|solve_plain].
  rewrite <-app_assoc. apply ensure_top; [done|solve_plain|done|simpl; lia|..].
  - intros fs Hok. by apply clear_dir.
  - intros fs Hok. by apply Hok.
  - intros proj group _ _ Heq. symmetry in Heq. eapply latest_not_dir in Heq; [done|simpl; lia|].
    intros p [= _ ->]. by destruct Hd as [[]|].
Qed.

Lemma bootstrap_store (P : FS → Prop) :
  stable P →
  triple (λ fs, store_ok B fs ∧ P fs) (BootstrapProject j)
    (λ e fs, store_ok B fs ∧ P fs ∧ (e = None → bootstrapped fs)).
Proof.
  intros HP. pose proof plain_base as HB. pose proof (jo_proj _ _ Hj) as Hp.
  unfold BootstrapProject. apply triple_with_lock. rewrite (jo_root _ _ Hj) at 1.
  eapply triple_andM; [apply (ensure_top P [j_Project j]); [done|solve_plain|done|simpl; lia|..]|by intros e fs (? & ? & _)|].
  { intros fs Hok. by apply clear_proj. } { intros fs Hok. by apply Hok. }
  { intros proj group _ _ Heq. symmetry in Heq. by eapply latest_not_dir in Heq; [|simpl; lia|]. }
  eapply triple_andM; [eapply triple_weaken; [apply (ensure_sub P "pending"); [done|left; by left]
    |by intros fs (? & ? & _)|intros e fs H; exact H]|by intros e fs (? & ? & _)|].
  set (P1 := λ fs, P fs ∧ fs !! (B ++ [j_Project j; "pending"]) = Some Dir).
  assert (HP1 : stable P1) by (apply stable_and; [done|apply stable_dir]).
  eapply triple_andM; [eapply triple_weaken; [apply (ensure_sub P1 "ready"); [done|left; by right]
    |intros fs (? & ? & He); unfold P1; auto|intros e fs He; exact He]|by intros e fs (? & [? _] & _)|].
  set (P2 := λ fs, P1 fs ∧ fs !! (B ++ [j_Project j; "ready"]) = Some Dir).
  assert (HP2 : stable P2) by (apply stable_and; [done|apply stable_dir]).
  case_decide as Hg.
  - apply triple_ret. intros fs (? & [? ?] & He). split_and!; [done..|]. intros _. by split_and!; auto.
  - eapply triple_weaken; [apply (ensure_sub P2 "groups"); [done|by right]
      |intros fs (? & ? & He); unfold P2; auto|].
    intros e fs (Hok & [[? ?] ?] & He). split_and!; [done..|]. intros ->. by split_and!; auto.
Qed.

(** ** Inside the pending directory *)

Lemma store_ok_pd fs fs' :
  store_ok B fs → wf fs' → (∀ r, ¬ pd `prefix_of` B ++ r → fs' !! (B ++ r) = fs !! (B ++ r)) →
  build_shape fs' pd → store_ok B fs'.
Proof.
  intros Hok Hw Hs Hb. apply (store_ok_build B fs Hok fs' (j_Project j) "pending" (j_ID j));
    [apply Hj|apply Hj|by left|done|done|done|done|apply plain_base].
Qed.

Lemma pd_shape fs : store_ok B fs → build_shape fs pd.
Proof. intros Hok. apply Hok; [apply Hj..|by left]. Qed.

Lemma pd_clear fs : store_ok B fs → clear fs pd.
Proof. intros Hok. apply clear_build; [done|apply Hj|left; by left]. Qed.

Lemma pd_clear_file fs c : store_ok B fs → clear fs (pd ++ [c]).
Proof. intros Hok. apply clear_below; [done|apply Hj..|by left]. Qed.

Lemma pd_clear_data fs c : store_ok B fs → clear fs (pd ++ ["data"; c]).
Proof. intros Hok. apply clear_data; [done|apply Hj..|by left]. Qed.

(** Writing a file at a place where the server writes one. *)
Lemma store_ok_file fs r x :
  store_ok B fs → r ≠ [] → r ≠ ["data"] → fs !! parent (pd ++ r) = Some Dir →
  fs !! (pd ++ r) ≠ Some Dir → store_ok B (<[pd ++ r := File x]> fs).
Proof.
  intros Hok Hr Hrd Hp Hn. pose proof (pd_shape fs Hok) as (H1&H2&H3&H4).
  apply (store_ok_pd fs); [done|..].
  - apply wf_insert; [apply Hok|apply build_at_not_nil|done|by right].
  - intros q Hq. rewrite lookup_insert_ne; [done|]. intros Heq. destruct Hq. rewrite <-Heq. by exists r.
  - split_and!.
    + unfold dirn. rewrite lookup_insert_ne; [done|].
      intros H%(f_equal length). rewrite length_app in H. destruct r; [done|simpl in H; lia].
    + unfold dirn. rewrite lookup_insert_ne; [done|]. by intros ->%app_inv_head.
    + by apply not_link_insert.
    + by apply not_link_insert.
Qed.

Lemma write_pd (P : FS → Prop) r x :
  Forall plain r → r ≠ [] → r ≠ ["data"] →
  (∀ fs, store_ok B fs → P fs → clear fs (pd ++ r) ∧ not_link fs (pd ++ r)) →
  triple (λ fs, store_ok B fs ∧ P fs) (WriteFile (abs_path (pd ++ r)) x)
    (λ e fs, match e with
             | Some _ => store_ok B fs ∧ P fs
             | None => store_ok B fs ∧ ∃ fs0, P fs0 ∧ fs = <[pd ++ r := File x]> fs0
             end).
Proof.
  intros Hr Hne Hnd Hc. apply triple_write; [done|].
  intros fs fs' [Hok HP] Hk. destruct (Hc fs Hok HP) as [Hcl Hl]. unfold k_write in Hk.
  destruct (locate_clear fs (so_wf _ _ Hok) (pd ++ r) true) as [H|[H _]];
    [by apply plain_pd|done|by right|rewrite H in Hk|by rewrite H in Hk].
  assert (Hd : fs !! (pd ++ r) ≠ Some Dir) by (intros Hd; by rewrite Hd in Hk).
  assert (fs' = <[pd ++ r := File x]> fs) as -> by (destruct (fs !! (pd ++ r)) as [[]|]; congruence).
  split; [|eauto]. apply store_ok_file; auto.
  eapply locate_parent; [apply Hok|done|apply build_at_not_nil].
Qed.

Lemma append_pd (P : FS → Prop) r x :
  Forall plain r → r ≠ [] → r ≠ ["data"] →
  (∀ fs, store_ok B fs → P fs → clear fs (pd ++ r) ∧ not_link fs (pd ++ r)) →
  (∀ fs y, P fs → P (<[pd ++ r := File y]> fs)) →
  triple (λ fs, store_ok B fs ∧ P fs) (AppendFile (abs_path (pd ++ r)) x) (λ _ fs, store_ok B fs ∧ P fs).
Proof.
  intros Hr Hne Hnd Hc Hstable. apply triple_write; [done|].
  intros fs fs' [Hok HP] Hk. destruct (Hc fs Hok HP) as [Hcl Hl]. unfold k_append in Hk.
  destruct (locate_clear fs (so_wf _ _ Hok) (pd ++ r) true) as [H|[H _]];
    [by apply plain_pd|done|by right|rewrite H in Hk|by rewrite H in Hk].
  destruct (fs !! (pd ++ r)) as [[|d|]|] eqn:Hn; try done. injection Hk as <-.
  split; [|by apply Hstable]. apply store_ok_file; auto; [|congruence].
  eapply locate_parent; [apply Hok|done|apply build_at_not_nil].
Qed.

(** A log file that was created. *)
Definition has_log (fs : FS) (p : path) : Prop := ∃ l, fs !! (p ++ ["out.log"]) = Some (File l).

Lemma append_log x :
  triple (λ fs, store_ok B fs ∧ has_log fs pd) (AppendFile (j_BuildLogPath j) x)
    (λ _ fs, store_ok B fs ∧ has_log fs pd).
Proof.
  rewrite (jo_log _ _ Hj). apply append_pd; [solve_plain|done|done|..].
  - intros fs Hok [l Hl]. split; [by apply pd_clear_file|]. intros t. congruence.
  - intros fs y _. exists y. by rewrite lookup_insert_eq.
Qed.

(** ** The build directories *)

(** The parameter directory is there and holds no link. *)
Definition params_ready (fs : FS) : Prop :=
  fs !! (pd ++ ["data"; "params"]) = Some Dir ∧ ∀ k, not_link fs (pd ++ ["data"; "params"; k]).

Definition no_params (fs : FS) : Prop := ∀ r, fs !! (pd ++ ["data"; "params"] ++ r) = None.

Lemma pending_join cs es :
  mjoin (comps <$> es) = cs → Forall plain cs → Join (j_PendingBuildPath j :: es) = abs_path (pd ++ cs).
Proof.
  intros Hc Hp. rewrite (jo_pending _ _ Hj). apply Join_below; [|done..].
  rewrite <-(app_nil_r pd). by apply plain_pd.
Qed.

Lemma pd_not_latest r proj group : pd ++ r ≠ latest_at B proj group.
Proof. intros H. symmetry in H. eapply latest_not_build in H; [done|by left]. Qed.

Lemma create_params :
  triple (λ fs, store_ok B fs ∧ no_params fs) (forM EnsureDirExists (build_dirs j))
    (λ e fs, store_ok B fs ∧ (e = None → params_ready fs)).
Proof.
  assert (Hdir : ∀ es cs, mjoin (comps <$> es) = cs → Forall plain cs → cs ≠ [] →
    ¬ ["data"; "params"] `prefix_of` cs → (∀ fs, store_ok B fs → clear fs (pd ++ cs)) →
    triple (λ fs, store_ok B fs ∧ no_params fs) (EnsureDirExists (Join (j_PendingBuildPath j :: es)))
      (λ _ fs, store_ok B fs ∧ no_params fs)).
  { intros es cs Hc Hp Hne Hpre Hcl. rewrite (pending_join cs) by done. eapply triple_weaken.
    - apply (ensure_store no_params (pd ++ cs)); [by apply plain_pd|apply build_at_not_nil|..].
      + intros. apply pd_not_latest.
      + auto.
      + intros fs Hno r. rewrite lookup_insert_ne; [apply Hno|].
        intros H%app_inv_head. destruct Hpre. by exists r.
    - done.
    - by intros e fs [? _]. }
  unfold build_dirs. cbn [forM].
  eapply triple_andM; [apply (Hdir [DataDir] ["data"]); [done|solve_plain|done| |]| |].
  { rewrite prefix_cons_iff. by intros [_ []%prefix_nil_not]. } { intros. by apply pd_clear_file. }
  { by intros e fs [? _]. }
  eapply triple_andM; [apply (Hdir [DataDir; CacheDir] ["data"; "cache"]); [done|solve_plain|done| |]| |].
  { rewrite !prefix_cons_iff. by intros (_ & [=] & _). } { intros. by apply pd_clear_data. }
  { by intros e fs [? _]. }
  eapply triple_andM; [apply (Hdir [DataDir; ArtifactsDir] ["data"; "artifacts"]); [done|solve_plain|done| |]| |].
  { rewrite !prefix_cons_iff. by intros (_ & [=] & _). } { intros. by apply pd_clear_data. }
  { by intros e fs [? _]. }
  rewrite (pending_join ["data"; "params"]) by (done || solve_plain).
  assert (Hpar : pd ++ ["data"; "params"] ≠ []) by apply build_at_not_nil.
  apply (triple_andM _ _ _ (λ e fs, store_ok B fs ∧ (e = None → params_ready fs))); [|done|].
  - eapply triple_weaken.
    + apply (ensure_store (λ fs, dirn fs (pd ++ ["data"; "params"]) ∧
        ∀ k, not_link fs (pd ++ ["data"; "params"; k]))).
      * apply plain_pd. solve_plain.
      * done.
      * intros. apply pd_not_latest.
      * intros. by apply pd_clear_data.
      * intros fs [Hd Hl]. split; [by apply dirn_insert_dir|].
        intros k. by apply not_link_insert.
    + intros fs [Hok Hno]. split_and!; [done|left; exact (Hno [])|].
      intros k t. by rewrite (Hno [k] : fs !! (pd ++ ["data"; "params"; k]) = None).
    + intros e fs [[Hok [Hd Hl]] He].
      exact (conj Hok (λ H, conj (He H Hd) Hl) : store_ok B fs ∧ (e = None → params_ready fs)).
  - apply triple_ret. intros fs [Hok Hp]. by split; [|intros _; apply Hp].
Qed.

Lemma clone_src :
  triple (store_ok B) (CloneSrcPath j)
    (λ s fs, store_ok B fs ∧
             (s = "" ∨ ∃ id, job_id id ∧ s = abs_path (build_at B (j_Project j) "ready" id) ∧
                             successful fs (build_at B (j_Project j) "ready" id))).
Proof.
  unfold CloneSrcPath. case_decide as Hg; [apply triple_ret; by auto|].
  rewrite (jo_latest _ _ Hj). eapply triple_bind.
  - apply (triple_read _ _ _ _ (λ r fs, store_ok B fs ∧ ∀ s, r = Ok s →
       k_eval_symlinks fs (abs_path ld) = inr s)); [by intros|].
    intros fs s Hok Hs. split; [done|]. by intros s' [= <-].
  - intros [s|e]; apply triple_ret; intros fs [Hok Hs]; (split; [done|]); [right|by left].
    specialize (Hs s eq_refl). destruct (fs !! ld) as [n|] eqn:Hn.
    + destruct (so_links _ _ Hok _ _ _ (jo_proj _ _ Hj) (jo_group _ _ Hj) Hn) as (id & Hid & -> & Hsucc).
      exists id. split_and!; [done| |done]. erewrite eval_link in Hs.
      * by injection Hs as <-.
      * apply Hok.
      * apply plain_ld.
      * pose proof plain_base. pose proof (jo_proj _ _ Hj). unfold build_at. solve_plain.
      * done.
      * by apply (successful_dir B fs Hok).
    + destruct (eval_missing fs ld) as [e He];
        [apply plain_ld|apply clear_latest; [done|apply Hj]|done|congruence].
Qed.

Context (Hcfg : config_ok).

(** The pending directory, fresh or cloned. *)
Lemma create_store :
  triple (store_ok B) (fs_Create (cfg_FileSystem cfg) (j_PendingBuildPath j))
    (λ e fs, store_ok B fs ∧ (e = None → no_params fs)).
Proof.
  rewrite (jo_pending _ _ Hj). apply triple_pre. intros w Hok. eapply triple_weaken.
  - apply (create_spec pd (w_fs w)); [apply Hok|..].
    + rewrite <-(app_nil_r pd). by apply plain_pd.
    + rewrite <-(app_nil_r pd). apply build_at_not_nil.
    + by apply pd_clear.
  - done.
  - intros [e|] fs Hc; [by rewrite Hc|]. destruct Hc as (Hn & Hd & ->). split.
    + apply store_ok_mkdir; [done| |done|done|].
      * rewrite <-(app_nil_r pd). apply build_at_not_nil.
      * intros. rewrite <-(app_nil_r pd). apply pd_not_latest.
    + intros _ r. rewrite lookup_insert_ne.
      * destruct (w_fs w !! (pd ++ ["data"; "params"] ++ r)) as [n|] eqn:Hs; [|done].
        apply (wf_prefix _ pd) in Hs; [congruence|apply Hok|done].
      * intros H%(f_equal length). rewrite length_app in H. simpl in H. lia.
Qed.

Lemma clone_store id :
  job_id id →
  triple (λ fs, store_ok B fs ∧ successful fs (build_at B (j_Project j) "ready" id))
    (fs_Clone (cfg_FileSystem cfg) (abs_path (build_at B (j_Project j) "ready" id)) (j_PendingBuildPath j))
    (λ _ fs, store_ok B fs).
Proof.
  intros Hid. set (src := build_at B (j_Project j) "ready" id).
  rewrite (jo_pending _ _ Hj). apply triple_pre. intros w [Hok Hs].
  pose proof plain_base as HB. pose proof (jo_proj _ _ Hj) as Hp.
  eapply triple_weaken.
  - apply (clone_spec src pd (w_fs w)); [apply Hok|..].
    + unfold src, build_at. solve_plain.
    + rewrite <-(app_nil_r pd). by apply plain_pd.
    + rewrite <-(app_nil_r pd). apply build_at_not_nil.
    + by apply pd_clear.
    + by apply (successful_dir B _ Hok).
    + unfold src, build_at. rewrite prefix_app_cancel, !prefix_cons_iff. by intros (_ & [=] & _).
  - done.
  - intros e fs [Hw Hc]. destruct (w_fs w !! pd) as [n|] eqn:Hpd.
    + assert (Hlast : last src = Some id).
      { unfold src, build_at. by rewrite last_app. }
      rewrite Hlast in Hc. simpl in Hc.
      assert (Hsame : ∀ r, r ≠ id → w_fs w !! (pd ++ [r]) = fs !! (pd ++ [r])).
      { intros r Hr. symmetry. apply Hc. rewrite prefix_app_cancel, prefix_cons_iff. by intros [<- _]. }
      apply (store_ok_pd (w_fs w)); [done|done|..].
      * intros q Hq. apply Hc. intros Hpre. destruct Hq. etrans; [|exact Hpre]. by exists [id].
      * destruct (pd_shape _ Hok) as (H1&H2&H3&H4). destruct Hid as [_ Hlen].
        unfold build_shape, dirn, not_link in *.
        rewrite <-!Hsame by (intros Heq; rewrite <-Heq in Hlen; done).
        split_and!; [|done..]. rewrite (Hc pd); [done|].
        intros H%prefix_length. rewrite length_app in H. simpl in H. lia.
    + destruct Hc as (Hsame & Hkind & _).
      destruct (so_builds _ _ Hok (j_Project j) "ready" id Hp Hid ltac:(by right)) as (H1&H2&H3&H4).
      fold src in H1, H2, H3, H4.
      assert (Hdirn : ∀ r, dirn (w_fs w) (src ++ r) → dirn fs (pd ++ r)).
      { intros r Hd. unfold dirn. destruct (fs !! (pd ++ r)) as [m|] eqn:Hm; [|by left].
        destruct (Hkind r m Hm) as (m' & Hm' & Hk). destruct Hd as [Hd|Hd]; [congruence|].
        rewrite Hd in Hm'. injection Hm' as <-. destruct m; [by right|done..]. }
      assert (Hlink : ∀ r, not_link (w_fs w) (src ++ r) → not_link fs (pd ++ r)).
      { intros r Hl t Ht. destruct (Hkind r _ Ht) as (m' & Hm' & Hk).
        destruct m'; try done. by eapply Hl. }
      apply (store_ok_pd (w_fs w)); [done|done|by intros r Hr; apply Hsame|]. split_and!; auto.
      specialize (Hdirn []). rewrite !app_nil_r in Hdirn. auto.
Qed.

Lemma clear_params :
  triple (store_ok B) (RemoveAll (Join [j_PendingBuildPath j; DataDir; ParamsDir]))
    (λ e fs, store_ok B fs ∧ (e = None → no_params fs)).
Proof.
  rewrite (pending_join ["data"; "params"]) by (done || solve_plain).
  set (p := pd ++ ["data"; "params"]).
  apply triple_write; [by intros|]. intros fs fs' Hok Hk. unfold k_remove_all in Hk.
  pose proof (pd_clear_data fs "params" Hok) as Hc. fold p in Hc.
  assert (Hp : Forall plain p) by (apply plain_pd; solve_plain).
  destruct (locate_clear fs (so_wf _ _ Hok) p false Hp Hc) as [H|[H Hn]]; [by left|rewrite H in Hk..].
  - rewrite decide_False in Hk by apply build_at_not_nil. injection Hk as <-.
    assert (Hout : ∀ q, ¬ p `prefix_of` q → remove_tree p fs !! q = fs !! q).
    { intros q Hq. by rewrite lookup_remove_tree, decide_False. }
    split.
    + apply (store_ok_pd fs); [done|..].
      * apply wf_remove_tree; [apply Hok|apply build_at_not_nil].
      * intros q Hq. apply Hout. intros Hpre. destruct Hq. etrans; [|exact Hpre]. by exists ["data"; "params"].
      * destruct (pd_shape _ Hok) as (H1&H2&H3&H4). unfold build_shape, dirn, not_link in *.
        rewrite !Hout; [done|..]; unfold p.
        all: try (rewrite prefix_app_cancel, !prefix_cons_iff).
        { by intros [[=] _]. } { by intros [[=] _]. } { by intros [_ []%prefix_nil_not]. }
        intros Hl%prefix_length. rewrite length_app in Hl. simpl in Hl. lia.
    + intros _ r. rewrite lookup_remove_tree, decide_True; [done|].
      exists r. unfold p. by rewrite <-app_assoc.
  - injection Hk as <-. split; [done|]. intros _ r.
    destruct (fs !! (pd ++ ["data"; "params"] ++ r)) as [m|] eqn:Hm; [|done].
    destruct r as [|c r]; [unfold p in Hn; simpl in *; congruence|].
    rewrite app_assoc in Hm. apply (wf_prefix _ p) in Hm; [congruence|apply Hok|done].
Qed.

(** [BootstrapBuildDir] keeps the store, and when it succeeds the directory for
    the parameters is a new one. *)
Lemma bootstrap_dir bi :
  triple (store_ok B) (BootstrapBuildDir j (cfg_FileSystem cfg) bi)
    (λ r fs, store_ok B fs ∧ (r.2 = None → params_ready fs)).
Proof.
  unfold BootstrapBuildDir. eapply triple_bind; [apply clone_src|]. intros src.
  apply (triple_bind _ _ (λ r fs, store_ok B fs ∧ (src = "" → r.2 = None → no_params fs))).
  - case_decide as Hsrc;
      apply (triple_bind _ _ (λ e fs, store_ok B fs ∧ (src = "" → e = None → no_params fs)));
      try (intros e; by apply triple_ret).
    + eapply triple_weaken; [apply create_store|by intros fs [? _]|]. by intros e fs [? ?].
    + apply triple_pre. intros w [Hok [?|(id & Hid & -> & Hsucc)]]; [done|].
      eapply triple_weaken; [by apply (clone_store id)|by intros fs ->|]. by intros e fs ?.
  - intros [bi' [e|]]; [apply triple_ret; by intros fs [? _]|]. cbn [snd].
    apply (triple_bind _ _ (λ e fs, store_ok B fs ∧ (e = None → no_params fs))).
    + case_decide as Hsrc.
      * apply triple_ret. intros fs [? H]. auto.
      * eapply triple_wrapM; [eapply triple_weaken; [apply clear_params|by intros fs [? _]|]|].
        { intros e fs H. exact H. }
        intros e fs [? He]. split; [done|]. intros ?. apply He. by destruct e.
    + intros [e|]; [apply triple_ret; by intros fs [? _]|].
      eapply triple_bind; [|intros e; apply triple_ret; intros fs H; exact H].
      eapply triple_wrapM.
      * eapply triple_weaken; [apply create_params|intros fs [? H]; auto|intros e fs H; exact H].
      * intros e fs [? He]. split; [done|]. simpl. intros ?. apply He. by destruct e.
Qed.

(** ** The build info file *)

Abbreviation strip := (set_ContainerLogs "" "").

Lemma persist_store (P : FS → Prop) bi :
  (∀ fs x, P fs → P (<[pd ++ ["build_info.json"] := File x]> fs)) →
  triple (λ fs, store_ok B fs ∧ P fs) (persistBuildInfo j bi)
    (λ e fs, (store_ok B fs ∧ P fs) ∧ (e = None → has_info fs pd (strip bi))).
Proof.
  intros Hst. unfold persistBuildInfo. destruct (json_marshal _) as [s|e] eqn:Hm; [|by apply triple_ret].
  rewrite (jo_info _ _ Hj). eapply triple_weaken.
  - apply (write_pd P ["build_info.json"] s); [solve_plain|done..|].
    intros fs Hok _. split; [by apply pd_clear_file|]. by apply pd_shape.
  - done.
  - intros [e|] fs; [by intros ?|]. intros (Hok & fs0 & HP & ->). split; [by auto|].
    intros _. exists s. by rewrite lookup_insert_eq.
Qed.

(** ** Parameters, image and container *)

Lemma params_store :
  triple (λ fs, store_ok B fs ∧ params_ready fs) (write_params j) (λ _ fs, store_ok B fs).
Proof.
  unfold write_params. eapply triple_bind.
  - apply (λ H, H : triple _ (Range (j_Params j)) (λ l fs, (store_ok B fs ∧ params_ready fs) ∧ l ≡ₚ map_to_list (j_Params j))).
    intros w H. split; [done|]. apply env_range_perm.
  - intros kvs. apply triple_pre. intros w [H Hperm].
    apply (triple_at (λ fs, store_ok B fs ∧ params_ready fs)); [done|].
    eapply triple_wrapM; [apply (triple_forM (λ fs, store_ok B fs ∧ params_ready fs))|by intros e fs [? _]].
    intros [k v] Hkv. cbn [fst snd].
    assert (Hk : plain k).
    { eapply (jo_params _ _ Hj k v). apply elem_of_map_to_list. by rewrite <-Hperm. }
    rewrite (pending_join ["data"; "params"; k]); [|csimpl; by rewrite (comps_plain k)|solve_plain].
    eapply triple_weaken.
    + apply (write_pd params_ready ["data"; "params"; k]); [solve_plain|done..|].
      intros fs Hok [Hd Hl]. split; [|apply Hl].
      change ["data"; "params"; k] with (["data"; "params"] ++ [k]). rewrite app_assoc.
      apply clear_snoc; [by apply pd_clear_data|by right].
    + done.
    + intros [e|] fs; [by intros ?|]. intros (Hok & fs0 & [Hd Hl] & ->). split; [done|]. split.
      * rewrite lookup_insert_ne; [done|]. by intros ?%app_inv_head.
      * intros k'. apply not_link_insert; [apply Hl|done].
Qed.

Lemma create_log_store :
  triple (store_ok B) (CreateFile (j_BuildLogPath j))
    (λ e fs, store_ok B fs ∧ (e = None → has_log fs pd)).
Proof.
  rewrite (jo_log _ _ Hj). eapply triple_weaken.
  - apply (write_pd (λ _, True) ["out.log"] ""); [solve_plain|done..|].
    intros fs Hok _. split; [by apply pd_clear_file|]. by apply pd_shape.
  - by intros fs ?.
  - intros [e|] fs; [by intros [? _]|]. intros (Hok & fs0 & _ & ->). split; [done|].
    intros _. exists "". by rewrite lookup_insert_eq.
Qed.

Lemma triple_docker {A : Type} (f : nat → A) P : triple P (docker f) (λ _ fs, P fs).
Proof. by apply triple_pure. Qed.

Section with_log.
Context (I : FS → Prop) (out : string → M World error).
Context (Hout : ∀ x, triple I (out x) (λ _ fs, I fs)).

Lemma image_store uid pull nocache : triple I (BuildImage j uid out pull nocache) (λ _ fs, I fs).
Proof.
  unfold BuildImage. eapply triple_bind; [apply triple_docker|]. intros [body|e]; [|by apply triple_ret].
  eapply triple_bind; [apply triple_docker|]. intros shown.
  eapply triple_bind; [apply Hout|]. intros [e|]; [by apply triple_ret|].
  destruct shown.2; [by apply triple_ret|].
  eapply triple_bind; [apply triple_docker|]. intros e. by apply triple_ret.
Qed.

Lemma std_copy_store frames last : ∀ acc, triple I (StdCopy out frames last acc) (λ _ fs, I fs).
Proof.
  induction frames as [|[b x] frames IH]; intros acc; [by apply triple_ret|]. simpl.
  eapply triple_bind; [apply Hout|]. intros [e|]; [by apply triple_ret|]. apply IH.
Qed.

Lemma rename_existing_store name : triple I (renameIfExists name) (λ _ fs, I fs).
Proof.
  eapply triple_bind; [apply triple_docker|]. intros [cs|e]; [|by apply triple_ret].
  apply triple_forM. intros c _. apply (triple_bind _ _ (λ _ fs, I fs)).
  - apply (triple_bind _ _ (λ _ fs, I fs)); [by apply triple_pure|]. intros x. by apply triple_ret.
  - intros r. apply triple_docker.
Qed.

Lemma container_store :
  (∀ n extra fs, extra ≡ₚ map_to_list (cfg_Mounts cfg) → I fs →
     I (d_container_fs n (container_mounts j extra) fs)) →
  triple I (StartContainer j cfg out) (λ _ fs, I fs).
Proof.
  intros Heff. unfold StartContainer. eapply triple_bind.
  - apply (λ H, H : triple _ (Range (cfg_Mounts cfg)) (λ l fs, I fs ∧ l ≡ₚ map_to_list (cfg_Mounts cfg))).
    intros w H. split; [done|]. apply env_range_perm.
  - intros extra. apply triple_pre. intros w [Hw Hperm].
    apply (triple_at I); [done|].
    eapply triple_bind; [apply rename_existing_store|]. intros ?.
    eapply triple_bind; [apply triple_docker|]. intros [id|e]; [|by apply triple_ret].
    eapply triple_bind; [apply triple_docker|]. intros [e|]; [by apply triple_ret|].
    apply (triple_bind _ _ (λ _ fs, I fs)); [intros w' Hw'; by apply Heff|intros []].
    apply (triple_bind _ _ (λ _ fs, I fs)).
    + eapply triple_bind; [apply triple_docker|]. intros [e|]; [by apply triple_ret|].
      eapply triple_bind; [apply triple_docker|]. intros fr.
      eapply triple_bind; [apply std_copy_store|]. intros [outErr [e|]]; [by apply triple_ret|].
      eapply triple_bind; [apply triple_docker|]. intros [raw|e]; [|by apply triple_ret].
      by destruct (d_decode_exit_code raw); apply triple_ret.
    + intros r. eapply triple_bind; [apply triple_docker|]. intros e. by apply triple_ret.
Qed.
End with_log.

Abbreviation logged := (λ fs, store_ok B fs ∧ has_log fs pd).

(** The container of a job only changes what is below its data directory. *)
Lemma container_frame_pd n extra fs q :
  extra ≡ₚ map_to_list (cfg_Mounts cfg) → (∃ r, q = B ++ r) → ¬ strictly_below (pd ++ ["data"]) q →
  d_container_fs n (container_mounts j extra) fs !! q = fs !! q.
Proof.
  intros Hperm [r ->] Hq. apply container_frame. intros src Hsrc (c & r' & Hbelow).
  unfold container_mounts in Hsrc. rewrite (pending_join ["data"]) in Hsrc by (done || solve_plain).
  rewrite fmap_cons in Hsrc. apply elem_of_cons in Hsrc as [->|Hsrc]; simpl in *.
  - destruct Hq. exists c, r'. rewrite comps_abs_path in Hbelow; [done|]. apply plain_pd. solve_plain.
  - rewrite Hperm in Hsrc. apply list_elem_of_fmap in Hsrc as ([k v] & -> & Hkv%elem_of_map_to_list).
    apply (co_mounts k v r Hkv). simpl in Hbelow. exists (c :: r'). done.
Qed.

Lemma container_effect n extra fs :
  extra ≡ₚ map_to_list (cfg_Mounts cfg) → logged fs →
  logged (d_container_fs n (container_mounts j extra) fs).
Proof.
  intros Hperm [Hok Hlog]. set (fs' := d_container_fs _ _ _).
  assert (Hframe : ∀ q, (∃ r, q = B ++ r) → ¬ strictly_below (pd ++ ["data"]) q → fs' !! q = fs !! q).
  { intros q. by apply container_frame_pd. }
  assert (Hpd : ∀ r, ¬ (∃ c r', r = "data" :: c :: r') → fs' !! (pd ++ r) = fs !! (pd ++ r)).
  { intros r Hr. apply Hframe; [unfold build_at; rewrite <-app_assoc; by eexists|].
    intros (c & r' & Heq). rewrite <-app_assoc in Heq. apply app_inv_head in Heq. simpl in Heq. eauto. }
  destruct (pd_shape _ Hok) as (H1&H2&H3&H4). split.
  - apply (store_ok_pd fs); [done|by apply container_wf, Hok|..].
    + intros r Hr. apply Hframe; [by eexists|]. intros (c & r' & Heq). destruct Hr. rewrite Heq.
      exists ("data" :: c :: r'). by rewrite <-app_assoc.
    + unfold build_shape, dirn, not_link in *. rewrite !Hpd by (intros (c & r' & [=])).
      pose proof (Hpd [] ltac:(intros (c & r' & [=]))) as H0. by rewrite app_nil_r in H0; rewrite H0.
  - destruct Hlog as [l Hl]. exists l. by rewrite Hpd by (intros (c & r' & [=])).
Qed.

(** ** From the container to the published build *)

Lemma run_container_keeps (I : FS → Prop) start bi :
  (∀ x, triple I (AppendFile (j_BuildLogPath j) x) (λ _ fs, I fs)) →
  (∀ n extra fs, extra ≡ₚ map_to_list (cfg_Mounts cfg) → I fs → I (d_container_fs n (container_mounts j extra) fs)) →
  triple I (run_container cfg j start bi) (λ _ fs, I fs).
Proof.
  intros Hout Heff. unfold run_container. eapply triple_bind; [by apply (image_store I)|].
  intros [e|]; [by apply triple_ret|]. eapply triple_bind; [by apply (container_store I)|].
  intros [[code outErr] [e|]]; [by apply triple_ret|].
  eapply triple_bind; [apply (triple_write _ _ I (λ _ fs, I fs)); [done|by intros fs fs' ? [= <-]]|].
  intros [e|]; [by apply triple_ret|].
  eapply triple_bind; [apply (triple_read _ _ _ I (λ _ fs, I fs)); done|].
  intros [log|e]; [|by apply triple_ret].
  eapply triple_bind; [by apply triple_pure|]. intros now.
  apply (triple_bind _ _ (λ _ fs, I fs)); [|intros []; by apply triple_ret].
  apply triple_pure. intros w. apply RecordBuildFinished_fs.
Qed.

Lemma triple_logged_body start bi : triple logged (run_container cfg j start bi) (λ _ fs, logged fs).
Proof. apply run_container_keeps; [intros x; apply append_log|intros n extra fs; apply container_effect]. Qed.

Lemma close_store {A : Type} msg close (body : M World (A * error)) (P : FS → Prop) Q :
  triple P body (λ _ fs, Q fs) → triple Q close (λ _ fs, Q fs) →
  triple P (defer_close msg close body) (λ _ fs, Q fs).
Proof.
  intros Hb Hc. eapply triple_bind; [exact Hb|]. intros [a err].
  eapply triple_bind; [exact Hc|]. intros d. by apply triple_ret.
Qed.

Lemma body_store start bi :
  triple (λ fs, store_ok B fs ∧ params_ready fs) (build_body cfg j start bi)
    (λ r fs, store_ok B fs ∧ (r.2 = None → has_log fs pd)).
Proof.
  unfold build_body. eapply triple_bind; [apply params_store|].
  intros [e|]; [by apply triple_ret|].
  eapply triple_bind; [apply create_log_store|].
  intros [e|]; [apply triple_ret; by intros fs [? _]|].
  eapply triple_weaken; [apply (close_store _ _ _ (λ fs, store_ok B fs ∧ has_log fs pd) logged)| |].
  - eapply triple_bind; [apply triple_docker|]. intros [e|]; [by apply triple_ret|].
    apply close_store; [apply triple_logged_body|apply triple_docker].
  - apply (triple_write _ _ logged (λ _ fs, logged fs)); [done|by intros fs fs' ? [= <-]].
  - intros fs [? H]. split; [done|by apply H].
  - by intros r fs [? ?].
Qed.

Lemma deferred_persist_store bi err :
  triple (λ fs, store_ok B fs ∧ (err = None → has_log fs pd)) (deferred_persist j (bi, err))
    (λ r fs, store_ok B fs ∧ (r.2 = None → has_info fs pd (strip r.1) ∧ has_log fs pd)).
Proof.
  unfold deferred_persist. eapply triple_bind.
  - apply (persist_store (λ fs, err = None → has_log fs pd)).
    intros fs x Hl He. destruct (Hl He) as [l Hlog]. exists l.
    rewrite lookup_insert_ne; [done|]. by intros ?%app_inv_head.
  - intros [e|]; apply triple_ret; simpl.
    + by intros fs [[? _] _].
    + intros fs [[? Hl] Hi]. split; [done|]. intros He. auto.
Qed.

(** What a build that ended without error has left in the store. *)
Definition published (fs : FS) (bi : BuildInfo) : Prop :=
  has_info fs rd (strip bi) ∧ has_log fs rd.

Lemma rename_store (P Q : FS → Prop) :
  (∀ fs, store_ok B fs → fs !! pd = Some Dir → fs !! rd = None → P fs → Q (move_tree pd rd fs)) →
  triple (λ fs, store_ok B fs ∧ P fs) (Rename (j_PendingBuildPath j) (j_ReadyBuildPath j))
    (λ e fs, store_ok B fs ∧ (e = None → Q fs)).
Proof.
  intros HQ. rewrite (jo_pending _ _ Hj), (jo_ready _ _ Hj). pose proof plain_base as HB.
  pose proof (plain_pd [] ltac:(done)) as Hpd. rewrite app_nil_r in Hpd.
  pose proof (plain_rd [] ltac:(done)) as Hrd. rewrite app_nil_r in Hrd.
  apply triple_write; [by intros fs e [? _]|]. intros fs fs' [Hok HP] Hk. unfold k_rename in Hk.
  destruct (locate_clear fs (so_wf _ _ Hok) pd false) as [H|[H _]];
    [done|by apply pd_clear|by left|rewrite H in Hk|by rewrite H in Hk].
  destruct (pd_shape fs Hok) as ([Hn|Hn] & _); rewrite Hn in Hk; [done|].
  assert (Hc : clear fs rd) by (apply clear_build; [done|apply Hj|left; by right]).
  destruct (locate_clear fs (so_wf _ _ Hok) rd false) as [Hr|[Hr _]];
    [done|done|by left|rewrite Hr in Hk|by rewrite Hr in Hk].
  assert (Hne : pd ≠ rd) by (unfold build_at; by intros [=]%app_inv_head).
  destruct (so_builds _ _ Hok (j_Project j) "ready" (j_ID j) (jo_proj _ _ Hj) (jo_id _ _ Hj) ltac:(by right))
    as ([Hrn|Hrn] & _); rewrite Hrn in Hk.
  - rewrite decide_False in Hk by done. rewrite decide_False in Hk.
    2: { unfold build_at. rewrite prefix_app_cancel, !prefix_cons_iff. by intros (_ & [=] & _). }
    injection Hk as <-. split; [|by intros _; apply HQ].
    apply store_ok_publish; [done|done|apply Hj|apply Hj|done|].
    rewrite <-(parent_snoc (B ++ [j_Project j; "ready"]) (j_ID j)), <-build_at_snoc.
    eapply locate_parent; [apply Hok|done|]. rewrite <-(app_nil_r rd). apply build_at_not_nil.
  - rewrite decide_False in Hk by (by intros [? _]). done.
Qed.

Lemma published_off_latest fs fs' bi :
  (∀ q, q ≠ ld → fs' !! q = fs !! q) → published fs bi → published fs' bi.
Proof.
  intros Ho [(s & Hs & Hm) (l & Hl)]. split.
  - exists s. split; [|done]. rewrite Ho; [done|]. intros H. symmetry in H. eapply latest_not_build; [|exact H]. by right.
  - exists l. rewrite Ho; [done|]. intros H. symmetry in H. eapply latest_not_build; [|exact H]. by right.
Qed.

Lemma symlink_store bi :
  bi_ExitCode bi = 0%Z →
  triple (λ fs, store_ok B fs ∧ published fs bi) (SymlinkTo (j_ReadyBuildPath j) (j_LatestBuildPath j))
    (λ e fs, store_ok B fs ∧ (e = None → published fs bi ∧ fs !! ld = Some (Symlink (abs_path rd)))).
Proof.
  intros Hc. rewrite (jo_ready _ _ Hj), (jo_latest _ _ Hj).
  apply triple_write; [by intros fs e [? ?]|]. intros fs fs' [Hok Hp] Hk. unfold k_make in Hk.
  destruct (locate_clear fs (so_wf _ _ Hok) ld false) as [H|[H _]];
    [apply plain_ld|apply clear_latest; [done|apply Hj]|by left|rewrite H in Hk|by rewrite H in Hk].
  destruct (fs !! ld) eqn:Hn; [done|]. injection Hk as <-. split.
  - apply store_ok_link; [done|apply Hj|apply Hj| |done|].
    + destruct Hp as [Hi _]. exists (strip bi). done.
    + eapply locate_parent; [apply Hok|done|]. unfold latest_at. destruct B; by case_decide.
  - intros _. split; [|by rewrite lookup_insert_eq].
    eapply published_off_latest; [|done]. intros q Hq. by apply lookup_insert_ne.
Qed.

Lemma unlink_store bi :
  triple (λ fs, store_ok B fs ∧ published fs bi) (Remove (j_LatestBuildPath j))
    (λ _ fs, store_ok B fs ∧ published fs bi).
Proof.
  rewrite (jo_latest _ _ Hj). apply triple_write; [by intros|]. intros fs fs' [Hok Hp] Hk. unfold k_remove in Hk.
  destruct (locate_clear fs (so_wf _ _ Hok) ld false) as [H|[H _]];
    [apply plain_ld|apply clear_latest; [done|apply Hj]|by left|rewrite H in Hk|by rewrite H in Hk].
  destruct (fs !! ld) as [n|] eqn:Hn; [|done].
  assert (fs' = delete ld fs) as ->.
  { destruct (so_links _ _ Hok _ _ _ (jo_proj _ _ Hj) (jo_group _ _ Hj) Hn) as (id & _ & -> & _). congruence. }
  split; [eapply store_ok_unlink; [done|apply Hj|apply Hj|done]|].
  eapply published_off_latest; [|done]. intros q Hq. by apply lookup_delete_ne.
Qed.

Lemma update_latest_store bi :
  bi_ExitCode bi = 0%Z →
  triple (λ fs, store_ok B fs ∧ published fs bi) (update_latest j)
    (λ e fs, store_ok B fs ∧ (e = None → published fs bi ∧ fs !! ld = Some (Symlink (abs_path rd)))).
Proof.
  intros Hc. unfold update_latest. apply triple_with_lock.
  set (link := wrapM _ (SymlinkTo _ _)).
  assert (Hlink : triple (λ fs, store_ok B fs ∧ published fs bi) link
    (λ e fs, store_ok B fs ∧ (e = None → published fs bi ∧ fs !! ld = Some (Symlink (abs_path rd))))).
  { eapply triple_wrapM; [by apply symlink_store|]. intros e fs [? He]. split; [done|].
    intros ?. apply He. by destruct e. }
  eapply triple_bind; [apply (triple_read _ _ _ _ (λ _ fs, store_ok B fs ∧ published fs bi)); by intros|].
  intros [n|e].
  - apply (triple_andM _ _ _ (λ _ fs, store_ok B fs ∧ published fs bi)); [|by intros e fs [? _]|exact Hlink].
    eapply triple_wrapM; [apply unlink_store|]. by intros e fs ?.
  - destruct (IsNotExist e); [exact Hlink|]. apply triple_ret. by intros fs [? _].
Qed.

(** The build's end: its directory becomes the ready one, and the latest link
    points to it when the container succeeded. *)
Lemma deferred_publish_store bi err :
  triple (λ fs, store_ok B fs ∧ (err = None → has_info fs pd (strip bi) ∧ has_log fs pd))
    (deferred_publish j (bi, err))
    (λ r fs, store_ok B fs ∧
       (r.2 = None → published fs r.1 ∧
          (bi_ExitCode r.1 = 0%Z → fs !! ld = Some (Symlink (abs_path rd))))).
Proof.
  unfold deferred_publish.
  apply (triple_bind _ _ (λ e fs, store_ok B fs ∧ (e = None → err = None → published fs bi))).
  - apply rename_store. intros fs _ _ _ Hi He. destruct (Hi He) as [Hinfo [l Hl]].
    split; [by apply has_info_publish|]. exists l.
    rewrite lookup_move_tree, decide_True by (by eexists). by rewrite drop_app_length.
  - intros e. set (err' := match e with Some _ => _ | None => _ end).
    assert (Herr : err' = None → e = None ∧ err = None) by (by destruct e).
    destruct (bool_decide (err' = None)) eqn:H1, (bool_decide (bi_ExitCode bi = ContainerSuccessExitCode)) eqn:H2;
      cbn [andb]; rewrite ?bool_decide_eq_true, ?bool_decide_eq_false in *.
    + destruct (Herr H1) as [-> Herr0]. eapply triple_bind.
      * eapply triple_weaken; [by apply (update_latest_store bi)|intros fs [? H]; auto|].
        intros e fs H. exact H.
      * intros e. apply triple_ret. intros fs [? He]. split; [done|]. simpl. intros Hn.
        destruct (He Hn). auto.
    + apply triple_ret. intros fs [? Hp]. split; [done|]. simpl. intros Hn.
      destruct (Herr Hn). split; [by auto|]. by intros.
    + apply triple_ret. intros fs [? Hp]. split; [done|]. simpl. congruence.
    + apply triple_ret. intros fs [? Hp]. split; [done|]. simpl. congruence.
Qed.

Definition built (r : BuildInfo * error) (fs : FS) : Prop :=
  r.2 = None → published fs r.1 ∧ (bi_ExitCode r.1 = 0%Z → fs !! ld = Some (Symlink (abs_path rd))).

Lemma build_store start bi :
  triple (store_ok B) (build cfg j start bi) (λ r fs, store_ok B fs ∧ built r fs).
Proof.
  assert (Hfail : ∀ b e P, (∀ fs, P fs → store_ok B fs) →
    triple P (mret (b, Some e) : M World _) (λ r fs, store_ok B fs ∧ built r fs)).
  { intros b e P HP. apply triple_ret. intros fs HPf. by split; [apply HP|]. }
  unfold build. eapply triple_bind; [apply (triple_read _ _ _ _ (λ _ fs, store_ok B fs)); by intros|].
  intros [n|e]; [|destruct (IsNotExist e); by apply Hfail].
  eapply triple_bind; [eapply triple_weaken; [apply (bootstrap_store (λ _, True)); done|done|intros e fs H; exact H]|].
  intros [e|]; [apply Hfail; by intros fs [? _]|].
  eapply triple_bind; [eapply triple_weaken; [apply bootstrap_dir|by intros fs [? _]|intros r fs H; exact H]|].
  intros [bi' [e|]]; [apply Hfail; by intros fs [? _]|].
  eapply triple_bind.
  - eapply triple_weaken; [apply (persist_store params_ready)|intros fs [? H]; auto|intros e fs H; exact H].
    intros fs x [Hd Hl]. split.
    + rewrite lookup_insert_ne; [done|]. by intros ?%app_inv_head.
    + intros k. by apply not_link_insert.
  - intros [e|]; [apply Hfail; by intros fs [[? _] _]|].
    eapply triple_bind; [eapply triple_weaken; [apply body_store|by intros fs [? _]|intros r fs H; exact H]|].
    intros [bi1 err1]. eapply triple_bind; [apply deferred_persist_store|].
    intros [bi2 err2]. apply deferred_publish_store.
Qed.

(** ** The result cache *)

Lemma read_info logs :
  triple (store_ok B) (ReadJobBuildInfo (j_ReadyBuildPath j) logs)
    (λ r fs, store_ok B fs ∧
       ∀ prev bi, r = Ok prev → has_info fs rd bi → bi_ExitCode prev = bi_ExitCode bi).
Proof.
  unfold ReadJobBuildInfo. eapply triple_bind; [by apply triple_pure|]. intros now.
  rewrite (jo_ready _ _ Hj), (Join_below _ _ ["build_info.json"]); [|rewrite <-(app_nil_r rd); by apply plain_rd|done|solve_plain].
  eapply triple_bindR.
  - apply (triple_read _ _ _ _ (λ r fs, store_ok B fs ∧ ∀ d bi, r = Ok d → has_info fs rd bi → json_marshal bi = Ok d)).
    + by intros.
    + intros fs d Hok Hk. split; [done|]. intros d' bi [= <-] (s & Hs & Hm).
      rewrite (k_read_file fs (so_wf _ _ Hok) _ s) in Hk; [congruence| |done]. apply plain_rd. solve_plain.
  - by intros e fs [? _].
  - intros d. destruct (json_unmarshal d (NewBuildInfo now)) as [bi|e] eqn:Hu;
      [|apply triple_ret; by intros fs [? _]].
    destruct logs.
    + eapply triple_bindR; [apply (triple_read _ _ _ _ (λ _ fs, store_ok B fs ∧ ∀ d0 bi, Ok (E:=goerr) d = Ok d0 → has_info fs rd bi → json_marshal bi = Ok d0)); by intros|..].
      * by intros e fs [? _].
      * intros log. apply triple_ret. intros fs [? Hd]. split; [done|].
        intros prev bi0 [= <-] Hi. simpl. eapply json_exit_code; [by apply Hd|done].
    + apply triple_ret. intros fs [? Hd]. split; [done|].
      intros prev bi0 [= <-] Hi. eapply json_exit_code; [by apply Hd|done].
Qed.

Lemma remove_failed_store :
  triple (λ fs, store_ok B fs ∧ ∀ bi, has_info fs rd bi → bi_ExitCode bi ≠ 0%Z)
    (fs_Remove (cfg_FileSystem cfg) (j_ReadyBuildPath j)) (λ _ fs, store_ok B fs).
Proof.
  rewrite (jo_ready _ _ Hj). apply triple_pre. intros w [Hok Hni].
  pose proof plain_base as HB.
  pose proof (plain_rd [] ltac:(done)) as Hrd. rewrite app_nil_r in Hrd.
  eapply triple_weaken.
  - apply (remove_spec rd (w_fs w)); [apply Hok|done| |].
    + rewrite <-(app_nil_r rd). apply build_at_not_nil.
    + apply clear_build; [done|apply Hj|left; by right].
  - done.
  - intros _ fs (Hw & Hs & Hsub).
    apply (store_ok_build B (w_fs w) Hok fs (j_Project j) "ready" (j_ID j));
      [apply Hj|apply Hj|by right|done|by intros r Hr; apply Hs| | |done].
    + destruct (so_builds _ _ Hok (j_Project j) "ready" (j_ID j) (jo_proj _ _ Hj) (jo_id _ _ Hj) ltac:(by right)) as (H1&H2&H3&H4).
      assert (Hd : ∀ q, dirn (w_fs w) q → dirn fs q).
      { intros q [Hq|Hq]; unfold dirn; destruct (fs !! q) eqn:Hf; auto; apply Hsub in Hf; naive_solver. }
      split_and!; auto; intros t Ht; apply Hsub in Ht; [by eapply H3|by eapply H4].
    + intros _ group Hg Hl.
      destruct (so_links _ _ Hok _ _ _ (jo_proj _ _ Hj) Hg Hl) as (id & Hid & Heq & bi & Hi & Hc).
      apply Symlink_inj, abs_path_inj in Heq; [|done|].
      * rewrite <-Heq in Hi. by apply (Hni bi Hi).
      * pose proof (jo_proj _ _ Hj). unfold build_at. solve_plain.
Qed.

Lemma lead_store start bi :
  triple (store_ok B) (lead cfg j start bi) (λ _ fs, store_ok B fs).
Proof.
  unfold lead. set (fresh := '(bi', err) ← build cfg j start bi; mret (Some bi', err)).
  assert (Hfresh : triple (store_ok B) fresh (λ _ fs, store_ok B fs)).
  { eapply triple_bind; [apply build_store|]. intros [b e]. apply triple_ret. by intros fs [? _]. }
  eapply triple_bind; [apply (triple_read _ _ _ _ (λ _ fs, store_ok B fs)); by intros|].
  intros [n|e].
  - eapply triple_bind; [apply read_info|]. intros [prev|e]; [|apply triple_ret; by intros fs [? _]].
    case_bool_decide as Hc.
    + eapply triple_bind.
      * eapply triple_weaken; [apply remove_failed_store| |intros e fs H; exact H].
        intros fs [? Hp]. split; [done|]. intros b Hb. by rewrite <-(Hp prev b).
      * intros [e|]; [by apply triple_ret|]. exact Hfresh.
    + apply (triple_bind _ _ (λ _ fs, store_ok B fs)); [|intros []; by apply triple_ret].
      apply (triple_weaken _ (store_ok B) _ _ (λ _ fs, store_ok B fs)); [by apply triple_pure|by intros fs [? _]|done].
  - destruct (IsNotExist e); [exact Hfresh|by apply triple_ret].
Qed.
End one_job.
End safety.

#[export] Existing Instances co_fs co_docker.
