(* ===== verification/WorkCarry.v ===== *)
(** What a build leaves alone until it is published: any assertion that does not
    depend on the pending directory of the job, nor on directories that are made
    near the root of the store, is carried through all of its steps. *)
From S2P Require Import Prelude GoStrings Paths World FSFacts Logic Types Filesystem Config Job Metrics Queues Worker Store WorkSafety.

Open Scope string_scope.
Open Scope list_scope.

(** Triples with the same computation and assertion can be joined. *)
Lemma triple_both {A : Type} (P : FS → Prop) (m : M World A) Q1 Q2 :
  triple P m Q1 → triple P m Q2 → triple P m (λ a fs, Q1 a fs ∧ Q2 a fs).
Proof. intros H1 H2 w Hw. split; [by apply H1|by apply H2]. Qed.

Section carry.
Context {E : Env} {J : JSON} {D : Docker}.
Context (cfg : Config) (B : path) (j : Job) (Hj : job_ok B j) (Hcfg : config_ok cfg B).

Abbreviation pd := (build_at B (j_Project j) "pending" (j_ID j)).
Abbreviation rd := (build_at B (j_Project j) "ready" (j_ID j)).
Abbreviation ld := (latest_at B (j_Project j) (j_Group j)).

Context (P : FS → Prop).
Context (HPpd : ∀ fs fs', (∀ r, ¬ pd `prefix_of` B ++ r → fs' !! (B ++ r) = fs !! (B ++ r)) → P fs → P fs').
Context (HPtop : stable B P).

Abbreviation kept := (λ fs, store_ok B fs ∧ P fs).

Lemma carry_insert fs r n : P fs → P (<[pd ++ r := n]> fs).
Proof.
  apply HPpd. intros q Hq. rewrite lookup_insert_ne; [done|]. intros Heq. destruct Hq. rewrite <-Heq. by exists r.
Qed.

Lemma carry_read {A : Type} op s (f : FS → errno + A) : triple P (sys_read op s f) (λ _ fs, P fs).
Proof. by apply triple_read. Qed.

(** What the store's lemmas say of a step, with what it carries along. *)
Lemma kept_by {A : Type} (R : FS → Prop) (m : M World A) (Q : A → FS → Prop) :
  triple (λ fs, store_ok B fs ∧ R fs) m (λ a fs, store_ok B fs ∧ Q a fs) →
  triple (λ fs, kept fs ∧ R fs) m (λ _ fs, P fs) →
  triple (λ fs, kept fs ∧ R fs) m (λ a fs, kept fs ∧ Q a fs).
Proof.
  intros H1 H2 w [[Hok HP] HR]. destruct (H1 w (conj Hok HR)) as [? ?].
  pose proof (H2 w (conj (conj Hok HP) HR)). cbv beta in *. auto.
Qed.

Lemma kept_store {A : Type} (m : M World A) (Q : A → FS → Prop) :
  triple (store_ok B) m (λ a fs, store_ok B fs ∧ Q a fs) → triple kept m (λ _ fs, P fs) →
  triple kept m (λ a fs, kept fs ∧ Q a fs).
Proof.
  intros H1 H2 w [Hok HP]. destruct (H1 w Hok) as [? ?]. pose proof (H2 w (conj Hok HP)). cbv beta in *. auto.
Qed.

(** ** The build directory *)

Lemma create_carry :
  triple kept (fs_Create (cfg_FileSystem cfg) (j_PendingBuildPath j)) (λ _ fs, P fs).
Proof.
  rewrite (jo_pending _ _ Hj). apply triple_pre. intros w [Hok HP]. eapply triple_weaken.
  - apply (create_spec pd (w_fs w)); [apply Hok|..].
    + rewrite <-(app_nil_r pd). by apply (plain_pd B j Hj).
    + rewrite <-(app_nil_r pd). by apply (build_at_not_nil B j).
    + by apply (pd_clear B j Hj).
  - done.
  - intros [e|] fs Hc; [by rewrite Hc|]. destruct Hc as (_ & _ & ->). rewrite <-(app_nil_r pd). by apply carry_insert.
Qed.

Lemma clone_carry id :
  job_id id →
  triple (λ fs, kept fs ∧ successful fs (build_at B (j_Project j) "ready" id))
    (fs_Clone (cfg_FileSystem cfg) (abs_path (build_at B (j_Project j) "ready" id)) (j_PendingBuildPath j))
    (λ _ fs, P fs).
Proof.
  intros Hid. rewrite (jo_pending _ _ Hj). apply triple_pre. intros w [[Hok HP] Hs].
  pose proof (plain_base B j Hj) as HB. pose proof (jo_proj _ _ Hj) as Hp. eapply triple_weaken.
  - apply (clone_spec (build_at B (j_Project j) "ready" id) pd (w_fs w)); [apply Hok|..].
    + unfold build_at. solve_plain.
    + rewrite <-(app_nil_r pd). by apply (plain_pd B j Hj).
    + rewrite <-(app_nil_r pd). by apply (build_at_not_nil B j).
    + by apply (pd_clear B j Hj).
    + by apply (successful_dir B _ Hok).
    + unfold build_at. rewrite prefix_app_cancel, !prefix_cons_iff. by intros (_ & [=] & _).
  - done.
  - intros e fs [_ Hc]. apply (HPpd (w_fs w)); [|done]. intros r Hr.
    destruct (w_fs w !! pd); [apply Hc|by apply Hc]. intros Hpre. destruct Hr. etrans; [|exact Hpre]. by eexists.
Qed.

Lemma clear_params_carry :
  triple kept (RemoveAll (Join [j_PendingBuildPath j; DataDir; ParamsDir])) (λ _ fs, P fs).
Proof.
  rewrite (pending_join B j Hj ["data"; "params"]) by (done || solve_plain). set (p := pd ++ ["data"; "params"]).
  apply triple_write; [by intros fs e [_ ?]|]. intros fs fs' [Hok HP] Hk. unfold k_remove_all in Hk.
  assert (Hp : Forall plain p) by (apply (plain_pd B j Hj); solve_plain).
  destruct (locate_clear fs (so_wf _ _ Hok) p false Hp (pd_clear_data B j Hj fs "params" Hok)) as [H|[H _]];
    [by left|rewrite H in Hk..].
  - case_decide; [done|]. injection Hk as <-. apply (HPpd fs); [|done]. intros r Hr.
    rewrite lookup_remove_tree, decide_False; [done|]. intros Hpre. destruct Hr. etrans; [|exact Hpre]. by eexists.
  - by injection Hk as <-.
Qed.

Lemma dirs_carry : triple kept (forM EnsureDirExists (build_dirs j)) (λ _ fs, P fs).
Proof.
  eapply triple_weaken; [apply (triple_forM kept)|done|by intros e fs [_ ?]].
  assert (Hdir : ∀ es cs, mjoin (comps <$> es) = cs → Forall plain cs → (∀ fs, store_ok B fs → clear fs (pd ++ cs)) →
    triple kept (EnsureDirExists (Join (j_PendingBuildPath j :: es))) (λ _ fs, kept fs)).
  { intros es cs Hc Hp Hcl. rewrite (pending_join B j Hj cs es) by done. eapply triple_weaken.
    - apply (ensure_store B P (pd ++ cs)); [by apply (plain_pd B j Hj)|by apply (build_at_not_nil B j)|..].
      + intros. apply (pd_not_latest B j).
      + auto.
      + intros fs. apply carry_insert.
    - done.
    - by intros e fs [? _]. }
  intros x Hx. unfold build_dirs in Hx. rewrite !elem_of_cons in Hx.
  destruct Hx as [->|[->|[->|[->|[]%not_elem_of_nil]]]].
  - apply (Hdir _ ["data"]); [done|solve_plain|]. intros. by apply (pd_clear_file B j Hj).
  - apply (Hdir _ ["data"; "cache"]); [done|solve_plain|]. intros. by apply (pd_clear_data B j Hj).
  - apply (Hdir _ ["data"; "artifacts"]); [done|solve_plain|]. intros. by apply (pd_clear_data B j Hj).
  - apply (Hdir _ ["data"; "params"]); [done|solve_plain|]. intros. by apply (pd_clear_data B j Hj).
Qed.

Lemma clone_src_pure : ∀ w, w_fs (CloneSrcPath j w).2 = w_fs w.
Proof.
  intros w. unfold CloneSrcPath. case_decide; [done|]. rewrite bind_run.
  unfold EvalSymlinks, sys_read, syscall. destruct (env_fault _); [done|]. by destruct (k_eval_symlinks _ _).
Qed.

Lemma bootstrap_dir_carry bi :
  triple kept (BootstrapBuildDir j (cfg_FileSystem cfg) bi) (λ _ fs, P fs).
Proof.
  unfold BootstrapBuildDir. eapply triple_bind.
  { apply kept_store; [apply (clone_src B j Hj)|].
    eapply triple_weaken; [apply (triple_pure _ P), clone_src_pure|by intros fs [_ ?]|done]. }
  intros src. apply (triple_bind _ _ (λ _ fs, kept fs)).
  - case_decide as Hsrc; apply (triple_bind _ _ (λ _ fs, kept fs)); try (intros e; by apply triple_ret).
    + eapply triple_weaken; [apply kept_store; [apply (create_store cfg B j Hj Hcfg)|apply create_carry]
        |by intros fs [? _]|by intros e fs [? _]].
    + apply triple_pre. intros w [Hk [?|(id & Hid & -> & Hsucc)]]; [done|].
      eapply triple_weaken; [apply (kept_by (λ fs, successful fs (build_at B (j_Project j) "ready" id)) _ (λ _ _, True)); [|by apply (clone_carry id)]|by intros fs ->|by intros e fs [? _]].
      eapply triple_weaken; [by apply (clone_store cfg B j Hj Hcfg id)|done|by intros e fs ?].
  - intros [bi' [e|]]; [apply triple_ret; by intros fs [_ ?]|]. cbn [snd]. apply (triple_bind _ _ (λ _ fs, kept fs)).
    + case_decide; [by apply triple_ret|]. apply (triple_wrapM _ _ _ (λ _ fs, kept fs)); [|done].
      eapply triple_weaken; [apply kept_store; [apply (clear_params B j Hj)|apply clear_params_carry]|done|by intros e fs [? _]].
    + intros [e|]; [apply triple_ret; by intros fs [_ ?]|].
      eapply triple_bind; [|intros e; apply triple_ret; intros fs H; exact H].
      eapply triple_wrapM; [apply dirs_carry|by intros].
Qed.

(** ** Parameters, log and container *)

Lemma persist_carry bi : triple kept (persistBuildInfo j bi) (λ _ fs, kept fs).
Proof.
  eapply triple_weaken; [apply (persist_store B j Hj P)|done|by intros e fs [? _]].
  intros fs x. apply carry_insert.
Qed.

Lemma params_carry : triple (λ fs, kept fs ∧ params_ready B j fs) (write_params j) (λ _ fs, P fs).
Proof.
  set (I := λ fs, store_ok B fs ∧ P fs ∧ params_ready B j fs).
  unfold write_params. eapply (triple_bind _ _ (λ l fs, I fs ∧ l ≡ₚ map_to_list (j_Params j))).
  - intros w [[? ?] ?]. split; [done|]. apply env_range_perm.
  - intros kvs. apply triple_pre. intros w [H Hperm]. apply (triple_at I); [done|].
    eapply triple_wrapM; [apply (triple_forM I)|by intros e fs (_ & ? & _)].
    intros [k v] Hkv. cbn [fst snd].
    assert (Hk : plain k).
    { eapply (jo_params _ _ Hj k v). apply elem_of_map_to_list. by rewrite <-Hperm. }
    rewrite (pending_join B j Hj ["data"; "params"; k]); [|csimpl; by rewrite (comps_plain k)|solve_plain].
    eapply triple_weaken.
    + apply (write_pd B j Hj (λ fs, P fs ∧ params_ready B j fs) ["data"; "params"; k]); [solve_plain|done..|].
      intros fs Hok [_ [Hd Hl]]. split; [|apply Hl].
      change ["data"; "params"; k] with (["data"; "params"] ++ [k]). rewrite app_assoc.
      apply clear_snoc; [by apply (pd_clear_data B j Hj)|by right].
    + done.
    + intros [e|] fs; [done|]. intros (Hok & fs0 & [HP [Hd Hl]] & ->). split_and!; [done|by apply carry_insert|].
      split; [rewrite lookup_insert_ne; [done|]; by intros ?%app_inv_head|].
      intros k'. apply not_link_insert; [apply Hl|done].
Qed.

Lemma create_log_carry : triple kept (CreateFile (j_BuildLogPath j)) (λ e fs, kept fs ∧ (e = None → has_log fs pd)).
Proof.
  apply kept_store; [apply (create_log_store B j Hj)|]. rewrite (jo_log _ _ Hj). eapply triple_weaken.
  - apply (write_pd B j Hj P ["out.log"] ""); [solve_plain|done..|].
    intros fs Hok _. split; [by apply (pd_clear_file B j Hj)|]. by apply (pd_shape B j Hj).
  - done.
  - intros [e|] fs; [by intros [_ ?]|]. intros (_ & fs0 & HP & ->). by apply carry_insert.
Qed.

Abbreviation logged := (λ fs, store_ok B fs ∧ has_log fs pd).

Lemma run_container_carry start bi : triple (λ fs, kept fs ∧ has_log fs pd) (run_container cfg j start bi) (λ _ fs, P fs).
Proof.
  eapply triple_weaken; [apply (run_container_keeps cfg j (λ fs, kept fs ∧ has_log fs pd))|done|by intros r fs [[_ ?] _]].
  - intros x. eapply triple_weaken.
    + rewrite (jo_log _ _ Hj). apply (append_pd B j Hj (λ fs, P fs ∧ has_log fs pd) ["out.log"]); [solve_plain|done|done|..].
      * intros fs Hok [_ [l Hl]]. split; [by apply (pd_clear_file B j Hj)|]. intros t. congruence.
      * intros fs y [HP _]. split; [by apply carry_insert|]. exists y. by rewrite lookup_insert_eq.
    + by intros fs [[? ?] ?].
    + by intros e fs (? & ? & ?).
  - intros n extra fs Hperm [[Hok HP] Hlog].
    destruct (container_effect cfg B j Hj Hcfg n extra fs Hperm (conj Hok Hlog)) as [Hok' Hlog'].
    split_and!; [done| |done]. apply (HPpd fs); [|done]. intros r Hr.
    apply (container_frame_pd cfg B j Hj Hcfg); [done|by eexists|]. intros (c & r' & Heq). destruct Hr. rewrite Heq.
    exists ("data" :: c :: r'). by rewrite <-app_assoc.
Qed.

Lemma body_carry start bi :
  triple (λ fs, kept fs ∧ params_ready B j fs) (build_body cfg j start bi) (λ _ fs, P fs).
Proof.
  unfold build_body. eapply triple_bind.
  { apply (kept_by _ _ (λ _ _, True)); [|apply params_carry].
    eapply triple_weaken; [apply (params_store B j Hj)|done|by intros e fs ?]. }
  intros [e|]; [apply triple_ret; by intros fs [[_ ?] _]|].
  eapply triple_bind; [eapply triple_weaken; [apply create_log_carry|by intros fs [? _]|intros e fs H; exact H]|].
  intros [e|]; [apply triple_ret; by intros fs [[_ ?] _]|].
  eapply triple_weaken; [apply (close_store _ _ _ (λ fs, kept fs ∧ has_log fs pd) P)|intros fs [? H]; by auto|done].
  - eapply triple_bind; [apply (triple_docker)|]. intros [e|]; [apply triple_ret; by intros fs [[_ ?] _]|].
    apply close_store; [apply run_container_carry|apply triple_docker].
  - apply (triple_write _ _ P (λ _ fs, P fs)); [done|by intros fs fs' ? [= <-]].
Qed.

(** ** From the check of the project to the publication *)

Abbreviation strip := (set_ContainerLogs "" "").

Lemma deferred_persist_carry bi err :
  triple (λ fs, kept fs ∧ (err = None → has_log fs pd)) (deferred_persist j (bi, err))
    (λ r fs, kept fs ∧ (r.2 = None → has_info fs pd (strip r.1) ∧ has_log fs pd)).
Proof.
  apply kept_by; [apply (deferred_persist_store B j Hj)|].
  unfold deferred_persist. eapply triple_bind.
  - eapply triple_weaken; [apply persist_carry|by intros fs [? _]|intros e fs H; exact H].
  - intros [e|]; apply triple_ret; by intros fs [_ ?].
Qed.

(** Whatever holds when a build stops early, and after the pending directory of a
    build was renamed, holds when [build] is over. *)
Lemma build_carry start bi (Q : FS → Prop) :
  (∀ fs, kept fs → Q fs) →
  (∀ r, triple (λ fs, kept fs ∧ (r.2 = None → has_info fs pd (strip r.1) ∧ has_log fs pd))
          (deferred_publish j r) (λ _ fs, Q fs)) →
  triple kept (build cfg j start bi) (λ _ fs, Q fs).
Proof.
  intros HQ Hpub. assert (Hfail : ∀ (b : BuildInfo) (e : goerr) R, (∀ fs, R fs → kept fs) →
    triple R (mret (b, Some e) : M World (BuildInfo * error)) (λ _ fs, Q fs)).
  { intros b e R HR. apply triple_ret. auto. }
  unfold build. eapply triple_bind; [apply (triple_read _ _ _ _ (λ _ fs, kept fs)); by intros|].
  intros [n|e]; [|destruct (IsNotExist e); by apply Hfail].
  eapply triple_bind; [eapply triple_weaken; [apply (bootstrap_store B j Hj P HPtop)|done|intros e fs H; exact H]|].
  intros [e|]; [apply Hfail; by intros fs (? & ? & _)|].
  eapply triple_bind.
  { eapply triple_weaken; [apply kept_store; [apply (bootstrap_dir cfg B j Hj Hcfg)|apply bootstrap_dir_carry]
      |by intros fs (? & ? & _)|intros r fs H; exact H]. }
  intros [bi' [e|]]; [apply Hfail; by intros fs [? _]|].
  eapply triple_bind.
  { apply (triple_weaken _ (λ fs, store_ok B fs ∧ P fs ∧ params_ready B j fs) _ _ (λ e fs, kept fs ∧ params_ready B j fs));
      [|intros fs [[? ?] Hr]; by auto|intros e fs H; exact H].
    eapply triple_weaken; [apply (persist_store B j Hj (λ fs, P fs ∧ params_ready B j fs))|done|by intros e fs [(? & ? & ?) _]].
    intros fs x (HP & Hd & Hl). split; [by apply carry_insert|split].
    - rewrite lookup_insert_ne; [done|]. by intros ?%app_inv_head.
    - intros k. by apply not_link_insert. }
  intros [e|]; [apply Hfail; by intros fs [? _]|].
  eapply triple_bind; [apply kept_by; [apply (body_store cfg B j Hj Hcfg)|apply body_carry]|].
  intros [bi1 err1]. eapply triple_bind; [apply deferred_persist_carry|]. intros r. apply Hpub.
Qed.
End carry.
