(* ===== verification/WorkFrame.v ===== *)
(** What a build does to the server's shared structures: the job queue, the
    per-project mutexes and the collectors. *)
From S2P Require Import Prelude GoStrings Paths World FSFacts Logic Types Filesystem Config Job Metrics Queues Worker.

Open Scope list_scope.

(** No mutex is held, and the goroutine neither blocked nor crashed on one. *)
Definition unlocked (w : World) : Prop := (∀ p, w_locks w !! p ≠ Some true) ∧ w_stuck w = false.

(** ** One walk through the code, for any relation that its pieces respect *)

Section frame.
Context {E : Env} {J : JSON} {D : Docker} (cfg : Config) `{!FileSystemSpec (cfg_FileSystem cfg)}.

#[local] Instance rest_docker {A : Type} (f : nat → A) : Keeps w_rest (docker f).
Proof. by intros w. Qed.

#[local] Instance rest_ensure p : Keeps w_rest (EnsureDirExists p).
Proof. unfold EnsureDirExists. solve_pres. Qed.

Section relation.
Context (R : World → World → Prop) `{!PreOrder R}.
Context (Rrest : ∀ w w', w_rest w' = w_rest w → R w w').
Context (Rrecord : ∀ c, Pres R (Record_ c)).
Context (Rlock : ∀ (A : Type) project (m : M World A), Keeps w_rest m → Pres R (with_lock project m)).

#[local] Instance R_rest {A : Type} (m : M World A) : Keeps w_rest m → Pres R m.
Proof. by apply pres_of_rest. Qed.

#[local] Instance R_record c : Pres R (Record_ c) := Rrecord c.

#[local] Instance R_finished p s i d : Pres R (RecordBuildFinished p s i d).
Proof. unfold RecordBuildFinished. solve_pres. Qed.

#[local] Instance R_info p logs : Pres R (ReadJobBuildInfo p logs).
Proof. unfold ReadJobBuildInfo, ReadJobLogs. solve_pres. Qed.

#[local] Instance R_image j uid p x y : Pres R (BuildImage j uid (AppendFile p) x y).
Proof. unfold BuildImage. solve_pres. Qed.

#[local] Instance R_stdcopy p frames : ∀ last acc, Pres R (StdCopy (AppendFile p) frames last acc).
Proof. induction frames as [|[b x] frames IH]; intros last acc; simpl; solve_pres. Qed.

#[local] Instance R_rename name : Pres R (renameIfExists name).
Proof. unfold renameIfExists, randomHexString. solve_pres. Qed.

#[local] Instance R_effect (f : nat → FS → FS) :
  Pres R (λ w, ((), set_fs (f (w_step w) (w_fs w)) (tick w))).
Proof. intros w. by apply Rrest. Qed.

#[local] Instance R_start j p : Pres R (StartContainer j cfg (AppendFile p)).
Proof.
  unfold StartContainer. apply pres_bind; [done|solve_pres|]. intros extra.
  apply pres_bind; [done|solve_pres|]. intros ?. apply pres_bind; [done|solve_pres|].
  intros [id|e]; [|solve_pres]. apply pres_bind; [done|solve_pres|].
  intros [e|]; [solve_pres|]. apply pres_bind; [done| |].
  - apply (R_effect (λ n, d_container_fs n (container_mounts j extra))).
  - intros []. solve_pres.
Qed.

#[local] Instance R_container j start bi : Pres R (run_container cfg j start bi).
Proof. unfold run_container, ReadJobLogs, FdCall. solve_pres.
Qed.

Lemma R_close {A : Type} msg (close : M World error) (body : M World (A * error)) :
  Pres R close → Pres R body → Pres R (defer_close msg close body).
Proof. intros Hc Hb. unfold defer_close. solve_pres. Qed.

#[local] Instance R_body j start bi : Pres R (build_body cfg j start bi).
Proof.
  unfold build_body, write_params. apply pres_bind; [done|solve_pres|].
  intros [e|]; [solve_pres|]. apply pres_bind; [done|solve_pres|].
  intros [e|]; [solve_pres|]. apply R_close; [apply _|]. apply pres_bind; [done|solve_pres|].
  intros [e|]; [solve_pres|]. apply R_close; apply _.
Qed.

#[local] Instance R_persist j bi : Pres R (persistBuildInfo j bi).
Proof. unfold persistBuildInfo. solve_pres. Qed.

#[local] Instance R_latest j : Pres R (update_latest j).
Proof. apply Rlock. solve_pres. Qed.

#[local] Instance R_bootstrap j : Pres R (BootstrapProject j).
Proof. apply Rlock. solve_pres. Qed.

#[local] Instance R_dirs j bi : Pres R (BootstrapBuildDir j (cfg_FileSystem cfg) bi).
Proof. unfold BootstrapBuildDir, CloneSrcPath. solve_pres. Qed.

#[local] Instance R_build j start bi : Pres R (build cfg j start bi).
Proof. unfold build, deferred_persist, deferred_publish. solve_pres. Qed.

Lemma R_lead j start bi : Pres R (lead cfg j start bi).
Proof. unfold lead. solve_pres. Qed.

Lemma R_coalesce ctx_done fuel j : ∀ bi, Pres R (coalesce ctx_done fuel j bi).
Proof. induction fuel as [|fuel IH]; intros bi; simpl; unfold ExitCode; solve_pres. Qed.
End relation.

(** ** The job queue *)

Lemma with_lock_jobs {A : Type} project (m : M World A) : Keeps w_rest m → Keeps w_jobs (with_lock project m).
Proof.
  intros Hm. unfold with_lock. apply pres_bind; [apply _| |].
  - intros w. unfold same. simpl. by destruct (w_locks w !! project) as [[]|].
  - intros []. apply pres_bind; [apply _|by apply keeps_jobs|]. intros a.
    apply pres_bind; [apply _| |intros []; apply _].
    intros w. unfold same. simpl. by destruct (w_locks w !! project) as [[]|].
Qed.

Lemma lead_jobs j start bi : Keeps w_jobs (lead cfg j start bi).
Proof.
  apply (R_lead (same w_jobs)).
  - intros w w' H. by injection H.
  - by intros c w.
  - intros A project m. apply with_lock_jobs.
Qed.

Lemma coalesce_jobs ctx_done fuel j bi : Keeps w_jobs (coalesce ctx_done fuel j bi).
Proof.
  apply (R_coalesce (same w_jobs)).
  - intros w w' H. by injection H.
  - by intros c w.
Qed.

(** ** The mutexes *)

Lemma unlocked_rest w w' : w_rest w' = w_rest w → keeps_true unlocked w w'.
Proof. intros H. unfold keeps_true, unlocked. by injection H as _ -> -> _. Qed.

Lemma unlocked_record c : Pres (keeps_true unlocked) (Record_ c).
Proof. intros w H. exact H. Qed.

Lemma with_lock_unlocked {A : Type} project (m : M World A) :
  Keeps w_rest m → Pres (keeps_true unlocked) (with_lock project m).
Proof.
  intros Hm w [Hl Hs]. unfold with_lock, ProjectQueue_Lock. rewrite bind_run.
  set (w1 := (modify _ w).2).
  assert (H1 : w_locks w1 = <[project := true]> (w_locks w) ∧ w_stuck w1 = false).
  { unfold w1. simpl. specialize (Hl project). by destruct (w_locks w !! project) as [[]|]. }
  destruct H1 as [H1 H2]. rewrite bind_run. specialize (Hm w1). unfold same in Hm.
  injection Hm as _ Hml Hms _. rewrite bind_run. unfold ProjectQueue_Unlock. simpl.
  rewrite Hml, H1, lookup_insert_eq. split; simpl; [|congruence].
  intros p. rewrite insert_insert_eq. destruct (decide (project = p)) as [->|Hne].
  - by rewrite lookup_insert_eq.
  - rewrite lookup_insert_ne by done. apply Hl.
Qed.

Lemma lead_unlocked j start bi : Pres (keeps_true unlocked) (lead cfg j start bi).
Proof.
  apply (R_lead (keeps_true unlocked)).
  - apply unlocked_rest.
  - apply unlocked_record.
  - intros A project m. apply with_lock_unlocked.
Qed.

Lemma coalesce_unlocked ctx_done fuel j bi : Pres (keeps_true unlocked) (coalesce ctx_done fuel j bi).
Proof. apply (R_coalesce (keeps_true unlocked)); [apply unlocked_rest|apply unlocked_record]. Qed.
End frame.
