(* ===== verification/Scenario.v ===== *)
(** A small instance of everything the development takes as a parameter: an
    operating system, a Docker daemon, an encoder, a hash and an archiver, with
    the laws they must obey, and a server with one project.  It shows that the
    hypotheses of the theorems can hold, and is where their witnesses run. *)
From S2P Require Import Prelude GoStrings Paths World FSFacts Logic Types Filesystem Config Job Metrics Queues Worker Store WorkSafety.
From Stdlib Require Import Ascii.

Open Scope string_scope.
Open Scope list_scope.
#[local] Open Scope Z_scope.

(** ** The operating system *)

(** [cp -r src dst]: it refuses when [dst] is there or has no directory. *)
Definition cp_tree (src dst : path) (fs : FS) : string * error * FS :=
  if bool_decide (fs !! src = Some Dir) && bool_decide (fs !! dst = None)
     && bool_decide (fs !! parent dst = Some Dir) && negb (bool_decide (src `prefix_of` dst))
  then ("", None, graft src dst fs ∪ fs)
  else ("cp: cannot copy", Some (ErrString "exit status 1"), fs).

Definition run_cp (args : list string) (fs : FS) : string * error * FS :=
  match args with
  | ["cp"; "-r"; src; dst] => cp_tree (comps src) (comps dst) fs
  | _ => ("", Some (ErrString "not found"), fs)
  end.

#[local] Instance scen_env (faults : nat → option fault) (others : nat → FS → FS) : Env := {|
  env_fault := faults;
  env_clock n := 1000000 * Z.of_nat n;
  env_range _ m := map_to_list m;
  env_range_perm _ m := reflexivity _;
  env_cmd _ := run_cp;
  env_others := others;
  env_random _ := "0123456789abcdef";
|}.

(** No faults, and nobody else. *)
Definition calm : nat → option fault := λ _, None.
Definition alone : nat → FS → FS := λ _ fs, fs.

Lemma lookup_copy src dst fs q :
  fs !! dst = None → wf fs →
  (graft src dst fs ∪ fs) !! q =
  if decide (dst `prefix_of` q) then fs !! (src ++ drop (length dst) q) else fs !! q.
Proof.
  intros Hn Hw. rewrite lookup_union, lookup_graft. case_decide as Hq.
  - assert (fs !! q = None) as ->; [|by rewrite (right_id_L None _)].
    destruct Hq as [r ->]. destruct (fs !! (dst ++ r)) eqn:Hr; [|done]. destruct r as [|c r].
    + rewrite app_nil_r in Hr. congruence.
    + rewrite (wf_prefix _ _ _ _ Hw Hr) in Hn; done.
  - by rewrite (left_id_L None _).
Qed.

#[export] Instance scen_cp faults others : @CpSpec (scen_env faults others).
Proof.
  split. intros n src dst fs out e fs' Hw Hs Hd Hc Hsrc Hpre. simpl. unfold cp_tree.
  rewrite !comps_abs_path by done.
  destruct (_ && _) eqn:Hb.
  - rewrite !andb_true_iff, !bool_decide_eq_true in Hb. destruct Hb as [[[_ Hn] Hp] _].
    intros [= _ <- <-]. assert (dst ≠ []) as Hne.
    { intros ->. rewrite (proj1 Hw) in Hn. done. }
    split.
    + split.
      * rewrite lookup_copy, decide_False by (done || by intros ->%prefix_nil_inv). apply Hw.
      * intros p c m. rewrite !lookup_copy by done.
        destruct (decide (dst `prefix_of` p)) as [Hq|Hq].
        -- rewrite decide_True by (by apply prefix_app_r). destruct Hq as [r ->].
           rewrite <-app_assoc, !drop_app_length, app_assoc. apply Hw.
        -- case_decide as Hq'; [|apply Hw]. apply prefix_snoc_inv in Hq' as [->|]; [|done].
           intros _. by rewrite parent_snoc in Hp.
    + rewrite Hn. split_and!.
      * intros q Hq. by rewrite lookup_copy, decide_False.
      * intros r m. rewrite lookup_copy, decide_True by (done || by eexists).
        rewrite drop_app_length. intros Hm. exists m. split; [done|]. by destruct m.
      * intros _ r. rewrite lookup_copy, decide_True by (done || by eexists). by rewrite drop_app_length.
  - intros [= _ <- <-]. split; [done|]. destruct (fs !! dst) eqn:Hn; [done|]. split_and!; [done| |done].
    intros r m Hm. exfalso. destruct r as [|c r]; [rewrite app_nil_r in Hm; congruence|].
    rewrite (wf_prefix _ _ _ _ Hw Hm) in Hn; done.
Qed.

(** ** Encoding, hashing, archiving *)

Fixpoint bits (p : positive) : string :=
  match p with
  | xH => ""
  | xO p => String "0"%char (bits p)
  | xI p => String "1"%char (bits p)
  end.

Fixpoint of_bits (s : string) : positive :=
  match s with
  | "" => xH
  | String c s => if decide (c = "0"%char) then xO (of_bits s) else xI (of_bits s)
  end.

Lemma of_bits_bits p : of_bits (bits p) = p.
Proof. induction p as [p IH|p IH|]; simpl; congruence. Qed.

Definition info_fields (bi : BuildInfo) : list positive :=
  [encode (bi_Params bi); encode (bi_Group bi); encode (bi_Path bi); encode (bi_Cached bi);
   encode (bi_Coalesced bi); encode (bi_Incremental bi); encode (bi_ExitCode bi);
   encode (bi_ErrBuild bi); encode (bi_ContainerStdouterr bi); encode (bi_ContainerStderr bi);
   encode (bi_TransportMethod bi); encode (bi_StartedAt bi); encode (bi_Duration bi);
   encode (bi_URL bi)].

Definition info_of_fields (l : list positive) : option BuildInfo :=
  match l with
  | [a; b; c; d; e; f; g; h; i; j; k; m; n; o] =>
      a ← decode a; b ← decode b; c ← decode c; d ← decode d; e ← decode e; f ← decode f;
      g ← decode g; h ← decode h; i ← decode i; j ← decode j; k ← decode k; m ← decode m;
      n ← decode n; o ← decode o;
      Some (mkBuildInfo a b c d e f g h i j k m n o)
  | _ => None
  end.

Definition toy_unmarshal (s : string) (_ : BuildInfo) : gores BuildInfo :=
  match positives_unflatten (of_bits s) ≫= info_of_fields with
  | Some bi => Ok bi
  | None => Err (ErrString "invalid")
  end.

Definition toy_marshal (bi : BuildInfo) : gores string := Ok (bits (positives_flatten (info_fields bi))).

Lemma toy_roundtrip bi s old : toy_marshal bi = Ok s → toy_unmarshal s old = Ok bi.
Proof.
  intros [= <-]. unfold toy_unmarshal. rewrite of_bits_bits, positives_unflatten_flatten.
  cbn [mbind option_bind]. unfold info_of_fields, info_fields. rewrite !decode_encode. by destruct bi.
Qed.

#[export, program] Instance scen_json : JSON := {|
  json_good _ := True;
  json_marshal := toy_marshal;
  json_unmarshal := toy_unmarshal;
|}.
Next Obligation. intros bi s now bi' Hm Hu. rewrite (toy_roundtrip _ _ _ Hm) in Hu. by injection Hu as ->. Qed.
Next Obligation. intros bi now _ _ _. eexists. split; [done|]. by eapply toy_roundtrip. Qed.

Lemma str_take_length n s : (n ≤ String.length s)%nat → String.length (str_take n s) = n.
Proof.
  revert s. induction n as [|n IH]; intros [|c s] H; simpl in *; try lia.
  rewrite IH; lia.
Qed.

#[export, program] Instance scen_sha : Sha256 := {|
  sha256 s := str_take 32 (s +:+ "................................");
|}.
Next Obligation. intros s. apply str_take_length. rewrite str_length_app. simpl. lia. Qed.

#[export] Instance scen_tar : TarFormat := {|
  tar_entry _ rel data := rel +:+ "=" +:+ data;
  tar_close := "";
|}.

(** ** The Docker daemon *)

(** A container that leaves one artifact in its first mount. *)
Definition leave_artifact (mnts : list (string * string)) (fs : FS) : FS :=
  match mnts with
  | (src, _) :: _ =>
      let dir := comps src ++ ["artifacts"] in
      let out := dir ++ ["out.txt"] in
      if bool_decide (fs !! dir = Some Dir) && bool_decide (fs !! out ≠ Some Dir)
      then <[out := File "artifact"]> fs else fs
  | [] => fs
  end.

(** It builds any image; starting a container reports [start], and the container
    exits with [code]. *)
#[local] Instance scen_docker (start : error) (code : Z) : Docker := {|
  d_NewEnvClient _ := None;
  d_Close _ := None;
  d_ImageBuild _ _ _ _ _ _ := Ok "Step 1/1";
  d_DisplayJSONMessagesStream _ s := (s, None);
  d_ImageInspect _ _ := None;
  d_ContainerList _ _ := Ok [];
  d_ContainerRename _ _ _ := None;
  d_ContainerCreate _ _ _ _ _ := Ok "cid";
  d_ContainerStart _ _ := start;
  d_container_fs _ := leave_artifact;
  d_ContainerLogs _ _ := None;
  d_log_frames _ _ := ([(false, "out;"); (true, "err;")], None);
  d_ContainerInspect _ _ := Ok "state";
  d_decode_exit_code _ := Ok code;
  d_ContainerRemove _ _ := None;
|}.

#[export] Instance scen_docker_spec start code : @DockerSpec (scen_docker start code).
Proof.
  split; intros n [|[src tgt] mnts] fs; simpl; try done.
  - intros Hw. destruct (_ && _) eqn:Hb; [|done].
    rewrite andb_true_iff, !bool_decide_eq_true in Hb. destruct Hb as [Hd Ho].
    apply wf_insert; [done|by destruct (comps src)|by rewrite parent_snoc|by right].
  - intros q Hq. destruct (_ && _); [|done]. rewrite lookup_insert_ne; [done|].
    intros <-. apply (Hq src); [by left|]. exists "artifacts", ["out.txt"]. by rewrite <-app_assoc.
Qed.

(** ** A server with one project *)

Definition scen_base : path := ["builds"].

Definition scen_config (f : FileSystem) : Config := {|
  cfg_Addr := ":8462"; cfg_FileSystem := f; cfg_UID := "1000";
  cfg_ProjectsPath := "/projects"; cfg_BuildPath := "/builds";
  cfg_Mounts := {[ "/var/cache" := "/shared" ]}; cfg_Concurrency := 2; cfg_Backlog := 4;
|}.

Definition scen_fs : FS :=
  <[["projects"; "yarn"; "Dockerfile"] := File "FROM node"]> (<[["projects"; "yarn"] := Dir]>
  (<[["projects"] := Dir]> (<[["builds"] := Dir]> (<[[] := Dir]> ∅)))).

Definition scen_world : World := mkWorld scen_fs 0 ∅ ∅ false (Some []).

Lemma scen_fs_wf : wf scen_fs.
Proof. apply wf_check_sound. vm_compute. reflexivity. Qed.

(** Nothing was built yet. *)
Lemma scen_fs_builds r n : scen_fs !! (scen_base ++ r) = Some n → r = [].
Proof.
  unfold scen_fs, scen_base. simpl.
  repeat (rewrite lookup_insert_Some; intros [[? _]|[_ H]]; [congruence|revert H]).
  by rewrite lookup_empty.
Qed.

Lemma scen_none r : r ≠ [] → scen_fs !! (scen_base ++ r) = None.
Proof. intros Hr. destruct (scen_fs !! _) eqn:Hn; [|done]. by apply scen_fs_builds in Hn. Qed.

Lemma scen_store : store_ok scen_base scen_fs.
Proof.
  split.
  - apply scen_fs_wf.
  - reflexivity.
  - intros p _. left. by apply scen_none.
  - intros p d _ _. left. by apply scen_none.
  - intros p d id _ _ _. unfold build_shape, dirn, not_link, build_at.
    rewrite <-!app_assoc, !scen_none by done. split_and!; auto.
  - intros p g n _ _. unfold latest_at. rewrite scen_none; [done|]. by case_decide.
Qed.

Lemma scen_config_ok faults others start code :
  @config_ok (scen_env faults others) (scen_docker start code)
    (scen_config (@PlainFS (scen_env faults others))) scen_base.
Proof.
  split; try apply _; [reflexivity|].
  intros src target r Hm. simpl in Hm. apply lookup_singleton_Some in Hm as [<- _].
  intros [l Hl]. discriminate Hl.
Qed.

(** The job for the project with parameters [params] and group [group]. *)
Definition scen_job (params : Params) (group : string) : Job :=
  make_job "yarn" params group (scen_config (@PlainFS (scen_env calm alone))) "Dockerfile=FROM node"
    (map_to_list params).*1 5 6.

Definition scen_params : Params := {[ "lockfile" := "left-pad@1.3.0" ]}.

(** Comparing file systems by computation. *)
Lemma fs_eqb (a b : FS) : bool_decide (a = b) = true → a = b.
Proof. apply bool_decide_eq_true. Qed.

Lemma plain_yarn : plain "yarn". Proof. plain_const. Qed.
Lemma plain_lockfile : plain "lockfile". Proof. plain_const. Qed.
Lemma plain_prod : plain "prod". Proof. plain_const. Qed.

Lemma scen_job_ok group : group_ok group → job_ok scen_base (scen_job scen_params group).
Proof.
  intros Hg. apply make_job_ok; [|reflexivity|apply plain_yarn|done|].
  - constructor; [|constructor]. plain_const.
  - intros k v Hk. unfold scen_params in Hk. apply lookup_singleton_Some in Hk as [<- _]. apply plain_lockfile.
Qed.
