(* ===== verification/TarSpec.v ===== *)
(** The archive that [utils.Tar] makes of a project, which goes into the ID of its
    jobs: it is a function of the regular files below the root. *)
From S2P Require Import Prelude GoStrings Paths World FSFacts Logic Quiet Types Filesystem Config Job Store Scenario.
From Stdlib Require Import Ascii.

Open Scope string_scope.
Open Scope list_scope.

(** ** The reference: the files below a directory in the order of their paths *)

(** Paths compared component by component. *)
Fixpoint path_le (a b : path) : bool :=
  match a, b with
  | [], _ => true
  | _ :: _, [] => false
  | x :: a', y :: b' => if decide (x = y) then path_le a' b' else str_le x y
  end.

Definition path_leP (a b : path) : Prop := path_le a b = true.

#[export] Instance path_leP_dec a b : Decision (path_leP a b).
Proof. unfold path_leP. apply _. Defined.

#[export] Instance path_le_total : Total path_leP.
Proof.
  intros a. unfold path_leP. induction a as [|x a IH]; intros [|y b]; simpl; auto.
  destruct (decide (x = y)) as [->|Hne]; [by rewrite decide_True|].
  rewrite (decide_False (P := y = x)) by congruence. apply (str_le_total x y).
Qed.

#[export] Instance path_le_antisymm : AntiSymm (=) path_leP.
Proof.
  intros a. unfold path_leP. induction a as [|x a IH]; intros [|y b]; simpl; [done..|].
  destruct (decide (x = y)) as [->|Hne].
  - rewrite decide_True by done. intros H1 H2. f_equal. by apply IH.
  - rewrite (decide_False (P := y = x)) by congruence. intros H1 H2.
    destruct Hne. by apply (str_le_antisymm x y).
Qed.

#[export] Instance path_le_trans : Transitive path_leP.
Proof.
  intros a. unfold path_leP. induction a as [|x a IH]; intros [|y b] [|z c]; simpl; auto; [done..|].
  destruct (decide (x = y)) as [->|H1]; destruct (decide (y = z)) as [->|H2].
  - apply IH.
  - by intros _ H.
  - rewrite decide_False by done. by intros H _.
  - intros Hxy Hyz. destruct (decide (x = z)) as [->|H3]; [|by apply (str_le_trans x y z)].
    destruct H1. by apply (str_le_antisymm z y).
Qed.

(** The regular file at a path below [p]. *)
Definition file_below (p : path) (kn : path * node) : option path :=
  if decide (p `prefix_of` kn.1) then
    match kn.2 with File _ => Some (drop (length p) kn.1) | _ => None end
  else None.

Definition tar_paths (fs : FS) (p : path) : list path :=
  merge_sort path_leP (omap (file_below p) (map_to_list fs)).

(** A file's part of the archive. *)
Definition tar_item `{TarFormat} (fs : FS) (p r : path) : string :=
  match fs !! (p ++ r) with
  | Some (File d) => tar_entry (abs_path (p ++ r)) (render false r) d
  | _ => ""
  end.

Fixpoint str_concat (l : list string) : string :=
  match l with [] => "" | s :: l => s +:+ str_concat l end.

Definition tar_archive `{TarFormat} (fs : FS) (p : path) : string :=
  str_concat (tar_item fs p <$> tar_paths fs p) +:+ tar_close.

Lemma str_concat_app l1 l2 : str_concat (l1 ++ l2) = str_concat l1 +:+ str_concat l2.
Proof. induction l1 as [|s l1 IH]; [done|]. simpl. by rewrite IH, str_app_assoc. Qed.

(** ** The files in the order of the walk *)

(** The paths of the regular files at and below a node, as the walk meets them. *)
Fixpoint walk_paths (fuel : nat) (fs : FS) (p : path) (n : node) : list path :=
  match n with
  | Symlink _ => []
  | File _ => [[]]
  | Dir =>
      match fuel with
      | O => []
      | S fuel' =>
          c ← sort_strings (children fs p);
          match fs !! (p ++ [c]) with
          | Some m => cons c <$> walk_paths fuel' fs (p ++ [c]) m
          | None => []
          end
      end
  end.

(** The fuel is more than the depth of the tree below [p]. *)
Definition deep_enough (fuel : nat) (fs : FS) (p : path) : Prop :=
  ∀ r n, fs !! (p ++ r) = Some n → length r < fuel.

Lemma deep_enough_child fuel fs p c : deep_enough (S fuel) fs p → deep_enough fuel fs (p ++ [c]).
Proof. intros H r n Hn. rewrite <-app_assoc in Hn. apply H in Hn. simpl in Hn. lia. Qed.

Lemma elem_of_walk_paths fuel fs : ∀ p n r,
  wf fs → deep_enough fuel fs p → fs !! p = Some n →
  r ∈ walk_paths fuel fs p n ↔ ∃ d, fs !! (p ++ r) = Some (File d).
Proof.
  induction fuel as [|fuel IH]; intros p n r Hw Hf Hn.
  { specialize (Hf [] n). rewrite app_nil_r in Hf. apply Hf in Hn. simpl in Hn. lia. }
  destruct n as [|d|t]; cbn [walk_paths].
  - rewrite list_elem_of_bind. split.
    + intros (c & Hr & _). destruct (fs !! (p ++ [c])) as [m|] eqn:Hm; [|by apply not_elem_of_nil in Hr].
      apply list_elem_of_fmap in Hr as (r' & -> & Hr').
      apply (IH _ _ _ Hw (deep_enough_child _ _ _ _ Hf) Hm) in Hr' as [d Hd].
      exists d. by rewrite <-app_assoc in Hd.
    + intros [d Hd]. destruct r as [|c r]; [rewrite app_nil_r in Hd; congruence|].
      assert (∃ m, fs !! (p ++ [c]) = Some m) as [m Hm].
      { destruct r as [|c' r]; [eauto|]. exists Dir. change (p ++ c :: c' :: r) with (p ++ [c] ++ c' :: r) in Hd. rewrite app_assoc in Hd.
        by apply (wf_prefix _ _ _ _ Hw Hd). }
      exists c. rewrite Hm. split.
      * apply list_elem_of_fmap. exists r. split; [done|].
        apply (IH _ _ _ Hw (deep_enough_child _ _ _ _ Hf) Hm). exists d. by rewrite <-app_assoc.
      * rewrite sort_strings_perm. apply elem_of_children. eauto.
  - rewrite list_elem_of_singleton. split; [intros ->; exists d; by rewrite app_nil_r|].
    intros [d' Hd]. destruct r as [|c r]; [done|].
    pose proof (wf_prefix _ _ _ _ Hw Hd ltac:(discriminate)). congruence.
  - split; [by intros ?%not_elem_of_nil|]. intros [d' Hd].
    destruct r as [|c r]; [rewrite app_nil_r in Hd; congruence|].
    pose proof (wf_prefix _ _ _ _ Hw Hd ltac:(discriminate)). congruence.
Qed.

(** The walk meets them in the order of the reference, each once. *)
Definition path_lt (a b : path) : Prop := path_leP a b ∧ a ≠ b.

Lemma path_lt_cons c r r' : path_lt r r' → path_lt (c :: r) (c :: r').
Proof. intros [H Hne]. split; [unfold path_leP; simpl; by rewrite decide_True|congruence]. Qed.

Lemma path_lt_heads c c' r r' : str_leP c c' → c ≠ c' → path_lt (c :: r) (c' :: r').
Proof. intros H Hne. split; [unfold path_leP; simpl; by rewrite decide_False|congruence]. Qed.

Lemma NoDup_children fs p : NoDup (children fs p).
Proof.
  unfold children. apply NoDup_omap_inj; [|apply NoDup_map_to_list].
  intros [k n] [k' n'] c Hk Hk' H1 H2. simpl in *.
  apply child_of_spec in H1 as ->, H2 as ->. apply elem_of_map_to_list in Hk, Hk'. congruence.
Qed.

Lemma sorted_cons_lists (f : string → list path) cs :
  StronglySorted str_leP cs → NoDup cs → (∀ c, StronglySorted path_lt (f c)) →
  StronglySorted path_lt (c ← cs; cons c <$> f c).
Proof.
  intros Hs Hnd Hf. induction Hs as [|c cs Hs IH Hc]; [constructor|].
  apply NoDup_cons in Hnd as [Hin Hnd]. cbn [mbind list_bind]. apply StronglySorted_app. split_and!.
  - intros x y Hx Hy. apply list_elem_of_fmap in Hx as (r & -> & _).
    apply list_elem_of_bind in Hy as (c' & Hy & Hc'). apply list_elem_of_fmap in Hy as (r' & -> & _).
    apply path_lt_heads; [by rewrite Forall_forall in Hc; apply Hc|congruence].
  - specialize (Hf c). induction Hf as [|r l Hl IHl Hr]; [constructor|]. rewrite fmap_cons. constructor; [done|].
    apply Forall_fmap. eapply Forall_impl; [done|]. intros r' Hlt. by apply path_lt_cons.
  - by apply IH.
Qed.

Lemma walk_paths_sorted fuel fs : ∀ p n, StronglySorted path_lt (walk_paths fuel fs p n).
Proof.
  induction fuel as [|fuel IH]; intros p [|d|t]; cbn [walk_paths]; try (by repeat constructor).
  set (f := λ c, match fs !! (p ++ [c]) with Some m => walk_paths fuel fs (p ++ [c]) m | None => [] end).
  replace (c ← sort_strings (children fs p); match fs !! (p ++ [c]) with
    | Some m => cons c <$> walk_paths fuel fs (p ++ [c]) m | None => [] end)
    with (c ← sort_strings (children fs p); cons c <$> f c).
  - apply sorted_cons_lists.
    + apply sort_strings_sorted.
    + rewrite sort_strings_perm. apply NoDup_children.
    + intros c. unfold f. destruct (fs !! (p ++ [c])); [apply IH|constructor].
  - apply list_bind_ext; [|done]. intros c. unfold f. by destruct (fs !! (p ++ [c])).
Qed.

Lemma elem_of_tar_paths fs p r : r ∈ tar_paths fs p ↔ ∃ d, fs !! (p ++ r) = Some (File d).
Proof.
  unfold tar_paths. rewrite (merge_sort_Permutation path_leP), list_elem_of_omap. unfold file_below. split.
  - intros ([k n] & Hk%elem_of_map_to_list & H). simpl in H. case_decide as Hp; [|done].
    destruct n as [|d|t]; try done. injection H as <-. exists d. by rewrite <-(prefix_drop _ _ Hp).
  - intros [d Hd]. exists (p ++ r, File d). split; [by apply elem_of_map_to_list|]. simpl.
    rewrite decide_True by (by exists r). by rewrite drop_app_length.
Qed.

Lemma NoDup_tar_paths fs p : NoDup (tar_paths fs p).
Proof.
  unfold tar_paths. rewrite (merge_sort_Permutation path_leP). apply NoDup_omap_inj; [|apply NoDup_map_to_list].
  unfold file_below. intros [k n] [k' n'] r Hk Hk' H1 H2. simpl in *.
  case_decide as Hp; [|done]. case_decide as Hp'; [|done].
  destruct n, n'; try done. injection H1 as <-. injection H2 as H2.
  rewrite (prefix_drop _ _ Hp), (prefix_drop _ _ Hp') in *. rewrite !drop_app_length in H2.
  apply elem_of_map_to_list in Hk, Hk'. congruence.
Qed.

Lemma walk_paths_reference fuel fs p n :
  wf fs → deep_enough fuel fs p → fs !! p = Some n → walk_paths fuel fs p n = tar_paths fs p.
Proof.
  intros Hw Hf Hn. pose proof (walk_paths_sorted fuel fs p n) as Hs.
  apply (StronglySorted_unique path_leP).
  - eapply StronglySorted_weaken; [|exact Hs]. by intros a b [H _].
  - apply StronglySorted_merge_sort; apply _.
  - apply NoDup_Permutation.
    + clear -Hs. induction Hs as [|r l Hl IH Hr]; constructor; [|done].
      intros Hin. rewrite Forall_forall in Hr. by destruct (Hr _ Hin).
    + apply NoDup_tar_paths.
    + intros r. rewrite elem_of_tar_paths. by apply elem_of_walk_paths.
Qed.

(** ** The run *)

Lemma render_snoc r c : Forall plain r → plain c → Join [render false r; c] = render false (r ++ [c]).
Proof.
  intros Hr Hc. set (s := render false r).
  assert (Hs : s ≠ "" ∧ rooted s = false).
  { unfold s. destruct r as [|x r]; [done|]. apply Forall_cons in Hr as [(Hx & _ & _ & Hsl) _].
    destruct x as [|a x]; [done|]. cbn [Contains] in Hsl. apply orb_false_iff in Hsl as [Ha%bool_decide_eq_false _].
    assert (Hh : ∀ t, rooted (String a t) = false).
    { intros t. unfold rooted. cbn [HasPrefix]. by rewrite bool_decide_eq_false_2. }
    destruct r as [|y r]; [by split; [|apply Hh]|]. split; [done|apply Hh]. }
  destruct Hs as [Hne Hroot]. cbn [Join]. rewrite decide_False by done.
  change (GoStrings.Join "/" [s; c]) with (s +:+ String slash c). unfold Clean.
  assert (Hroot' : rooted (s +:+ String slash c) = false).
  { destruct s as [|a s']; [done|]. revert Hroot. unfold rooted. rewrite str_app_cons. cbn [HasPrefix].
    destruct (bool_decide _); [|done]. by destruct s'. }
  rewrite Hroot', clean_fold_filter. change (filter _ (Split slash _)) with (comps (s +:+ String slash c)).
  rewrite comps_Split_cat, (comps_plain c) by done. rewrite foldl_app.
  assert (Hfold : foldl (clean_step false) [] (comps s) = reverse r).
  { unfold s. destruct r as [|x r]; [done|].
    change (render false (x :: r)) with (GoStrings.Join "/" (x :: r)).
    rewrite comps_Join_sep, mjoin_comps_plain, clean_fold_plain by done. by rewrite app_nil_r. }
  rewrite Hfold. change [c] with ([c] : list string) at 1.
  rewrite (clean_fold_plain false (reverse r) [c]) by auto.
  by rewrite reverse_app, reverse_involutive.
Qed.

Section run.
Context {E : Env} {T : TarFormat} (Hquiet : quiet E).
Context (fs0 : FS) (Hw : wf fs0) (Hnames : names_ok fs0) (p : path).

(** [m] returns [a] and touches nothing. *)
Definition yields {A : Type} (m : M World (gores A)) (a : A) : Prop :=
  ∀ w, w_fs w = fs0 → (m w).1 = Ok a ∧ w_fs (m w).2 = fs0.

Lemma yields_ret {A : Type} (a : A) : yields (mret (Ok a)) a.
Proof. done. Qed.

Lemma yields_read {A : Type} op s (f : FS → errno + A) a : f fs0 = inr a → yields (sys_read op s f) a.
Proof. intros Hf w Hfs. rewrite read_quiet, Hfs, Hf by done. done. Qed.

Lemma yields_bindR {A B : Type} (m : M World (gores A)) (k : A → M World (gores B)) a b :
  yields m a → yields (k a) b → yields (bindR m k) b.
Proof. intros Hm Hk w Hfs. destruct (Hm w Hfs) as [Ha Hf]. rewrite bindR_run, Ha. by apply Hk. Qed.

(** The archive's part for the files with the given paths. *)
Definition tar_part (rs : list path) : string := str_concat (tar_item fs0 p <$> rs).

Lemma names_plain q n : fs0 !! q = Some n → Forall plain q.
Proof. apply Hnames. Qed.

Lemma tar_entries_quiet fuel r cs :
  (∀ c n, fs0 !! ((p ++ r) ++ [c]) = Some n →
     yields (tar_walk fuel (abs_path ((p ++ r) ++ [c])) (render false (r ++ [c])) n)
       (tar_part (app (r ++ [c]) <$> walk_paths fuel fs0 ((p ++ r) ++ [c]) n))) →
  yields (tar_entries (tar_walk fuel) (abs_path (p ++ r)) (render false r)
       (omap (λ c, n ← fs0 !! ((p ++ r) ++ [c]); Some (c, n)) cs))
    (tar_part (app r <$> (c ← cs; match fs0 !! ((p ++ r) ++ [c]) with
       | Some m => cons c <$> walk_paths fuel fs0 ((p ++ r) ++ [c]) m | None => [] end))).
Proof.
  intros Hwalk. induction cs as [|c cs IH]; [apply yields_ret|].
  cbn [omap list_omap mbind list_bind]. rewrite fmap_app. unfold tar_part in *. rewrite fmap_app, str_concat_app.
  destruct (fs0 !! ((p ++ r) ++ [c])) as [n|] eqn:Hn; cbn [mbind option_bind]; [|exact IH].
  cbn [tar_entries]. pose proof (names_plain _ _ Hn) as Hpc. apply Forall_app in Hpc as Hpl.
  destruct Hpl as [Hpr Hc]. apply Forall_cons in Hc as [Hc _].
  rewrite Join_abs, (mjoin_comps_plain [c]) by (rewrite ?(mjoin_comps_plain [c]); auto).
  rewrite render_snoc by (done || by apply Forall_app in Hpr as [_ ?]).
  apply (yields_bindR _ _ n).
  { apply yields_read. rewrite k_lstat_clear; [by rewrite Hn|done..|by eapply wf_clear]. }
  eapply yields_bindR; [by apply Hwalk|]. eapply yields_bindR; [exact IH|].
  assert (Heq : app r <$> (cons c <$> walk_paths fuel fs0 ((p ++ r) ++ [c]) n)
    = app (r ++ [c]) <$> walk_paths fuel fs0 ((p ++ r) ++ [c]) n).
  { rewrite <-list_fmap_compose. apply list_fmap_ext. intros _ x _. simpl. by rewrite <-app_assoc. }
  rewrite Heq. apply yields_ret.
Qed.

Lemma tar_walk_quiet fuel : ∀ r n,
  deep_enough fuel fs0 (p ++ r) → fs0 !! (p ++ r) = Some n →
  yields (tar_walk fuel (abs_path (p ++ r)) (render false r) n)
    (tar_part (app r <$> walk_paths fuel fs0 (p ++ r) n)).
Proof.
  induction fuel as [|fuel IH]; intros r n Hf Hn.
  { specialize (Hf [] n). rewrite app_nil_r in Hf. apply Hf in Hn. simpl in Hn. lia. }
  pose proof (names_plain _ _ Hn) as Hpl. destruct n as [|d|t]; cbn [tar_walk walk_paths].
  - eapply yields_bindR.
    + apply yields_read. unfold k_readdir. by rewrite (locate_dir fs0 Hw (p ++ r) true Hpl Hn), Hn.
    + apply tar_entries_quiet. intros c n Hc. rewrite <-app_assoc in Hc |- *.
      apply IH; [|done]. rewrite app_assoc. by apply deep_enough_child.
  - unfold tar_file. eapply yields_bindR; [apply yields_read; by apply k_read_file|].
    unfold tar_part, tar_item. cbn [fmap list_fmap str_concat]. rewrite app_nil_r, Hn, str_app_nil_r. apply yields_ret.
  - apply yields_ret.
Qed.

(** No path is longer than the number of nodes. *)
Lemma depth_size q n : fs0 !! q = Some n → length q < size fs0.
Proof.
  intros Hn. assert (Hsub : ((λ k, take k q) <$> seq 0 (S (length q))) ⊆+ (map_to_list fs0).*1).
  { apply NoDup_submseteq.
    - apply NoDup_fmap_2_strong; [|apply NoDup_seq]. intros x y Hx Hy Heq. apply elem_of_seq in Hx, Hy.
      apply (f_equal length) in Heq. rewrite !length_take in Heq. lia.
    - intros x (k & -> & Hk)%list_elem_of_fmap. apply list_elem_of_fmap.
      destruct (drop k q) as [|c r] eqn:Hdrop.
      + exists (q, n). split; [|by apply elem_of_map_to_list]. simpl. apply take_ge.
        apply (f_equal length) in Hdrop. rewrite length_drop in Hdrop. simpl in Hdrop. lia.
      + exists (take k q, Dir). split; [done|]. apply elem_of_map_to_list.
        apply (wf_prefix fs0 (take k q) (c :: r) n Hw); [|done]. by rewrite <-Hdrop, take_drop. }
  apply submseteq_length in Hsub. rewrite !length_fmap, length_seq, length_map_to_list in Hsub. lia.
Qed.

Lemma Tar_quiet n : fs0 !! p = Some n → yields (Tar (abs_path p)) (tar_archive fs0 p).
Proof.
  intros Hn. pose proof (names_plain _ _ Hn) as Hpl. unfold Tar. eapply yields_bindR.
  { apply yields_read. rewrite k_lstat_clear; [by rewrite Hn|done..|by eapply wf_clear]. }
  intros w Hfs. rewrite bind_run. cbn [gets fst snd]. rewrite Hfs. revert w Hfs.
  assert (Hdeep : deep_enough (size fs0) fs0 p).
  { intros r m Hr%depth_size. rewrite length_app in Hr. lia. }
  fold (yields (bindR (tar_walk (size fs0) (abs_path p) "." n) (λ a, mret (Ok (a +:+ tar_close)))) (tar_archive fs0 p)).
  pose proof (tar_walk_quiet (size fs0) [] n) as Hwalk. rewrite app_nil_r in Hwalk.
  eapply yields_bindR; [by apply Hwalk|]. rewrite (walk_paths_reference _ _ _ _ Hw Hdeep Hn).
  unfold tar_archive, tar_part. replace (app [] <$> tar_paths fs0 p) with (tar_paths fs0 p) by (symmetry; apply list_fmap_id).
  apply yields_ret.
Qed.
End run.

(** Two trees have the same regular files at and below [p]. *)
Definition same_files (p : path) (fs fs' : FS) : Prop :=
  ∀ r d, fs !! (p ++ r) = Some (File d) ↔ fs' !! (p ++ r) = Some (File d).

Lemma same_files_archive `{TarFormat} p fs fs' : same_files p fs fs' → tar_archive fs p = tar_archive fs' p.
Proof.
  intros Hs. assert (Hpaths : tar_paths fs p = tar_paths fs' p).
  { apply (StronglySorted_unique path_leP); [apply StronglySorted_merge_sort; apply _..|].
    apply NoDup_Permutation; [apply NoDup_tar_paths..|]. intros r. rewrite !elem_of_tar_paths.
    split; intros [d Hd]; exists d; by apply Hs. }
  unfold tar_archive. rewrite Hpaths. f_equal. f_equal. apply list_fmap_ext. intros i r Hr.
  apply list_elem_of_lookup_2, elem_of_tar_paths in Hr as [d Hd]. unfold tar_item. by rewrite Hd, (proj2 (Hs r d) Hd).
Qed.


(** A project with a file in a directory and a link, which is skipped. *)
Definition tar_fs : FS :=
  <[["projects"; "yarn"; "src"; "a"] := File "x"]> (<[["projects"; "yarn"; "src"] := Dir]>
  (<[["projects"; "yarn"; "link"] := Symlink "/"]> scen_fs)).

