(* ===== verification/WorkSpec.v ===== *)
(** [Server.Work] as its callers see it: what it keeps, what it returns and what
    it leaves behind. *)
From S2P Require Import Prelude GoStrings Paths World FSFacts Logic Quiet Types Filesystem Config Job Metrics Queues Worker Store WorkSafety WorkFrame Scenario.

Open Scope string_scope.
Open Scope list_scope.

(** ** The two ways through [Work] *)

Section work.
Context {E : Env} {J : JSON} {D : Docker} (cfg : Config) (ctx_done : nat → bool).

(** The state in which the goroutine goes on after it asked the job queue. *)
Definition started (j : Job) (w : World) : World := (RecordBuildStarted (j_Project j) (tick (tick w))).2.

Lemma Work_leads fuel j w :
  jobs_has (w_jobs w) (j_ID j) = false →
  let w1 := set_jobs (<[j_ID j := true]> (w_jobs w)) (started j w) in
  let r := lead cfg j (env_clock (w_step w)) (initial_info j (env_clock (S (w_step w)))) w1 in
  Work cfg ctx_done fuel j w = (Some r.1, (JobQueue_Delete j r.2).2).
Proof.
  intros Hj w1 r. unfold Work. rewrite !bind_run.
  assert (JobQueue_Add j (started j w) = (true, w1)) as Hadd.
  { unfold JobQueue_Add, jobs_add. change (w_jobs (started j w)) with (w_jobs w). by rewrite Hj. }
  unfold started in Hadd. simpl. simpl in Hadd. rewrite Hadd. simpl. by rewrite !bind_run.
Qed.

Lemma Work_coalesces fuel j w :
  jobs_has (w_jobs w) (j_ID j) = true →
  Work cfg ctx_done fuel j w =
    coalesce ctx_done fuel j (initial_info j (env_clock (S (w_step w)))) (set_jobs (w_jobs w) (started j w)).
Proof.
  intros Hj. unfold Work. rewrite !bind_run.
  assert (JobQueue_Add j (started j w) = (false, set_jobs (w_jobs w) (started j w))) as Hadd.
  { unfold JobQueue_Add, jobs_add. change (w_jobs (started j w)) with (w_jobs w). by rewrite Hj. }
  unfold started in Hadd. simpl. simpl in Hadd. by rewrite Hadd.
Qed.

Lemma Work_follows fuel j w :
  jobs_has (w_jobs w) (j_ID j) = true →
  ∃ bi, Work cfg ctx_done fuel j w = coalesce ctx_done fuel j bi (set_jobs (w_jobs w) (started j w)).
Proof. intros Hj. eexists. by apply Work_coalesces. Qed.

(** While it coalesces, the goroutine changes no file. *)
Lemma coalesce_triple fuel j (P : FS → Prop) :
  (∀ n fs, P fs → P (env_others n fs)) →
  ∀ bi, triple P (coalesce ctx_done fuel j bi) (λ _ fs, P fs).
Proof.
  intros Ho. induction fuel as [|fuel IH]; intros bi; [by apply triple_ret|]. cbn [coalesce].
  apply (triple_bind _ _ (λ _ fs, P fs)); [by intros w; apply Ho|]. intros [].
  apply (triple_bind _ _ (λ _ fs, P fs)); [by apply triple_pure|]. intros now.
  destruct (ctx_done now); [by apply triple_ret|].
  apply (triple_bind _ _ (λ _ fs, P fs)); [by apply triple_read|]. intros [n|e].
  - apply (triple_bind _ _ (λ _ fs, P fs)).
    + unfold ExitCode, ReadJobBuildInfo.
      apply (triple_bind _ _ (λ _ fs, P fs)); [|intros r; by apply triple_ret].
      apply (triple_bind _ _ (λ _ fs, P fs)); [by apply triple_pure|]. intros now'.
      apply (triple_bindR _ _ _ (λ _ fs, P fs)); [by apply triple_read|done|].
      intros d. destruct (json_unmarshal d _); by apply triple_ret.
    + intros [c|e]; [|by apply triple_ret].
      apply (triple_bind _ _ (λ _ fs, P fs)); [by apply triple_pure|]. intros []. by apply triple_ret.
  - destruct (IsNotExist e); [apply IH|by apply triple_ret].
Qed.

(** ** The store *)

Section theorems.
Context (B : path) (j : Job) {Hc : config_ok cfg B} (Hj : job_ok B j).

Lemma Work_store fuel w :
  (∀ n fs, store_ok B fs → store_ok B (env_others n fs)) →
  store_ok B (w_fs w) → store_ok B (w_fs (Work cfg ctx_done fuel j w).2).
Proof.
  intros Ho Hok. destruct (jobs_has (w_jobs w) (j_ID j)) eqn:Hq.
  - destruct (Work_follows fuel j w Hq) as [bi ->]. by apply coalesce_triple.
  - rewrite Work_leads by done. simpl. by apply (lead_store cfg B j Hj).
Qed.


(** What [lead] reports when it did build. *)
Lemma lead_builds start bi :
  triple (store_ok B) (lead cfg j start bi)
    (λ r fs, ∀ info, r = (Some info, None) → bi_Cached info = false → built B j (info, None) fs).
Proof.
  unfold lead. set (fresh := '(bi', err) ← build cfg j start bi; mret (Some bi', err)).
  assert (Hfresh : triple (store_ok B) fresh
    (λ r fs, ∀ info, r = (Some info, None) → bi_Cached info = false → built B j (info, None) fs)).
  { eapply triple_bind; [by apply (build_store cfg B j Hj)|]. intros [b e]. apply triple_ret.
    intros fs [_ Hb] info [= -> ->] _. done. }
  eapply triple_bind; [apply (triple_read _ _ _ _ (λ _ fs, store_ok B fs)); by intros|].
  intros [n|e].
  - eapply triple_bind; [by apply (read_info B j Hj)|]. intros [prev|e]; [|by apply triple_ret].
    case_bool_decide as Hcode.
    + eapply triple_bind.
      * eapply triple_weaken; [apply (remove_failed_store cfg B j Hj); apply _| |intros e fs H; exact H].
        intros fs [? Hp]. split; [done|]. intros b Hb. by rewrite <-(Hp prev b).
      * intros [e|]; [by apply triple_ret|]. exact Hfresh.
    + apply (triple_bind _ _ (λ _ _, True)); [by intros w _|]. intros []. apply triple_ret.
      intros fs _ info [= <-]. by destruct prev.
  - destruct (IsNotExist e); [exact Hfresh|by apply triple_ret].
Qed.

(** C2: when Work built the job itself and reports no error, the ready directory
    holds a log and exactly the build info it returned (but for the logs, which
    are not persisted), and if the container exited with 0 the latest link of the
    job's project and group points to that directory. *)
Theorem Work_publishes fuel w info :
  store_ok B (w_fs w) → jobs_has (w_jobs w) (j_ID j) = false →
  (Work cfg ctx_done fuel j w).1 = Some (Some info, None) → bi_Cached info = false →
  published B j (w_fs (Work cfg ctx_done fuel j w).2) info ∧
  (bi_ExitCode info = 0%Z →
   w_fs (Work cfg ctx_done fuel j w).2 !! latest_at B (j_Project j) (j_Group j)
   = Some (Symlink (abs_path (build_at B (j_Project j) "ready" (j_ID j))))).
Proof.
  intros Hok Hq. rewrite Work_leads by done. cbv zeta. intros [= Hr] Hcached.
  exact (lead_builds _ _ (set_jobs _ (started j w)) Hok info Hr Hcached eq_refl).
Qed.
End theorems.

(** ** The result cache *)

Section cache.
Context (Hquiet : quiet E) (B : path) (j : Job) (Hj : job_ok B j).

(** The ready directory and its contents, on the paths of the job. *)
Lemma ready_stat fs bi :
  store_ok B fs → published B j fs bi → k_stat fs (j_ReadyBuildPath j) = inr Dir.
Proof.
  intros Hok [(s & Hs & _) _]. rewrite (jo_ready _ _ Hj). unfold k_stat, at_location.
  apply (so_wf _ _ Hok) in Hs as Hd. rewrite locate_dir by (apply Hok || done || (rewrite <-(app_nil_r (build_at _ _ _ _)); by apply (plain_rd B j Hj))).
  by rewrite Hd.
Qed.

Lemma ready_file fs c d :
  store_ok B fs → plain c → fs !! (build_at B (j_Project j) "ready" (j_ID j) ++ [c]) = Some (File d) →
  k_read fs (Join [j_ReadyBuildPath j; c]) = inr d.
Proof.
  intros Hok Hc Hd. rewrite (jo_ready _ _ Hj), (Join_below _ _ [c]).
  - apply k_read_file; [apply Hok| |done]. apply (plain_rd B j Hj). solve_plain.
  - rewrite <-(app_nil_r (build_at _ _ _ _)). by apply (plain_rd B j Hj).
  - csimpl. by rewrite comps_plain.
  - solve_plain.
Qed.

(** Reading back the build info of a published build. *)
Lemma read_published logs w bi :
  store_ok B (w_fs w) → published B j (w_fs w) bi → json_good (set_ContainerLogs "" "" bi) →
  ∃ log w', w_fs w !! (build_at B (j_Project j) "ready" (j_ID j) ++ ["out.log"]) = Some (File log) ∧
    ReadJobBuildInfo (j_ReadyBuildPath j) logs w
      = (Ok (set_ContainerLogs (if logs : bool then log else "") "" bi), w') ∧ w_fs w' = w_fs w.
Proof.
  intros Hok [(s & Hs & Hm) (log & Hlog)] Hgood.
  destruct (json_roundtrip (set_ContainerLogs "" "" bi) (env_clock (w_step w)) Hgood eq_refl eq_refl) as (s' & Hm' & Hu).
  assert (s' = s) as -> by congruence.
  exists log, (if logs then tick (tick (tick w)) else tick (tick w)). split; [done|]. unfold ReadJobBuildInfo, Now. rewrite bind_run. cbn [fst snd].
  rewrite bindR_run. unfold ReadFile. rewrite read_quiet by done. cbn [fst snd w_fs tick].
  rewrite (ready_file (w_fs w) _ s); [|done|apply plain_info|done].
  cbn [fst snd]. rewrite Hu. destruct logs; [|split; reflexivity].
  rewrite bindR_run. unfold ReadJobLogs, BuildLogPath, ReadFile. rewrite read_quiet by done.
  cbn [fst snd w_fs tick].
  rewrite (ready_file (w_fs w) _ log); [split; reflexivity|done|apply plain_log|done].
Qed.

Lemma lead_cached start bi0 w bi :
  store_ok B (w_fs w) → published B j (w_fs w) bi → json_good (set_ContainerLogs "" "" bi) →
  bi_ExitCode bi = 0%Z →
  ∃ log, w_fs w !! (build_at B (j_Project j) "ready" (j_ID j) ++ ["out.log"]) = Some (File log) ∧
    (lead cfg j start bi0 w).1 = (Some (set_Cached true (set_ContainerLogs log "" bi)), None) ∧
    w_fs (lead cfg j start bi0 w).2 = w_fs w.
Proof.
  intros Hok Hp Hgood Hcode.
  destruct (read_published true (tick w) bi Hok Hp Hgood) as (log & w' & Hlog & Hr & Hfs).
  exists log. split; [done|]. unfold lead. rewrite bind_run. unfold Stat. rewrite read_quiet by done.
  rewrite (ready_stat _ bi) by done. cbn [fst snd]. rewrite bind_run, Hr. cbn [fst snd].
  rewrite bool_decide_false by (simpl; lia). rewrite bind_run. done.
Qed.

(** C7: once a successful build is in place, Work for the same job answers from
    it: it returns the persisted build info, marked as cached, with the log of that
    build, and touches neither a file nor Docker. *)
Theorem Work_cached fuel w bi :
  store_ok B (w_fs w) → published B j (w_fs w) bi → json_good (set_ContainerLogs "" "" bi) →
  bi_ExitCode bi = 0%Z → jobs_has (w_jobs w) (j_ID j) = false →
  ∃ log, w_fs w !! (build_at B (j_Project j) "ready" (j_ID j) ++ ["out.log"]) = Some (File log) ∧
    (Work cfg ctx_done fuel j w).1 = Some (Some (set_Cached true (set_ContainerLogs log "" bi)), None) ∧
    w_fs (Work cfg ctx_done fuel j w).2 = w_fs w.
Proof.
  intros Hok Hp Hgood Hcode Hq. rewrite Work_leads by done. cbv zeta.
  destruct (lead_cached (env_clock (w_step w)) (initial_info j (env_clock (S (w_step w))))
    (set_jobs (<[j_ID j := true]> (w_jobs w)) (started j w)) bi) as (log & Hlog & Hr & Hfs); [done..|].
  exists log. split; [done|]. split; [|done]. cbn [fst]. by rewrite Hr.
Qed.
End cache.
End work.

(** ** Witnesses on a server with one project *)

(** A disk that fills up, a goroutine that comes and goes. *)
Definition full_disk (n : nat) : option fault := if decide (n = 30) then Some ENOSPC else None.


Abbreviation scen_work docker job w :=
  (@Work (scen_env calm alone) scen_json docker (scen_config (@PlainFS (scen_env calm alone)))
     (λ _, false) 3 job w).

Lemma Work_publishes_witness :
  ∃ info,
    let w' := (scen_work (scen_docker None 0) (scen_job scen_params "prod") scen_world).2 in
    published scen_base (scen_job scen_params "prod") (w_fs w') info ∧
    (bi_ExitCode info = 0%Z →
     w_fs w' !! latest_at scen_base "yarn" "prod"
     = Some (Symlink (abs_path (build_at scen_base "yarn" "ready" (j_ID (scen_job scen_params "prod")))))).
Proof.
  eexists. apply (@Work_publishes (scen_env calm alone) _ (scen_docker None 0) _ _ scen_base
    (scen_job scen_params "prod") (scen_config_ok _ _ _ _) (scen_job_ok "prod" (or_intror plain_prod))).
  - exact scen_store.
  - reflexivity.
  - vm_compute. reflexivity.
  - vm_compute. reflexivity.
Defined.

(** A world in which the job was built. *)
Definition scen_built (docker : Docker) (group : string) : World :=
  (scen_work docker (scen_job scen_params group) scen_world).2.

Lemma scen_built_store start code group :
  group_ok group → store_ok scen_base (w_fs (scen_built (scen_docker start code) group)).
Proof.
  intros Hg. apply (@Work_store (scen_env calm alone) _ (scen_docker start code) _ _ scen_base _
    (scen_config_ok _ _ _ _) (scen_job_ok group Hg)); [by intros n fs|exact scen_store].
Qed.

(** The build info of the scenario's first build, as [Work] returned it. *)
Definition scen_info (docker : Docker) (group : string) : BuildInfo :=
  match (scen_work docker (scen_job scen_params group) scen_world).1 with
  | Some (Some bi, _) => bi
  | _ => NewBuildInfo 0
  end.

(** An executable test that a build was published. *)
Definition published_check (fs : FS) (p : path) (bi : BuildInfo) : bool :=
  bool_decide (fs !! (p ++ ["build_info.json"]) = match toy_marshal (set_ContainerLogs "" "" bi) with
                                                  | Ok s => Some (File s) | Err _ => None end) &&
  match fs !! (p ++ ["out.log"]) with Some (File _) => true | _ => false end.

Lemma published_check_sound fs j bi :
  published_check fs (build_at scen_base (j_Project j) "ready" (j_ID j)) bi = true →
  published scen_base j fs bi.
Proof.
  unfold published_check, published. generalize (build_at scen_base (j_Project j) "ready" (j_ID j)) as p.
  intros p [Hi%bool_decide_eq_true Hl]%andb_true_iff. split.
  - eexists. split; [exact Hi|reflexivity].
  - unfold has_log. destruct (fs !! (p ++ ["out.log"])) as [[|l|]|]; [done|by exists l|done|done].
Qed.

#[global] Opaque scen_built scen_info.

Lemma Work_cached_witness :
  let w := scen_built (scen_docker None 0) "prod" in
  ∃ log,
    w_fs w !! (build_at scen_base "yarn" "ready" (j_ID (scen_job scen_params "prod")) ++ ["out.log"])
      = Some (File log) ∧
    (scen_work (scen_docker None 1) (scen_job scen_params "prod") w).1
      = Some (Some (set_Cached true (set_ContainerLogs log "" (scen_info (scen_docker None 0) "prod"))), None) ∧
    w_fs (scen_work (scen_docker None 1) (scen_job scen_params "prod") w).2 = w_fs w.
Proof.
  cbv zeta. apply (@Work_cached (scen_env calm alone) scen_json (scen_docker None 1) _ _ (λ n, eq_refl)
    scen_base (scen_job scen_params "prod") (scen_job_ok "prod" (or_intror plain_prod))).
  - apply (scen_built_store None 0 "prod" (or_intror plain_prod)).
  - apply published_check_sound. vm_compute. reflexivity.
  - exact I.
  - vm_compute. reflexivity.
  - vm_compute. reflexivity.
Defined.
