(* ===== verification/MetricsSpec.v ===== *)
(** What a run of [Work] tells the metrics: the calls on the collectors, in every
    case. *)
From S2P Require Import Prelude GoStrings Paths World FSFacts Logic Types Filesystem Config Job Metrics Queues Worker Store WorkSafety WorkFrame Scenario WorkSpec.

Open Scope list_scope.

(** [m] makes calls [out] on the collectors, with [Q] for its result and them. *)
Definition emits {A : Type} (m : M World A) (Q : A → list metric_call → Prop) : Prop :=
  ∀ w calls, w_metrics w = Some calls →
    ∃ out, w_metrics (m w).2 = Some (calls ++ out) ∧ Q (m w).1 out.

Section emits.
Context {E : Env}.

Lemma emits_ret {A : Type} (a : A) (Q : A → list metric_call → Prop) : Q a [] → emits (mret a) Q.
Proof. intros HQ w calls Hw. exists []. by rewrite app_nil_r. Qed.

Lemma emits_bind {A C : Type} (m : M World A) R (k : A → M World C) Q :
  emits m R → (∀ a out, R a out → emits (k a) (λ b out', Q b (out ++ out'))) → emits (m ≫= k) Q.
Proof.
  intros Hm Hk w calls Hw. rewrite bind_run. destruct (Hm w calls Hw) as (out & Hw1 & HR).
  destruct (Hk _ out HR _ _ Hw1) as (out' & Hw2 & HQ). exists (out ++ out'). by rewrite app_assoc.
Qed.

Lemma emits_weaken {A : Type} (m : M World A) (R Q : A → list metric_call → Prop) :
  emits m R → (∀ a out, R a out → Q a out) → emits m Q.
Proof. intros Hm HQ w calls Hw. destruct (Hm w calls Hw) as (out & ? & ?). eauto. Qed.

(** Computations that make no call. *)
Lemma emits_quiet {A : Type} (m : M World A) : Keeps w_metrics m → emits m (λ _ out, out = []).
Proof. intros Hm w calls Hw. exists []. by rewrite app_nil_r, (Hm w). Qed.

Lemma emits_after {A C : Type} (m : M World A) (k : A → M World C) Q :
  Keeps w_metrics m → (∀ a, emits (k a) Q) → emits (m ≫= k) Q.
Proof. intros Hm Hk. eapply emits_bind; [by apply emits_quiet|]. by intros a out ->. Qed.

Lemma emits_record c : emits (Record_ c) (λ _ out, out = [c]).
Proof. intros w calls Hw. exists [c]. simpl. by rewrite Hw. Qed.

Lemma rest_metrics w w' : w_rest w' = w_rest w → same w_metrics w w'.
Proof. intros H. by injection H. Qed.

#[local] Instance keeps_metrics {A : Type} (m : M World A) : Keeps w_rest m → Keeps w_metrics m.
Proof. apply pres_of_rest, rest_metrics. Qed.

#[local] Instance lock_metrics {A : Type} project (m : M World A) : Keeps w_rest m → Keeps w_metrics (with_lock project m).
Proof.
  intros Hm. unfold with_lock. apply pres_bind; [apply _| |].
  - intros w. unfold same. simpl. by destruct (w_locks w !! project) as [[]|].
  - intros []. apply pres_bind; [apply _|by apply keeps_metrics|]. intros a.
    apply pres_bind; [apply _| |intros []; apply _].
    intros w. unfold same. simpl. by destruct (w_locks w !! project) as [[]|].
Qed.

(** The calls for a build whose container ran to its end. *)
Definition finished_calls (project : string) (bi : BuildInfo) : list metric_call :=
  Inc BuildsFinished project ::
  if bool_decide (bi_ExitCode bi = ContainerSuccessExitCode) then
    (if bi_Incremental bi then [Inc BuildsProcessedIncrementally project] else []) ++
    [Observe BuildsSucceeded project (bi_Duration bi)]
  else [Observe BuildsFailed project (bi_Duration bi)].

Lemma emits_finished project bi :
  emits (RecordBuildFinished project (bool_decide (bi_ExitCode bi = ContainerSuccessExitCode)) (bi_Incremental bi) (bi_Duration bi))
    (λ _ out, out = finished_calls project bi).
Proof.
  intros w calls Hw. exists (finished_calls project bi). split; [|done].
  unfold RecordBuildFinished, finished_calls. rewrite bind_run. case_bool_decide; [rewrite bind_run; destruct (bi_Incremental bi)|];
    simpl; rewrite Hw; simpl; by rewrite <-?app_assoc.
Qed.

(** ** Builds *)

Section build.
Context {J : JSON} {D : Docker} (cfg : Config) `{!FileSystemSpec (cfg_FileSystem cfg)}.

(** Either the build failed before its container ended, or it reported it. *)
Definition build_calls (j : Job) (r : BuildInfo * error) (out : list metric_call) : Prop :=
  (out = [] ∧ r.2 ≠ None) ∨ out = finished_calls (j_Project j) r.1.

#[local] Instance docker_metrics {A : Type} (f : nat → A) : Keeps w_metrics (docker f).
Proof. by intros w. Qed.

Lemma emits_fail {A : Type} (j : Job) bi (e : goerr) (m : M World A) :
  Keeps w_metrics m → emits (m;; mret (bi, Some e)) (build_calls j).
Proof. intros Hm. apply emits_after; [done|]. intros _. apply emits_ret. by left. Qed.

Lemma container_emits j start bi : emits (run_container cfg j start bi) (build_calls j).
Proof.
  unfold run_container. apply emits_after; [apply (R_image _ rest_metrics)|]. intros [e|]; [apply emits_ret; by left|].
  apply emits_after; [apply (R_start cfg _ rest_metrics)|]. intros [[code outErr] [e|]]; [apply emits_ret; by left|].
  apply emits_after; [apply _|]. intros [e|]; [apply emits_ret; by left|].
  apply emits_after; [apply _|]. intros [logs|e]; [|apply emits_ret; by left].
  apply emits_after; [apply _|]. intros now. cbv zeta.
  eapply emits_bind; [apply emits_finished|]. intros [] out ->. apply emits_ret. right. by rewrite app_nil_r.
Qed.

(** The deferred functions keep what was reported. *)
Lemma finished_calls_err project bi e : finished_calls project (set_ErrBuild e bi) = finished_calls project bi.
Proof. done. Qed.

Lemma close_emits j msg (close : M World error) body :
  Keeps w_metrics close → emits body (build_calls j) → emits (defer_close msg close body) (build_calls j).
Proof.
  intros Hc Hb. unfold defer_close. eapply emits_bind; [exact Hb|]. intros [bi err] out Hout.
  eapply emits_bind; [by apply emits_quiet|]. intros d out' ->. apply emits_ret. rewrite app_nil_r.
  destruct Hout as [[-> He]| ->]; [left|by right]. split; [done|]. by destruct d.
Qed.

Lemma body_emits j start bi : emits (build_body cfg j start bi) (build_calls j).
Proof.
  unfold build_body. apply emits_after; [unfold write_params; solve_pres|]. intros [e|]; [apply emits_ret; by left|].
  apply emits_after; [apply _|]. intros [e|]; [apply emits_ret; by left|].
  apply close_emits; [apply _|]. apply emits_after; [apply _|]. intros [e|]; [apply emits_ret; by left|].
  apply close_emits; [apply _|]. apply container_emits.
Qed.

Lemma persist_emits j r out :
  build_calls j r out → emits (deferred_persist j r) (λ r' out', build_calls j r' (out ++ out')).
Proof.
  destruct r as [bi err]. intros Hout. unfold deferred_persist.
  eapply emits_bind; [apply emits_quiet, (R_persist _ rest_metrics)|]. intros biErr out' ->. apply emits_ret. rewrite app_nil_r.
  destruct Hout as [[-> He]| ->]; [left; split; [done|by destruct biErr]|right].
  by destruct err.
Qed.

Lemma publish_emits j r out :
  build_calls j r out → emits (deferred_publish j r) (λ r' out', build_calls j r' (out ++ out')).
Proof.
  destruct r as [bi err]. intros Hout. unfold deferred_publish.
  eapply emits_bind; [apply emits_quiet; apply _|]. intros rerr out' ->.
  set (err' := match rerr with Some _ => _ | None => _ end). destruct (bool_decide (err' = None)) eqn:He; cbn [andb].
  - apply bool_decide_eq_true in He. assert (err = None) as -> by (by destruct rerr).
    destruct Hout as [[_ []]| ->]; [done|]. case_bool_decide.
    + eapply emits_bind; [apply emits_quiet, (R_latest _ (@lock_metrics))|]. intros e out' ->. apply emits_ret. right. by rewrite !app_nil_r.
    + apply emits_ret. right. by rewrite !app_nil_r.
  - apply bool_decide_eq_false in He. apply emits_ret. rewrite !app_nil_r. destruct Hout as [[-> Hn]| ->]; [by left|by right].
Qed.

Lemma build_emits j start bi : emits (build cfg j start bi) (build_calls j).
Proof.
  unfold build. apply emits_after; [apply _|].
  intros [n|e]; [|destruct (IsNotExist e); apply emits_ret; by left].
  apply emits_after; [apply lock_metrics; solve_pres|]. intros [e|]; [apply emits_ret; by left|].
  apply emits_after; [apply (R_dirs cfg _ rest_metrics)|]. intros [bi1 [e|]]; [apply emits_ret; by left|].
  apply emits_after; [apply (R_persist _ rest_metrics)|]. intros [e|]; [apply emits_ret; by left|].
  eapply emits_bind; [apply body_emits|]. intros r out Hout.
  eapply emits_bind; [by apply persist_emits|]. intros r' out' Hout'. cbv beta in *.
  eapply emits_weaken; [by apply publish_emits|]. intros r'' out''. by rewrite app_assoc.
Qed.

(** What [lead] reports. *)
Definition lead_calls (j : Job) (r : option BuildInfo * error) (out : list metric_call) : Prop :=
  (out = [] ∧ r.2 ≠ None) ∨
  (out = [Inc CacheUtilization (j_Project j)] ∧ ∃ bi, r = (Some bi, None) ∧ bi_Cached bi = true) ∨
  (∃ bi, r.1 = Some bi ∧ out = finished_calls (j_Project j) bi).

Lemma lead_emits j start bi : emits (lead cfg j start bi) (lead_calls j).
Proof.
  unfold lead. set (fresh := '(bi', err) ← build cfg j start bi; mret (Some bi', err)).
  assert (Hfresh : emits fresh (lead_calls j)).
  { eapply emits_bind; [apply build_emits|]. intros [b e] out Hout. apply emits_ret. rewrite app_nil_r.
    destruct Hout as [[-> He]| ->]; [by left|right; right]. by exists b. }
  apply emits_after; [apply _|]. intros [n|e].
  - apply emits_after; [apply (R_info _ rest_metrics)|]. intros [prev|e]; [|apply emits_ret; by left].
    case_bool_decide.
    + apply emits_after; [apply _|]. intros [e|]; [apply emits_ret; by left|exact Hfresh].
    + eapply emits_bind; [apply emits_record|]. intros [] out ->. apply emits_ret. right. left. split; [done|]. by eexists.
  - destruct (IsNotExist e); [exact Hfresh|apply emits_ret; by left].
Qed.

Lemma coalesce_emits ctx_done fuel j : ∀ bi,
  emits (coalesce ctx_done fuel j bi) (λ r out,
    (out = [] ∧ ∀ info, r ≠ Some (info, None)) ∨
    (out = [Inc BuildsCoalesced (j_Project j)] ∧ ∃ info, r = Some (Some info, None) ∧ bi_Coalesced info = true)).
Proof.
  induction fuel as [|fuel IH]; intros bi; cbn [coalesce]; [apply emits_ret; by left|].
  apply emits_after; [apply _|]. intros []. apply emits_after; [apply _|]. intros now.
  destruct (ctx_done now); [apply emits_ret; by left|]. apply emits_after; [apply _|]. intros [n|e].
  - apply emits_after; [unfold ExitCode; apply pres_bind; [apply _|apply (R_info _ rest_metrics)|intros; apply _]|].
    intros [c|e]; [|apply emits_ret; by left].
    eapply emits_bind; [apply emits_record|]. intros [] out ->. apply emits_ret. right. split; [done|]. by eexists.
  - destruct (IsNotExist e); [apply IH|apply emits_ret; by left].
Qed.

(** C28: the metrics account for each run of Work: it is counted as started, once and
    first; then nothing is counted if it failed before its container ended or still
    waits; a cached result counts in the cache utilization, and a coalesced one as
    coalesced; and a build whose container ended is counted as finished, and its
    duration observed with the successful ones exactly when the exit code it reports
    is 0, also when a later stage fails. *)
Theorem Work_metrics ctx_done fuel j w calls :
  w_metrics w = Some calls →
  let r := Work cfg ctx_done fuel j w in
  ∃ out, w_metrics r.2 = Some (calls ++ Inc BuildsStarted (j_Project j) :: out) ∧
    ((out = [] ∧ ∀ info, r.1 ≠ Some (info, None)) ∨
     (out = [Inc CacheUtilization (j_Project j)] ∧ ∃ info, r.1 = Some (Some info, None) ∧ bi_Cached info = true) ∨
     (out = [Inc BuildsCoalesced (j_Project j)] ∧ ∃ info, r.1 = Some (Some info, None) ∧ bi_Coalesced info = true) ∨
     (∃ info e, r.1 = Some (Some info, e) ∧ out = finished_calls (j_Project j) info)).
Proof.
  intros Hw. cbv zeta. destruct (jobs_has (w_jobs w) (j_ID j)) eqn:Hq.
  - destruct (Work_follows cfg ctx_done fuel j w Hq) as [bi ->].
    destruct (coalesce_emits ctx_done fuel j bi (set_jobs (w_jobs w) (started j w)) (calls ++ [Inc BuildsStarted (j_Project j)]))
      as (out & Hout & HQ); [simpl; by rewrite Hw|].
    exists out. rewrite Hout, <-app_assoc. split; [done|]. destruct HQ as [HQ|HQ]; [by left|right; right; by left].
  - rewrite Work_leads by done. cbv zeta. cbn [fst snd].
    set (w1 := set_jobs _ _). destruct (lead_emits j (env_clock (w_step w)) (initial_info j (env_clock (S (w_step w)))) w1
      (calls ++ [Inc BuildsStarted (j_Project j)])) as (out & Hout & HQ); [simpl; by rewrite Hw|].
    exists out. change (w_metrics (JobQueue_Delete j (lead cfg j (env_clock (w_step w)) (initial_info j (env_clock (S (w_step w)))) w1).2).2)
      with (w_metrics (lead cfg j (env_clock (w_step w)) (initial_info j (env_clock (S (w_step w)))) w1).2).
    rewrite Hout, <-app_assoc. split; [done|].
    destruct (lead cfg j _ _ w1).1 as [info e]. destruct HQ as [[-> He]|[(-> & bi & [= -> ->] & Hc)|(bi & [= ->] & ->)]].
    + left. split; [done|]. by intros i [= _ ->].
    + right. left. split; [done|]. by exists bi.
    + right. right. right. by exists bi, e.
Qed.
End build.
End emits.

Lemma Work_metrics_witness :
  let r := scen_work (scen_docker None 7) (scen_job scen_params "prod") scen_world in
  ∃ out, w_metrics r.2 = Some ([] ++ Inc BuildsStarted "yarn" :: out) ∧
    ((out = [] ∧ ∀ info, r.1 ≠ Some (info, None)) ∨
     (out = [Inc CacheUtilization "yarn"] ∧ ∃ info, r.1 = Some (Some info, None) ∧ bi_Cached info = true) ∨
     (out = [Inc BuildsCoalesced "yarn"] ∧ ∃ info, r.1 = Some (Some info, None) ∧ bi_Coalesced info = true) ∨
     (∃ info e, r.1 = Some (Some info, e) ∧ out = finished_calls "yarn" info)).
Proof.
  apply (@Work_metrics (scen_env calm alone) scen_json (scen_docker None 7) (scen_config (@PlainFS (scen_env calm alone))) _
    (λ _, false) 3 (scen_job scen_params "prod") scen_world []).
  reflexivity.
Defined.
