(* ===== verification/WorkRefine.v ===== *)
(** An abstract specification of the server's build directory, the published builds
    and the latest links, and the refinement: whatever [Work] does to the files is a
    sequence of the specification's steps. *)
From S2P Require Import Prelude GoStrings Paths World FSFacts Logic Types Filesystem Config Job Metrics Queues Worker Store WorkSafety WorkFrame Scenario WorkSpec WorkCarry.

Open Scope string_scope.
Open Scope list_scope.

(** ** The specification *)

(** The files of each published build, by project and ID, and the ID of the build
    that is the latest one, by project and group. *)
Record Store := mkStore {
  st_build : string → string → path → option node;
  st_latest : string → string → option string;
}.

Section spec.
Context {J : JSON}.

(** The build was published with the exit code 0. *)
Definition succeeded (s : Store) (proj id : string) : Prop :=
  ∃ text bi, st_build s proj id ["build_info.json"] = Some (File text) ∧ json_marshal bi = Ok text ∧ bi_ExitCode bi = 0%Z.

(** The builds, and the latest links, but for one. *)
Definition builds_but (but : string → string → Prop) (s s' : Store) : Prop :=
  ∀ p i r, plain p → job_id i → ¬ but p i → st_build s' p i r = st_build s p i r.
Definition latest_but (but : string → string → Prop) (s s' : Store) : Prop :=
  ∀ p g, plain p → group_ok g → ¬ but p g → st_latest s' p g = st_latest s p g.
Definition none (a b : string) : Prop := False.
Definition only (a b : string) (a' b' : string) : Prop := a' = a ∧ b' = b.

(** What a run for the job with this project, ID and group may do: nothing that is
    seen; lose files of its own build, if that was not successful; publish its build,
    if there is none; unlink its latest build; link a successful one of its own. *)
Inductive job_step (proj id group : string) : Store → Store → Prop :=
| stutter s s' : builds_but none s s' → latest_but none s s' → job_step proj id group s s'
| discard s s' :
    ¬ succeeded s proj id → (∀ r n, st_build s' proj id r = Some n → st_build s proj id r = Some n) →
    builds_but (only proj id) s s' → latest_but none s s' → job_step proj id group s s'
| publish s s' :
    (∀ r, st_build s proj id r = None) → st_build s' proj id [] = Some Dir →
    builds_but (only proj id) s s' → latest_but none s s' → job_step proj id group s s'
| unlink s s' :
    st_latest s' proj group = None →
    builds_but none s s' → latest_but (only proj group) s s' → job_step proj id group s s'
| link s s' :
    st_latest s proj group = None → succeeded s proj id → st_latest s' proj group = Some id →
    builds_but none s s' → latest_but (only proj group) s s' → job_step proj id group s s'.

(** A step of any job. *)
Definition store_step (s s' : Store) : Prop :=
  ∃ proj id group, plain proj ∧ job_id id ∧ group_ok group ∧ job_step proj id group s s'.

(** No step touches a successful build. *)
Lemma job_step_keeps proj id group s s' p i r :
  job_step proj id group s s' → plain p → job_id i → succeeded s p i → st_build s' p i r = st_build s p i r.
Proof.
  intros Hs Hp Hi Hsucc. destruct Hs as [s s' Hb _|s s' Hn _ Hb _|s s' Hn _ Hb _|s s' _ Hb _|s s' _ _ _ Hb _];
    apply Hb; try done; try (by intros []); intros [-> ->]; [done|].
  destruct Hsucc as (text & bi & Ht & _). by rewrite Hn in Ht.
Qed.

Lemma steps_keep s s' p i :
  rtc store_step s s' → plain p → job_id i → succeeded s p i →
  succeeded s' p i ∧ ∀ r, st_build s' p i r = st_build s p i r.
Proof.
  intros Hs Hp Hi. induction Hs as [s|s s1 s' (proj & id & group & _ & _ & _ & H1) _ IH]; intros Hsucc; [done|].
  pose proof (λ r, job_step_keeps proj id group s s1 p i r H1 Hp Hi Hsucc) as Hk.
  destruct IH as [Hs' Hk'].
  - destruct Hsucc as (text & bi & Ht & Hm). exists text, bi. by rewrite Hk.
  - split; [done|]. intros r. by rewrite Hk', Hk.
Qed.
End spec.

(** ** The files as an abstract store *)

Definition view (B : path) (fs : FS) : Store :=
  mkStore (λ proj id r, fs !! (build_at B proj "ready" id ++ r))
    (λ proj group, match fs !! latest_at B proj group with Some (Symlink t) => last (comps t) | _ => None end).

Section view.
Context {J : JSON} (B : path).

Lemma succeeded_view fs proj id : succeeded (view B fs) proj id ↔ successful fs (build_at B proj "ready" id).
Proof.
  split.
  - intros (text & bi & Ht & Hm & Hc). exists bi. split; [by exists text|done].
  - intros (bi & (text & Ht & Hm) & Hc). by exists text, bi.
Qed.

Lemma ready_inj p i r proj id r' :
  build_at B p "ready" i ++ r = build_at B proj "ready" id ++ r' → p = proj ∧ i = id ∧ r = r'.
Proof. unfold build_at. rewrite <-!app_assoc. by intros [= -> -> ->]%app_inv_head. Qed.

(** Files elsewhere do not count. *)
Lemma view_same (but1 but2 : string → string → Prop) fs fs' :
  (∀ p i r, plain p → job_id i → ¬ but1 p i → fs' !! (build_at B p "ready" i ++ r) = fs !! (build_at B p "ready" i ++ r)) →
  (∀ p g, plain p → group_ok g → ¬ but2 p g → fs' !! latest_at B p g = fs !! latest_at B p g) →
  builds_but but1 (view B fs) (view B fs') ∧ latest_but but2 (view B fs) (view B fs').
Proof.
  intros H1 H2. split.
  - intros p i r Hp Hi Hb. by apply H1.
  - intros p g Hp Hg Hb. unfold view. simpl. by rewrite H2.
Qed.
End view.

(** ** The refinement *)

Lemma write_failed `{Env} (P : FS → Prop) wrap (f : FS → errno + FS) :
  triple P (sys_write wrap f) (λ e fs, e ≠ None → P fs).
Proof. by apply triple_write. Qed.

Lemma read_build_info_fs `{Env} `{JSON} p logs w : w_fs (ReadJobBuildInfo p logs w).2 = w_fs w.
Proof.
  apply (triple_weaken (λ fs, fs = w_fs w) (λ fs, fs = w_fs w) _ (λ _ fs, fs = w_fs w) (λ _ fs, fs = w_fs w)); [|done..].
  unfold ReadJobBuildInfo. eapply triple_bind; [by apply triple_pure|]. intros now.
  eapply triple_bindR; [apply (triple_read _ _ _ _ (λ _ fs, fs = w_fs w)); by intros|done|].
  intros d. destruct (json_unmarshal d _) as [bi|e]; [|by apply triple_ret]. destruct logs; [|by apply triple_ret].
  eapply triple_bindR; [apply (triple_read _ _ _ _ (λ _ fs, fs = w_fs w)); by intros|done|].
  intros log. by apply triple_ret.
Qed.

Section refine.
Context {E : Env} {J : JSON} {D : Docker}.
Context (cfg : Config) (B : path) (j : Job) (Hj : job_ok B j) (Hcfg : config_ok cfg B).

Abbreviation pd := (build_at B (j_Project j) "pending" (j_ID j)).
Abbreviation rd := (build_at B (j_Project j) "ready" (j_ID j)).
Abbreviation ld := (latest_at B (j_Project j) (j_Group j)).
Abbreviation step := (job_step (j_Project j) (j_ID j) (j_Group j)).

(** The run so far, from the files [fs0]. *)
Definition reached (fs0 fs : FS) : Prop := rtc step (view B fs0) (view B fs).

Context (fs0 : FS).

Lemma reached_step fs fs' : step (view B fs) (view B fs') → reached fs0 fs → reached fs0 fs'.
Proof. intros Hs Hr. by eapply rtc_r. Qed.

Lemma reached_pd fs fs' :
  (∀ r, ¬ pd `prefix_of` B ++ r → fs' !! (B ++ r) = fs !! (B ++ r)) → reached fs0 fs → reached fs0 fs'.
Proof.
  intros Hs. apply reached_step. destruct (view_same B none none fs fs') as [Hb Hl]; [..|by apply stutter].
  - intros p i r _ _ _. unfold build_at at 1 2. rewrite <-!app_assoc. apply Hs. unfold build_at.
    cbn [app]. rewrite prefix_app_cancel, !prefix_cons_iff. by intros (_ & [=] & _).
  - intros p g _ _ _. unfold latest_at. apply Hs. intros [r Hr]. change (latest_at B p g = pd ++ r) in Hr.
    revert Hr. apply latest_not_build. by left.
Qed.

Lemma reached_top : stable B (reached fs0).
Proof.
  intros fs q Hl Hn. apply reached_step. destruct (view_same B none none fs (<[q := Dir]> fs)) as [Hb Hlt]; [..|by apply stutter].
  - intros p i r _ _ _. rewrite lookup_insert_ne; [done|]. intros ->. unfold build_at in Hl.
    rewrite !length_app in Hl. simpl in Hl. lia.
  - intros p g Hp Hg _. rewrite lookup_insert_ne; [done|]. by apply Hn.
Qed.

(** The rename makes the build of the job one that is published. *)
Lemma reached_publish fs :
  store_ok B fs → fs !! pd = Some Dir → fs !! rd = None → reached fs0 fs → reached fs0 (move_tree pd rd fs).
Proof.
  intros Hok Hpd Hrd. apply reached_step.
  assert (Hnone : ∀ r, fs !! (rd ++ r) = None).
  { intros r. destruct (fs !! (rd ++ r)) as [n|] eqn:Hn; [|done]. destruct r as [|c r]; [by rewrite app_nil_r in Hn; congruence|].
    apply (wf_prefix _ rd) in Hn; [congruence|apply Hok|done]. }
  assert (Hother : ∀ q, ¬ rd `prefix_of` q → ¬ pd `prefix_of` q → move_tree pd rd fs !! q = fs !! q).
  { intros q H1 H2. by rewrite lookup_move_tree, decide_False, decide_False. }
  destruct (view_same B (only (j_Project j) (j_ID j)) none fs (move_tree pd rd fs)) as [Hb Hl]; [..|apply publish; auto].
  - intros p i r _ _ Hne. apply Hother; unfold build_at; rewrite <-app_assoc; cbn [app]; rewrite prefix_app_cancel, !prefix_cons_iff.
    + intros (Hp & _ & Hi & _). by apply Hne.
    + by intros (_ & [=] & _).
  - intros p g _ _ _. apply Hother; intros [r Hr]; revert Hr; apply latest_not_build; [by right|by left].
  - simpl. rewrite lookup_move_tree, app_nil_r, decide_True by done. by rewrite drop_all, app_nil_r.
Qed.

Abbreviation strip := (set_ContainerLogs "" "").

Lemma unlink_refines :
  triple (λ fs, store_ok B fs ∧ reached fs0 fs) (Remove (j_LatestBuildPath j)) (λ _ fs, reached fs0 fs).
Proof.
  rewrite (jo_latest _ _ Hj). apply triple_write; [by intros fs e [_ ?]|]. intros fs fs' [Hok HP] Hk. unfold k_remove in Hk.
  destruct (locate_clear fs (so_wf _ _ Hok) ld false) as [H|[H _]];
    [by apply (plain_ld B j Hj)|apply clear_latest; [done|apply Hj]|by left|rewrite H in Hk|by rewrite H in Hk].
  destruct (fs !! ld) as [n|] eqn:Hn; [|done].
  assert (fs' = delete ld fs) as ->.
  { destruct (so_links _ _ Hok _ _ _ (jo_proj _ _ Hj) (jo_group _ _ Hj) Hn) as (id & _ & -> & _). congruence. }
  revert HP. apply reached_step.
  destruct (view_same B none (only (j_Project j) (j_Group j)) fs (delete ld fs)) as [Hb Hl]; [..|apply unlink; auto].
  - intros p i r _ _ _. rewrite lookup_delete_ne; [done|]. apply latest_not_build. by right.
  - intros p g _ _ Hne. rewrite lookup_delete_ne; [done|]. intros [Hp1 Hg1]%latest_inj. by apply Hne.
  - unfold view. simpl. by rewrite lookup_delete_eq.
Qed.

Lemma link_refines bi :
  bi_ExitCode bi = 0%Z →
  triple (λ fs, store_ok B fs ∧ reached fs0 fs ∧ published B j fs bi) (SymlinkTo (j_ReadyBuildPath j) (j_LatestBuildPath j))
    (λ _ fs, reached fs0 fs).
Proof.
  intros Hc. rewrite (jo_ready _ _ Hj), (jo_latest _ _ Hj).
  apply triple_write; [by intros fs e (_ & ? & _)|]. intros fs fs' (Hok & HP & Hp) Hk. unfold k_make in Hk.
  destruct (locate_clear fs (so_wf _ _ Hok) ld false) as [H|[H _]];
    [by apply (plain_ld B j Hj)|apply clear_latest; [done|apply Hj]|by left|rewrite H in Hk|by rewrite H in Hk].
  destruct (fs !! ld) eqn:Hn; [done|]. injection Hk as <-. revert HP. apply reached_step.
  destruct (view_same B none (only (j_Project j) (j_Group j)) fs (<[ld := Symlink (abs_path rd)]> fs)) as [Hb Hl]; [..|apply link; auto].
  - intros p i r _ _ _. rewrite lookup_insert_ne; [done|]. apply latest_not_build. by right.
  - intros p g _ _ Hne. rewrite lookup_insert_ne; [done|]. intros [Hp1 Hg1]%latest_inj. by apply Hne.
  - unfold view. simpl. by rewrite Hn.
  - apply succeeded_view. destruct Hp as [Hi _]. by exists (strip bi).
  - unfold view. simpl. rewrite lookup_insert_eq, comps_abs_path.
    + unfold build_at. by rewrite last_app.
    + rewrite <-(app_nil_r rd). by apply (plain_rd B j Hj).
Qed.
Abbreviation kept := (λ fs, store_ok B fs ∧ reached fs0 fs).

Lemma update_latest_refines bi :
  bi_ExitCode bi = 0%Z →
  triple (λ fs, store_ok B fs ∧ reached fs0 fs ∧ published B j fs bi) (update_latest j) (λ _ fs, reached fs0 fs).
Proof.
  intros Hc. unfold update_latest. apply triple_with_lock. set (I := λ fs, store_ok B fs ∧ reached fs0 fs ∧ published B j fs bi).
  set (link := wrapM _ (SymlinkTo _ _)).
  assert (Hlink : triple I link (λ _ fs, reached fs0 fs)).
  { eapply triple_wrapM; [by apply (link_refines bi)|by intros]. }
  eapply triple_bind; [apply (triple_read _ _ _ _ (λ _ fs, I fs)); by intros|].
  intros [n|e].
  - apply (triple_andM _ _ _ (λ _ fs, I fs)); [|by intros e fs (_ & ? & _)|exact Hlink].
    apply (triple_wrapM _ _ _ (λ _ fs, I fs)); [|done]. eapply triple_weaken.
    + apply (triple_both I _ (λ _ fs, store_ok B fs ∧ published B j fs bi) (λ _ fs, reached fs0 fs)).
      * eapply triple_weaken; [apply (unlink_store B j Hj bi)|by intros fs (? & _ & ?)|done].
      * eapply triple_weaken; [apply unlink_refines|by intros fs (? & ? & _)|done].
    + done.
    + by intros e fs [[? ?] ?].
  - destruct (IsNotExist e); [exact Hlink|]. apply triple_ret. by intros fs (_ & ? & _).
Qed.

Lemma rename_refines bi (err : error) :
  triple (λ fs, kept fs ∧ (err = None → has_info fs pd (strip bi) ∧ has_log fs pd))
    (Rename (j_PendingBuildPath j) (j_ReadyBuildPath j))
    (λ e fs, kept fs ∧ (e = None → err = None → published B j fs bi)).
Proof.
  set (R := λ fs, reached fs0 fs ∧ (err = None → has_info fs pd (strip bi) ∧ has_log fs pd)).
  eapply triple_weaken.
  - apply (triple_both (λ fs, store_ok B fs ∧ R fs) _
      (λ e fs, store_ok B fs ∧ (e = None → reached fs0 fs ∧ (err = None → published B j fs bi))) (λ e fs, e ≠ None → reached fs0 fs)).
    + apply (rename_store B j Hj R). intros fs Hok Hpd Hrd [HP Hi]. split; [by apply reached_publish|].
      intros He. destruct (Hi He) as [Hinfo [l Hl]]. split; [by apply has_info_publish|]. exists l.
      rewrite lookup_move_tree, decide_True by (by eexists). by rewrite drop_app_length.
    + eapply triple_weaken; [apply write_failed|by intros fs [_ [? _]]|done].
  - by intros fs [[? ?] ?].
  - intros [e|] fs [[Hok He] Hn]; (split; [split; [done|]|]); try done.
    + by apply Hn.
    + by apply He.
    + intros _. by apply He.
Qed.

Lemma deferred_publish_refines r :
  triple (λ fs, kept fs ∧ (r.2 = None → has_info fs pd (strip r.1) ∧ has_log fs pd)) (deferred_publish j r)
    (λ _ fs, reached fs0 fs).
Proof.
  destruct r as [bi err]. unfold deferred_publish. cbn [fst snd]. eapply triple_bind; [apply rename_refines|].
  intros e. set (err' := match e with Some _ => _ | None => _ end).
  assert (Herr : err' = None → e = None ∧ err = None) by (by destruct e).
  destruct (bool_decide (err' = None)) eqn:H1, (bool_decide (bi_ExitCode bi = ContainerSuccessExitCode)) eqn:H2;
    cbn [andb]; try (apply triple_ret; by intros fs [[_ ?] _]).
  apply bool_decide_eq_true in H1, H2. destruct (Herr H1) as [-> ->]. eapply triple_bind.
  - eapply triple_weaken; [by apply (update_latest_refines bi)|intros fs [[? ?] Hx]; by auto|intros e fs Hx; exact Hx].
  - intros e. by apply triple_ret.
Qed.

Lemma build_refines start bi : triple kept (build cfg j start bi) (λ _ fs, reached fs0 fs).
Proof.
  apply (build_carry cfg B j Hj Hcfg (reached fs0) reached_pd reached_top start bi); [by intros fs [_ ?]|].
  apply deferred_publish_refines.
Qed.

(** A failed build that is removed, perhaps in part. *)
Lemma remove_failed_refines :
  triple (λ fs, kept fs ∧ ∀ bi, has_info fs rd bi → bi_ExitCode bi ≠ 0%Z)
    (fs_Remove (cfg_FileSystem cfg) (j_ReadyBuildPath j)) (λ _ fs, kept fs).
Proof.
  eapply triple_weaken; [apply (kept_by B (reached fs0) (λ fs, ∀ bi, has_info fs rd bi → bi_ExitCode bi ≠ 0%Z) _ (λ _ _, True))|done|by intros e fs [? _]].
  { eapply triple_weaken; [apply (remove_failed_store cfg B j Hj Hcfg)|done|by intros e fs ?]. }
  rewrite (jo_ready _ _ Hj). apply triple_pre. intros w [[Hok HP] Hni].
  pose proof (plain_rd B j Hj [] ltac:(done)) as Hrd. rewrite app_nil_r in Hrd. eapply triple_weaken.
  - apply (remove_spec rd (w_fs w)); [apply Hok|done| |].
    + rewrite <-(app_nil_r rd). by apply (build_at_not_nil B j).
    + apply clear_build; [done|apply Hj|left; by right].
  - done.
  - intros _ fs (Hw & Hs & Hsub). revert HP. apply reached_step.
    destruct (view_same B (only (j_Project j) (j_ID j)) none (w_fs w) fs) as [Hb Hl]; [..|apply discard; auto].
    + intros p i r _ _ Hne. apply Hs. unfold build_at. rewrite <-app_assoc. cbn [app].
      rewrite prefix_app_cancel, !prefix_cons_iff. intros (H1 & _ & H2 & _). by apply Hne.
    + intros p g _ _ _. apply Hs. intros [r Hr]. revert Hr. apply latest_not_build. by right.
    + rewrite succeeded_view. intros (bi & Hi & Hc). by apply (Hni bi Hi).
    + intros r n. apply Hsub.
Qed.

Lemma lead_refines start bi : triple kept (lead cfg j start bi) (λ _ fs, reached fs0 fs).
Proof.
  unfold lead. set (fresh := '(bi', err) ← build cfg j start bi; mret (Some bi', err)).
  assert (Hfresh : triple kept fresh (λ _ fs, reached fs0 fs)).
  { eapply triple_bind; [apply build_refines|]. intros [b e]. by apply triple_ret. }
  eapply triple_bind; [apply (triple_read _ _ _ _ (λ _ fs, kept fs)); by intros|].
  intros [n|e].
  - eapply triple_bind.
    { apply (kept_store B (reached fs0)); [apply (read_info B j Hj)|].
      eapply triple_weaken; [apply (triple_pure _ (reached fs0))|by intros fs [_ ?]|done].
      apply read_build_info_fs. }
    intros [prev|e]; [|apply triple_ret; by intros fs [[_ ?] _]].
    case_bool_decide as Hc.
    + eapply triple_bind.
      * eapply triple_weaken; [apply remove_failed_refines| |intros e fs Hx; exact Hx].
        intros fs [? Hp]. split; [done|]. intros b Hb. by rewrite <-(Hp prev b).
      * intros [e|]; [by apply triple_ret; intros fs [_ ?]|]. exact Hfresh.
    + apply (triple_bind _ _ (λ _ fs, reached fs0 fs)); [|intros []; by apply triple_ret].
      eapply triple_weaken; [by apply (triple_pure _ (reached fs0))|by intros fs [[_ ?] _]|done].
  - destruct (IsNotExist e); [exact Hfresh|apply triple_ret; by intros fs [_ ?]].
Qed.
End refine.

Lemma reached_any `{JSON} B j fs fs' : job_ok B j → reached B j fs fs' → rtc store_step (view B fs) (view B fs').
Proof.
  intros Hj Hr. eapply rtc_subrel; [|exact Hr]. intros s s' Hs.
  exists (j_Project j), (j_ID j), (j_Group j). split_and!; [apply Hj..|done].
Qed.

Section works.
Context {E : Env} {J : JSON} {D : Docker} (cfg : Config) (ctx_done : nat → bool).
Context (B : path) {Hcfg : config_ok cfg B}.
(** What the others do while a goroutine sleeps is what the specification allows. *)
Context (Ho : ∀ n fs, store_ok B fs →
  store_ok B (env_others n fs) ∧ rtc store_step (view B fs) (view B (env_others n fs))).

Lemma Work_steps fuel j w :
  job_ok B j → store_ok B (w_fs w) →
  rtc store_step (view B (w_fs w)) (view B (w_fs (Work cfg ctx_done fuel j w).2)) ∧
  (jobs_has (w_jobs w) (j_ID j) = false → reached B j (w_fs w) (w_fs (Work cfg ctx_done fuel j w).2)).
Proof.
  intros Hj Hok. destruct (jobs_has (w_jobs w) (j_ID j)) eqn:Hq.
  - split; [|done]. destruct (Work_follows cfg ctx_done fuel j w Hq) as [bi ->].
    apply (coalesce_triple ctx_done fuel j (λ fs, store_ok B fs ∧ rtc store_step (view B (w_fs w)) (view B fs))).
    + intros n fs [Hok1 H1]. destruct (Ho n fs Hok1) as [Hok2 H2]. split; [done|]. by etrans.
    + split; [done|]. apply rtc_refl.
  - assert (Hr : reached B j (w_fs w) (w_fs (Work cfg ctx_done fuel j w).2)).
    { rewrite Work_leads by done. cbv zeta. cbn [snd].
      apply (lead_refines cfg B j Hj Hcfg (w_fs w)). split; [done|]. apply rtc_refl. }
    split; [|done]. by apply (reached_any B j).
Qed.


(** A sequence of builds on one server. *)
Fixpoint works (l : list (nat * Job)) (w : World) : World :=
  match l with
  | [] => w
  | (fuel, j) :: l => works l (Work cfg ctx_done fuel j w).2
  end.

Lemma works_steps l : ∀ w,
  Forall (λ nj, job_ok B nj.2) l → store_ok B (w_fs w) →
  store_ok B (w_fs (works l w)) ∧ rtc store_step (view B (w_fs w)) (view B (w_fs (works l w))).
Proof.
  induction l as [|[fuel j] l IH]; intros w Hl Hok; [done|]. apply Forall_cons in Hl as [Hj Hl]. cbn [snd] in Hj.
  cbn [works]. destruct (IH (Work cfg ctx_done fuel j w).2) as [Hok' Hs]; [done| |].
  - apply (Work_store cfg ctx_done B j Hj); [|done]. intros n fs H. by apply Ho.
  - split; [done|]. etrans; [|exact Hs]. by apply Work_steps.
Qed.

End works.

(** ** Witnesses *)

Lemma alone_steps `{E : Env} `{JSON} B :
  (∀ n fs, env_others n fs = fs) →
  ∀ n fs, store_ok B fs → store_ok B (env_others n fs) ∧ rtc store_step (view B fs) (view B (env_others n fs)).
Proof. intros Ha n fs Hok. rewrite Ha. done. Qed.

Lemma published_success `{JSON} B j fs bi :
  published B j fs bi → bi_ExitCode bi = 0%Z → successful fs (build_at B (j_Project j) "ready" (j_ID j)).
Proof. intros [Hi _] Hc. by exists (set_ContainerLogs "" "" bi). Qed.


