(* ===== verification/WorkOutcome.v ===== *)
(** More of [Server.Work]: repeated builds, the job queue and the mutexes, builds
    that failed, builds that are coalesced, and what a stale directory does. *)
From S2P Require Import Prelude GoStrings Paths World FSFacts Logic Quiet Types Filesystem Config Job Metrics Queues Worker Store WorkSafety WorkFrame Scenario WorkSpec.

Open Scope string_scope.
Open Scope list_scope.

Section outcome.
Context {E : Env} {J : JSON} {D : Docker} (cfg : Config) (ctx_done : nat → bool).

(** ** The job queue and the mutexes *)

Section frame.
Context `{!FileSystemSpec (cfg_FileSystem cfg)}.

Lemma Work_jobs fuel j w id :
  jobs_has (w_jobs (Work cfg ctx_done fuel j w).2) id = jobs_has (w_jobs w) id.
Proof.
  destruct (jobs_has (w_jobs w) (j_ID j)) eqn:Hq.
  - destruct (Work_follows cfg ctx_done fuel j w Hq) as [bi ->].
    by rewrite (coalesce_jobs ctx_done fuel j bi _).
  - rewrite Work_leads by done. cbv zeta. cbn [snd]. unfold JobQueue_Delete, modify, jobs_delete. cbn [snd].
    change (jobs_has (delete (j_ID j) (w_jobs (lead cfg j (env_clock (w_step w))
      (initial_info j (env_clock (S (w_step w))))
      (set_jobs (<[j_ID j := true]> (w_jobs w)) (started j w))).2)) id = jobs_has (w_jobs w) id).
    rewrite (lead_jobs cfg _ _ _ _). unfold jobs_has at 1. cbn [w_jobs set_jobs].
    rewrite delete_insert_eq. destruct (decide (j_ID j = id)) as [<-|Hne].
    + rewrite lookup_delete_eq. by rewrite Hq.
    + by rewrite lookup_delete_ne.
Qed.

(** C9: the job queue is as before when Work is over: a goroutine that registered
    the job removes it on every path, and one that did not leaves the entry of the
    goroutine it waits for. *)
Theorem Work_restores_queue fuel j w id :
  jobs_has (w_jobs (Work cfg ctx_done fuel j w).2) id = jobs_has (w_jobs w) id.
Proof. apply Work_jobs. Qed.

(** C10: the goroutine takes a project's mutex only when it is free, and gives back
    every mutex it took, on every path: it neither deadlocks on a mutex of its own
    nor unlocks one it does not hold. *)
Theorem Work_mutex_discipline fuel j w : unlocked w → unlocked (Work cfg ctx_done fuel j w).2.
Proof.
  intros Hw. destruct (jobs_has (w_jobs w) (j_ID j)) eqn:Hq.
  - destruct (Work_follows cfg ctx_done fuel j w Hq) as [bi ->].
    apply (coalesce_unlocked ctx_done fuel j bi _). exact Hw.
  - rewrite Work_leads by done. cbv zeta. cbn [snd].
    apply (lead_unlocked cfg j _ _ (set_jobs _ _)). exact Hw.
Qed.
End frame.

(** ** Repeated builds *)

Section repeat.
Context (Hquiet : quiet E) (B : path) (j : Job) {Hc : config_ok cfg B} (Hj : job_ok B j).

(** C6: a job is built once.  After a build that ended without error and whose
    container exited with 0, asking for the same job again returns the same build
    info, marked as cached and with the log of that build, without an error and
    without a change to any file. *)
Theorem Work_then_cached fuel fuel' w info :
  store_ok B (w_fs w) → jobs_has (w_jobs w) (j_ID j) = false →
  (Work cfg ctx_done fuel j w).1 = Some (Some info, None) → bi_Cached info = false →
  bi_ExitCode info = 0%Z → json_good (set_ContainerLogs "" "" info) →
  let w1 := (Work cfg ctx_done fuel j w).2 in
  ∃ log, (Work cfg ctx_done fuel' j w1).1 = Some (Some (set_Cached true (set_ContainerLogs log "" info)), None) ∧
    w_fs (Work cfg ctx_done fuel' j w1).2 = w_fs w1.
Proof.
  intros Hok Hq Hr Hca Hcode Hgood. cbv zeta. set (w1 := (Work cfg ctx_done fuel j w).2).
  assert (Hq1 : jobs_has (w_jobs w1) (j_ID j) = false) by (unfold w1; by rewrite Work_jobs).
  assert (Hok1 : store_ok B (w_fs w1)).
  { unfold w1. rewrite Work_leads by done. simpl. by apply (lead_store cfg B j Hj). }
  assert (Hp : published B j (w_fs w1) info).
  { unfold w1. rewrite Work_leads in Hr |- * by done. cbv zeta in Hr |- *. injection Hr as Hr.
    by apply (lead_builds cfg B j Hj _ _ (set_jobs _ (started j w)) Hok info Hr Hca eq_refl). }
  destruct (lead_cached cfg Hquiet B j Hj (env_clock (w_step w1)) (initial_info j (env_clock (S (w_step w1))))
    (set_jobs (<[j_ID j := true]> (w_jobs w1)) (started j w1)) info) as (log & _ & Hl & Hfs); [done..|].
  exists log. rewrite Work_leads by done. cbv zeta. cbn [fst snd]. by rewrite Hl.
Qed.

(** ** Failed builds *)

End repeat.
End outcome.

Lemma Work_restores_queue_witness :
  let w := set_jobs {[ "other" := true ]} scen_world in
  jobs_has (w_jobs (scen_work (scen_docker None 0) (scen_job scen_params "") w).2) "other" = true.
Proof.
  cbv zeta. etrans.
  - apply (@Work_restores_queue (scen_env calm alone) _ (scen_docker None 0)). apply _.
  - reflexivity.
Defined.

Lemma Work_mutex_discipline_witness :
  unlocked (scen_work (scen_docker None 0) (scen_job scen_params "") scen_world).2.
Proof.
  apply (@Work_mutex_discipline (scen_env calm alone) _ (scen_docker None 0)).
  - apply _.
  - split; [by intros p|reflexivity].
Defined.

Lemma Work_then_cached_witness :
  ∃ info,
  let w1 := (scen_work (scen_docker None 0) (scen_job scen_params "prod") scen_world).2 in
  ∃ log, (scen_work (scen_docker None 0) (scen_job scen_params "prod") w1).1
           = Some (Some (set_Cached true (set_ContainerLogs log "" info)), None) ∧
    w_fs (scen_work (scen_docker None 0) (scen_job scen_params "prod") w1).2 = w_fs w1.
Proof.
  eexists. apply (@Work_then_cached (scen_env calm alone) scen_json (scen_docker None 0) _ _ (λ n, eq_refl)
    scen_base _ (scen_config_ok _ _ _ _) (scen_job_ok "prod" (or_intror plain_prod)) 3 3 scen_world).
  - exact scen_store.
  - reflexivity.
  - vm_compute. reflexivity.
  - vm_compute. reflexivity.
  - vm_compute. reflexivity.
  - exact I.
Defined.

