(* ===== verification/WorkFailure.v ===== *)
(** What happens to a build when something goes wrong: coalescing with a build
    that never appears, containers that do not start, directories left behind. *)
From S2P Require Import Prelude GoStrings Paths World FSFacts Logic Quiet Types Filesystem Config Job Metrics Queues Worker Store WorkSafety WorkFrame Scenario WorkSpec.

Open Scope string_scope.
Open Scope list_scope.

Section coalescing.
Context {E : Env} {J : JSON} (ctx_done : nat → bool) (Hquiet : quiet E) (j : Job).

(** The state when the loop wakes up, and when it goes back to sleep after it
    found no ready directory. *)
Definition woken (w : World) : World := (Sleep w).2.
Fixpoint waited (k : nat) (w : World) : World :=
  match k with O => w | S k => waited k (tick (woken w)) end.

(** One turn of the loop that finds nothing. *)
Lemma coalesce_waits fuel bi w :
  ctx_done (w_step (woken w)) = false → k_stat (w_fs (woken w)) (j_ReadyBuildPath j) = inl ENOENT →
  coalesce ctx_done (S fuel) j bi w = coalesce ctx_done fuel j bi (tick (woken w)).
Proof.
  intros Hctx Hst. cbn [coalesce]. rewrite bind_run. change (Sleep w).2 with (woken w).
  rewrite bind_run. cbn [gets fst snd]. rewrite Hctx. rewrite bind_run. unfold Stat.
  rewrite read_quiet by done. by rewrite Hst.
Qed.

Lemma coalesce_waits_many k : ∀ fuel bi w,
  (∀ i, (i < k)%nat → ctx_done (w_step (woken (waited i w))) = false ∧
     k_stat (w_fs (woken (waited i w))) (j_ReadyBuildPath j) = inl ENOENT) →
  coalesce ctx_done (k + fuel) j bi w = coalesce ctx_done fuel j bi (waited k w).
Proof.
  induction k as [|k IH]; intros fuel bi w H; [done|]. cbn [Nat.add waited].
  destruct (H 0%nat ltac:(lia)). rewrite coalesce_waits by done. apply IH.
  intros i Hi. apply (H (S i)). lia.
Qed.

(** C15: a goroutine that coalesces does not return while the ready directory is
    missing, however long that lasts: when the build it waits for ends without one
    (an unknown project, a directory that could not be made), it waits forever. *)
Theorem coalesce_waits_forever fuel bi w :
  (∀ i, ctx_done (w_step (woken (waited i w))) = false ∧
     k_stat (w_fs (woken (waited i w))) (j_ReadyBuildPath j) = inl ENOENT) →
  (coalesce ctx_done fuel j bi w).1 = None.
Proof.
  intros H. rewrite <-(Nat.add_0_r fuel). rewrite coalesce_waits_many; [done|]. intros i _. apply H.
Qed.

(** C14: a goroutine that coalesces returns, at the first tick that finds the
    build, its own build info with the exit code of that build, marked as
    coalesced, and no error. *)
Theorem coalesce_returns B k fuel bi w info :
  job_ok B j →
  (∀ i, (i < k)%nat → ctx_done (w_step (woken (waited i w))) = false ∧
     k_stat (w_fs (woken (waited i w))) (j_ReadyBuildPath j) = inl ENOENT) →
  ctx_done (w_step (woken (waited k w))) = false →
  store_ok B (w_fs (woken (waited k w))) → published B j (w_fs (woken (waited k w))) info →
  json_good (set_ContainerLogs "" "" info) → (k < fuel)%nat →
  (coalesce ctx_done fuel j bi w).1
  = Some (Some (set_Coalesced true (set_ExitCode (bi_ExitCode info) bi)), None).
Proof.
  intros Hj Hwait Hctx Hok Hp Hgood Hfuel.
  replace fuel with (k + S (fuel - k - 1))%nat by lia. rewrite coalesce_waits_many by done.
  cbn [coalesce]. rewrite bind_run. change (Sleep (waited k w)).2 with (woken (waited k w)).
  rewrite bind_run. cbn [gets fst snd]. rewrite Hctx, bind_run. unfold Stat. rewrite read_quiet by done.
  rewrite (ready_stat B j Hj _ info) by done. cbn [fst snd]. unfold ExitCode. rewrite bind_run, bind_run.
  destruct (read_published Hquiet B j Hj false (tick (woken (waited k w))) info Hok Hp Hgood)
    as (log & w' & _ & -> & _).
  cbn [fst snd]. rewrite ret_run. cbn [fst snd]. by rewrite bind_run.
Qed.
End coalescing.

Section failures.
Context {E : Env} {J : JSON} {D : Docker} (cfg : Config) (ctx_done : nat → bool).

(** ** Containers that do not start *)

(** The exit code that StartContainer returns is the one Docker's inspection
    decodes to when there is no error, and 0, the code of success, when there is
    one. *)
Theorem StartContainer_exit_code j out w code outErr err :
  (StartContainer j cfg out w).1 = (code, outErr, err) →
  match err with
  | Some _ => code = ContainerSuccessExitCode
  | None => ∃ n id raw, d_ContainerInspect n id = Ok raw ∧ d_decode_exit_code raw = Ok code
  end.
Proof.
  assert (H : triple (λ _, True) (StartContainer j cfg out) (λ r _,
    match r.2 with
    | Some _ => r.1.1 = ContainerSuccessExitCode
    | None => ∃ n id raw, d_ContainerInspect n id = Ok raw ∧ d_decode_exit_code raw = Ok r.1.1
    end)).
  { unfold StartContainer. apply (triple_bind _ _ (λ _ _, True)); [done|]. intros extra.
    apply (triple_bind _ _ (λ _ _, True)); [done|]. intros _.
    apply (triple_bind _ _ (λ _ _, True)); [done|]. intros [id|e]; [|by apply triple_ret].
    apply (triple_bind _ _ (λ _ _, True)); [done|]. intros [e|]; [by apply triple_ret|].
    apply (triple_bind _ _ (λ _ _, True)); [done|]. intros [].
    apply (triple_bind _ _ (λ r _,
      match r.2 with
      | Some _ => r.1.1 = ContainerSuccessExitCode
      | None => ∃ n id raw, d_ContainerInspect n id = Ok raw ∧ d_decode_exit_code raw = Ok r.1.1
      end)).
    - apply (triple_bind _ _ (λ _ _, True)); [done|]. intros [e|]; [by apply triple_ret|].
      apply (triple_bind _ _ (λ _ _, True)); [done|]. intros fr.
      apply (triple_bind _ _ (λ _ _, True)); [done|]. intros [oe [e|]]; [by apply triple_ret|].
      apply (triple_bind _ _ (λ r _, ∀ raw, r = Ok raw → ∃ n, d_ContainerInspect n id = Ok raw)).
      + intros v _ raw Hraw. by exists (w_step v).
      + intros [raw|e]; [|by apply triple_ret].
        destruct (d_decode_exit_code raw) as [c|e] eqn:Hd; apply triple_ret; [|done].
        intros fs Hraw. destruct (Hraw raw eq_refl) as [n Hn]. by exists n, id, raw.
    - intros r. apply (triple_bind _ _ (λ _ _, match r.2 with
        | Some _ => r.1.1 = ContainerSuccessExitCode
        | None => ∃ n id raw, d_ContainerInspect n id = Ok raw ∧ d_decode_exit_code raw = Ok r.1.1
        end)); [intros v Hv; exact Hv|]. intros _. by apply triple_ret. }
  intros Hr. specialize (H w I). by rewrite Hr in H.
Qed.

(** ** Stale directories *)

Section stale.
Context (B : path) (j : Job) {Hc : config_ok cfg B} (Hj : job_ok B j).

Abbreviation pd := (build_at B (j_Project j) "pending" (j_ID j)).
Abbreviation rd := (build_at B (j_Project j) "ready" (j_ID j)).

(** A pending directory that an earlier run left behind. *)
Definition stale (fs : FS) : Prop := fs !! pd = Some Dir ∧ fs !! rd = None.

Lemma stale_stable : stable B stale.
Proof.
  intros fs p Hl _ [Hp Hr]. assert (length p < length rd)%nat as Hlt.
  { unfold build_at. rewrite length_app. simpl. lia. }
  split.
  - destruct (decide (p = pd)) as [->|]; [by rewrite lookup_insert_eq|by rewrite lookup_insert_ne].
  - rewrite lookup_insert_ne; [done|]. intros ->. lia.
Qed.

Lemma build_stale start bi :
  j_Group j = "" →
  triple (λ fs, store_ok B fs ∧ stale fs) (build cfg j start bi) (λ r fs, is_Some r.2 ∧ stale fs).
Proof.
  intros Hg. unfold build.
  eapply triple_bind; [apply (triple_read _ _ _ _ (λ _ fs, store_ok B fs ∧ stale fs)); by intros|].
  intros [n|e]; [|destruct (IsNotExist e); apply triple_ret; by intros fs [? ?]].
  eapply triple_bind; [apply (bootstrap_store B j Hj stale stale_stable)|].
  intros [e|]; [apply triple_ret; by intros fs (? & ? & _)|].
  apply (triple_bind _ _ (λ r fs, is_Some r.2 ∧ stale fs)).
  2: { intros [bi' [e|]]; [apply triple_ret; by intros fs [? ?]|]. apply triple_pre. intros w [[] _]. done. }
  unfold BootstrapBuildDir, CloneSrcPath. rewrite decide_True by done.
  apply (triple_bind _ _ (λ s fs, s = "" ∧ store_ok B fs ∧ stale fs)).
  { apply triple_ret. by intros fs (? & ? & _). }
  intros s. apply triple_pre. intros w [-> [Hok Hst]]. rewrite decide_True by done.
  apply (triple_bind _ _ (λ r fs, is_Some r.2 ∧ stale fs)).
  2: { intros [bi' [e|]]; [apply triple_ret; by intros fs [? ?]|]. apply triple_pre. intros w' [[] _]. done. }
  apply (triple_bind _ _ (λ e fs, is_Some e ∧ stale fs)); [|intros e; by apply triple_ret].
  pose proof (plain_pd B j Hj [] ltac:(done)) as Hpd. rewrite app_nil_r in Hpd.
  rewrite (jo_pending _ _ Hj). eapply triple_weaken.
  - apply (create_spec pd (w_fs w)); [apply Hok|done| |].
    + rewrite <-(app_nil_r pd). by apply (build_at_not_nil B j Hj).
    + apply clear_build; [done|apply Hj|left; by left].
  - done.
  - intros [e|] fs Hcr; [by rewrite Hcr|]. destruct Hcr as (Hn & _ & _), Hst as [Hp _]. congruence.
Qed.

End stale.
End failures.

(** The goroutine that leads never makes the directory. *)
Lemma coalesce_waits_forever_witness :
  (@coalesce (scen_env calm alone) scen_json (λ _, false) 1000 (scen_job scen_params "")
    (NewBuildInfo 0) scen_world).1 = None.
Proof.
  apply (@coalesce_waits_forever (scen_env calm alone) scen_json _ (λ n, eq_refl)).
  intros i. split; [reflexivity|].
  assert (H : w_fs (@woken (scen_env calm alone) (@waited (scen_env calm alone) i scen_world)) = scen_fs).
  { change (scen_fs) with (w_fs scen_world). generalize scen_world. induction i as [|i IH]; intros w; [done|].
    cbn [waited]. rewrite IH. reflexivity. }
  rewrite H. vm_compute. reflexivity.
Defined.

(** The goroutine that leads publishes the build during the second tick. *)
Definition leader_done (n : nat) (fs : FS) : FS :=
  if decide (2 ≤ n)%nat then w_fs (scen_built (scen_docker None 7) "") else fs.

Lemma coalesce_returns_witness :
  (@coalesce (scen_env calm leader_done) scen_json (λ _, false) 5 (scen_job scen_params "")
    (NewBuildInfo 0) scen_world).1
  = Some (Some (set_Coalesced true (set_ExitCode 7 (NewBuildInfo 0))), None).
Proof.
  refine (eq_trans (@coalesce_returns (scen_env calm leader_done) scen_json _ (λ n, eq_refl) _ scen_base 1 5 _ _
    (scen_info (scen_docker None 7) "") (scen_job_ok "" (or_introl eq_refl)) _ _ _ _ _ _) _).
  - intros i Hi. assert (i = 0%nat) as -> by lia. split; [reflexivity|]. vm_compute. reflexivity.
  - reflexivity.
  - assert (H : w_fs (@woken (scen_env calm leader_done) (@waited (scen_env calm leader_done) 1 scen_world))
                = w_fs (scen_built (scen_docker None 7) "")) by (apply fs_eqb; vm_compute; reflexivity).
    rewrite H. exact (scen_built_store None 7 "" (or_introl eq_refl)).
  - apply published_check_sound. vm_compute. reflexivity.
  - exact I.
  - lia.
  - vm_compute. reflexivity.
Defined.

Lemma StartContainer_exit_code_witness :
  (0%Z : Z) = ContainerSuccessExitCode.
Proof.
  apply (@StartContainer_exit_code (scen_env calm alone) (scen_docker (Some (ErrString "no space")) 7)
    (scen_config (@PlainFS (scen_env calm alone))) (scen_job scen_params "") (λ _, mret None) scen_world
    0 "" (Some (ErrString "no space"))).
  vm_compute. reflexivity.
Defined.

(** A server that crashed during a build, and was not pruned since. *)
Definition scen_stale_fs : FS :=
  <[build_at scen_base "yarn" "pending" (j_ID (scen_job scen_params "")) := Dir]>
  (<[["builds"; "yarn"; "pending"] := Dir]> (<[["builds"; "yarn"] := Dir]> scen_fs)).

Lemma scen_stale_store : store_ok scen_base scen_stale_fs.
Proof.
  assert (H : ∀ fs p, store_ok scen_base fs → p ≠ [] → bool_decide (fs !! p = None) = true →
    bool_decide (fs !! parent p = Some Dir) = true →
    (∀ proj group, plain proj → group_ok group → p ≠ latest_at scen_base proj group) →
    store_ok scen_base (<[p := Dir]> fs)).
  { intros fs p Hok Hne H1%bool_decide_eq_true H2%bool_decide_eq_true H3. by apply store_ok_mkdir. }
  apply H; [apply H; [apply H; [exact scen_store|..]|..]|..]; try discriminate; try reflexivity.
  - intros proj group _ _ Heq. symmetry in Heq. revert Heq. apply (latest_not_dir scen_base _ _ ["yarn"]); [simpl; lia|done].
  - intros proj group _ _ Heq. symmetry in Heq. revert Heq.
    apply (latest_not_dir scen_base _ _ ["yarn"; "pending"]); [simpl; lia|done].
  - intros proj group _ _ Heq. symmetry in Heq.
    apply (latest_not_build scen_base proj group "yarn" "pending" (j_ID (scen_job scen_params "")) []); [by left|].
    by rewrite app_nil_r.
Qed.


(** ** A failed start is remembered as a success *)

Definition served_check (r1 r2 : option (option BuildInfo * error)) : bool :=
  match r1, r2 with
  | Some (Some _, Some _), Some (Some info, None) =>
      bi_Cached info && bool_decide (bi_ExitCode info = 0%Z) && bool_decide (bi_ErrBuild info
        = "work: could not start docker container; no space left on device")
  | _, _ => false
  end.

Lemma served_check_sound r1 r2 :
  served_check r1 r2 = true →
  (∃ info e, r1 = Some (Some info, Some e)) ∧
  (∃ info, r2 = Some (Some info, None) ∧ bi_Cached info = true ∧ bi_ExitCode info = 0%Z ∧
     bi_ErrBuild info
     = "work: could not start docker container; no space left on device").
Proof.
  destruct r1 as [[[i1|] [e1|]]|], r2 as [[[i2|] [e2|]]|]; try done. simpl.
  intros [[Hc Hx%bool_decide_eq_true_1]%andb_true_iff He%bool_decide_eq_true_1]%andb_true_iff. eauto 8.
Qed.

