(* ===== verification/WorkLive.v ===== *)
(** Progress: a build that nothing prevents ends without error. *)
From S2P Require Import Prelude GoStrings Paths World FSFacts Logic Quiet Types Filesystem Config Job Metrics Queues Worker Store WorkSafety WorkFrame Scenario WorkSpec.

Open Scope string_scope.
Open Scope list_scope.

(** A Docker daemon that does what it is asked, and containers that exit with
    [code]. *)
Record DockerLive (D : Docker) (code : Z) : Prop := {
  dl_client n : d_NewEnvClient n = None;
  dl_close n : d_Close n = None;
  dl_build n image uid tar pull nocache : ∃ body, d_ImageBuild n image uid tar pull nocache = Ok body;
  dl_show n body : (d_DisplayJSONMessagesStream n body).2 = None;
  dl_inspect_image n image : d_ImageInspect n image = None;
  dl_create n uid image mnts name : ∃ id, d_ContainerCreate n uid image mnts name = Ok id;
  dl_start n id : d_ContainerStart n id = None;
  dl_logs n id : d_ContainerLogs n id = None;
  dl_frames n id : (d_log_frames n id).2 = None;
  dl_inspect n id : ∃ raw, d_ContainerInspect n id = Ok raw ∧ d_decode_exit_code raw = Ok code;
}.

(** An adapter that creates a directory when nothing stands in its way. *)
Definition CreateLive `{Env} (f : FileSystem) : Prop :=
  ∀ p c w, wf (w_fs w) → Forall plain (p ++ [c]) → w_fs w !! p = Some Dir → w_fs w !! (p ++ [c]) = None →
    (fs_Create f (abs_path (p ++ [c])) w).1 = None.

Lemma PlainFS_live `{Env} : quiet _ → CreateLive PlainFS.
Proof.
  intros Hq p c w Hw Hp Hd Hn. simpl. unfold PlainFS_Create, Mkdir. rewrite write_quiet by done.
  by rewrite (k_make_child _ Hw Dir p c).
Qed.

Lemma triple_absurd {A : Type} (P : FS → Prop) (m : M World A) Q : (∀ fs, ¬ P fs) → triple P m Q.
Proof. intros H w HP. by destruct (H _ HP). Qed.

(** Sequences in which the first computation cannot fail. *)
Lemma live_andM {X : Type} P (m k : M World (option X)) R Q :
  triple P m (λ e fs, e = None ∧ R fs) → triple R k Q → triple P (m ;? k) Q.
Proof.
  intros Hm Hk. eapply triple_andM; [exact Hm|by intros e fs [? _]|].
  eapply triple_weaken; [exact Hk|by intros fs [_ ?]|done].
Qed.

Lemma live_bind {X A : Type} P (m : M World (option X)) (k : option X → M World A) R Q :
  triple P m (λ e fs, e = None ∧ R fs) → triple R (k None) Q → triple P (m ≫= k) Q.
Proof.
  intros Hm Hk. eapply triple_bind; [exact Hm|]. intros [e|].
  - apply triple_absurd. by intros fs [? _].
  - eapply triple_weaken; [exact Hk|by intros fs [_ ?]|done].
Qed.

Section live.
Context {E : Env} {J : JSON} {D : Docker} (Hquiet : quiet E).
Context (cfg : Config) (B : path) {Hcfg : config_ok cfg B} (j : Job) (Hj : job_ok B j).
Context (code : Z) (Hdocker : DockerLive D code) (Hcreate : CreateLive (cfg_FileSystem cfg)).
Context (Hjson : ∀ bi, ∃ s, json_marshal bi = Ok s).

Abbreviation pd := (build_at B (j_Project j) "pending" (j_ID j)).
Abbreviation rd := (build_at B (j_Project j) "ready" (j_ID j)).
Abbreviation ld := (latest_at B (j_Project j) (j_Group j)).

(** ** Single calls *)

Lemma ensure_live (P : FS → Prop) p c :
  Forall plain (p ++ [c]) → (∀ proj group, plain proj → group_ok group → p ++ [c] ≠ latest_at B proj group) →
  (∀ fs, store_ok B fs → P fs → fs !! p = Some Dir ∧ dirn fs (p ++ [c])) →
  (∀ fs, P fs → P (<[p ++ [c] := Dir]> fs)) →
  triple (λ fs, store_ok B fs ∧ P fs) (EnsureDirExists (abs_path (p ++ [c])))
    (λ e fs, e = None ∧ store_ok B fs ∧ P fs ∧ fs !! (p ++ [c]) = Some Dir).
Proof.
  intros Hp Hnl Hd Hst.
  assert (Hne : p ++ [c] ≠ []) by (by destruct p).
  assert (H1 : triple (λ fs, store_ok B fs ∧ P fs) (EnsureDirExists (abs_path (p ++ [c]))) (λ e _, e = None)).
  { intros w [Hok HP]. destruct (Hd _ Hok HP) as [Hpd Hdn]. pose proof (so_wf _ _ Hok) as Hw.
    unfold EnsureDirExists. rewrite bind_run. unfold Stat. rewrite read_quiet by done.
    rewrite k_stat_clear; [|done..|by apply wf_clear_child|intros t; destruct Hdn; congruence].
    destruct Hdn as [Hn|Hn]; rewrite Hn; cbn [fst snd is_dir IsNotExist]; [|done].
    unfold Mkdir. rewrite write_quiet by done. change (w_fs (tick w)) with (w_fs w).
    by rewrite (k_make_child _ Hw Dir p c). }
  assert (H2 : triple (λ fs, store_ok B fs ∧ P fs) (EnsureDirExists (abs_path (p ++ [c])))
    (λ e fs, (store_ok B fs ∧ P fs) ∧ (e = None → dirn fs (p ++ [c]) → fs !! (p ++ [c]) = Some Dir))).
  { apply (ensure_store B P (p ++ [c])); auto. intros fs Hok HP. destruct (Hd _ Hok HP) as [Hpd _].
    apply wf_clear_child; [apply Hok|done]. }
  eapply triple_weaken; [exact (triple_conj _ _ _ _ _ H1 H2)|by intros fs H|].
  intros e fs (He & [Hok HP] & Hdir). split_and!; [done..|]. apply Hdir; [done|]. by apply (Hd fs Hok HP).
Qed.

Lemma write_live (P : FS → Prop) r c x :
  Forall plain (r ++ [c]) → r ++ [c] ≠ ["data"] →
  (∀ fs, store_ok B fs → P fs →
     fs !! (pd ++ r) = Some Dir ∧ fs !! (pd ++ r ++ [c]) ≠ Some Dir ∧ not_link fs (pd ++ r ++ [c])) →
  (∀ fs y, P fs → P (<[pd ++ r ++ [c] := File y]> fs)) →
  triple (λ fs, store_ok B fs ∧ P fs) (WriteFile (abs_path (pd ++ r ++ [c])) x)
    (λ e fs, e = None ∧ store_ok B fs ∧ P fs ∧ fs !! (pd ++ r ++ [c]) = Some (File x)).
Proof.
  intros Hp Hnd Hd Hst. pose proof (plain_pd B j Hj _ Hp) as Hpp.
  assert (H1 : triple (λ fs, store_ok B fs ∧ P fs) (WriteFile (abs_path (pd ++ r ++ [c])) x) (λ e _, e = None)).
  { apply (quiet_write Hquiet). intros fs [Hok HP]. destruct (Hd _ Hok HP) as (H1 & H2 & H3).
    rewrite app_assoc in *. rewrite k_write_child by (done || apply Hok). eauto. }
  assert (H2 := write_pd B j Hj P (r ++ [c]) x Hp ltac:(by destruct r) Hnd).
  specialize (H2 ltac:(intros fs Hok HP; destruct (Hd _ Hok HP) as (Hpar & _ & Hl); split; [|done];
    rewrite app_assoc; apply wf_clear_child; [apply Hok|done])).
  eapply triple_weaken; [exact (triple_conj _ _ _ _ _ H1 H2)|by intros fs H|].
  intros e fs [-> (Hok & fs0 & HP & ->)]. split_and!; [done|done|by apply Hst|]. by rewrite lookup_insert_eq.
Qed.

(** ** The directories *)

(** A job that was not built before, and whose group has no successful build. *)
Definition unbuilt (fs : FS) : Prop :=
  fs !! pd = None ∧ fs !! rd = None ∧ (j_Group j ≠ "" → fs !! ld = None).

Lemma unbuilt_stable : stable B unbuilt.
Proof.
  intros fs p Hl _ (H1 & H2 & H3).
  assert (Hne : ∀ q, length q = length B + 3 → p ≠ q) by (intros q Hq ->; lia).
  split_and!; [by rewrite lookup_insert_ne by (apply Hne; unfold build_at; by rewrite length_app)..|].
  intros Hg. rewrite lookup_insert_ne; [auto|]. apply Hne. unfold latest_at.
  rewrite decide_False by done. by rewrite length_app.
Qed.

Lemma bootstrap_live (P : FS → Prop) :
  stable B P →
  triple (λ fs, store_ok B fs ∧ P fs) (BootstrapProject j)
    (λ e fs, e = None ∧ store_ok B fs ∧ P fs ∧ bootstrapped B j fs).
Proof.
  intros HP. pose proof (plain_base B j Hj) as HB. pose proof (jo_proj _ _ Hj) as Hp.
  assert (Htop : ∀ (Q : FS → Prop) d, stable B Q → top_dir d →
    triple (λ fs, store_ok B fs ∧ Q fs ∧ fs !! (B ++ [j_Project j]) = Some Dir) (EnsureDirExists (Join [j_RootBuildPath j; d]))
      (λ e fs, e = None ∧ store_ok B fs ∧ (Q fs ∧ fs !! (B ++ [j_Project j]) = Some Dir) ∧ fs !! (B ++ [j_Project j; d]) = Some Dir)).
  { intros Q d HQ Hd. assert (plain d) as Hdp by (destruct Hd as [[-> | ->] | ->]; auto with mistry).
    rewrite (jo_root _ _ Hj), (Join_below _ _ [d]); [|solve_plain|csimpl; by rewrite comps_plain|solve_plain].
    rewrite <-(app_assoc B [j_Project j] [d]) at 1.
    change (B ++ [j_Project j; d]) with (B ++ [j_Project j] ++ [d]). rewrite app_assoc.
    assert (Hnl : not_latest B ((B ++ [j_Project j]) ++ [d])).
    { intros proj group _ _ Heq. symmetry in Heq. rewrite <-app_assoc in Heq.
      eapply latest_not_dir in Heq; [done|simpl; lia|]. intros p [= _ ->]. by destruct Hd as [[]|]. }
    apply (ensure_live (λ fs, Q fs ∧ fs !! (B ++ [j_Project j]) = Some Dir)).
    - solve_plain.
    - exact Hnl.
    - intros fs Hok [_ Hroot]. split; [done|]. rewrite <-app_assoc. by apply Hok.
    - intros fs [HQf Hroot]. assert (Hlen : (length ((B ++ [j_Project j]) ++ [d]) ≤ length B + 2)%nat) by (rewrite !length_app; simpl; lia).
      split; [by apply HQ|by apply (stable_dir B)]. }
  unfold BootstrapProject. apply triple_with_lock. rewrite (jo_root _ _ Hj) at 1.
  eapply live_andM.
  { apply (ensure_live P B (j_Project j)); [solve_plain|..].
    - intros proj group _ _ Heq. symmetry in Heq. by eapply latest_not_dir in Heq; [|simpl; lia|].
    - intros fs Hok _. split; apply Hok; done.
    - intros fs. apply HP; [rewrite length_app; simpl; lia|]. intros proj group _ _ Heq. symmetry in Heq.
      by eapply latest_not_dir in Heq; [|simpl; lia|]. }
  eapply live_andM; [apply (Htop P "pending"); [done|left; by left]|].
  set (P1 := λ fs, P fs ∧ fs !! (B ++ [j_Project j; "pending"]) = Some Dir).
  assert (HP1 : stable B P1) by (apply stable_and; [done|apply stable_dir]).
  eapply live_andM; [eapply triple_weaken; [apply (Htop P1 "ready"); [done|left; by right]
    |intros fs (? & [? ?] & ?); unfold P1; auto|intros e fs He; exact He]|].
  set (P2 := λ fs, P1 fs ∧ fs !! (B ++ [j_Project j; "ready"]) = Some Dir).
  assert (HP2 : stable B P2) by (apply stable_and; [done|apply stable_dir]).
  case_decide as Hg.
  - apply triple_ret. intros fs (? & [[? ?] ?] & ?). by split_and!.
  - eapply triple_weaken; [apply (Htop P2 "groups"); [done|by right]
      |intros fs (? & [? ?] & ?); unfold P2; auto|].
    intros e fs (-> & Hok & [[[? ?] ?] ?] & ?). by split_and!.
Qed.
(** The directory of a build under way. *)
Definition building (fs : FS) : Prop :=
  fs !! pd = Some Dir ∧ fs !! rd = None ∧ bootstrapped B j fs ∧
  fs !! (pd ++ ["build_info.json"]) ≠ Some Dir ∧ fs !! (pd ++ ["out.log"]) ≠ Some Dir.

(** What is made inside it does not matter, but for the two files. *)
Lemma building_insert fs r n :
  r ≠ [] → (n = Dir → r ≠ ["build_info.json"] ∧ r ≠ ["out.log"]) →
  building fs → building (<[pd ++ r := n]> fs).
Proof.
  intros Hr Hn (H1 & H2 & (H3 & H4 & H5) & H6 & H7).
  assert (Hout : ∀ q, ¬ pd `prefix_of` q → pd ++ r ≠ q) by (intros q Hq <-; destruct Hq; by exists r).
  assert (Hshort : ∀ q, length q < length pd → pd ++ r ≠ q).
  { intros q Hq. apply Hout. intros Hpre%prefix_length. lia. }
  assert (Hlen : ∀ d, length (B ++ [j_Project j; d]) < length pd).
  { intros d. unfold build_at. rewrite !length_app. simpl. lia. }
  assert (Hfile : ∀ c, fs !! (pd ++ [c]) ≠ Some Dir → (n = Dir → r ≠ [c]) → <[pd ++ r := n]> fs !! (pd ++ [c]) ≠ Some Dir).
  { intros c Hc Hnc. destruct (decide (r = [c])) as [->|Hne].
    - rewrite lookup_insert_eq. intros [= ->]. by apply Hnc.
    - rewrite lookup_insert_ne; [done|]. by intros ?%app_inv_head. }
  unfold building, bootstrapped. split_and!.
  - rewrite lookup_insert_ne; [done|]. intros H%(f_equal length). rewrite length_app in H.
    destruct r; [done|simpl in H; lia].
  - rewrite lookup_insert_ne; [done|]. apply Hout. unfold build_at.
    rewrite prefix_app_cancel, !prefix_cons_iff. by intros (_ & [=] & _).
  - by rewrite lookup_insert_ne by (apply Hshort, Hlen).
  - by rewrite lookup_insert_ne by (apply Hshort, Hlen).
  - intros Hg. rewrite lookup_insert_ne by (apply Hshort, Hlen). auto.
  - apply Hfile; [done|]. intros Hd. by apply Hn.
  - apply Hfile; [done|]. intros Hd. by apply Hn.
Qed.

(** The directories of its data, when they were made just now. *)
Definition data_open (fs : FS) : Prop :=
  (∀ c, dirn fs (pd ++ ["data"; c])) ∧ ∀ k, fs !! (pd ++ ["data"; "params"; k]) = None.

Lemma data_open_insert fs r :
  (r = ["data"] ∨ ∃ c, r = ["data"; c]) → data_open fs → data_open (<[pd ++ r := Dir]> fs).
Proof.
  intros Hr [H1 H2]. split.
  - intros c. by apply dirn_insert_dir.
  - intros k. rewrite lookup_insert_ne; [apply H2|]. intros H%app_inv_head. destruct Hr as [->|[c ->]]; discriminate H.
Qed.

Lemma clone_src_live :
  triple (λ fs, store_ok B fs ∧ unbuilt fs) (CloneSrcPath j) (λ s fs, s = "" ∧ store_ok B fs ∧ unbuilt fs).
Proof.
  intros w [Hok Hun]. unfold CloneSrcPath. case_decide as Hg; [done|]. rewrite bind_run.
  unfold EvalSymlinks. rewrite read_quiet by done. rewrite (jo_latest _ _ Hj).
  destruct (eval_missing (w_fs w) ld) as [e He].
  - by apply plain_ld.
  - apply clear_latest; [done|apply Hj].
  - by apply Hun.
  - rewrite He. done.
Qed.

Lemma pd_not_nil : pd ≠ [].
Proof. unfold build_at. by destruct B. Qed.

Lemma create_live :
  triple (λ fs, store_ok B fs ∧ unbuilt fs ∧ bootstrapped B j fs)
    (fs_Create (cfg_FileSystem cfg) (j_PendingBuildPath j))
    (λ e fs, e = None ∧ store_ok B fs ∧ building fs ∧ data_open fs).
Proof.
  intros w (Hok & (Hpd & Hrd & Hld) & Hboot). rewrite (jo_pending _ _ Hj).
  pose proof (plain_pd B j Hj [] ltac:(done)) as Hp. rewrite app_nil_r in Hp.
  assert (Hpar : pd = (B ++ [j_Project j; "pending"]) ++ [j_ID j]) by (unfold build_at; by rewrite <-app_assoc).
  assert (Hn : (fs_Create (cfg_FileSystem cfg) (abs_path pd) w).1 = None).
  { rewrite Hpar in *. apply Hcreate; [apply Hok|done|apply Hboot|done]. }
  pose proof (create_spec pd (w_fs w) (so_wf _ _ Hok) Hp) as Hspec.
  specialize (Hspec pd_not_nil ltac:(by apply (pd_clear B j Hj)) w eq_refl).
  rewrite Hn in Hspec. destruct Hspec as (_ & Hd & Heq). split; [done|]. rewrite Heq.
  assert (Hbelow : ∀ r, r ≠ [] → <[pd := Dir]> (w_fs w) !! (pd ++ r) = None).
  { intros r Hr. rewrite lookup_insert_ne.
    - destruct (w_fs w !! (pd ++ r)) eqn:Hs; [|done]. apply (wf_prefix _ pd) in Hs; [congruence|apply Hok|done].
    - intros H%(f_equal length). rewrite length_app in H. destruct r; [done|simpl in H; lia]. }
  assert (Hup : ∀ d, <[pd := Dir]> (w_fs w) !! (B ++ [j_Project j; d]) = w_fs w !! (B ++ [j_Project j; d])).
  { intros d. apply lookup_insert_ne. unfold build_at. intros H%app_inv_head. discriminate H. }
  split_and!.
  - apply store_ok_mkdir; [done| |done|done|].
    + apply pd_not_nil.
    + intros. rewrite <-(app_nil_r pd). apply pd_not_latest.
  - split_and!.
    + by rewrite lookup_insert_eq.
    + rewrite lookup_insert_ne; [done|]. unfold build_at. by intros [=]%app_inv_head.
    + destruct Hboot as (H1 & H2 & H3). unfold bootstrapped. rewrite !Hup. by split_and!.
    + by rewrite Hbelow.
    + by rewrite Hbelow.
  - split; [intros c; left|intros k]; by rewrite Hbelow.
Qed.

(** The place of the parameter files. *)
Definition params_open (fs : FS) : Prop :=
  fs !! (pd ++ ["data"; "params"]) = Some Dir ∧
  ∀ k, fs !! (pd ++ ["data"; "params"; k]) ≠ Some Dir ∧ not_link fs (pd ++ ["data"; "params"; k]).

Lemma build_dirs_live :
  triple (λ fs, store_ok B fs ∧ building fs ∧ data_open fs) (forM EnsureDirExists (build_dirs j))
    (λ e fs, e = None ∧ store_ok B fs ∧ building fs ∧ params_open fs).
Proof.
  assert (Hsub : ∀ dir c, comps dir = [c] → plain c →
    triple (λ fs, store_ok B fs ∧ (building fs ∧ data_open fs) ∧ fs !! (pd ++ ["data"]) = Some Dir)
      (EnsureDirExists (Join [j_PendingBuildPath j; DataDir; dir]))
      (λ e fs, e = None ∧ store_ok B fs ∧ ((building fs ∧ data_open fs) ∧ fs !! (pd ++ ["data"]) = Some Dir) ∧
               fs !! (pd ++ ["data"; c]) = Some Dir)).
  { intros dir c Hdir Hc. rewrite (pending_join B j Hj ["data"; c]) by (csimpl; rewrite ?Hdir; done || solve_plain).
    change ["data"; c] with (["data"] ++ [c]). rewrite app_assoc.
    apply (ensure_live (λ fs, (building fs ∧ data_open fs) ∧ fs !! (pd ++ ["data"]) = Some Dir)).
    - rewrite <-app_assoc. apply plain_pd; [done|solve_plain].
    - intros. rewrite <-app_assoc. apply pd_not_latest.
    - intros fs _ [[_ [Ho _]] Hd]. split; [done|]. rewrite <-app_assoc. apply Ho.
    - intros fs [[Hb Ho] Hd]. rewrite <-app_assoc. split_and!.
      + by apply building_insert.
      + apply data_open_insert; [|done]. right. by exists c.
      + rewrite lookup_insert_ne; [done|]. by intros ?%app_inv_head. }
  unfold build_dirs. cbn [forM].
  rewrite (pending_join B j Hj ["data"] [DataDir]) by (done || solve_plain).
  eapply live_andM; [apply (ensure_live (λ fs, building fs ∧ data_open fs) pd "data")|].
  - apply plain_pd; [done|solve_plain].
  - intros. apply pd_not_latest.
  - intros fs Hok [Hb _]. split; [apply Hb|by apply pd_shape].
  - intros fs [Hb Ho]. split; [by apply building_insert|]. apply data_open_insert; [by left|done].
  - eapply live_andM; [apply (Hsub CacheDir "cache"); [done|auto with mistry]|].
    eapply live_andM; [eapply triple_weaken; [apply (Hsub ArtifactsDir "artifacts"); [done|auto with mistry]
      |intros fs (? & ? & _); done|intros e fs H; exact H]|].
    eapply live_andM; [eapply triple_weaken; [apply (Hsub ParamsDir "params"); [done|auto with mistry]
      |intros fs (? & ? & _); done|intros e fs H; exact H]|].
    apply triple_ret. intros fs (Hok & [[Hb [_ Hk]] _] & Hp). split_and!; [done..|]. split; [done|].
    intros k. unfold not_link. rewrite Hk. done.
Qed.

Lemma bootstrap_dir_live bi :
  triple (λ fs, store_ok B fs ∧ unbuilt fs ∧ bootstrapped B j fs) (BootstrapBuildDir j (cfg_FileSystem cfg) bi)
    (λ r fs, r = (bi, None) ∧ store_ok B fs ∧ building fs ∧ params_open fs).
Proof.
  unfold BootstrapBuildDir.
  apply (triple_bind _ _ (λ s fs, s = "" ∧ store_ok B fs ∧ unbuilt fs ∧ bootstrapped B j fs)).
  { eapply triple_weaken; [apply (triple_conj _ (bootstrapped B j) _ _ (λ _ fs, bootstrapped B j fs) clone_src_live)| |].
    - unfold CloneSrcPath. case_decide; [by apply triple_ret|].
      apply (triple_bind _ _ (λ _ fs, bootstrapped B j fs)); [by apply triple_read|]. intros r. by apply triple_ret.
    - intros fs (? & ? & ?). done.
    - by intros s fs [(? & ? & ?) ?]. }
  intros src. apply triple_pre. intros w0 (-> & H0). apply (triple_at (λ fs, store_ok B fs ∧ unbuilt fs ∧ bootstrapped B j fs)); [done|].
  rewrite !decide_True by done.
  apply (triple_bind _ _ (λ r fs, r = (bi, None) ∧ store_ok B fs ∧ building fs ∧ data_open fs)).
  { eapply triple_bind; [apply create_live|]. intros e. apply triple_ret. by intros fs (-> & ?). }
  intros [bi' e]. apply triple_pre. intros w1 ([= -> ->] & H1).
  apply (triple_at (λ fs, store_ok B fs ∧ building fs ∧ data_open fs)); [done|].
  apply (triple_bind _ _ (λ e fs, e = None ∧ store_ok B fs ∧ building fs ∧ data_open fs)); [by apply triple_ret|].
  intros e. apply triple_pre. intros w2 (-> & H2).
  apply (triple_at (λ fs, store_ok B fs ∧ building fs ∧ data_open fs)); [done|].
  apply (triple_bind _ _ (λ e fs, e = None ∧ store_ok B fs ∧ building fs ∧ params_open fs)).
  - eapply triple_wrapM; [apply build_dirs_live|]. by intros e fs (-> & ?).
  - intros e. apply triple_ret. by intros fs (-> & ?).
Qed.

(** ** Files *)

Lemma forM_live {X A : Type} (I : FS → Prop) (f : A → M World (option X)) l :
  (∀ x, x ∈ l → triple I (f x) (λ e fs, e = None ∧ I fs)) → triple I (forM f l) (λ e fs, e = None ∧ I fs).
Proof.
  induction l as [|x l IH]; intros Hf; cbn [forM]; [by apply triple_ret|].
  eapply live_andM; [apply Hf; by left|]. apply IH. intros y Hy. apply Hf. by right.
Qed.

Lemma persist_live (P : FS → Prop) bi :
  (∀ fs, P fs → building fs) → (∀ fs y, P fs → P (<[pd ++ ["build_info.json"] := File y]> fs)) →
  triple (λ fs, store_ok B fs ∧ P fs) (persistBuildInfo j bi) (λ e fs, e = None ∧ store_ok B fs ∧ P fs).
Proof.
  intros HP Hst. unfold persistBuildInfo. destruct (Hjson (set_ContainerLogs "" "" bi)) as [s ->].
  rewrite (jo_info _ _ Hj). eapply triple_weaken; [apply (write_live P [] "build_info.json" s)|by intros fs H|].
  - solve_plain.
  - done.
  - intros fs Hok (H1 & _ & _ & H2 & _)%HP. rewrite app_nil_r. split_and!; [done..|]. by apply (pd_shape B j Hj).
  - exact Hst.
  - by intros e fs (-> & ? & ? & _).
Qed.

Lemma params_live :
  triple (λ fs, store_ok B fs ∧ building fs ∧ params_open fs) (write_params j)
    (λ e fs, e = None ∧ store_ok B fs ∧ building fs).
Proof.
  unfold write_params.
  apply (triple_bind _ _ (λ l fs, (store_ok B fs ∧ building fs ∧ params_open fs) ∧ l ≡ₚ map_to_list (j_Params j))).
  { intros w H. split; [done|]. apply env_range_perm. }
  intros kvs. apply triple_pre. intros w [H Hperm].
  apply (triple_at (λ fs, store_ok B fs ∧ building fs ∧ params_open fs)); [done|].
  eapply triple_wrapM; [apply (forM_live (λ fs, store_ok B fs ∧ building fs ∧ params_open fs))|by intros e fs (-> & ? & ? & _)].
  intros [k v] Hkv. cbn [fst snd].
  assert (Hk : plain k).
  { eapply (jo_params _ _ Hj k v). apply elem_of_map_to_list. by rewrite <-Hperm. }
  rewrite (pending_join B j Hj ["data"; "params"; k]); [|csimpl; by rewrite (comps_plain k)|solve_plain].
  change ["data"; "params"; k] with (["data"; "params"] ++ [k]).
  eapply triple_weaken; [apply (write_live (λ fs, building fs ∧ params_open fs) ["data"; "params"] k v)|by intros fs ?|].
  - simpl. solve_plain.
  - done.
  - intros fs _ (_ & Hd & Ho). split; [done|]. apply Ho.
  - intros fs y (Hb & Hd & Ho). split; [by apply building_insert|]. split.
    + rewrite lookup_insert_ne; [done|]. by intros ?%app_inv_head.
    + intros k'. destruct (decide (k = k')) as [->|Hne].
      * unfold not_link. rewrite lookup_insert_eq. done.
      * unfold not_link. rewrite lookup_insert_ne; [apply Ho|]. simpl. intros H'%app_inv_head. congruence.
  - by intros e fs (-> & ? & [? ?] & _).
Qed.

(** A build with its log. *)
Abbreviation running := (λ fs, store_ok B fs ∧ building fs ∧ has_log fs pd).

Lemma create_log_live :
  triple (λ fs, store_ok B fs ∧ building fs) (CreateFile (j_BuildLogPath j)) (λ e fs, e = None ∧ running fs).
Proof.
  rewrite (jo_log _ _ Hj). eapply triple_weaken; [apply (write_live building [] "out.log" "")|by intros fs H|].
  - solve_plain.
  - done.
  - intros fs Hok (H1 & _ & _ & _ & H2). rewrite app_nil_r. split_and!; [done..|]. by apply (pd_shape B j Hj).
  - intros fs y Hb. by apply building_insert.
  - intros e fs (-> & ? & ? & Hl). split_and!; [done..|]. by eexists.
Qed.

Lemma append_live x :
  triple running (AppendFile (j_BuildLogPath j) x) (λ e fs, e = None ∧ running fs).
Proof.
  assert (H1 : triple running (AppendFile (j_BuildLogPath j) x) (λ e fs, e = None ∧ building fs)).
  { rewrite (jo_log _ _ Hj). apply (quiet_write Hquiet). intros fs (Hok & Hb & l & Hl).
    rewrite (k_append_file fs (so_wf _ _ Hok) pd "out.log" l x); [|apply (plain_pd B j Hj); solve_plain|done].
    eexists. split; [done|]. split; [done|]. by apply building_insert. }
  eapply triple_weaken; [exact (triple_conj _ _ _ _ _ H1 (append_log B j Hj x))|by intros fs (? & ? & ?)|].
  by intros e fs ((-> & ?) & ? & ?).
Qed.

(** ** The container *)

Lemma live_docker {A X : Type} (f : nat → A) (k : A → M World X) P Q :
  (∀ n, triple P (k (f n)) Q) → triple P (docker f ≫= k) Q.
Proof. intros Hk w HP. rewrite bind_run. by apply Hk. Qed.

Lemma image_live (I : FS → Prop) out uid pull nocache :
  (∀ x, triple I (out x) (λ e fs, e = None ∧ I fs)) →
  triple I (BuildImage j uid out pull nocache) (λ e fs, e = None ∧ I fs).
Proof.
  intros Hout. unfold BuildImage. apply live_docker. intros n.
  destruct (dl_build D code Hdocker n (j_Image j) uid (j_ImageTar j) pull nocache) as [body ->].
  apply live_docker. intros n1. eapply live_bind; [apply Hout|]. rewrite (dl_show D code Hdocker).
  apply live_docker. intros n2. rewrite (dl_inspect_image D code Hdocker). by apply triple_ret.
Qed.

Lemma std_copy_live (I : FS → Prop) out frames : ∀ acc,
  (∀ x, triple I (out x) (λ e fs, e = None ∧ I fs)) →
  triple I (StdCopy out frames None acc) (λ r fs, r.2 = None ∧ I fs).
Proof.
  induction frames as [|[b x] frames IH]; intros acc Hout; cbn [StdCopy]; [by apply triple_ret|].
  eapply live_bind; [apply Hout|]. by apply IH.
Qed.

Lemma container_live (I : FS → Prop) out :
  (∀ x, triple I (out x) (λ e fs, e = None ∧ I fs)) →
  (∀ n extra fs, extra ≡ₚ map_to_list (cfg_Mounts cfg) → I fs → I (d_container_fs n (container_mounts j extra) fs)) →
  triple I (StartContainer j cfg out) (λ r fs, r.1.1 = code ∧ r.2 = None ∧ I fs).
Proof.
  intros Hout Heff. unfold StartContainer.
  apply (triple_bind _ _ (λ l fs, I fs ∧ l ≡ₚ map_to_list (cfg_Mounts cfg))).
  { intros w H. split; [done|]. apply env_range_perm. }
  intros extra. apply triple_pre. intros w [Hw Hperm]. apply (triple_at I); [done|].
  eapply triple_bind; [apply (rename_existing_store I)|]. intros ?.
  apply live_docker. intros n. destruct (dl_create D code Hdocker n (cfg_UID cfg) (j_Image j)
    (container_mounts j extra) (j_Container j)) as [id ->].
  apply live_docker. intros n1. rewrite (dl_start D code Hdocker).
  apply (triple_bind _ _ (λ _ fs, I fs)); [intros w' Hw'; by apply Heff|intros []].
  apply (triple_bind _ _ (λ r fs, r.1.1 = code ∧ r.2 = None ∧ I fs)).
  - apply live_docker. intros n2. rewrite (dl_logs D code Hdocker).
    apply live_docker. intros n3. rewrite (dl_frames D code Hdocker).
    eapply triple_bind; [by apply std_copy_live|]. intros [outErr [e|]]; [by apply triple_absurd; intros fs [? _]|].
    apply live_docker. intros n4. destruct (dl_inspect D code Hdocker n4 id) as (raw & -> & Hraw).
    rewrite Hraw. apply triple_ret. by intros fs [_ ?].
  - intros r. apply live_docker. intros n2. by apply triple_ret.
Qed.

Lemma building_container n extra fs :
  extra ≡ₚ map_to_list (cfg_Mounts cfg) → building fs →
  building (d_container_fs n (container_mounts j extra) fs).
Proof.
  intros Hperm (H1 & H2 & (H3 & H4 & H5) & H6 & H7).
  assert (Hf : ∀ q, (∃ r, q = B ++ r) → ¬ strictly_below (pd ++ ["data"]) q →
    d_container_fs n (container_mounts j extra) fs !! q = fs !! q).
  { intros q Hq. by apply (container_frame_pd cfg B j Hj). }
  assert (Hs : ∀ q : path, (length q ≤ length B + 4)%nat → ¬ strictly_below (pd ++ ["data"]) q).
  { intros q Hq (c & r & ->). unfold build_at in Hq. rewrite !length_app in Hq. simpl in Hq. lia. }
  assert (Hb : ∀ r, (length r ≤ 4)%nat → d_container_fs n (container_mounts j extra) fs !! (B ++ r) = fs !! (B ++ r)).
  { intros r Hr. apply Hf; [by eexists|]. apply Hs. rewrite length_app. lia. }
  unfold building, bootstrapped, build_at in *. rewrite <-!(app_assoc B) in *.
  rewrite !Hb by (simpl; lia). by split_and!.
Qed.

Lemma running_container n extra fs :
  extra ≡ₚ map_to_list (cfg_Mounts cfg) → running fs → running (d_container_fs n (container_mounts j extra) fs).
Proof.
  intros Hperm (Hok & Hb & Hl).
  destruct (container_effect cfg B j Hj _ n extra fs Hperm (conj Hok Hl)) as [? ?].
  split_and!; [done|by apply building_container|done].
Qed.

(** What the build keeps of its build info. *)
Definition outcome (bi : BuildInfo) : Prop := bi_ExitCode bi = code ∧ bi_Cached bi = false.

Lemma run_container_live start bi :
  bi_Cached bi = false →
  triple running (run_container cfg j start bi) (λ r fs, (outcome r.1 ∧ r.2 = None) ∧ running fs).
Proof.
  intros Hbi. unfold run_container. eapply live_bind; [apply image_live, append_live|].
  eapply triple_bind; [apply (container_live running); [apply append_live|apply running_container]|].
  intros [[c outErr] [e|]]; [by apply triple_absurd; intros fs (_ & ? & _)|].
  apply triple_pre. intros w0 (Hc & _ & H0). cbn [fst snd] in *. subst c. apply (triple_at running); [done|].
  eapply live_bind; [apply (quiet_fd Hquiet _ _ running (λ e fs, e = None ∧ running fs)); done|].
  apply (triple_bind _ _ (λ r fs, running fs ∧ ∃ l, r = Ok l)).
  { apply (quiet_read Hquiet). intros fs (Hok & Hb & l & Hl). exists l.
    split; [|split; [split_and!; [done..|by exists l]|by exists l]].
    pose proof (jo_log _ _ Hj) as Hlog. unfold BuildLogPath.
    rewrite (pending_join B j Hj ["out.log"] [BuildLogFname]) by (done || solve_plain).
    apply k_read_file; [apply Hok| |done]. apply (plain_pd B j Hj). solve_plain. }
  intros [log|e]; [|apply triple_absurd; by intros fs (_ & l & ?)].
  apply (triple_bind _ _ (λ _ fs, running fs)); [intros w H; apply H|]. intros now.
  apply (triple_bind _ _ (λ _ fs, running fs)).
  { apply triple_pure. intros w. apply RecordBuildFinished_fs. }
  intros []. by apply triple_ret.
Qed.

Lemma close_live {A : Type} msg close (body : M World (A * error)) (P Q : FS → Prop) (R : A → Prop) :
  triple P body (λ r fs, (R r.1 ∧ r.2 = None) ∧ Q fs) → triple Q close (λ e fs, e = None ∧ Q fs) →
  triple P (defer_close msg close body) (λ r fs, (R r.1 ∧ r.2 = None) ∧ Q fs).
Proof.
  intros Hb Hc. eapply triple_bind; [exact Hb|]. intros [a err]. cbn [fst snd].
  apply triple_pre. intros w [[HR ->] HQ]. apply (triple_at Q); [done|].
  eapply live_bind; [exact Hc|]. by apply triple_ret.
Qed.

Lemma body_live start bi :
  bi_Cached bi = false →
  triple (λ fs, store_ok B fs ∧ building fs ∧ params_open fs) (build_body cfg j start bi)
    (λ r fs, (outcome r.1 ∧ r.2 = None) ∧ running fs).
Proof.
  intros Hbi. unfold build_body. eapply live_bind; [apply params_live|].
  eapply live_bind; [apply create_log_live|].
  apply close_live; [|by apply (quiet_fd Hquiet _ _ running (λ e fs, e = None ∧ running fs))].
  apply live_docker. intros n. rewrite (dl_client D code Hdocker).
  apply close_live; [by apply run_container_live|].
  intros w H. simpl. by rewrite (dl_close D code Hdocker).
Qed.

(** ** Publishing *)

Lemma rename_live :
  triple (λ fs, store_ok B fs ∧ building fs) (Rename (j_PendingBuildPath j) (j_ReadyBuildPath j))
    (λ e fs, e = None ∧ wf fs ∧ bootstrapped B j fs).
Proof.
  rewrite (jo_pending _ _ Hj), (jo_ready _ _ Hj).
  pose proof (plain_pd B j Hj [] ltac:(done)) as Hpd. rewrite app_nil_r in Hpd.
  pose proof (plain_rd B j Hj [] ltac:(done)) as Hrd. rewrite app_nil_r in Hrd.
  assert (Hpar : rd = (B ++ [j_Project j; "ready"]) ++ [j_ID j]) by (unfold build_at; by rewrite <-app_assoc).
  assert (Hpre : ¬ pd `prefix_of` rd).
  { unfold build_at. rewrite prefix_app_cancel, !prefix_cons_iff. by intros (_ & [=] & _). }
  apply (quiet_write Hquiet). intros fs (Hok & H1 & H2 & (H3 & H4 & H5) & _).
  exists (move_tree pd rd fs). split.
  - rewrite Hpar in *. by apply k_rename_free; [apply Hok|..].
  - split; [done|]. split.
    + apply wf_move_tree; [apply Hok| | |done].
      * rewrite Hpar. by destruct (B ++ _).
      * by rewrite Hpar, parent_snoc.
    + assert (Hm : ∀ d, move_tree pd rd fs !! (B ++ [j_Project j; d]) = fs !! (B ++ [j_Project j; d])).
      { intros d. rewrite lookup_move_tree, !decide_False; [done|..]; intros Hl%prefix_length;
          unfold build_at in Hl; rewrite !length_app in Hl; simpl in Hl; lia. }
      unfold bootstrapped. rewrite !Hm. by split_and!.
Qed.

(** The directory of the latest link. *)
Lemma ld_parent : ∃ q c, ld = q ++ [c] ∧ ∀ fs, wf fs → bootstrapped B j fs → fs !! q = Some Dir.
Proof.
  unfold latest_at. case_decide as Hg.
  - exists (B ++ [j_Project j]), "latest". split; [by rewrite <-app_assoc|]. intros fs Hw (H & _).
    apply (wf_prefix fs (B ++ [j_Project j]) ["pending"] Dir Hw); [|done]. by rewrite <-app_assoc.
  - exists (B ++ [j_Project j; "groups"]), (j_Group j). split; [by rewrite <-app_assoc|].
    intros fs _ (_ & _ & H). by apply H.
Qed.

Lemma symlink_live :
  triple (λ fs, wf fs ∧ bootstrapped B j fs ∧ fs !! ld = None)
    (SymlinkTo (j_ReadyBuildPath j) (j_LatestBuildPath j)) (λ e _, e = None).
Proof.
  rewrite (jo_latest _ _ Hj). destruct ld_parent as (q & c & Heq & Hq). apply (quiet_write Hquiet).
  intros fs (Hw & Hb & Hn). pose proof (plain_ld B j Hj) as Hp. rewrite Heq in *.
  rewrite k_make_child by auto. eauto.
Qed.

Lemma update_latest_live :
  triple (λ fs, wf fs ∧ bootstrapped B j fs ∧ ∀ n, fs !! ld = Some n → ∃ t, n = Symlink t)
    (update_latest j) (λ e _, e = None).
Proof.
  unfold update_latest. apply triple_with_lock. set (link := wrapM _ (SymlinkTo _ _)).
  pose proof (plain_ld B j Hj) as Hp.
  assert (Hlink : triple (λ fs, wf fs ∧ bootstrapped B j fs ∧ fs !! ld = None) link (λ e _, e = None)).
  { eapply triple_wrapM; [apply symlink_live|]. by intros e fs ->. }
  assert (Hclear : ∀ fs, wf fs → bootstrapped B j fs → clear fs ld).
  { intros fs Hw Hb. destruct ld_parent as (q & c & Heq & Hq). rewrite Heq. apply wf_clear_child; auto. }
  intros w (Hw & Hb & Hl). rewrite bind_run. unfold Lstat. rewrite read_quiet by done.
  rewrite (jo_latest _ _ Hj), k_lstat_clear by auto.
  destruct (w_fs w !! ld) as [n|] eqn:Hn; cbn [fst snd IsNotExist]; [|by apply Hlink].
  destruct (Hl n eq_refl) as [t ->]. rewrite andM_run, wrapM_run. unfold Remove. rewrite write_quiet by done.
  change (w_fs (tick w)) with (w_fs w). rewrite (k_remove_link (w_fs w) Hw ld t) by done. cbn [fst snd fmap option_fmap option_map].
  apply Hlink. change (w_fs (set_fs (delete ld (w_fs w)) _)) with (delete ld (w_fs w)).
  assert (Hld : ∀ d, delete ld (w_fs w) !! (B ++ [j_Project j; d]) = w_fs w !! (B ++ [j_Project j; d]) ∨ d = "latest").
  { intros d. destruct (decide (ld = B ++ [j_Project j; d])) as [Heq|Hne]; [right|left; by apply lookup_delete_ne].
    unfold latest_at in Heq. apply app_inv_head in Heq. by case_decide; injection Heq. }
  split_and!.
  - apply wf_delete; [done| |].
    + destruct ld_parent as (q & c & -> & _). by destruct q.
    + intros c. by apply (wf_leaf _ _ (Symlink t)).
  - destruct Hb as (H1 & H2 & H3). unfold bootstrapped.
    destruct (Hld "pending") as [->|[=]], (Hld "ready") as [->|[=]], (Hld "groups") as [->|[=]]. by split_and!.
  - by rewrite lookup_delete_eq.
Qed.

Lemma deferred_live bi (err : error) :
  outcome bi → err = None →
  triple running (r ← deferred_persist j (bi, err); deferred_publish j r) (λ r fs, outcome r.1 ∧ r.2 = None).
Proof.
  intros Hbi ->. unfold deferred_persist.
  apply (triple_bind _ _ (λ r fs, r = (bi, None) ∧ running fs)).
  { eapply live_bind; [apply (persist_live (λ fs, building fs ∧ has_log fs pd))|by apply triple_ret].
    - by intros fs [? _].
    - intros fs y [Hb [l Hl]]. split; [by apply building_insert|]. exists l.
      rewrite lookup_insert_ne; [done|]. by intros ?%app_inv_head. }
  intros r. apply triple_pre. intros w (-> & H). apply (triple_at running); [done|]. unfold deferred_publish.
  apply (triple_bind _ _ (λ e fs, e = None ∧ (wf fs ∧ bootstrapped B j fs) ∧ ∀ n, fs !! ld = Some n → ∃ t, n = Symlink t)).
  { eapply triple_weaken; [exact (triple_conj _ _ _ _ _ rename_live
      (rename_store B j Hj (λ _, True) (λ _, True) ltac:(done)))|by intros fs (? & ? & ?)|].
    intros e fs ((-> & ? & ?) & Hok & _). split_and!; [done..|]. intros n Hn.
    destruct (so_links _ _ Hok _ _ _ (jo_proj _ _ Hj) (jo_group _ _ Hj) Hn) as (id & _ & -> & _). by eexists. }
  intros e. apply triple_pre. intros w1 (-> & H1 & H2).
  apply (triple_at (λ fs, wf fs ∧ bootstrapped B j fs ∧ ∀ n, fs !! ld = Some n → ∃ t, n = Symlink t)); [by destruct H1|].
  destruct (bool_decide _ && bool_decide _).
  - eapply triple_bind; [apply update_latest_live|]. intros e. apply triple_ret. by intros fs ->.
  - by apply triple_ret.
Qed.

Lemma build_live start bi :
  bi_Cached bi = false →
  triple (λ fs, store_ok B fs ∧ unbuilt fs ∧ ∃ n, k_stat fs (Join [cfg_ProjectsPath cfg; j_Project j]) = inr n)
    (build cfg j start bi) (λ r fs, outcome r.1 ∧ r.2 = None).
Proof.
  intros Hbi. unfold build.
  apply (triple_bind _ _ (λ r fs, (∃ n, r = Ok n) ∧ store_ok B fs ∧ unbuilt fs)).
  { apply (quiet_read Hquiet). intros fs (Hok & Hun & n & Hn). exists n. by eauto. }
  intros r. apply triple_pre. intros w ((n & ->) & H). apply (triple_at (λ fs, store_ok B fs ∧ unbuilt fs)); [done|].
  eapply live_bind; [apply (bootstrap_live unbuilt), unbuilt_stable|].
  eapply triple_bind; [apply bootstrap_dir_live|]. intros r. apply triple_pre. intros w1 (-> & H1).
  apply (triple_at (λ fs, store_ok B fs ∧ building fs ∧ params_open fs)); [done|].
  eapply live_bind; [apply (persist_live (λ fs, building fs ∧ params_open fs))|].
  - by intros fs [? _].
  - intros fs y (Hb & Hd & Ho). split; [by apply building_insert|]. split.
    + rewrite lookup_insert_ne; [done|]. by intros ?%app_inv_head.
    + intros k. unfold not_link. rewrite lookup_insert_ne; [apply Ho|]. by intros ?%app_inv_head.
  - eapply triple_bind; [by apply body_live|]. intros [bi' err]. apply triple_pre. intros w2 ([? ?] & H3).
    apply (triple_at running); [done|]. by apply deferred_live.
Qed.

End live.

Lemma scen_docker_live code : DockerLive (scen_docker None code) code.
Proof. split; try done; by intros; eexists. Qed.

