(* ===== verification/JobSpec.v ===== *)
(** The jobs that [NewJob] makes: their identity, their paths, and what the names
    of parameters may do to them. *)
From S2P Require Import Prelude GoStrings Paths World FSFacts Logic Quiet Types Filesystem Config Job Metrics Queues Worker Store WorkSafety Scenario WorkSpec.

Open Scope string_scope.
Open Scope list_scope.

Section ids.
Context {E : Env} {T : TarFormat} {H : Sha256}.

(** ** The seed of an ID *)

(** Two sets of parameters that differ in opaque ones only. *)
Definition same_params (params params' : Params) : Prop :=
  ∀ k, HasPrefix k "_" = false → params !! k = params' !! k.

Lemma elem_of_range n params k :
  k ∈ (env_range n params).*1 ↔ is_Some (params !! k).
Proof.
  rewrite (Permutation_map fst (env_range_perm n params)). rewrite list_elem_of_fmap. split.
  - intros ([k' v] & -> & Hk%elem_of_map_to_list). eauto.
  - intros [v Hv]. exists (k, v). split; [done|]. by apply elem_of_map_to_list.
Qed.

Lemma NoDup_range n (params : Params) : NoDup (env_range n params).*1.
Proof. rewrite (Permutation_map fst (env_range_perm n params)). apply NoDup_fst_map_to_list. Qed.

Lemma id_keys_agree n m params params' :
  same_params params params' → id_keys (env_range n params).*1 = id_keys (env_range m params').*1.
Proof.
  intros Hs. apply sort_strings_proper, NoDup_Permutation; [apply NoDup_filter, NoDup_range..|].
  intros k. rewrite !list_elem_of_filter, !elem_of_range.
  split; intros [Hk Hp]; (split; [done|]); by rewrite ?(Hs k Hk), <-?(Hs k Hk) in *.
Qed.

Lemma id_keys_visible k keys : k ∈ id_keys keys → HasPrefix k "_" = false.
Proof. unfold id_keys. rewrite sort_strings_perm. by intros [? _]%list_elem_of_filter. Qed.

Lemma seed_agree (params params' : Params) keys seed :
  (∀ k, k ∈ keys → params !! k = params' !! k) →
  foldl (λ seed k, seed +:+ k +:+ default "" (params !! k)) seed keys
  = foldl (λ seed k, seed +:+ k +:+ default "" (params' !! k)) seed keys.
Proof.
  revert seed. induction keys as [|k keys IH]; intros seed Hk; simpl; [done|].
  rewrite (Hk k) by (by left). apply IH. intros k' Hk'. apply Hk. by right.
Qed.

Lemma id_seed_agree n m project group params params' tar :
  same_params params params' →
  id_seed project group (env_range n params).*1 params tar
  = id_seed project group (env_range m params').*1 params' tar.
Proof.
  intros Hs. unfold id_seed. rewrite (id_keys_agree n m _ _ Hs). f_equal.
  apply seed_agree. intros k Hk. apply Hs. by eapply id_keys_visible.
Qed.

(** ** What [NewJob] returns *)

Lemma NewJob_inv project params group cfg w j :
  (NewJob project params group (Some cfg) w).1 = Ok j →
  project ≠ "" ∧ ∃ tar n now now', j = make_job project params group cfg tar (env_range n params).*1 now now'.
Proof.
  unfold NewJob. case_decide as Hp; [done|]. rewrite bind_run.
  destruct (Tar _ w) as [[tar|e] w1]; cbn [fst snd]; [|by destruct (IsNotExist e)].
  rewrite !bind_run. cbn [Range Now fst snd]. rewrite ret_run.
  intros [= <-]. split; [done|]. eauto.
Qed.

(** C17: the ID of a job is a function of the project, the group, the project's
    archive and the parameters whose names do not start with an underscore: neither
    the order in which the runtime visits the parameters, nor the time, nor the
    opaque parameters matter, and so neither do they for any path of the job. *)
Theorem job_id_determined project params params' group cfg w w' j j' :
  (NewJob project params group (Some cfg) w).1 = Ok j →
  (NewJob project params' group (Some cfg) w').1 = Ok j' →
  j_ImageTar j = j_ImageTar j' → same_params params params' →
  j_ID j = j_ID j' ∧ j_PendingBuildPath j = j_PendingBuildPath j' ∧
  j_ReadyBuildPath j = j_ReadyBuildPath j' ∧ j_LatestBuildPath j = j_LatestBuildPath j' ∧
  j_Container j = j_Container j'.
Proof.
  intros (_ & tar & n & now & now' & ->)%NewJob_inv (_ & tar' & n' & now1 & now1' & ->)%NewJob_inv.
  simpl. intros <- Hs. by rewrite (id_seed_agree n n' _ _ _ _ _ Hs).
Qed.


(** ** Seeds that collide *)

Lemma id_seed_single project group k v tar :
  HasPrefix k "_" = false →
  id_seed project group [k] {[k := v]} tar = project +:+ group +:+ k +:+ v +:+ tar.
Proof.
  intros Hk. unfold id_seed, id_keys. rewrite filter_cons_True, filter_nil by done.
  change (sort_strings [k]) with [k]. cbn [foldl]. rewrite lookup_singleton_eq. simpl.
  by rewrite !str_app_assoc.
Qed.

(** The seed does not separate a parameter's name from its value, nor the
    project from the group: moving the border between them gives another request
    with the same ID, hence the same ready directory, from which the result cache
    would answer it. *)
Theorem job_id_collision project group k v1 v2 cfg tar now now' :
  HasPrefix k "_" = false → HasPrefix (k +:+ v1) "_" = false → v1 ≠ "" →
  let j := make_job project {[k := v1 +:+ v2]} group cfg tar [k] now now' in
  let j' := make_job project {[k +:+ v1 := v2]} group cfg tar [k +:+ v1] now now' in
  j_Params j ≠ j_Params j' ∧ j_ID j = j_ID j' ∧ j_ReadyBuildPath j = j_ReadyBuildPath j'.
Proof.
  intros Hk Hk' Hv. cbv zeta.
  assert (Hseed : id_seed project group [k] {[k := v1 +:+ v2]} tar
                = id_seed project group [k +:+ v1] {[k +:+ v1 := v2]} tar).
  { rewrite !id_seed_single by done. by rewrite !str_app_assoc. }
  split; [|unfold make_job; simpl; by rewrite Hseed].
  simpl. intros Heq. apply (f_equal (λ m : Params, m !! k)) in Heq.
  rewrite lookup_singleton_eq, lookup_singleton_ne in Heq; [done|].
  intros Hkk. destruct v1 as [|c v1]; [done|]. apply (f_equal String.length) in Hkk.
  rewrite str_length_app in Hkk. simpl in Hkk. lia.
Qed.

(** ** Errors *)

Lemma tar_file_reads path rel P : triple P (tar_file path rel) (λ _ fs, P fs).
Proof.
  apply (triple_bindR _ _ _ (λ _ fs, P fs)); [by apply triple_read|done|]. intros d. by apply triple_ret.
Qed.

Lemma tar_walk_reads P fuel : ∀ path rel n, triple P (tar_walk fuel path rel n) (λ _ fs, P fs).
Proof.
  induction fuel as [|fuel IH]; intros path rel [|d|t]; cbn [tar_walk];
    try apply tar_file_reads; try by apply triple_ret.
  apply (triple_bindR _ _ _ (λ _ fs, P fs)); [by apply triple_read|done|]. intros names.
  induction names as [|[name n] names IHn]; [by apply triple_ret|]. cbv zeta.
  apply (triple_bindR _ _ _ (λ _ fs, P fs)); [by apply triple_read|done|]. intros info.
  apply (triple_bindR _ _ _ (λ _ fs, P fs)); [apply IH|done|]. intros a.
  apply (triple_bindR _ _ _ (λ _ fs, P fs)); [apply IHn|done|]. intros b. by apply triple_ret.
Qed.

Lemma NewJob_reads project params group cfg P : triple P (NewJob project params group cfg) (λ _ fs, P fs).
Proof.
  unfold NewJob. case_decide; [by apply triple_ret|]. destruct cfg as [cfg|]; [|by apply triple_ret].
  apply (triple_bind _ _ (λ _ fs, P fs)).
  - unfold Tar. apply (triple_bindR _ _ _ (λ _ fs, P fs)); [by apply triple_read|done|]. intros info.
    apply (triple_bind _ _ (λ _ fs, P fs)); [by apply triple_pure|]. intros fuel.
    apply (triple_bindR _ _ _ (λ _ fs, P fs)); [apply tar_walk_reads|done|]. intros a. by apply triple_ret.
  - intros [tar|e]; [|destruct (IsNotExist e); by apply triple_ret].
    apply (triple_bind _ _ (λ _ fs, P fs)); [by apply triple_pure|]. intros kvs.
    apply (triple_bind _ _ (λ _ fs, P fs)); [by apply triple_pure|]. intros now.
    apply (triple_bind _ _ (λ _ fs, P fs)); [by apply triple_pure|]. intros now'. by apply triple_ret.
Qed.

(** NewJob changes no file, and refuses a missing project name, a missing
    configuration and, when the project has no directory, the unknown project by
    its name. *)
Theorem NewJob_errors (Hquiet : quiet E) project params group cfg w :
  w_fs (NewJob project params group cfg w).2 = w_fs w ∧
  (project = "" → (NewJob project params group cfg w).1 = Err (ErrString "no project given")) ∧
  (project ≠ "" → cfg = None → (NewJob project params group cfg w).1 = Err (ErrString "invalid configuration")) ∧
  (∀ c, project ≠ "" → cfg = Some c →
     k_lstat (w_fs w) (Join [cfg_ProjectsPath c; project]) = inl ENOENT →
     (NewJob project params group cfg w).1 = Err (ErrString ("Unknown project '" +:+ project +:+ "'"))).
Proof.
  split_and!.
  - by apply (NewJob_reads project params group cfg (λ fs, fs = w_fs w)).
  - intros ->. done.
  - intros Hp ->. unfold NewJob. by rewrite decide_False.
  - intros c Hp -> Hst. unfold NewJob. rewrite decide_False by done. rewrite bind_run. unfold Tar.
    rewrite bindR_run. unfold Lstat. rewrite read_quiet by done. rewrite Hst. done.
Qed.
End ids.

(** ** Witnesses and scenarios *)

Abbreviation scen_new project params group w :=
  (@NewJob (scen_env calm alone) scen_tar scen_sha project params group
     (Some (scen_config (@PlainFS (scen_env calm alone)))) w).

Lemma job_id_determined_witness :
  ∃ j j',
    (scen_new "yarn" (<["_ci" := "42"]> scen_params) "prod" scen_world).1 = Ok j ∧
    (scen_new "yarn" scen_params "prod" (tick scen_world)).1 = Ok j' ∧
    j_ID j = j_ID j' ∧ j_PendingBuildPath j = j_PendingBuildPath j' ∧
    j_ReadyBuildPath j = j_ReadyBuildPath j' ∧ j_LatestBuildPath j = j_LatestBuildPath j' ∧
    j_Container j = j_Container j'.
Proof.
  do 2 eexists. split; [vm_compute; reflexivity|]. split; [vm_compute; reflexivity|].
  eapply (@job_id_determined (scen_env calm alone) scen_tar scen_sha "yarn" (<["_ci" := "42"]> scen_params) scen_params "prod"
    (scen_config (@PlainFS (scen_env calm alone))) scen_world (tick scen_world)).
  - vm_compute. reflexivity.
  - vm_compute. reflexivity.
  - reflexivity.
  - intros k Hk. rewrite lookup_insert_ne; [done|]. intros <-. discriminate Hk.
Defined.


Lemma job_id_collision_witness :
  let cfg := scen_config (@PlainFS (scen_env calm alone)) in
  let j := make_job "yarn" {["v" := "1" +:+ "2"]} "" cfg "tar" ["v"] 0 0 in
  let j' := make_job "yarn" {["v" +:+ "1" := "2"]} "" cfg "tar" ["v" +:+ "1"] 0 0 in
  j_Params j ≠ j_Params j' ∧ j_ID j = j_ID j' ∧ j_ReadyBuildPath j = j_ReadyBuildPath j'.
Proof.
  apply (@job_id_collision scen_sha "yarn" "" "v" "1" "2"); [reflexivity|reflexivity|discriminate].
Defined.

Lemma NewJob_errors_witness :
  let r := scen_new "npm" ∅ "" scen_world in
  w_fs r.2 = w_fs scen_world ∧
  ("npm" = "" → r.1 = Err (ErrString "no project given")) ∧
  ("npm" ≠ "" → Some (scen_config (@PlainFS (scen_env calm alone))) = None → r.1 = Err (ErrString "invalid configuration")) ∧
  (∀ c, "npm" ≠ "" → Some (scen_config (@PlainFS (scen_env calm alone))) = Some c →
     k_lstat (w_fs scen_world) (Paths.Join [cfg_ProjectsPath c; "npm"]) = inl ENOENT →
     r.1 = Err (ErrString ("Unknown project '" +:+ "npm" +:+ "'"))).
Proof. apply (@NewJob_errors (scen_env calm alone) scen_tar scen_sha (λ n, eq_refl)). Defined.

(** The request of a client that names a parameter after a file of the server. *)
Definition evil_params : Params := {[ "../../../../../../projects/yarn/Dockerfile" := "FROM evil" ]}.

(** Parameter names are not checked: a parameter named after a path with dots
    makes Work write outside the build directory.  Here a request for a build of a
    project replaces the Dockerfile of that project, and is served as a success. *)
Theorem param_names_escape :
  scen_fs !! ["projects"; "yarn"; "Dockerfile"] = Some (File "FROM node") ∧
  match scen_new "yarn" evil_params "" scen_world with
  | (Ok j, w) =>
      let r := scen_work (scen_docker None 0) j w in
      option_map snd r.1 = Some None ∧
      w_fs r.2 !! ["projects"; "yarn"; "Dockerfile"] = Some (File "FROM evil")
  | _ => False
  end.
Proof. split; [reflexivity|]. vm_compute. split; reflexivity. Qed.
