(* ===== verification/Scanner.v ===== *)
(** Go's [bufio.Scanner] with the split function [ScanLines], which the broker and the
    verbose rebuild use on streams that they did not limit: its buffer, how it grows
    and what happens to a line that does not fit. *)
From S2P Require Import Prelude GoStrings.
From Stdlib Require Import Ascii.

Open Scope string_scope.
Open Scope list_scope.
#[local] Open Scope nat_scope.

Definition newline : ascii := "010"%char.
Definition carriage_return : ascii := "013"%char.

Lemma str_take_drop n s : s = str_take n s +:+ str_drop n s.
Proof. revert s. induction n as [|n IH]; intros [|c s]; simpl; try done. by rewrite str_app_cons, <-IH. Qed.

Lemma str_take_at_most n s : String.length (str_take n s) = Nat.min n (String.length s).
Proof. revert s. induction n as [|n IH]; intros [|c s]; simpl; try done. by rewrite IH. Qed.

(** [bufio.dropCR]. *)
Fixpoint dropCR (s : string) : string :=
  match s with
  | "" => ""
  | String c "" => if decide (c = carriage_return) then "" else s
  | String c s' => String c (dropCR s')
  end.

(** The complete lines of a text, without their newlines, and what is left. *)
Fixpoint split_lines (s : string) : list string * string :=
  match s with
  | "" => ([], "")
  | String c s' =>
      let '(ls, rest) := split_lines s' in
      if decide (c = newline) then ("" :: ls, rest)
      else match ls with
           | l :: ls => (String c l :: ls, rest)
           | [] => ([], String c rest)
           end
  end.

(** [Scanner]: the bytes that are buffered, where they start in the buffer, and the
    length of the buffer. *)
Record Scanner := mkScanner {
  sc_data : string;
  sc_start : nat;
  sc_len : nat;
}.

(** [bufio.NewScanner]: no buffer yet. *)
Definition NewScanner : Scanner := mkScanner "" 0 0.

Section scanner.
(** [startBufSize] and [maxTokenSize]. *)
Variable startBufSize maxTokenSize : nat.

Definition sc_end (sc : Scanner) : nat := sc_start sc + String.length (sc_data sc).
Definition sc_room (sc : Scanner) : nat := sc_len sc - sc_end sc.

(** The calls of [Scan] that find a line in the buffer, one after the other: the
    lines they return. *)
Definition scan_buffered (sc : Scanner) : list string * Scanner :=
  let '(ls, rest) := split_lines (sc_data sc) in
  (dropCR <$> ls, mkScanner rest (sc_start sc + (String.length (sc_data sc) - String.length rest)) (sc_len sc)).

(** What [Scan] does before it reads: it moves the bytes to the front of the buffer
    when that is useful, and doubles a buffer that is full; [None] is [ErrTooLong],
    with which the scanner stops. *)
Definition make_room (sc : Scanner) : option Scanner :=
  let start :=
    if decide (0 < sc_start sc ∧ (sc_end sc = sc_len sc ∨ Nat.div2 (sc_len sc) < sc_start sc)) then 0
    else sc_start sc in
  if decide (start + String.length (sc_data sc) = sc_len sc) then
    if decide (maxTokenSize ≤ sc_len sc) then None
    else
      let newSize := if decide (sc_len sc * 2 = 0) then startBufSize else sc_len sc * 2 in
      Some (mkScanner (sc_data sc) 0 (Nat.min newSize maxTokenSize))
  else Some (mkScanner (sc_data sc) start (sc_len sc)).

(** Bytes that a read put behind those that are buffered. *)
Definition fill (data : string) (sc : Scanner) : Scanner :=
  mkScanner (sc_data sc +:+ data) (sc_start sc) (sc_len sc).

(** ** What a scanner returns, by the bytes it reads *)

(** The lines of a stream, from the bytes [cur] of the line it is in; a line with
    [maxTokenSize] bytes and no newline yet is never left. *)
Fixpoint stream_lines (cur s : string) : list string * string :=
  match s with
  | "" => ([], cur)
  | String c s' =>
      if decide (maxTokenSize ≤ String.length cur) then ([], cur)
      else if decide (c = newline) then
        let '(ls, cur') := stream_lines "" s' in (dropCR cur :: ls, cur')
      else stream_lines (cur +:+ String c "") s'
  end.

Lemma stream_lines_stuck cur s : maxTokenSize ≤ String.length cur → stream_lines cur s = ([], cur).
Proof. destruct s; intros H; simpl; [done|]. by rewrite decide_True. Qed.

Lemma stream_lines_app a b : ∀ cur,
  stream_lines cur (a +:+ b) =
    let '(l1, c1) := stream_lines cur a in let '(l2, c2) := stream_lines c1 b in (l1 ++ l2, c2).
Proof.
  induction a as [|c a IH]; intros cur; [by destruct (stream_lines cur b) eqn:E; simpl; rewrite E|].
  rewrite str_app_cons. cbn [stream_lines]. destruct (decide (maxTokenSize ≤ _)) as [Hm|_].
  - by rewrite stream_lines_stuck.
  - destruct (decide (c = newline)) as [->|_]; [|apply IH]. rewrite IH.
    destruct (stream_lines "" a) as [l1 c1]. by destruct (stream_lines c1 b).
Qed.

(** The rest of a text without a newline is the text. *)
Lemma split_lines_none s : Contains s newline = false → split_lines s = ([], s).
Proof.
  induction s as [|c s IH]; simpl; [done|]. intros [Hc Hs]%orb_false_iff. rewrite (IH Hs).
  apply bool_decide_eq_false in Hc. by rewrite decide_False.
Qed.

Lemma split_lines_line cur s : Contains cur newline = false →
  split_lines (cur +:+ String newline s) = (cur :: (split_lines s).1, (split_lines s).2).
Proof.
  induction cur as [|c cur IH]; simpl.
  - intros _. by destruct (split_lines s).
  - intros [Hc Hs]%orb_false_iff. rewrite (IH Hs). apply bool_decide_eq_false in Hc. by rewrite decide_False.
Qed.

Lemma split_lines_rest s : Contains (split_lines s).2 newline = false.
Proof.
  induction s as [|c s IH]; simpl; [done|]. destruct (split_lines s) as [[|l ls] rest]; simpl in IH; case_decide; simpl; try done.
  rewrite IH. by rewrite bool_decide_false by congruence.
Qed.

Lemma split_lines_length s : String.length (split_lines s).2 ≤ String.length s.
Proof.
  induction s as [|c s IH]; simpl; [lia|]. destruct (split_lines s) as [[|l ls] rest]; simpl in IH; case_decide; simpl; lia.
Qed.

(** On what fits into the buffer, the lines of the stream are those of the text. *)
Lemma stream_lines_split s : ∀ cur,
  Contains cur newline = false → String.length cur + String.length s ≤ maxTokenSize →
  stream_lines cur s = (dropCR <$> (split_lines (cur +:+ s)).1, (split_lines (cur +:+ s)).2).
Proof.
  induction s as [|c s IH]; intros cur Hcur Hlen; simpl in *.
  - by rewrite str_app_nil_r, split_lines_none.
  - rewrite decide_False by lia. destruct (decide (c = newline)) as [->|Hc].
    + rewrite (IH "") by (done || (simpl; lia)). rewrite split_lines_line by done. done.
    + rewrite IH.
      * by rewrite str_app_assoc.
      * rewrite Contains_app, Hcur. simpl. by rewrite bool_decide_false by congruence.
      * rewrite str_length_app. simpl. lia.
Qed.

(** ** The state of a scanner between two reads *)

Record sc_ok (sc : Scanner) : Prop := {
  sc_no_line : Contains (sc_data sc) newline = false;
  sc_in_buffer : sc_end sc ≤ sc_len sc;
  sc_limit : sc_len sc ≤ maxTokenSize;
}.

Lemma NewScanner_ok : sc_ok NewScanner.
Proof. split; simpl; [done|unfold sc_end; simpl; lia|lia]. Qed.

(** Making room changes none of the bytes, and fails for a full buffer of the largest
    size only. *)
Lemma make_room_spec sc : 0 < startBufSize → 0 < maxTokenSize → sc_ok sc →
  match make_room sc with
  | Some sc' => sc_ok sc' ∧ sc_data sc' = sc_data sc ∧ 0 < sc_room sc' ∧ make_room sc' = Some sc'
  | None => String.length (sc_data sc) = maxTokenSize
  end.
Proof.
  intros Hs Hm [Hn Hb Hl]. destruct sc as [d st len]. unfold make_room, sc_end, sc_room, sc_end in *. cbn [sc_data sc_start sc_len] in *.
  destruct (decide (0 < st ∧ _)) as [Hd|Hd]; cbv zeta.
  - destruct (decide (0 + _ = len)) as [He|He]; [destruct (decide (maxTokenSize ≤ len)) as [Hx|Hx]; [lia|lia]|].
    cbn [sc_data sc_start sc_len]. rewrite (decide_False (P := 0 < 0 ∧ _)) by lia. rewrite decide_False by lia.
    split_and!; [|done|lia|done]. split; simpl; [done|unfold sc_end; simpl; lia|lia].
  - destruct (decide (st + _ = len)) as [He|He]; [destruct (decide (maxTokenSize ≤ len)) as [Hx|Hx]; [lia|]|].
    + assert (st = 0) as -> by lia. cbn [sc_data sc_start sc_len]. rewrite (decide_False (P := 0 < 0 ∧ _)) by lia.
      assert (String.length d < Nat.min (if decide (len * 2 = 0) then startBufSize else len * 2) maxTokenSize) by (case_decide; lia).
      rewrite (decide_False (P := 0 + _ = _)) by lia. split_and!; [|done|lia|done]. split; simpl; [done|unfold sc_end; simpl; lia|lia].
    + cbn [sc_data sc_start sc_len]. rewrite (decide_False (P := 0 < st ∧ _)) by done. rewrite decide_False by lia.
      split_and!; [|done|lia|done]. split; simpl; [done|unfold sc_end; simpl; lia|lia].
Qed.

(** Bytes that fit are scanned as the reference does, and leave a good state. *)
Lemma scan_filled data sc : sc_ok sc → String.length data ≤ sc_room sc →
  sc_ok (scan_buffered (fill data sc)).2 ∧
  stream_lines (sc_data sc) data = ((scan_buffered (fill data sc)).1, sc_data (scan_buffered (fill data sc)).2).
Proof.
  intros [Hn Hb Hl] Hd. unfold sc_room, sc_end in *. rewrite stream_lines_split by (done || lia).
  unfold scan_buffered, fill. cbn [sc_data sc_start sc_len].
  pose proof (split_lines_rest (sc_data sc +:+ data)) as Hr. pose proof (split_lines_length (sc_data sc +:+ data)) as Hlen.
  rewrite str_length_app in Hlen. destruct (split_lines _) as [ls rest]. simpl in *. split; [|done].
  split; simpl; [done| |done]. unfold sc_end. simpl. rewrite str_length_app. lia.
Qed.

(** ** Texts by their lines *)

(** The text of some complete lines and the beginning of the next one. *)
Definition log_text (ls : list string) (part : string) : string :=
  foldr (λ l s, l +:+ String newline s) part ls.

Definition short (l : string) : Prop := Contains l newline = false ∧ String.length l < maxTokenSize.

(** A line that is short enough is returned when its newline comes. *)
Lemma stream_lines_line l s : ∀ cur, short (cur +:+ l) →
  stream_lines cur (l +:+ String newline s) = (dropCR (cur +:+ l) :: (stream_lines "" s).1, (stream_lines "" s).2).
Proof.
  induction l as [|c l IH]; intros cur [Hn Hlen].
  - rewrite str_app_nil_r in *. simpl. rewrite decide_False by lia. by destruct (stream_lines "" s).
  - assert (Heq : cur +:+ String c l = (cur +:+ String c "") +:+ l) by by rewrite str_app_assoc.
    assert (Hc : newline ≠ c).
    { rewrite Contains_app in Hn. simpl in Hn. by apply orb_false_iff in Hn as [_ [Hc%bool_decide_eq_false _]%orb_false_iff]. }
    rewrite str_length_app in Hlen. simpl in Hlen. rewrite str_app_cons. cbn [stream_lines].
    rewrite decide_False, decide_False by (lia || congruence). rewrite Heq in *. apply IH. split; [done|].
    rewrite !str_length_app. simpl. lia.
Qed.

Lemma stream_lines_part part : ∀ cur, Contains part newline = false → String.length (cur +:+ part) ≤ maxTokenSize →
  stream_lines cur part = ([], cur +:+ part).
Proof.
  induction part as [|c s IH]; intros cur Hn Hlen; [by rewrite str_app_nil_r|].
  simpl in Hn. apply orb_false_iff in Hn as [Hc Hn]. apply bool_decide_eq_false in Hc. simpl.
  assert (cur +:+ String c s = (cur +:+ String c "") +:+ s) as Heq by by rewrite str_app_assoc.
  rewrite str_length_app in Hlen. simpl in Hlen. rewrite decide_False, decide_False by (lia || congruence).
  rewrite Heq in *. apply IH; [done|]. rewrite !str_length_app. simpl. lia.
Qed.

Lemma stream_lines_text ls : ∀ part,
  Forall short ls → stream_lines "" (log_text ls part) = ((dropCR <$> ls) ++ (stream_lines "" part).1, (stream_lines "" part).2).
Proof.
  induction ls as [|l ls IH]; intros part Hls; simpl; [by destruct (stream_lines "" part)|].
  apply Forall_cons in Hls as [Hl Hls]. rewrite stream_lines_line, IH by done. done.
Qed.

(** A line with [maxTokenSize] bytes ends the stream for good. *)
Lemma stream_lines_long long more : Contains long newline = false → maxTokenSize ≤ String.length long →
  (stream_lines "" (long +:+ more)).1 = [] ∧ String.length (stream_lines "" (long +:+ more)).2 = maxTokenSize.
Proof.
  intros Hn Hlen. assert (∃ a b, long = a +:+ b ∧ String.length a = maxTokenSize) as (a & b & -> & Ha).
  { exists (str_take maxTokenSize long), (str_drop maxTokenSize long). split; [apply str_take_drop|rewrite str_take_at_most; lia]. }
  rewrite Contains_app in Hn. apply orb_false_iff in Hn as [Hn _].
  rewrite str_app_assoc, stream_lines_app, stream_lines_part by (done || (change ("" +:+ a) with a; lia)).
  change ("" +:+ a) with a. rewrite stream_lines_stuck by lia. by split.
Qed.

(** ** Reading from a pipe *)

(** One write to an [io.Pipe] whose other end is read by a scanner: the lines that
    are scanned, and the scanner when everything was read.  [None] when the write
    never returns, because the scanner has left its loop and nothing closes its end. *)
Fixpoint pipe_write (fuel : nat) (b : string) (sc : Scanner) : option (list string * Scanner) :=
  match fuel with
  | O => None
  | S fuel =>
      sc ← make_room sc;
      let data := str_take (sc_room sc) b in
      let '(ls, sc) := scan_buffered (fill data sc) in
      let b := str_drop (String.length data) b in
      if decide (b = "") then Some (ls, sc)
      else '(more, sc) ← pipe_write fuel b sc; Some (ls ++ more, sc)
  end.

(** The end of the pipe: what is left is the last line. *)
Definition pipe_close (sc : Scanner) : list string :=
  match make_room sc with
  | None => []
  | Some sc => if decide (sc_data sc = "") then [] else [dropCR (sc_data sc)]
  end.

(** All writes, none of them empty, and the end. *)
Fixpoint pipe_lines (writes : list string) (sc : Scanner) : option (list string) :=
  match writes with
  | [] => Some (pipe_close sc)
  | b :: writes =>
      '(ls, sc) ← pipe_write (S (String.length b)) b sc;
      more ← pipe_lines writes sc; Some (ls ++ more)
  end.

End scanner.
