(* ===== verification/Broker.v ===== *)
(** pkg/tailer and pkg/broker: following the log of a running build, and passing its
    lines to the clients that watch it. *)
From S2P Require Import Prelude GoStrings Paths World FSFacts Scanner.

Open Scope string_scope.
Open Scope list_scope.
#[local] Open Scope Z_scope.

(** ** pkg/tailer *)

(** [Tailer]: the open file, by its path, and the position in it; no file for the
    [&Tailer{}] that [New] returns with an error. *)
Record Tailer := mkTailer {
  t_file : option string;
  t_off : nat;
}.

(** [tailer.New]: the end of the file is where it starts.  Opening is a system call
    that only looks. *)
Definition Tailer_New {E : Env} (path : string) : M World (Tailer * error) :=
  f ← sys_read "open" path (λ fs, k_stat fs path);
  match f with
  | Err e => mret (mkTailer None 0, Some e)
  | Ok (File data) => mret (mkTailer (Some path) (String.length data), None)
  | Ok _ => mret (mkTailer (Some path) 0, None)
  end.

(** One turn of the loop of [Tailer.Read], on the contents of the file at that time
    and a buffer of [n] bytes: the bytes read, or nothing at the end of the file,
    where it sleeps and tries again.  Without a file it crashes. *)
Inductive read_result :=
| Bytes (data : string) (t : Tailer)
| AtEnd
| NilDereference.

Definition Tailer_Read (contents : string) (n : nat) (t : Tailer) : read_result :=
  match t_file t with
  | None => NilDereference
  | Some path =>
      let data := str_take n (str_drop (t_off t) contents) in
      if decide (data = "") then AtEnd
      else Bytes data (mkTailer (Some path) (t_off t + String.length data))
  end.

(** The bytes read in a number of turns, on the contents the file has at each. *)
Fixpoint tail (turns : list (string * nat)) (t : Tailer) : option (string * Tailer) :=
  match turns with
  | [] => Some ("", t)
  | (contents, n) :: turns =>
      match Tailer_Read contents n t with
      | Bytes data t' => '(rest, t'') ← tail turns t'; Some (data +:+ rest, t'')
      | AtEnd => tail turns t
      | NilDereference => None
      end
  end.

(** ** pkg/broker *)

(** [Client], and [Event]. *)
Record Client := mkClient {
  cl_ID : string;
  cl_Extra : string;
}.
Record Event := mkEvent {
  ev_Msg : string;
  ev_ID : string;
}.

(** [Broker]: the registered clients by their address, [clientsCount], the tailers
    that run and the channel of each client that was closed. *)
Record Broker := mkBroker {
  br_clients : gmap nat Client;
  br_count : gmap string Z;
  br_tailers : gmap string nat;
  br_closed : list nat;
  br_crashed : bool;
}.

(** [NewBroker]. *)
Definition NewBroker : Broker := mkBroker ∅ ∅ ∅ [] false.

(** The case of [NewClients]: [opens] tells whether the tailer could open the log.
    The first client of an ID starts a tailer, which reads at once. *)
Definition new_client (opens : bool) (k : nat) (c : Client) (b : Broker) : Broker :=
  let clients := <[k := c]> (br_clients b) in
  match br_count b !! cl_ID c with
  | Some cc =>
      if decide (cc > 0) then
        mkBroker clients (<[cl_ID c := cc + 1]> (br_count b)) (br_tailers b) (br_closed b) (br_crashed b)
      else
        mkBroker clients (<[cl_ID c := 1]> (br_count b))
          (<[cl_ID c := S (default O (br_tailers b !! cl_ID c))]> (br_tailers b)) (br_closed b)
          (br_crashed b || negb opens)
  | None =>
      mkBroker clients (<[cl_ID c := 1]> (br_count b))
        (<[cl_ID c := S (default O (br_tailers b !! cl_ID c))]> (br_tailers b)) (br_closed b)
        (br_crashed b || negb opens)
  end.

(** The case of [ClosingClients]: closing a closed channel crashes; the last client
    of an ID stops its tailer. *)
Definition closing_client (k : nat) (c : Client) (b : Broker) : Broker :=
  let cc := default 0 (br_count b !! cl_ID c) in
  let newVal := cc - 1 in
  mkBroker (delete k (br_clients b)) (<[cl_ID c := newVal]> (br_count b))
    (if decide (newVal = 0) then <[cl_ID c := pred (default O (br_tailers b !! cl_ID c))]> (br_tailers b)
     else br_tailers b)
    (k :: br_closed b)
    (br_crashed b || bool_decide (k ∈ br_closed b)).

(** The case of [Notifier]: who receives the message. *)
Definition notify (e : Event) (b : Broker) : list (nat * string) :=
  (λ kc, (kc.1, ev_Msg e)) <$> filter (λ kc, cl_ID kc.2 = ev_ID e) (map_to_list (br_clients b)).

(** What happens to the loop of [ListenForClients]: a client comes, a client that is
    registered goes, a message is passed on. *)
Inductive br_step (opens : string → bool) : Broker → Broker → Prop :=
| br_new k c b :
    br_clients b !! k = None → k ∉ br_closed b → br_step opens b (new_client (opens (cl_Extra c)) k c b)
| br_close k c b : br_clients b !! k = Some c → br_step opens b (closing_client k c b)
| br_notify b : br_step opens b b.

(** The constants of [bufio]. *)
Definition startBufSize : nat := Z.to_nat 4096.
Definition MaxScanTokenSize : nat := Z.to_nat 65536.

(** The goroutine that scans the log of [id] and sends its lines to [Notifier], on the
    contents of the log at each turn of [Tailer.Read]: the events it sends, the state
    of its scanner ([None] once it has left its loop over a line that is too long) and
    its tailer.  [None] when it crashes. *)
Fixpoint follow (id : string) (turns : list string) (sc : Scanner) (t : Tailer) :
    option (list Event * option Scanner * Tailer) :=
  match turns with
  | [] => Some ([], Some sc, t)
  | contents :: turns =>
      match make_room startBufSize MaxScanTokenSize sc with
      | None => Some ([], None, t)
      | Some sc =>
          match Tailer_Read contents (sc_room sc) t with
          | NilDereference => None
          | AtEnd => follow id turns sc t
          | Bytes data t =>
              let '(ls, sc) := scan_buffered (fill data sc) in
              '(es, sc, t) ← follow id turns sc t;
              Some (((λ l, mkEvent l id) <$> ls) ++ es, sc, t)
          end
      end
  end.

(** What the client [k] is sent by a run of events, each with the broker at that time. *)
Definition sent_to (k : nat) (run : list (Event * Broker)) : list string :=
  run ≫= λ eb, snd <$> filter (λ km, km.1 = k) (notify eb.1 eb.2).

(** How many clients watch an ID. *)
Definition watching (id : string) (clients : gmap nat Client) : nat :=
  size (filter (λ kc, cl_ID kc.2 = id) clients).
Definition watchers (id : string) (b : Broker) : nat := watching id (br_clients b).
