(* ===== verification/BrokerNet.v ===== *)
(** The broker with the goroutines around it: handlers of requests for logs, with the
    goroutines that wait for their clients to go away, and the goroutines of the
    tailers, all of them over unbuffered channels.  A channel operation is one step of
    its sender and its receiver. *)
From S2P Require Import Prelude GoStrings Paths World Broker.

Open Scope list_scope.
#[local] Open Scope Z_scope.

(** A handler ([HandleServerPush] of server.go from line 345 on): it sends its client
    to [NewClients], then receives from the client's [Data] and writes, until the
    channel is closed.  Its second goroutine waits for the connection to close and
    sends the client to [ClosingClients]. *)
Inductive main_pc := Registering | Receiving | Writing | Ended.
Inductive closer_pc := NotStarted | Watching | Leaving | Gone.
Record handler := mkHandler { h_client : Client; h_main : main_pc; h_closer : closer_pc }.

(** The goroutines of a tailer: the one that scans the log and sends its lines to
    [Notifier]; whether the one that closes the tailer still waits for its channel in
    [CloseClientC]. *)
Inductive scan_pc := Scanning | Sending (msg : string) | ScanEnd.
Record tail_proc := mkTailProc { tp_id : string; tp_scan : scan_pc; tp_open : bool }.

(** [ListenForClients]: at its select, sending a message to the clients that are left,
    or sending to the channel of a tailer ([None] for a nil channel, on which it would
    wait for ever). *)
Inductive broker_pc := Selecting | Delivering (msg : string) (todo : list nat) | Stopping (t : option nat).

(** The handlers and tailers by their order of appearance; [n_stop] is [CloseClientC]. *)
Record Net := mkNet {
  n_br : Broker;
  n_pc : broker_pc;
  n_stop : gmap string nat;
  n_handlers : list handler;
  n_tails : list tail_proc;
}.

Definition NewNet : Net := mkNet NewBroker Selecting ∅ [] [].

Definition set_pc (pc : broker_pc) (s : Net) : Net := mkNet (n_br s) pc (n_stop s) (n_handlers s) (n_tails s).
Definition set_handler (k : nat) (h : handler) (s : Net) : Net :=
  mkNet (n_br s) (n_pc s) (n_stop s) (<[k := h]> (n_handlers s)) (n_tails s).
Definition set_tail (t : nat) (tp : tail_proc) (s : Net) : Net :=
  mkNet (n_br s) (n_pc s) (n_stop s) (n_handlers s) (<[t := tp]> (n_tails s)).
Definition set_br (b : Broker) (s : Net) : Net := mkNet b (n_pc s) (n_stop s) (n_handlers s) (n_tails s).

(** Sending on a closed channel panics. *)
Definition crash_broker (b : Broker) : Broker :=
  mkBroker (br_clients b) (br_count b) (br_tailers b) (br_closed b) true.

(** The case of [NewClients]: the first client of an ID gets a channel and the two
    goroutines of a tailer. *)
Definition register (opens : string → bool) (k : nat) (c : Client) (s : Net) : Net :=
  let b := new_client (opens (cl_Extra c)) k c (n_br s) in
  let hs := <[k := mkHandler c Receiving Watching]> (n_handlers s) in
  if decide (0 < default 0 (br_count (n_br s) !! cl_ID c)) then mkNet b Selecting (n_stop s) hs (n_tails s)
  else mkNet b Selecting (<[cl_ID c := length (n_tails s)]> (n_stop s)) hs
         (n_tails s ++ [mkTailProc (cl_ID c) Scanning true]).

(** The case of [ClosingClients]. *)
Definition leave (k : nat) (h : handler) (s : Net) : Net :=
  let c := h_client h in
  let b := closing_client k c (n_br s) in
  mkNet b (if decide (default 0 (br_count b !! cl_ID c) = 0) then Stopping (n_stop s !! cl_ID c) else Selecting)
    (n_stop s) (<[k := mkHandler c (h_main h) Gone]> (n_handlers s)) (n_tails s).

(** The actions: a request for a log; its registration; its connection closes; its
    client leaves; a message reaches a client, or the end of the list; it is written;
    the handler returns on a closed channel; a tailer is stopped; a line is scanned,
    sent to the broker; the scan ends. *)
Inductive net_action :=
| Request (c : Client)
| Register (k : nat)
| Disconnect (k : nat)
| Leave (k : nat)
| Deliver
| Delivered
| Written (k : nat)
| Return (k : nat)
| Stop
| Line (t : nat) (msg : string)
| Notify (t : nat)
| EndScan (t : nat).

(** [None] when the action has to wait. *)
Definition net_act (opens : string → bool) (a : net_action) (s : Net) : option Net :=
  match a with
  | Request c => Some (mkNet (n_br s) (n_pc s) (n_stop s) (n_handlers s ++ [mkHandler c Registering NotStarted]) (n_tails s))
  | Register k =>
      match n_pc s, n_handlers s !! k with
      | Selecting, Some (mkHandler c Registering NotStarted) => Some (register opens k c s)
      | _, _ => None
      end
  | Disconnect k =>
      match n_handlers s !! k with
      | Some (mkHandler c m Watching) => Some (set_handler k (mkHandler c m Leaving) s)
      | _ => None
      end
  | Leave k =>
      match n_pc s, n_handlers s !! k with
      | Selecting, Some (mkHandler c m Leaving as h) => Some (leave k h s)
      | _, _ => None
      end
  | Deliver =>
      match n_pc s with
      | Delivering msg (k :: todo) =>
          match n_handlers s !! k with
          | Some (mkHandler _ _ Gone) => Some (set_br (crash_broker (n_br s)) s)
          | Some (mkHandler c Receiving cl) => Some (set_pc (Delivering msg todo) (set_handler k (mkHandler c Writing cl) s))
          | _ => None
          end
      | _ => None
      end
  | Delivered => match n_pc s with Delivering _ [] => Some (set_pc Selecting s) | _ => None end
  | Written k =>
      match n_handlers s !! k with
      | Some (mkHandler c Writing cl) => Some (set_handler k (mkHandler c Receiving cl) s)
      | _ => None
      end
  | Return k =>
      match n_handlers s !! k with
      | Some (mkHandler c Receiving Gone) => Some (set_handler k (mkHandler c Ended Gone) s)
      | _ => None
      end
  | Stop =>
      match n_pc s with
      | Stopping (Some t) =>
          match n_tails s !! t with
          | Some (mkTailProc id sc true) => Some (set_pc Selecting (set_tail t (mkTailProc id sc false) s))
          | _ => None
          end
      | _ => None
      end
  | Line t msg =>
      match n_tails s !! t with
      | Some (mkTailProc id Scanning o) => Some (set_tail t (mkTailProc id (Sending msg) o) s)
      | _ => None
      end
  | Notify t =>
      match n_pc s, n_tails s !! t with
      | Selecting, Some (mkTailProc id (Sending msg) o) =>
          Some (set_pc (Delivering msg (notify (mkEvent msg id) (n_br s)).*1) (set_tail t (mkTailProc id Scanning o) s))
      | _, _ => None
      end
  | EndScan t =>
      match n_tails s !! t with
      | Some (mkTailProc id Scanning o) => Some (set_tail t (mkTailProc id ScanEnd o) s)
      | _ => None
      end
  end.

Definition net_step (opens : string → bool) (s s' : Net) : Prop := ∃ a, net_act opens a s = Some s'.

(** The actions that the broker waits for once it has left its select: its own, and
    handlers that end a write. *)
Definition inner (a : net_action) : bool :=
  match a with Deliver | Delivered | Written _ | Stop => true | _ => false end.
Definition inner_step (opens : string → bool) (s s' : Net) : Prop := ∃ a, inner a = true ∧ net_act opens a s = Some s'.
