(* ===== verification/Http.v ===== *)
(** The part of [net/http] the handlers use: requests, and response writers, which
    freeze the headers when the status is written. *)
From S2P Require Import Prelude GoStrings World Logic.

Open Scope string_scope.
Open Scope list_scope.
#[local] Open Scope Z_scope.

(** A request: its method, the path and the names of the query of its URL, its
    [Content-type] header and the result of reading its body. *)
Record Request := mkRequest {
  rq_Method : string;
  rq_Path : string;
  rq_Query : list string;
  rq_ContentType : string;
  rq_Body : gores string;
}.

(** A response: the handler's headers, the status and headers as they were sent,
    the body, and the number of writes. *)
Record Response := mkResponse {
  rs_header : gmap string string;
  rs_sent : option (Z * gmap string string);
  rs_body : string;
  rs_writes : nat;
}.

Definition new_response : Response := mkResponse ∅ None "" 0.

(** A server with the response that a handler is writing. *)
Record Conn := mkConn { c_world : World; c_resp : Response }.

(** Go's name of a body's type ([http.DetectContentType]), and the writes that
    fail because the client went away. *)
Class Network := {
  net_detect : string → string;
  net_write : nat → error;
}.

Definition StatusOK := 200.
Definition StatusCreated := 201.
Definition StatusNoContent := 204.
Definition StatusBadRequest := 400.
Definition StatusMethodNotAllowed := 405.
Definition StatusInternalServerError := 500.
Definition StatusServiceUnavailable := 503.

(** [w.Header().Set]. *)
Definition rs_SetHeader (k v : string) (r : Response) : Response :=
  mkResponse (<[k := v]> (rs_header r)) (rs_sent r) (rs_body r) (rs_writes r).

(** [w.WriteHeader]: the headers are those of this moment; a second call does
    nothing. *)
Definition rs_WriteHeader (code : Z) (r : Response) : Response :=
  match rs_sent r with
  | Some _ => r
  | None => mkResponse (rs_header r) (Some (code, rs_header r)) (rs_body r) (rs_writes r)
  end.

(** [w.Write]: it sends the status 200 when none was sent; the first bytes
    determine the content type when the sent headers have none. *)
Definition with_type `{Network} (data : string) (h : gmap string string) : gmap string string :=
  match h !! "Content-Type" with
  | Some _ => h
  | None => if decide (data = "") then h else <["Content-Type" := net_detect data]> h
  end.

Definition rs_Write `{Network} (data : string) (r : Response) : error * Response :=
  let r := rs_WriteHeader StatusOK r in
  match net_write (rs_writes r) with
  | Some e => (Some e, mkResponse (rs_header r) (rs_sent r) (rs_body r) (S (rs_writes r)))
  | None =>
      let sent := if decide (rs_body r = "")
                  then (λ ch : Z * gmap string string, (ch.1, with_type data ch.2)) <$> rs_sent r
                  else rs_sent r in
      (None, mkResponse (rs_header r) sent (rs_body r +:+ data) (S (rs_writes r)))
  end.

(** The status and headers that the client sees; a handler that wrote nothing
    sends 200. *)
Definition rs_result (r : Response) : Z * gmap string string := default (StatusOK, rs_header r) (rs_sent r).
Definition rs_status (r : Response) : Z := (rs_result r).1.
Definition rs_content_type (r : Response) : option string := (rs_result r).2 !! "Content-Type".

Section conn.
Context {N : Network}.

Definition on_resp (f : Response → Response) : M Conn () := modify (λ c, mkConn (c_world c) (f (c_resp c))).
Definition lift {A} (m : M World A) : M Conn A :=
  λ c, let '(a, w) := m (c_world c) in (a, mkConn w (c_resp c)).

Definition SetHeader (k v : string) : M Conn () := on_resp (rs_SetHeader k v).
Definition WriteHeader (code : Z) : M Conn () := on_resp (rs_WriteHeader code).
Definition WriteBody (data : string) : M Conn error :=
  λ c, let '(e, r) := rs_Write data (c_resp c) in (e, mkConn (c_world c) r).

(** [http.Error]. *)
Definition newline : string := String (Ascii.ascii_of_nat 10) "".
Definition HttpError (msg : string) (code : Z) : M Conn () :=
  SetHeader "Content-Type" "text/plain; charset=utf-8";;
  SetHeader "X-Content-Type-Options" "nosniff";;
  WriteHeader code;;
  _ ← WriteBody (msg +:+ newline);
  mret ().

(** ** Responses step by step *)

Lemma lift_run {A} (m : M World A) c : lift m c = ((m (c_world c)).1, mkConn (m (c_world c)).2 (c_resp c)).
Proof. unfold lift. by destruct (m (c_world c)). Qed.

Lemma rs_status_Write data r :
  rs_status (rs_Write data r).2 = match rs_sent r with Some (code, _) => code | None => StatusOK end.
Proof.
  unfold rs_Write, rs_status, rs_result, rs_WriteHeader.
  destruct r as [h [[code hs]|] b n]; simpl; destruct (net_write n); simpl; try done; by case_decide.
Qed.

(** The status is decided by the first call that writes one. *)
Lemma rs_status_WriteHeader code r :
  rs_status (rs_WriteHeader code r) = match rs_sent r with Some (c, _) => c | None => code end.
Proof. unfold rs_status, rs_result, rs_WriteHeader. by destruct r as [h [[c hs]|] b n]. Qed.

Lemma HttpError_status msg code w :
  rs_status (c_resp (HttpError msg code (mkConn w new_response)).2) = code.
Proof.
  unfold HttpError. rewrite !bind_run. cbn [SetHeader WriteHeader on_resp modify snd fst].
  unfold WriteBody. cbn [c_resp c_world].
  set (r := rs_WriteHeader _ _). pose proof (rs_status_Write (msg +:+ newline) r) as Hs.
  by destruct (rs_Write (msg +:+ newline) r) as [e r'].
Qed.

Lemma HttpError_world msg code c : c_world (HttpError msg code c).2 = c_world c.
Proof.
  unfold HttpError. rewrite !bind_run. cbn [SetHeader WriteHeader on_resp modify snd fst].
  unfold WriteBody. cbn [c_resp c_world]. by destruct (rs_Write _ _) as [e r'].
Qed.
End conn.
