(* ===== verification/Server.v ===== *)
(** cmd/mistryd/server.go: the HTTP handlers, the listings of projects and jobs, the
    clean-up at start-up and the rebuilding of images; and the set-up of
    cmd/mistryd/main.go. *)
From S2P Require Import Prelude GoStrings Paths World FSFacts Logic Types Filesystem Config Job Metrics Queues Worker Http.

Open Scope string_scope.
Open Scope list_scope.
#[local] Open Scope Z_scope.

(** Go's zero [time.Time], in nanoseconds since 1970. *)
Definition zero_time : Z := -62135596800 * 1000000000.

(** ** Jobs as JSON *)

(** What [Job.MarshalJSON] hands to the encoder. *)
Record JobView := mkJobView {
  jv_id : string;
  jv_project : string;
  jv_startedAt : string;
  jv_buildInfo : BuildInfo;
  jv_state : string;
}.

(** [time.Time.Format] and [time.Parse] with the layout [DateFmt]; the encodings of
    a list of jobs, whose elements are addressable, so that [Job.MarshalJSON] is
    called for each; of a job that is not, which the encoder takes as a plain
    struct; and of a pointer to a build info. *)
Class JobJSON := {
  time_Format : Z → string;
  time_Parse : string → gores Z;
  json_views : list JobView → gores string;
  json_struct : Job → gores string;
  json_info : BuildInfo → gores string;
  json_request : string → gores JobRequest;
}.

Section jobs_json.
Context {JJ : JobJSON}.

(** [Job.MarshalJSON], as the value it encodes. *)
Definition Job_MarshalJSON (j : Job) : JobView :=
  mkJobView (j_ID j) (j_Project j) (time_Format (j_StartedAt j)) (j_BuildInfo j) (j_State j).

(** The fields that [Job.UnmarshalJSON] sets. *)
Definition Job_UnmarshalJSON (v : JobView) (j : Job) : gores Job :=
  match time_Parse (jv_startedAt v) with
  | Err e => Err e
  | Ok t =>
      Ok {| j_ID := jv_id v; j_Project := jv_project v; j_Params := j_Params j; j_Group := j_Group j;
            j_Rebuild := j_Rebuild j; j_RootBuildPath := j_RootBuildPath j;
            j_PendingBuildPath := j_PendingBuildPath j; j_ReadyBuildPath := j_ReadyBuildPath j;
            j_LatestBuildPath := j_LatestBuildPath j; j_ReadyDataPath := j_ReadyDataPath j;
            j_ProjectPath := j_ProjectPath j; j_BuildLogPath := j_BuildLogPath j;
            j_BuildInfoFilePath := j_BuildInfoFilePath j; j_Image := j_Image j;
            j_ImageTar := j_ImageTar j; j_Container := j_Container j; j_StartedAt := t;
            j_BuildInfo := jv_buildInfo v; j_State := jv_state v |}
  end.

(** [json.Marshal] of a [*BuildInfo]. *)
Definition marshal_info (bi : option BuildInfo) : gores string :=
  match bi with Some bi => json_info bi | None => Ok "null" end.
End jobs_json.

(** A [Job] value with the given fields, and zero in the others. *)
Definition listed_job (id project state : string) (started : Z) (bi : BuildInfo) : Job :=
  {| j_ID := id; j_Project := project; j_Params := ∅; j_Group := ""; j_Rebuild := false;
     j_RootBuildPath := ""; j_PendingBuildPath := ""; j_ReadyBuildPath := "";
     j_LatestBuildPath := ""; j_ReadyDataPath := ""; j_ProjectPath := ""; j_BuildLogPath := "";
     j_BuildInfoFilePath := ""; j_Image := ""; j_ImageTar := ""; j_Container := "";
     j_StartedAt := started; j_BuildInfo := bi; j_State := state |}.

(** The text of a request in a message ([%v]). *)
Definition show_params (p : Params) : string :=
  "map[" +:+ GoStrings.Join " "
    ((λ k, k +:+ ":" +:+ default "" (p !! k)) <$> sort_strings (map_to_list p).*1) +:+ "]".
Definition show_request (r : JobRequest) : string :=
  "{" +:+ jr_Project r +:+ " " +:+ show_params (jr_Params r) +:+ " " +:+ jr_Group r +:+ " " +:+
  (if jr_Rebuild r then "true" else "false") +:+ "}".

(** What the server asks of its worker pool: an accepted job comes with the
    computation that waits for its result. *)
Definition Future := M World (option BuildInfo * error).
Class WorkerPool := { SendWork : Job → M World (gores Future) }.

(** The page of a job: reading, parsing and executing its template. *)
Class Templates := {
  tmpl_open : gores string;
  tmpl_read : string → gores string;
  tmpl_parse : string → gores string;
  tmpl_execute : string → Job → gores string;
}.

(** ** Listings *)

Section listings.
Context {E : Env} {J : JSON}.
Variable cfg : Config.

(** The loop of [getProjects]. *)
Fixpoint projects_loop (folders : list (string * node)) (projects : list string) : M World (gores (list string)) :=
  match folders with
  | [] => mret (Ok projects)
  | (name, n) :: rest =>
      if is_dir n then
        st ← Stat (Join [cfg_ProjectsPath cfg; name; "Dockerfile"]);
        match st with
        | Ok _ => projects_loop rest (projects ++ [name])
        | Err e => if IsNotExist e then projects_loop rest projects else mret (Err e)
        end
      else projects_loop rest projects
  end.

(** [getProjects]. *)
Definition getProjects : M World (gores (list string)) :=
  folders ←? ReadDir (cfg_ProjectsPath cfg);
  projects_loop folders [].

(** The closure [getJob] of [getJobs]. *)
Definition getJob (path jobID project state : string) : M World (gores Job) :=
  bi ←? ReadJobBuildInfo (Join [path; jobID]) false;
  mret (Ok (listed_job jobID project state (bi_StartedAt bi) bi)).

(** Its use on the entries of one directory. *)
Fixpoint jobs_of (path project state : string) (entries : list (string * node)) : M World (gores (list Job)) :=
  match entries with
  | [] => mret (Ok [])
  | (name, _) :: rest =>
      j ← getJob path name project state;
      match j with
      | Err e => mret (Err (ErrString ("cannot find job " +:+ name +:+ "; " +:+ Error e)))
      | Ok j => js ←? jobs_of path project state rest; mret (Ok (j :: js))
      end
  end.

(** Whether a path exists, for [getJobs]: an error other than a missing file stops
    it. *)
Definition check_exists (path what : string) : M World (gores bool) :=
  st ← Stat path;
  mret (match st with
        | Ok _ => Ok true
        | Err e => if IsNotExist e then Ok false
                   else Err (ErrString ("cannot check if " +:+ what +:+ " path exists; " +:+ Error e))
        end).

(** Reading the directory if it exists; otherwise the entries of the variable stay
    as they were. *)
Definition scan_if (here : bool) (path msg : string) (old : list (string * node)) :
    M World (gores (list (string * node))) :=
  if here then
    l ← ReadDir path;
    mret (match l with Ok l => Ok l | Err e => Err (ErrString (msg +:+ Error e)) end)
  else mret (Ok old).

(** The loop of [getJobs] over the projects; [pendingJobs] and [readyJobs] are
    declared outside it. *)
Fixpoint getJobs_loop (projects : list string) (pendingJobs readyJobs : list (string * node)) (jobs : list Job) :
    M World (gores (list Job)) :=
  match projects with
  | [] => mret (Ok jobs)
  | p :: rest =>
      let pendingPath := Join [cfg_BuildPath cfg; p; "pending"] in
      let readyPath := Join [cfg_BuildPath cfg; p; "ready"] in
      pendingExists ←? check_exists pendingPath "pending";
      readyExists ←? check_exists readyPath "ready";
      pendingJobs ←? scan_if pendingExists pendingPath
        ("cannot scan pending jobs of project " +:+ p +:+ "; ") pendingJobs;
      readyJobs ←? scan_if readyExists readyPath
        ("cannot scan ready jobs of project " +:+ p +:+ "; ") readyJobs;
      l1 ←? jobs_of pendingPath p "pending" pendingJobs;
      l2 ←? jobs_of readyPath p "ready" readyJobs;
      getJobs_loop rest pendingJobs readyJobs (jobs ++ l1 ++ l2)
  end.

(** [Server.getJobs]. *)
Definition getJobs : M World (gores (list Job)) :=
  folders ← ReadDir (cfg_BuildPath cfg);
  match folders with
  | Err e => mret (Err (ErrString ("cannot scan projects; " +:+ Error e)))
  | Ok folders => getJobs_loop (filter (λ nd, is_dir nd.2 = true) folders).*1 [] [] []
  end.

(** [sort.Slice] with the order of [HandleIndex]: later jobs first.  Go leaves the
    order of equal times open. *)
Definition later (a b : Job) : Prop := j_StartedAt b ≤ j_StartedAt a.
#[global] Instance later_dec : RelDecision later.
Proof. intros a b. unfold later. apply _. Defined.
Definition sort_jobs (l : list Job) : list Job := merge_sort later l.

(** ** Start-up *)

(** The inner loop of [PruneZombieBuilds]. *)
Fixpoint prune_builds (project pendingPath : string) (builds : list (string * node)) : M World error :=
  match builds with
  | [] => mret None
  | (name, _) :: rest =>
      err ← fs_Remove (cfg_FileSystem cfg) (Join [pendingPath; name]);
      match err with
      | Some _ => mret (Some (ErrString ("Error pruning zombie build '" +:+ name +:+ "' of project '" +:+ project +:+ "'")))
      | None => prune_builds project pendingPath rest
      end
  end.

(** The loop over the projects: one whose pending directory cannot be read is
    skipped. *)
Fixpoint prune_projects (projects : list string) : M World error :=
  match projects with
  | [] => mret None
  | p :: rest =>
      let pendingPath := Join [cfg_BuildPath cfg; p; "pending"] in
      builds ← ReadDir pendingPath;
      match builds with
      | Err _ => prune_projects rest
      | Ok builds => prune_builds p pendingPath builds ;? prune_projects rest
      end
  end.

(** [PruneZombieBuilds]. *)
Definition PruneZombieBuilds : M World error :=
  projects ← getProjects;
  match projects with
  | Err e => mret (Some e)
  | Ok projects => prune_projects projects
  end.

(** [SetUp] of cmd/mistryd/main.go. *)
Definition SetUp : M World error := PruneZombieBuilds.
End listings.

(** [parseConfigFromCli] of cmd/mistryd/main.go, on the values of its three flags. *)
Definition parseConfigFromCli {E : Env} (getuid num_cpu : Z) (decode : string → Config → gores Config)
    (filesystem config addr : string) : M World (gores Config) :=
  match FSGet Registry filesystem with
  | Err e => mret (Err e)
  | Ok fs =>
      f ← ReadFile config;
      match f with
      | Err e => mret (Err (ErrString ("cannot parse configuration; " +:+ Error e)))
      | Ok f => ParseConfig getuid num_cpu decode addr fs f
      end
  end.

(** ** Handlers *)

Section handlers.
Context {E : Env} {J : JSON} {T : TarFormat} {H : Sha256} {JJ : JobJSON} {N : Network} {P : WorkerPool}
  {TM : Templates}.
Variable cfg : Config.

(** [Server.writeWorkResult]. *)
Definition writeWorkResult (j : Job) (r : option BuildInfo * error) : M Conn () :=
  match r.2 with
  | Some e => HttpError ("Error building " +:+ Job_String j +:+ ": " +:+ Error e) StatusInternalServerError
  | None =>
      WriteHeader StatusCreated;;
      SetHeader "Content-Type" "application/json";;
      _ ← WriteBody (match marshal_info r.1 with Ok resp => resp | Err _ => "" end);
      mret ()
  end.

(** [Server.HandleNewJob]. *)
Definition HandleNewJob (r : Request) : M Conn () :=
  if decide (rq_Method r ≠ "POST") then
    HttpError ("Expected POST, got " +:+ rq_Method r) StatusMethodNotAllowed
  else match rq_Body r with
  | Err e => HttpError ("Error reading request body: " +:+ Error e) StatusBadRequest
  | Ok body =>
      match json_request body with
      | Err e => HttpError ("Error unmarshalling body '" +:+ body +:+ "' to Job: " +:+ Error e) StatusBadRequest
      | Ok jr =>
          j ← lift (NewJob (jr_Project jr) (jr_Params jr) (jr_Group jr) (Some cfg));
          match j with
          | Err e => HttpError ("Error creating new job " +:+ show_request jr +:+ ": " +:+ Error e)
                       StatusInternalServerError
          | Ok j =>
              let j := set_Rebuild (jr_Rebuild jr) j in
              future ← lift (SendWork j);
              match future with
              | Err _ => WriteHeader StatusServiceUnavailable
              | Ok wait =>
                  if decide ("async" ∈ rq_Query r) then WriteHeader StatusCreated
                  else res ← lift wait; writeWorkResult j res
              end
          end
      end
  end.

(** [Server.HandleIndex]. *)
Definition HandleIndex (r : Request) : M Conn () :=
  if decide (rq_Method r ≠ "GET") then
    HttpError ("Expected GET, got " +:+ rq_Method r) StatusMethodNotAllowed
  else
    jobs ← lift (getJobs cfg);
    match jobs with
    | Err _ => WriteHeader StatusInternalServerError
    | Ok jobs =>
        match json_views (Job_MarshalJSON <$> sort_jobs jobs) with
        | Err _ => WriteHeader StatusInternalServerError
        | Ok resp =>
            WriteHeader StatusOK;;
            SetHeader "Content-Type" "application/json";;
            err ← WriteBody resp;
            match err with
            | Some _ => WriteHeader StatusInternalServerError
            | None => mret ()
            end
        end
    end.

(** The project and ID in a path of four parts. *)
Definition path_parts (p : string) : option (string * string) :=
  match Split slash p with
  | [_; _; project; id] => Some (project, id)
  | _ => None
  end.

(** [Server.HandleShowJob]. *)
Definition HandleShowJob (r : Request) : M Conn () :=
  if decide (rq_Method r ≠ "GET") then
    HttpError ("Expected GET, got " +:+ rq_Method r) StatusMethodNotAllowed
  else match path_parts (rq_Path r) with
  | None => WriteHeader StatusBadRequest
  | Some (project, id) =>
      state ← lift (GetState (cfg_BuildPath cfg) project id);
      match state with
      | Err _ => WriteHeader StatusInternalServerError
      | Ok state =>
          buildInfo ← lift (ReadJobBuildInfo (Join [cfg_BuildPath cfg; project; state; id]) true);
          match buildInfo with
          | Err _ => WriteHeader StatusInternalServerError
          | Ok buildInfo =>
              let j := listed_job id project state zero_time buildInfo in
              if decide (rq_ContentType r = "application/json") then
                match json_struct j with
                | Err _ => WriteHeader StatusInternalServerError
                | Ok jData =>
                    SetHeader "Content-Type" "application/json";;
                    _ ← WriteBody jData;
                    mret ()
                end
              else
                match (match tmpl_open with
                       | Err e => Err e
                       | Ok f => match tmpl_read f with
                                 | Err e => Err e
                                 | Ok body => match tmpl_parse body with
                                              | Err e => Err e
                                              | Ok tmpl => tmpl_execute tmpl j
                                              end
                                 end
                       end) with
                | Err _ => WriteHeader StatusInternalServerError
                | Ok page =>
                    err ← WriteBody page;
                    match err with
                    | Some _ => WriteHeader StatusInternalServerError
                    | None => mret ()
                    end
                end
          end
      end
  end.

(** The messages that [Server.HandleServerPush] writes until its channel closes. *)
Fixpoint push_messages (msgs : list string) : M Conn () :=
  match msgs with
  | [] => mret ()
  | msg :: rest => _ ← WriteBody ("data: " +:+ msg +:+ newline +:+ newline); push_messages rest
  end.

(** [Server.HandleServerPush]: the client it registers with the broker, if any.
    [flusher] tells whether the connection can stream, and [msgs] are the messages
    it receives from the broker before its channel is closed. *)
Definition HandleServerPush (flusher : bool) (msgs : list string) (r : Request) :
    M Conn (option (string * string)) :=
  if decide (rq_Method r ≠ "GET") then
    HttpError ("Expected GET, got " +:+ rq_Method r) StatusMethodNotAllowed;; mret None
  else match path_parts (rq_Path r) with
  | None => WriteHeader StatusBadRequest;; mret None
  | Some (project, id) =>
      state ← lift (GetState (cfg_BuildPath cfg) project id);
      match state with
      | Err _ => WriteHeader StatusInternalServerError;; mret None
      | Ok state =>
          if decide (state ≠ "pending") then WriteHeader StatusNoContent;; mret None
          else if flusher then
            SetHeader "Content-Type" "text/event-stream";;
            SetHeader "Cache-Control" "no-cache";;
            SetHeader "Connection" "keep-alive";;
            SetHeader "Access-Control-Allow-Origin" "*";;
            let jPath := Join [cfg_BuildPath cfg; project; state; id] in
            push_messages msgs;;
            mret (Some (id, Join [jPath; BuildLogFname]))
          else HttpError "Streaming unsupported!" StatusInternalServerError;; mret None
      end
  end.
End handlers.

(** ** Rebuilding images *)

(** [pruneResult] and [RebuildResult]. *)
Record pruneResult := mkPruneResult {
  prunedImages : Z;
  prunedContainers : Z;
  reclaimedSpace : Z;
}.
Record RebuildResult := mkRebuildResult {
  rr_successful : Z;
  rr_failed : list string;
  rr_prune : pruneResult;
}.

Definition no_prune : pruneResult := mkPruneResult 0 0 0.

(** [RebuildResult.String]; [HumanSize] is that of go-units. *)
Definition RebuildResult_String (HumanSize : Z → string) (r : RebuildResult) : string :=
  let failedNames := if decide (rr_failed r = []) then ""
                     else ", Failed names: " +:+ GoStrings.Join ", " (rr_failed r) in
  "Rebuilt: " +:+ itoa (rr_successful r) +:+ ", Pruned images: " +:+ itoa (prunedImages (rr_prune r)) +:+
  ", Pruned containers: " +:+ itoa (prunedContainers (rr_prune r)) +:+
  ", Reclaimed: " +:+ HumanSize (reclaimedSpace (rr_prune r)) +:+
  ", Failed: " +:+ itoa (Z.of_nat (length (rr_failed r))) +:+ failedNames.

Section rebuild.
Context {E : Env} {T : TarFormat} {H : Sha256} {D : Docker}.
Variable cfg : Config.
(** Docker's prune calls: what was deleted, and the space reclaimed. *)
Variable containers_prune images_prune : nat → gores (list string * Z).
(** The pipe to the logger, when verbose. *)
Variable pipe : string → M World error.

(** [dockerPruneUnused]; sizes are unsigned 64-bit integers. *)
Definition dockerPruneUnused : M World (pruneResult * error) :=
  cr ← docker containers_prune;
  match cr with
  | Err e => mret (no_prune, Some e)
  | Ok cr =>
      ir ← docker images_prune;
      match ir with
      | Err e => mret (no_prune, Some e)
      | Ok ir => mret (mkPruneResult (Z.of_nat (length ir.1)) (Z.of_nat (length cr.1))
                         ((ir.2 + cr.2) mod 2 ^ 64), None)
      end
  end.

(** The loop of [RebuildImages]. *)
Fixpoint rebuild_loop (stopErr verbose : bool) (projects : list string) (r : RebuildResult) :
    M World (RebuildResult * error) :=
  match projects with
  | [] => mret (r, None)
  | project :: rest =>
      let fail e :=
        let r := mkRebuildResult (rr_successful r) (rr_failed r ++ [project]) (rr_prune r) in
        if stopErr then mret (r, Some e) else rebuild_loop stopErr verbose rest r in
      j ← NewJob project ∅ "" (Some cfg);
      match j with
      | Err e => fail e
      | Ok j =>
          buildErr ← BuildImage j (cfg_UID cfg) (if verbose then pipe else λ _, mret None) true true;
          match buildErr with
          | Some e => fail e
          | None => rebuild_loop stopErr verbose rest
                      (mkRebuildResult (rr_successful r + 1) (rr_failed r) (rr_prune r))
          end
      end
  end.

(** [RebuildImages]. *)
Definition RebuildImages (projects : list string) (stopErr verbose : bool) : M World (RebuildResult * error) :=
  let r := mkRebuildResult 0 [] no_prune in
  projects ← (if decide (projects = []) then getProjects cfg else mret (Ok projects));
  match projects with
  | Err e => mret (r, Some e)
  | Ok projects =>
      err ← docker d_NewEnvClient;
      match err with
      | Some e => mret (r, Some e)
      | None =>
          '(r, err) ← rebuild_loop stopErr verbose projects r;
          match err with
          | Some e => mret (r, Some e)
          | None =>
              '(p, err) ← dockerPruneUnused;
              mret (mkRebuildResult (rr_successful r) (rr_failed r) p, err)
          end
      end
  end.

(** The action of the command [rebuild] of cmd/mistryd/main.go: it fails when a
    project failed. *)
Definition rebuild_action (HumanSize : Z → string) (projects : list string) (failFast verbose : bool) : M World error :=
  '(r, err) ← RebuildImages projects failFast verbose;
  mret (match err with
        | Some e => Some e
        | None => if decide (rr_failed r = []) then None
                  else Some (ErrString (RebuildResult_String HumanSize r))
        end).
End rebuild.
