(* ===== verification/Pool.v ===== *)
(** cmd/mistryd/worker_pool.go: the pool of workers, as a machine whose actions are
    the steps of its goroutines; a run is any sequence of actions. *)
From S2P Require Import Prelude GoStrings World Types Job.

Open Scope list_scope.

(** [WorkResult]. *)
Record WorkResult := mkWorkResult {
  wr_BuildInfo : option BuildInfo;
  wr_Err : error;
}.

(** [workItem]; its result channel is known by a number of its own. *)
Record workItem := mkWorkItem {
  wi_job : Job;
  wi_result : nat;
}.

(** A worker waits for an item, runs [Work] on one, has sent its result and is
    about to close the channel, or has left its loop. *)
Inductive worker :=
| Waiting
| Running (item : workItem)
| Sent (item : workItem)
| Exited.

(** A result channel, of capacity 1. *)
Record chan := mkChan {
  ch_val : option WorkResult;
  ch_closed : bool;
}.

(** [WorkerPool], with its goroutines and the result channels made so far; channel
    [n] is the [n]-th one. *)
Record Pool := mkPool {
  p_backlog : nat;
  p_queue : list workItem;
  p_closed : bool;
  p_workers : list worker;
  p_chans : list chan;
}.

(** [NewWorkerPool]: making a channel panics when its size is negative or above the
    largest one the run time can allocate, [chan_max]; a negative concurrency starts
    no worker. *)
Definition NewWorkerPool (chan_max concurrency backlog : Z) : option Pool :=
  if decide (backlog < 0 ∨ chan_max < backlog)%Z then None
  else Some (mkPool (Z.to_nat backlog) [] false (replicate (Z.to_nat concurrency) Waiting) []).

(** The actions: a call of [SendWork], which a worker that waits may serve
    directly; a worker that takes an item from the queue, ends its run of [Work],
    closes the result channel, leaves its loop; [Stop] and [Wait]. *)
Inductive action :=
| Send (j : Job)
| Handoff (j : Job) (i : nat)
| Take (i : nat)
| Finish (i : nat) (r : WorkResult)
| Close (i : nat)
| Exit (i : nat)
| Stop
| Wait (n : nat).

(** What can be observed of an action. *)
Inductive event :=
| Accepted (n : nat)
| Refused
| Started (n : nat)
| Finished (n : nat) (r : WorkResult)
| Received (n : nat) (r : WorkResult)
| Left (i : nat)
| Stopped
| Panic.

Definition set_worker (i : nat) (w : worker) (p : Pool) : Pool :=
  mkPool (p_backlog p) (p_queue p) (p_closed p) (<[i := w]> (p_workers p)) (p_chans p).
Definition set_queue (q : list workItem) (p : Pool) : Pool :=
  mkPool (p_backlog p) q (p_closed p) (p_workers p) (p_chans p).
Definition set_chan (n : nat) (c : chan) (p : Pool) : Pool :=
  mkPool (p_backlog p) (p_queue p) (p_closed p) (p_workers p) (<[n := c]> (p_chans p)).
Definition new_chan (p : Pool) : Pool :=
  mkPool (p_backlog p) (p_queue p) (p_closed p) (p_workers p) (p_chans p ++ [mkChan None false]).
Definition close_queue (p : Pool) : Pool :=
  mkPool (p_backlog p) (p_queue p) true (p_workers p) (p_chans p).

(** [WorkerPool.SendWork], through the queue: a full queue refuses, a closed one
    panics. *)
Definition send (j : Job) (p : Pool) : Pool * event :=
  let n := length (p_chans p) in
  let p1 := new_chan p in
  if p_closed p then (p1, Panic)
  else if decide (length (p_queue p) < p_backlog p)%nat
  then (set_queue (p_queue p ++ [mkWorkItem j n]) p1, Accepted n)
  else (p1, Refused).

(** [SendWork] when a worker is blocked on the empty queue: it gets the item. *)
Definition handoff (j : Job) (i : nat) (p : Pool) : option (Pool * list event) :=
  let n := length (p_chans p) in
  match p_closed p, p_queue p, p_workers p !! i with
  | false, [], Some Waiting => Some (set_worker i (Running (mkWorkItem j n)) (new_chan p), [Accepted n; Started n])
  | _, _, _ => None
  end.

(** The steps of function [work]: [range queue]; the send of the result, which
    panics when the channel has no room; [close]; and the end of the loop. *)
Definition take_item (i : nat) (p : Pool) : option (Pool * list event) :=
  match p_queue p, p_workers p !! i with
  | item :: rest, Some Waiting => Some (set_queue rest (set_worker i (Running item) p), [Started (wi_result item)])
  | _, _ => None
  end.

Definition finish (i : nat) (r : WorkResult) (p : Pool) : option (Pool * list event) :=
  match p_workers p !! i with
  | Some (Running item) =>
      match p_chans p !! wi_result item with
      | Some (mkChan None false) =>
          Some (set_worker i (Sent item) (set_chan (wi_result item) (mkChan (Some r) false) p),
                [Finished (wi_result item) r])
      | _ => Some (set_worker i Exited p, [Panic])
      end
  | _ => None
  end.

Definition close_result (i : nat) (p : Pool) : option (Pool * list event) :=
  match p_workers p !! i with
  | Some (Sent item) =>
      match p_chans p !! wi_result item with
      | Some (mkChan v false) => Some (set_worker i Waiting (set_chan (wi_result item) (mkChan v true) p), [])
      | _ => Some (set_worker i Exited p, [Panic])
      end
  | _ => None
  end.

Definition exit_loop (i : nat) (p : Pool) : option (Pool * list event) :=
  match p_closed p, p_queue p, p_workers p !! i with
  | true, [], Some Waiting => Some (set_worker i Exited p, [Left i])
  | _, _, _ => None
  end.

(** [WorkerPool.Stop], up to the wait for the workers; closing twice panics. *)
Definition stop (p : Pool) : Pool * event :=
  if p_closed p then (p, Panic) else (close_queue p, Stopped).

(** [FutureWorkResult.Wait]: it panics on a closed channel that was read before. *)
Definition wait (n : nat) (p : Pool) : option (Pool * list event) :=
  match p_chans p !! n with
  | Some (mkChan (Some r) c) => Some (set_chan n (mkChan None c) p, [Received n r])
  | Some (mkChan None true) => Some (p, [Panic])
  | _ => None
  end.

(** One action; [None] when it is not possible in this state. *)
Definition act (a : action) (p : Pool) : option (Pool * list event) :=
  match a with
  | Send j => let '(p', e) := send j p in Some (p', [e])
  | Handoff j i => handoff j i p
  | Take i => take_item i p
  | Finish i r => finish i r p
  | Close i => close_result i p
  | Exit i => exit_loop i p
  | Stop => let '(p', e) := stop p in Some (p', [e])
  | Wait n => wait n p
  end.

(** A run: the actions that are not possible are skipped. *)
Fixpoint run (l : list action) (p : Pool) : Pool * list event :=
  match l with
  | [] => (p, [])
  | a :: l =>
      match act a p with
      | Some (p', es) => let '(p'', es') := run l p' in (p'', es ++ es')
      | None => run l p
      end
  end.

(** ** What a run keeps *)

Definition accepted (es : list event) : list nat :=
  omap (λ e, match e with Accepted n => Some n | _ => None end) es.
Definition begun (es : list event) : list nat :=
  omap (λ e, match e with Started n => Some n | _ => None end) es.
Definition finished (es : list event) : list nat :=
  omap (λ e, match e with Finished n _ => Some n | _ => None end) es.
Definition received (es : list event) : list (nat * WorkResult) :=
  omap (λ e, match e with Received n r => Some (n, r) | _ => None end) es.
Definition produced (es : list event) : list (nat * WorkResult) :=
  omap (λ e, match e with Finished n r => Some (n, r) | _ => None end) es.

(** The items the workers hold: those whose result is still to be sent, and those
    whose channel is still to be closed. *)
Definition running (p : Pool) : list nat :=
  omap (λ w, match w with Running it => Some (wi_result it) | _ => None end) (p_workers p).
Definition sent (p : Pool) : list nat :=
  omap (λ w, match w with Sent it => Some (wi_result it) | _ => None end) (p_workers p).
Definition queued (p : Pool) : list nat := wi_result <$> p_queue p.

(** The actions of the workers. *)
Definition is_worker (a : action) : bool :=
  match a with Take _ | Finish _ _ | Close _ | Exit _ => true | _ => false end.

(** The counter of the pool's wait group: a worker's deferred [Done] runs when it
    leaves its loop. *)
Definition has_left (w : worker) : bool := match w with Exited => true | _ => false end.
Definition wg_count (p : Pool) : nat := length (filter (λ w, has_left w = false) (p_workers p)).

(** [WorkerPool.Stop] returns: the queue was closed, and [Wait] has nobody to wait for. *)
Definition stop_returns (p : Pool) : bool := p_closed p && bool_decide (wg_count p = 0%nat).
