(* ===== verification/Mux.v ===== *)
(** The part of [net/http]'s [ServeMux] (Go 1.15) that routes the server's requests:
    patterns are paths, a pattern with a trailing slash stands for all paths below
    it, the longest one wins, and paths that are not clean are redirected. *)
From S2P Require Import Prelude GoStrings Paths.

Open Scope string_scope.
Open Scope list_scope.

(** The string ends in a slash. *)
Fixpoint ends_slash (s : string) : bool :=
  match s with
  | "" => false
  | String c "" => bool_decide (c = slash)
  | String _ s => ends_slash s
  end.

Section mux.
Context {H : Type}.

(** [ServeMux]: all patterns, and those with a trailing slash, longest first. *)
Record ServeMux := mkMux {
  mx_m : gmap string H;
  mx_es : list (string * H);
}.

(** [NewServeMux]. *)
Definition NewServeMux : ServeMux := mkMux ∅ [].

(** [appendSorted]. *)
Fixpoint appendSorted (es : list (string * H)) (e : string * H) : list (string * H) :=
  match es with
  | [] => [e]
  | e' :: es' => if decide (String.length e'.1 < String.length e.1)%nat then e :: es else e' :: appendSorted es' e
  end.

(** [ServeMux.Handle]: it panics on an empty pattern and on one it has. *)
Definition mux_Handle (pattern : string) (h : H) (mux : ServeMux) : option ServeMux :=
  if decide (pattern = "") then None
  else match mx_m mux !! pattern with
       | Some _ => None
       | None => Some (mkMux (<[pattern := h]> (mx_m mux))
                   (if ends_slash pattern then appendSorted (mx_es mux) (pattern, h) else mx_es mux))
       end.

(** [ServeMux.match]. *)
Definition mux_match (path : string) (mux : ServeMux) : option H :=
  match mx_m mux !! path with
  | Some h => Some h
  | None => snd <$> head (filter (λ e, HasPrefix path e.1 = true) (mx_es mux))
  end.

(** [cleanPath]: the clean path, with the trailing slash of the path. *)
Definition cleanPath (p : string) : string :=
  if decide (p = "") then "/"
  else
    let p := if rooted p then p else "/" +:+ p in
    let np := Clean p in
    if ends_slash p && bool_decide (np ≠ "/") then np +:+ "/" else np.

(** [shouldRedirectRLocked]: the path is not registered, but it is with a slash. *)
Definition shouldRedirect (path : string) (mux : ServeMux) : bool :=
  match mx_m mux !! path with
  | Some _ => false
  | None =>
      if decide (path = "") then false
      else match mx_m mux !! (path +:+ "/") with Some _ => negb (ends_slash path) | None => false end
  end.

(** [ServeMux.Handler]: to a handler, to another path, or to none.  No pattern names
    a host, so that the request's host has no part in it. *)
Inductive route :=
| To (h : H)
| Moved (path : string)
| Nowhere.

Definition mux_handler (path : string) (mux : ServeMux) : route :=
  match mux_match path mux with Some h => To h | None => Nowhere end.

Definition mux_Handler (method path : string) (mux : ServeMux) : route :=
  if decide (method = "CONNECT") then
    if shouldRedirect path mux then Moved (path +:+ "/") else mux_handler path mux
  else
    let path' := cleanPath path in
    if shouldRedirect path' mux then Moved (path' +:+ "/")
    else if decide (path' ≠ path) then Moved path'
    else mux_handler path mux.
End mux.
Arguments ServeMux : clear implicits.
Arguments route : clear implicits.

(** ** Clean paths *)

Lemma ends_slash_app a b : b ≠ "" → ends_slash (a +:+ b) = ends_slash b.
Proof.
  intros Hb. induction a as [|c a IH]; [done|]. rewrite str_app_cons. simpl.
  destruct (a +:+ b) eqn:E; [|exact IH]. by destruct a, b.
Qed.

Lemma Split_elements s : Forall (λ c, Contains c slash = false) (Split slash s).
Proof.
  induction s as [|d s IH]; simpl; [by repeat constructor|]. case_decide as Hd; [by constructor|].
  destruct (Split slash s) as [|h t] eqn:E; [by destruct (Split_not_nil slash s)|].
  inversion IH; subst. constructor; [|done]. simpl. by rewrite bool_decide_false.
Qed.

Lemma Split_Join cs : cs ≠ [] → Forall (λ c, Contains c slash = false) cs → Split slash (GoStrings.Join "/" cs) = cs.
Proof.
  intros Hne H. induction H as [|c cs Hc Hcs IH]; [done|]. destruct cs as [|d cs]; [by apply Split_none|].
  change (GoStrings.Join "/" (c :: d :: cs)) with (c +:+ String slash (GoStrings.Join "/" (d :: cs))).
  rewrite Split_app_sep, Split_none, IH by done. done.
Qed.

Lemma plain_no_slash cs : Forall plain cs → Forall (λ c, Contains c slash = false) cs.
Proof. intros H. eapply Forall_impl; [exact H|]. by intros c (_ & _ & _ & ?). Qed.

(** The parts of a clean path. *)
Lemma Split_abs_path cs : Forall plain cs → cs ≠ [] → Split slash (abs_path cs) = "" :: cs.
Proof.
  intros H Hne. unfold abs_path, render.
  change ("/" +:+ GoStrings.Join "/" cs) with ("" +:+ String slash (GoStrings.Join "/" cs)).
  rewrite Split_app_sep, Split_Join by auto using plain_no_slash. done.
Qed.

Lemma Split_abs_path_slash cs : Forall plain cs → cs ≠ [] → Split slash (abs_path cs +:+ "/") = "" :: cs ++ [""].
Proof. intros H Hne. change "/" with (String slash ""). by rewrite Split_app_sep, Split_abs_path. Qed.

Lemma clean_fold_rooted l st :
  Forall (λ c, Contains c slash = false) l → Forall plain st → Forall plain (foldl (clean_step true) st l).
Proof.
  intros Hl. revert st. induction Hl as [|c l Hc _ IH]; intros st Hst; [done|]. simpl. apply IH.
  unfold clean_step. repeat case_decide; try done.
  - destruct Hst as [|d st Hd Hst]; [by constructor|]. case_decide as Hdd; [|done]. by destruct Hd as (_ & _ & ? & _).
  - by constructor.
Qed.

Lemma Clean_rooted s : rooted s = true → ∃ cs, Forall plain cs ∧ Clean s = abs_path cs.
Proof.
  intros Hr. unfold Clean. rewrite Hr. eexists. split; [|done]. apply Forall_reverse.
  apply clean_fold_rooted; [apply Split_elements|constructor].
Qed.

Lemma ends_slash_plain c : Contains c slash = false → ends_slash c = false.
Proof.
  induction c as [|d c IH]; [done|]. simpl. intros [Hd Hc]%orb_false_iff. destruct c; [|by apply IH].
  case_bool_decide as Hd'; case_bool_decide; congruence.
Qed.

Lemma ends_slash_abs_path cs : Forall plain cs → cs ≠ [] → ends_slash (abs_path cs) = false.
Proof.
  intros H Hne. unfold abs_path, render. rewrite ends_slash_app.
  - induction H as [|c cs Hc Hcs IH]; [done|]. destruct Hc as (Hc & _ & _ & Hn).
    destruct cs as [|d cs]; [by apply ends_slash_plain|].
    change (GoStrings.Join "/" (c :: d :: cs)) with (c +:+ ("/" +:+ GoStrings.Join "/" (d :: cs))).
    rewrite ends_slash_app by done. rewrite ends_slash_app; [by apply IH|]. inversion Hcs as [|? ? (Hd & _) _]. subst.
    destruct cs; [done|]. simpl. by destruct d.
  - destruct H as [|c cs (Hc & _) _]; [done|]. destruct cs; [done|]. simpl. by destruct c.
Qed.

Lemma Clean_abs_path cs : Forall plain cs → Clean (abs_path cs) = abs_path cs.
Proof. intros H. apply Clean_abs; [apply rooted_abs_path|by apply comps_abs_path|done]. Qed.

Lemma abs_path_root cs : Forall plain cs → abs_path cs = "/" → cs = [].
Proof. intros H Hcs. by apply (abs_path_inj cs []). Qed.

(** A clean path stays what it is. *)
Lemma cleanPath_abs_path cs : Forall plain cs → cleanPath (abs_path cs) = abs_path cs.
Proof.
  intros H. unfold cleanPath. rewrite decide_False by (by destruct cs).
  rewrite rooted_abs_path, Clean_abs_path by done. destruct cs as [|c cs]; [done|].
  by rewrite ends_slash_abs_path.
Qed.

(** What [cleanPath] makes: plain components, perhaps with a slash at the end. *)
Lemma cleanPath_shape p : ∃ cs, Forall plain cs ∧ (cleanPath p = abs_path cs ∨ cs ≠ [] ∧ cleanPath p = abs_path cs +:+ "/").
Proof.
  unfold cleanPath. case_decide as Hp; [exists []; by auto|].
  set (q := if rooted p then p else "/" +:+ p).
  assert (Hr : rooted q = true) by (unfold q; destruct (rooted p) eqn:Hr; [done|apply (HasPrefix_app "/")]).
  destruct (Clean_rooted q Hr) as (cs & Hcs & ->). exists cs. split; [done|].
  destruct (ends_slash q && _) eqn:He; [|by left]. right. split; [|done].
  apply andb_true_iff in He as [_ He%bool_decide_eq_true]. by intros ->.
Qed.

Lemma cleanPath_abs_path_slash cs : Forall plain cs → cs ≠ [] → cleanPath (abs_path cs +:+ "/") = abs_path cs +:+ "/".
Proof.
  intros H Hne. unfold cleanPath. rewrite decide_False by (by destruct cs).
  assert (Hr : rooted (abs_path cs +:+ "/") = true) by apply rooted_app, rooted_abs_path.
  rewrite Hr, ends_slash_app by done. rewrite (Clean_abs _ cs); [|done| |done].
  - cbn [ends_slash]. rewrite bool_decide_true by done. case_bool_decide as Hroot; [done|].
    destruct Hne. by apply abs_path_root.
  - change "/" with (String slash ""). rewrite comps_Split_cat, comps_abs_path by done. apply app_nil_r.
Qed.

Lemma cleanPath_idemp p : cleanPath (cleanPath p) = cleanPath p.
Proof.
  destruct (cleanPath_shape p) as (cs & Hcs & [->|[Hne ->]]); [by apply cleanPath_abs_path|by apply cleanPath_abs_path_slash].
Qed.
