(* ===== verification/Serve.v ===== *)
(** The assembly of the server: [NewServer], its routes and [ListenAndServe] of
    cmd/mistryd/server.go, and the commands of cmd/mistryd/main.go. *)
From S2P Require Import Prelude Cli GoStrings Paths World FSFacts Logic Types Filesystem Config Job Metrics Queues Worker Pool Broker Http Server Mux.

Open Scope string_scope.
Open Scope list_scope.
#[local] Open Scope Z_scope.

(** The handlers that the routes name. *)
Inductive endpoint :=
| Static
| Jobs
| Index
| ShowJob
| ServerPush
| MetricsPage.

(** The routes of [NewServer]; [None] when registering one panics. *)
Definition routes : option (ServeMux endpoint) :=
  mux ← mux_Handle "/" Static NewServeMux;
  mux ← mux_Handle "/jobs" Jobs mux;
  mux ← mux_Handle "/index/" Index mux;
  mux ← mux_Handle "/job/" ShowJob mux;
  mux ← mux_Handle "/log/" ServerPush mux;
  mux_Handle "/metrics" MetricsPage mux.

(** How a call ends: it returns a value or an error, ends the process with a
    status, or panics. *)
Inductive ended (A : Type) :=
| Returned (a : A)
| Failed (e : goerr)
| Exited (status : Z)
| Panicked.
Arguments Returned {A} _.
Arguments Failed {A} _.
Arguments Exited {A} _.
Arguments Panicked {A}.

(** [Server]: the address and routes of its [http.Server], its configuration,
    workers and broker; whether [s.metrics] is set.  The job queue and the project
    mutexes are in [World]. *)
Record Server := mkServer {
  srv_Addr : string;
  srv_mux : ServeMux endpoint;
  srv_cfg : Config;
  srv_pool : Pool;
  srv_br : Broker;
  srv_metrics : bool;
}.

Section server.
Context {E : Env} {J : JSON} {T : TarFormat} {H : Sha256} {JJ : JobJSON} {N : Network} {P : WorkerPool}
  {TM : Templates} {Pr : Prometheus}.

(** The largest channel that can be made, and the result of opening the embedded
    files. *)
Variable chan_max : Z.
Variable statik : error.

(** [NewServer], with the registry of collectors it leaves. *)
Definition NewServer (cfg : option Config) (enableMetrics : bool) (reg : PromRegistry) : ended (Server * PromRegistry) :=
  match cfg with
  | None => Failed (ErrString "config cannot be nil")
  | Some cfg =>
      match statik with
      | Some _ => Exited 1
      | None =>
          match routes, NewWorkerPool chan_max (cfg_Concurrency cfg) (cfg_Backlog cfg) with
          | Some mux, Some pool =>
              if enableMetrics then
                match NewRecorder reg with
                | Some reg => Returned (mkServer (cfg_Addr cfg) mux cfg pool NewBroker true, reg)
                | None => Panicked
                end
              else Returned (mkServer (cfg_Addr cfg) mux cfg pool NewBroker false, reg)
          | _, _ => Panicked
          end
      end
  end.

(** The handlers of other libraries and the redirections of the mux. *)
Variable static metrics_page : Request → M Conn ().
Variable redirect : string → Request → M Conn ().

(** One request: the response and the client it registers with the broker, if any. *)
Definition serve (srv : Server) (flusher : bool) (msgs : list string) (r : Request) :
    M Conn (option (string * string)) :=
  match mux_Handler (rq_Method r) (rq_Path r) (srv_mux srv) with
  | Nowhere => HttpError "404 page not found" 404;; mret None
  | Moved path => redirect path r;; mret None
  | To Static => static r;; mret None
  | To Jobs => HandleNewJob (srv_cfg srv) r;; mret None
  | To Index => HandleIndex (srv_cfg srv) r;; mret None
  | To ShowJob => HandleShowJob (srv_cfg srv) r;; mret None
  | To ServerPush => HandleServerPush (srv_cfg srv) flusher msgs r
  | To MetricsPage => metrics_page r;; mret None
  end.

(** One round of the goroutine of [Server.ListenAndServe] that counts the hosted
    builds; on a nil recorder it panics as soon as it uses one of its fields. *)
Definition hosted_round (srv : Server) : M World (ended ()) :=
  if srv_metrics srv then
    RecordHostedBuilds (cfg_BuildPath (srv_cfg srv)) (cfg_ProjectsPath (srv_cfg srv));; mret (Returned ())
  else
    projects ← ReadDir (cfg_ProjectsPath (srv_cfg srv));
    match projects with
    | Ok [] => mret (Returned ())
    | Ok ((project, _) :: _) =>
        _ ← ReadDir (cfg_BuildPath (srv_cfg srv) +:+ "/" +:+ project +:+ "/ready");
        mret Panicked
    | Err _ => mret Panicked
    end.

(** [StartServer]: [listen] is what [http.Server.ListenAndServe] returns in the end.
    With it, the pool at that time. *)
Definition StartServer (cfg : Config) (reg : PromRegistry) (listen : Server → error) : ended (error * Pool) :=
  match NewServer (Some cfg) true reg with
  | Failed e => Failed e
  | Exited n => Exited n
  | Panicked => Panicked
  | Returned (srv, _) =>
      match listen srv with
      | Some _ => Exited 1
      | None => Returned (None, (stop (srv_pool srv)).1)
      end
  end.

(** ** The commands of main.go *)

(** [Version], with the suffix that is given at build time; slicing a suffix of
    fewer than seven bytes panics. *)
Definition Version : string := "0.1.0".
Definition app_Version (VersionSuffix : string) : option string :=
  if decide (VersionSuffix = "") then Some Version
  else if decide (String.length VersionSuffix < 7)%nat then None
  else Some (Version +:+ "-" +:+ str_take 7 VersionSuffix).

(** The flags of the program; the usage of [--filesystem] names the adapters, in the
    order in which the registry is visited. *)
Definition app_Flags (availableFS : list string) : list Flag :=
  [StringFlag "addr, a" "0.0.0.0:8462" "Host and port to listen to";
   StringFlag "config, c" "config.json" "Load configuration from `FILE`";
   StringFlag "filesystem" "plain"
     ("Which filesystem adapter to use. Options: " +:+ "[" +:+ GoStrings.Join ", " availableFS +:+ "]")].

(** The flags of the command [rebuild]. *)
Definition rebuild_Flags : list Flag :=
  [BoolFlag "fail-fast" "exit immediately on first error";
   StringSliceFlag "project, p"
     "the project to build. Multiple projects can be specified. If not passed, all projects are built";
   BoolFlag "verbose, v" "print logs from docker build and run"].

Section commands.
Context (getuid num_cpu : Z) (decode : string → Config → gores Config).
(** The value of a string flag of the program. *)
Variable c_String : string → string.

(** The action of the program: parse the configuration, clean up, serve. *)
Definition app_Action (reg : PromRegistry) (listen : Server → error) : M World (ended (error * Pool)) :=
  cfg ← parseConfigFromCli getuid num_cpu decode (c_String "filesystem") (c_String "config") (c_String "addr");
  match cfg with
  | Err e => mret (Failed e)
  | Ok cfg =>
      err ← SetUp cfg;
      match err with
      | Some e => mret (Failed e)
      | None => mret (StartServer cfg reg listen)
      end
  end.

(** The command [rebuild]: [rebuild] is [rebuild_action] on the configuration. *)
Definition rebuild_Action (rebuild : Config → M World error) : M World error :=
  cfg ← parseConfigFromCli getuid num_cpu decode (c_String "filesystem") (c_String "config") (c_String "addr");
  match cfg with
  | Err e => mret (Some e)
  | Ok cfg => rebuild cfg
  end.
End commands.

(** The end of [main]: the exit status for what the command returned. *)
Definition main_status (err : error) : Z := match err with Some _ => 1 | None => 0 end.
End server.
