(* ===== verification/HandlerSpec.v ===== *)
(** What the HTTP handlers answer. *)
From S2P Require Import Prelude GoStrings Paths World FSFacts Logic Quiet Types Filesystem Config Job Metrics Queues Worker Store WorkSafety Scenario WorkSpec Http Server.

Open Scope string_scope.
Open Scope list_scope.
#[local] Open Scope Z_scope.

Section handlers.
Context {E : Env} {J : JSON} {T : TarFormat} {H : Sha256} {JJ : JobJSON} {N : Network} {P : WorkerPool}
  {TM : Templates}.
Context (cfg : Config).

(** The status and the server's state after a handler, on a new response. *)
Definition answer {A : Type} (m : M Conn A) (w : World) : Z * World :=
  let c := (m (mkConn w new_response)).2 in (rs_status (c_resp c), c_world c).

Lemma answer_error msg code w : answer (HttpError msg code) w = (code, w).
Proof. unfold answer. by rewrite HttpError_status, HttpError_world. Qed.

Lemma answer_status code w : answer (WriteHeader code) w = (code, w).
Proof. done. Qed.

Lemma answer_lift {A B : Type} (m : M World A) (k : A → M Conn B) w :
  answer (a ← lift m; k a) w = answer (k (m w).1) (m w).2.
Proof. unfold answer. by rewrite bind_run, lift_run. Qed.

Lemma answer_ret {A B : Type} (m : M Conn A) (b : B) w : answer (m;; mret b) w = answer m w.
Proof. unfold answer. by rewrite bind_run. Qed.

(** ** Scheduling a job *)

(** What a request for a new job comes to: 405 and 400 for requests that are none;
    500 for a job that cannot be made; 503 when the pool refuses it; 201 at once
    when the request is asynchronous, and otherwise 201 or 500 for the result. *)
Definition new_job_outcome (r : Request) (w : World) : Z * World :=
  if decide (rq_Method r ≠ "POST") then (405, w)
  else match rq_Body r with
  | Err _ => (400, w)
  | Ok body =>
      match json_request body with
      | Err _ => (400, w)
      | Ok jr =>
          match NewJob (jr_Project jr) (jr_Params jr) (jr_Group jr) (Some cfg) w with
          | (Err _, w1) => (500, w1)
          | (Ok j, w1) =>
              match SendWork (set_Rebuild (jr_Rebuild jr) j) w1 with
              | (Err _, w2) => (503, w2)
              | (Ok wait, w2) =>
                  if decide ("async" ∈ rq_Query r) then (201, w2)
                  else let '(res, w3) := wait w2 in
                       (match res.2 with Some _ => 500 | None => 201 end, w3)
              end
          end
      end
  end.

Lemma answer_result j res w :
  answer (writeWorkResult j res) w = (match res.2 with Some _ => 500 | None => 201 end, w).
Proof.
  unfold writeWorkResult. destruct res.2 as [e|]; [apply answer_error|].
  unfold answer. rewrite !bind_run. cbn [WriteHeader SetHeader on_resp modify fst snd]. unfold WriteBody.
  cbn [c_resp c_world]. set (r := rs_SetHeader _ _ _). set (d := match _ with Ok _ => _ | Err _ => _ end).
  pose proof (rs_status_Write d r) as Hs. destruct (rs_Write d r) as [e r']. simpl in *. by rewrite Hs.
Qed.

(** C25: HandleNewJob answers each request with the status of its outcome, hands at
    most one job to the pool, which is the requested one, and waits for a result
    only when the request is not asynchronous. *)
Theorem HandleNewJob_answer r w : answer (HandleNewJob cfg r) w = new_job_outcome r w.
Proof.
  unfold HandleNewJob, new_job_outcome. case_decide; [apply answer_error|].
  destruct (rq_Body r) as [body|e]; [|apply answer_error].
  destruct (json_request body) as [jr|e]; [|apply answer_error].
  rewrite answer_lift. destruct (NewJob _ _ _ _ w) as [[j|e] w1]; cbn [fst snd]; [|apply answer_error].
  cbv zeta. rewrite answer_lift. destruct (SendWork _ w1) as [[wait|e] w2]; cbn [fst snd]; [|done].
  case_decide; [done|]. rewrite answer_lift. destruct (wait w2) as [res w3]. apply answer_result.
Qed.

(** The answer to a build that ended without error carries the JSON of the build
    info but not its content type: the header is set after the status was written,
    so that the client sees the type that net/http detects from the bytes. *)
Theorem work_result_content_type j info resp w :
  json_info info = Ok resp → resp ≠ "" → net_write 0 = None →
  let r := c_resp (writeWorkResult j (Some info, None) (mkConn w new_response)).2 in
  rs_status r = 201 ∧ rs_body r = resp ∧
  rs_content_type r = Some (net_detect resp) ∧ rs_header r !! "Content-Type" = Some "application/json".
Proof.
  intros Hi Hne Hw. unfold writeWorkResult. cbn [snd fst]. rewrite !bind_run.
  cbn [WriteHeader SetHeader on_resp modify fst snd marshal_info]. rewrite Hi. unfold WriteBody.
  cbn [c_resp c_world]. unfold rs_Write. simpl. rewrite Hw. simpl.
  unfold rs_content_type, rs_status, rs_result. simpl. unfold with_type. rewrite lookup_empty.
  rewrite decide_False by done. simpl. by rewrite !lookup_insert_eq.
Qed.

(** ** Showing a job *)

Section show.
Context (Hquiet : quiet E) (B : path) (j : Job) (Hj : job_ok B j).
Context (Hcfg : cfg_BuildPath cfg = abs_path B).

Lemma show_path d :
  build_dir d →
  Join [cfg_BuildPath cfg; j_Project j; d; j_ID j] = abs_path (build_at B (j_Project j) d (j_ID j)).
Proof.
  intros Hd. destruct Hj as [HB Hp _ [Hid _] _ _ _ _ _ _ _]. rewrite Hcfg.
  assert (plain d) by (destruct Hd as [->| ->]; auto with mistry).
  apply Join_below; [done| |solve_plain]. csimpl. by rewrite !comps_plain.
Qed.

(** The state of a job that was published. *)
Lemma GetState_ready w bi :
  store_ok B (w_fs w) → published B j (w_fs w) bi →
  w_fs w !! build_at B (j_Project j) "pending" (j_ID j) = None →
  GetState (cfg_BuildPath cfg) (j_Project j) (j_ID j) w = (Ok "ready", tick (tick w)).
Proof.
  intros Hok Hp Hn. unfold GetState. rewrite bind_run. unfold Stat. rewrite read_quiet by done.
  pose proof (plain_pd B j Hj [] ltac:(done)) as Hpd. rewrite app_nil_r in Hpd.
  rewrite (show_path "pending") by (by left).
  rewrite k_stat_clear; [|apply Hok|done|by apply (pd_clear B j Hj)|by intros t; rewrite Hn].
  rewrite Hn. cbn [fst snd]. rewrite bind_run. rewrite read_quiet by done.
  rewrite (show_path "ready"), <-(jo_ready _ _ Hj) by (by right). cbn [w_fs tick].
  by rewrite (ready_stat B j Hj _ bi).
Qed.

(** A published build is shown: a request for its JSON is answered with 200 and
    the encoding of the job with its ID, project, state and build info, and the log
    of the build. *)
Theorem HandleShowJob_published w r bi :
  rq_Method r = "GET" → rq_ContentType r = "application/json" →
  path_parts (rq_Path r) = Some (j_Project j, j_ID j) →
  store_ok B (w_fs w) → published B j (w_fs w) bi → json_good (set_ContainerLogs "" "" bi) →
  w_fs w !! build_at B (j_Project j) "pending" (j_ID j) = None → net_write 0 = None →
  ∃ log, w_fs w !! (build_at B (j_Project j) "ready" (j_ID j) ++ ["out.log"]) = Some (File log) ∧
  ∀ body, json_struct (listed_job (j_ID j) (j_Project j) "ready" zero_time (set_ContainerLogs log "" bi)) = Ok body →
    let resp := c_resp (HandleShowJob cfg r (mkConn w new_response)).2 in
    rs_status resp = 200 ∧ rs_content_type resp = Some "application/json" ∧ rs_body resp = body.
Proof.
  intros Hm Hct Hpath Hok Hp Hgood Hn Hw.
  destruct (read_published Hquiet B j Hj true (tick (tick w)) bi Hok Hp Hgood) as (log & w' & Hlog & Hr & _).
  exists log. split; [done|]. intros body Hbody. unfold HandleShowJob.
  rewrite decide_False by (by rewrite Hm; intros []). rewrite Hpath. rewrite bind_run, lift_run.
  cbn [c_world]. rewrite (GetState_ready w bi) by done. cbn [fst snd]. rewrite bind_run, lift_run.
  cbn [c_world]. rewrite (show_path "ready"), <-(jo_ready _ _ Hj) by (by right). rewrite Hr. cbn [fst snd].
  cbv zeta. rewrite decide_True by done. rewrite Hbody. rewrite !bind_run.
  cbn [SetHeader on_resp modify fst snd]. unfold WriteBody. cbn [c_resp c_world]. unfold rs_Write. simpl. rewrite Hw. simpl.
  unfold rs_status, rs_content_type, rs_result. simpl. unfold with_type. by rewrite lookup_insert_eq.
Qed.
End show.
End handlers.

(** ** A concrete network, encoder, pool and page *)

#[export] Instance scen_jobjson : JobJSON := {|
  time_Format t := bits (encode (t / Second));
  time_Parse s := match decode (of_bits s) with Some t => Ok (t * Second) | None => Err (ErrString "bad time") end;
  json_views l := Ok (GoStrings.Join "," (jv_id <$> l));
  json_struct j := Ok ("{ID:" +:+ j_ID j +:+ "}");
  json_info bi := Ok ("{Path:" +:+ bi_Path bi +:+ "}");
  json_request s := if decide (s = "{Project:yarn}") then Ok (mkJobRequest "yarn" scen_params "prod" false)
                    else Err (ErrString "invalid character");
|}.

#[export] Instance scen_network : Network := {|
  net_detect _ := "text/plain; charset=utf-8";
  net_write _ := None;
|}.

#[export] Instance scen_templates : Templates := {|
  tmpl_open := Ok "show.html"; tmpl_read := Ok; tmpl_parse := Ok; tmpl_execute s _ := Ok s;
|}.

Lemma work_result_content_type_witness :
  let info := NewBuildInfo 0 in
  let r := c_resp (@writeWorkResult scen_jobjson scen_network (scen_job scen_params "") (Some info, None)
                    (mkConn scen_world new_response)).2 in
  rs_status r = 201 ∧ rs_body r = "{Path:}" ∧
  rs_content_type r = Some (net_detect "{Path:}") ∧ rs_header r !! "Content-Type" = Some "application/json".
Proof.
  apply (@work_result_content_type scen_jobjson scen_network (scen_job scen_params "")
    (NewBuildInfo 0) "{Path:}" scen_world).
  - reflexivity.
  - discriminate.
  - reflexivity.
Defined.

Definition scen_show_request : Request :=
  mkRequest "GET" ("/job/yarn/" +:+ j_ID (scen_job scen_params "prod")) [] "application/json" (Ok "").

Lemma HandleShowJob_published_witness :
  let w := scen_built (scen_docker None 0) "prod" in
  ∃ log, w_fs w !! (build_at scen_base "yarn" "ready" (j_ID (scen_job scen_params "prod")) ++ ["out.log"])
           = Some (File log) ∧
  ∀ body, json_struct (listed_job (j_ID (scen_job scen_params "prod")) "yarn" "ready" zero_time
            (set_ContainerLogs log "" (scen_info (scen_docker None 0) "prod"))) = Ok body →
    let resp := c_resp (@HandleShowJob (scen_env calm alone) scen_json scen_jobjson scen_network scen_templates
      (scen_config (@PlainFS (scen_env calm alone))) scen_show_request (mkConn w new_response)).2 in
    rs_status resp = 200 ∧ rs_content_type resp = Some "application/json" ∧ rs_body resp = body.
Proof.
  cbv zeta. apply (@HandleShowJob_published (scen_env calm alone) scen_json scen_jobjson scen_network scen_templates
    (scen_config (@PlainFS (scen_env calm alone))) (λ n, eq_refl) scen_base (scen_job scen_params "prod")
    (scen_job_ok "prod" (or_intror plain_prod)) eq_refl).
  - reflexivity.
  - reflexivity.
  - vm_compute. reflexivity.
  - apply (scen_built_store None 0 "prod" (or_intror plain_prod)).
  - apply published_check_sound. vm_compute. reflexivity.
  - exact I.
  - vm_compute. reflexivity.
  - reflexivity.
Defined.
