(* ===== verification/ListingSpec.v ===== *)
(** The listings of projects and jobs, and the clean-up at start-up. *)
From S2P Require Import Prelude GoStrings Paths World FSFacts Logic Quiet Types Filesystem Config Job Metrics Queues Worker Store WorkSafety WorkFrame Scenario WorkSpec WorkFailure Http Server.

Open Scope string_scope.
Open Scope list_scope.

Section listings.
Context {E : Env} (cfg : Config).

(** ** Projects *)

(** Whether a directory of the projects path holds a Dockerfile. *)
Definition has_dockerfile (fs : FS) (name : string) : bool :=
  match k_stat fs (Join [cfg_ProjectsPath cfg; name; "Dockerfile"]) with inr _ => true | inl _ => false end.

Lemma projects_loop_quiet (Hquiet : quiet E) folders : ∀ acc w,
  (∀ name, (name, Dir) ∈ folders → ∀ e, k_stat (w_fs w) (Join [cfg_ProjectsPath cfg; name; "Dockerfile"]) = inl e → e = ENOENT) →
  (projects_loop cfg folders acc w).1
    = Ok (acc ++ (filter (λ nd, is_dir nd.2 && has_dockerfile (w_fs w) nd.1 = true) folders).*1).
Proof.
  induction folders as [|[name n] folders IH]; intros acc w He; cbn [projects_loop].
  - simpl. by rewrite app_nil_r.
  - assert (He' : ∀ name', (name', Dir) ∈ folders → ∀ e,
      k_stat (w_fs w) (Join [cfg_ProjectsPath cfg; name'; "Dockerfile"]) = inl e → e = ENOENT).
    { intros name' Hin. apply He. by right. }
    destruct (is_dir n) eqn:Hd.
    + destruct n; [|done|done]. rewrite bind_run. unfold Stat. rewrite read_quiet by done. rewrite filter_cons.
      cbn [fst snd is_dir andb]. specialize (He name ltac:(by left)).
      assert (Hh : has_dockerfile (w_fs w) name = match k_stat (w_fs w) (Join [cfg_ProjectsPath cfg; name; "Dockerfile"])
        with inr _ => true | inl _ => false end) by done.
      destruct (k_stat (w_fs w) _) as [e|m] eqn:Hst; cbn [fst snd].
      * rewrite (He e eq_refl). cbn [IsNotExist]. rewrite decide_False by (by rewrite Hh). by rewrite (IH acc (tick w)).
      * rewrite decide_True by done. rewrite (IH (acc ++ [name]) (tick w)) by done. rewrite fmap_cons. by rewrite <-app_assoc.
    + rewrite filter_cons. cbn [fst snd]. rewrite Hd. rewrite decide_False by done. by apply IH.
Qed.

(** GetProjects lists, in the order of their names, exactly the directories of
    the projects path that hold a Dockerfile; files, links and other directories
    are left out. *)
Theorem getProjects_lists (Hquiet : quiet E) w l :
  k_readdir (w_fs w) (cfg_ProjectsPath cfg) = inr l →
  (∀ name, (name, Dir) ∈ l → ∀ e, k_stat (w_fs w) (Join [cfg_ProjectsPath cfg; name; "Dockerfile"]) = inl e → e = ENOENT) →
  (getProjects cfg w).1 = Ok (filter (λ nd, is_dir nd.2 && has_dockerfile (w_fs w) nd.1 = true) l).*1 ∧
  StronglySorted str_leP (filter (λ nd, is_dir nd.2 && has_dockerfile (w_fs w) nd.1 = true) l).*1.
Proof.
  intros Hl He. split.
  - unfold getProjects. rewrite bindR_run. unfold ReadDir. rewrite read_quiet by done. rewrite Hl. cbn [fst snd].
    by rewrite projects_loop_quiet.
  - unfold k_readdir in Hl. destruct (locate _ _ _) as [|p]; [done|].
    destruct (w_fs w !! p) as [[| |]|]; try done. injection Hl as <-.
    pose proof (sort_strings_sorted (children (w_fs w) p)) as Hs.
    generalize dependent (sort_strings (children (w_fs w) p)). intros cs _ Hs.
    induction Hs as [|c cs Hs IH Hc]; [constructor|]. simpl.
    destruct (w_fs w !! (p ++ [c])) as [n|]; simpl; [|done]. rewrite filter_cons. simpl.
    case_decide; [|done]. simpl. constructor; [done|].
    apply Forall_forall. intros x Hx. apply list_elem_of_fmap in Hx as ([y m] & -> & Hy).
    apply list_elem_of_filter in Hy as [_ Hy]. apply list_elem_of_omap in Hy as (z & Hz & Hm).
    destruct (w_fs w !! (p ++ [z])); [|done]. injection Hm as <- <-.
    rewrite Forall_forall in Hc. by apply Hc.
Qed.
End listings.

(** ** The clean-up at start-up *)

Section prune.
Context {E : Env} {J : JSON} {D : Docker} (cfg : Config) (B : path) {Hc : config_ok cfg B}.
Context (HB : Forall plain B).

(** Outside the pending builds nothing changes. *)
Definition off_pending (q : path) : Prop := ∀ p name, ¬ B ++ [p; "pending"; name] `prefix_of` q.

Definition pending_pruned (fs fs' : FS) : Prop :=
  pruned fs fs' ∧ ∀ q, off_pending q → fs' !! q = fs !! q.

Lemma pending_pruned_trans f1 f2 f3 : pending_pruned f1 f2 → pending_pruned f2 f3 → pending_pruned f1 f3.
Proof. intros [H1 H2] [H3 H4]. split; [by etrans|]. intros q Hq. by rewrite H4, H2. Qed.

(** Removing pending builds keeps the store. *)
Lemma store_ok_pruned fs fs' :
  store_ok B fs → wf fs' → pending_pruned fs fs' → store_ok B fs'.
Proof.
  intros [_ Hb Hproj Hdirs Hbuilds Hlinks] Hw [Hsub Hsame].
  assert (Hd : ∀ q, dirn fs q → dirn fs' q).
  { intros q [Hq|Hq]; unfold dirn; destruct (fs' !! q) eqn:Hf; auto; apply Hsub in Hf; naive_solver. }
  assert (Hl : ∀ q, not_link fs q → not_link fs' q).
  { intros q Hq t Ht. apply Hsub in Ht. by eapply Hq. }
  split; [done|..].
  - rewrite Hsame; [done|]. intros p name Hp%prefix_length. rewrite length_app in Hp. simpl in Hp. lia.
  - auto.
  - auto.
  - intros p d id H1 H2 H3. destruct (Hbuilds p d id H1 H2 H3) as (?&?&?&?). split_and!; auto.
  - intros p g n Hp Hg Hn. apply Hsub in Hn. destruct (Hlinks p g n Hp Hg Hn) as (id & Hid & -> & bi & (s & Hs & Hm) & Hcode).
    exists id. split_and!; [done..|]. exists bi. split; [|done]. exists s. split; [|done].
    rewrite Hsame; [done|]. intros p' name. unfold build_at. rewrite <-app_assoc, prefix_app_cancel.
    simpl. rewrite !prefix_cons_iff. by intros (_ & [=] & _).
Qed.

Lemma removes_pending fs fs' p name :
  removes (B ++ [p; "pending"; name]) fs fs' → wf fs' ∧ pending_pruned fs fs'.
Proof.
  intros (Hw & Hs & Hsub). split; [done|]. split; [done|]. intros q Hq. apply Hs, Hq.
Qed.

Lemma pending_path p : plain p → Join [cfg_BuildPath cfg; p; "pending"] = abs_path (B ++ [p; "pending"]).
Proof.
  intros Hp. rewrite (co_build cfg B). apply Join_below; [done| |solve_plain]. csimpl. by rewrite comps_plain.
Qed.

Lemma pending_entry p name :
  plain p → plain name →
  Join [Join [cfg_BuildPath cfg; p; "pending"]; name] = abs_path (B ++ [p; "pending"; name]).
Proof.
  intros Hp Hn. rewrite pending_path by done. rewrite (Join_below _ _ [name]); [by rewrite <-app_assoc|solve_plain| |solve_plain].
  csimpl. by rewrite comps_plain.
Qed.

(** What the clean-up keeps, from the state [fs0] it started in. *)
Definition cleaning (fs0 fs : FS) : Prop := store_ok B fs ∧ names_ok fs ∧ pending_pruned fs0 fs.

Lemma prune_builds_keeps fs0 p builds :
  plain p → (∀ name n, (name, n) ∈ builds → plain name) →
  triple (cleaning fs0) (prune_builds cfg p (Join [cfg_BuildPath cfg; p; "pending"]) builds) (λ _ fs, cleaning fs0 fs).
Proof.
  intros Hp. induction builds as [|[name n] builds IH]; intros Hb; cbn [prune_builds]; [by apply triple_ret|].
  apply (triple_bind _ _ (λ _ fs, cleaning fs0 fs)).
  - rewrite pending_entry by (done || eapply Hb; by left). apply triple_pre. intros w (Hok & Hn & Hpr).
    assert (Hname : plain name) by (eapply Hb; by left). eapply triple_weaken.
    + apply (remove_spec (B ++ [p; "pending"; name]) (w_fs w)); [apply Hok|solve_plain|by destruct B|].
      apply (clear_build B (w_fs w) Hok p "pending" name); [done|left; by left].
    + done.
    + intros _ fs (Hw & Hpp)%removes_pending. split_and!.
      * by apply (store_ok_pruned (w_fs w)).
      * eapply names_ok_pruned; [|done]. apply Hpp.
      * by eapply pending_pruned_trans.
  - intros [e|]; [by apply triple_ret|]. apply IH. intros name' n' Hin. eapply Hb. by right.
Qed.

Lemma prune_projects_keeps fs0 projects :
  (∀ p, p ∈ projects → plain p) →
  triple (cleaning fs0) (prune_projects cfg projects) (λ _ fs, cleaning fs0 fs).
Proof.
  induction projects as [|p projects IH]; intros Hp; cbn [prune_projects]; [by apply triple_ret|].
  assert (plain p) by (apply Hp; by left). cbv zeta.
  apply (triple_bind _ _ (λ r fs, cleaning fs0 fs ∧ ∀ l name n, r = Ok l → (name, n) ∈ l → plain name)).
  - apply triple_read; [by intros|]. intros fs l (Hok & Hn & Hpr) Hl. split; [done|].
    intros l' name n [= <-]. by eapply readdir_plain.
  - intros [l|e].
    + apply triple_pre. intros w [Hcl Hl]. eapply triple_andM.
      * eapply triple_weaken; [apply (prune_builds_keeps fs0)|by intros fs ->|by intros e fs He; exact He]; [done|].
        intros name n. by eapply Hl.
      * done.
      * apply IH. intros q Hq. apply Hp. by right.
    + eapply triple_weaken; [apply IH|by intros fs [? _]|done]. intros q Hq. apply Hp. by right.
Qed.

Lemma projects_loop_plain P folders : ∀ acc,
  (∀ name n, (name, n) ∈ folders → plain name) → (∀ p, p ∈ acc → plain p) →
  triple P (projects_loop cfg folders acc) (λ r fs, P fs ∧ ∀ l p, r = Ok l → p ∈ l → plain p).
Proof.
  induction folders as [|[name n] folders IH]; intros acc Hf Ha; cbn [projects_loop].
  - apply triple_ret. intros fs HP. split; [done|]. intros l p [= <-]. apply Ha.
  - assert (Hf' : ∀ name' n', (name', n') ∈ folders → plain name') by (intros ?? Hin; eapply Hf; by right).
    assert (Ha' : ∀ p, p ∈ acc ++ [name] → plain p).
    { intros p [Hin|Hin]%elem_of_app; [by apply Ha|]. apply list_elem_of_singleton in Hin as ->. eapply Hf. by left. }
    destruct (is_dir n); [|by apply IH]. apply (triple_bind _ _ (λ _ fs, P fs)); [by apply triple_read|].
    intros [m|e]; [by apply IH|]. destruct (IsNotExist e); [by apply IH|]. by apply triple_ret.
Qed.

Lemma getProjects_plain fs0 :
  triple (cleaning fs0) (getProjects cfg) (λ r fs, cleaning fs0 fs ∧ ∀ l p, r = Ok l → p ∈ l → plain p).
Proof.
  unfold getProjects.
  apply (triple_bindR _ _ _ (λ r fs, cleaning fs0 fs ∧ ∀ l name n, r = Ok l → (name, n) ∈ l → plain name)).
  - apply triple_read; [by intros|]. intros fs l (Hok & Hn & Hpr) Hl. split; [done|].
    intros l' name n [= <-]. by eapply readdir_plain.
  - by intros e fs [? _].
  - intros l. apply triple_pre. intros w [Hcl Hl]. eapply triple_weaken; [apply (projects_loop_plain (cleaning fs0))| |].
    + intros name n. by eapply Hl.
    + by intros p ?%not_elem_of_nil.
    + by intros fs ->.
    + done.
Qed.

(** C30: the clean-up at start-up removes pending builds only: whatever faults strike,
    it keeps the invariant of the build directory, adds nothing, and leaves every
    ready build, every latest link and all else outside the pending directories
    untouched. *)
Theorem SetUp_prunes_pending_only w :
  store_ok B (w_fs w) → names_ok (w_fs w) →
  let fs' := w_fs (SetUp cfg w).2 in
  store_ok B fs' ∧ pruned (w_fs w) fs' ∧ ∀ q, off_pending q → fs' !! q = w_fs w !! q.
Proof.
  intros Hok Hn. cbv zeta. assert (Hcl : cleaning (w_fs w) (w_fs w)) by (by split_and!).
  assert (Ht : triple (cleaning (w_fs w)) (SetUp cfg) (λ _ fs, cleaning (w_fs w) fs)).
  { unfold SetUp, PruneZombieBuilds. eapply triple_bind; [apply getProjects_plain|].
    intros [l|e]; [|apply triple_ret; by intros fs [? _]]. apply triple_pre. intros w0 [Hcl0 Hl].
    eapply triple_weaken; [apply (prune_projects_keeps (w_fs w))|by intros fs ->|done]. intros p. by apply Hl. }
  destruct (Ht w Hcl) as (? & _ & ? & ?). done.
Qed.

(** ** What it achieves when no fault strikes *)

Section complete.
Context (Hquiet : quiet E) (Hrem : fs_Remove (cfg_FileSystem cfg) = PlainFS_Remove).

Definition gone (fs : FS) (p name : string) : Prop := fs !! (B ++ [p; "pending"; name]) = None.

Lemma gone_pruned fs fs' p name : pruned fs fs' → gone fs p name → gone fs' p name.
Proof. unfold gone. intros Hp Hg. destruct (fs' !! _) eqn:H; [apply Hp in H; congruence|done]. Qed.

Lemma cleaning_trans f0 f1 f2 : cleaning f0 f1 → cleaning f1 f2 → cleaning f0 f2.
Proof. intros (_ & _ & H1) (H2 & H3 & H4). split_and!; [done..|]. by eapply pending_pruned_trans. Qed.

Lemma cleaning_refl f0 fs : cleaning f0 fs → cleaning fs fs.
Proof. intros (? & ? & _). by split_and!. Qed.

Lemma prune_builds_done p builds : ∀ w,
  plain p → (∀ name n, (name, n) ∈ builds → plain name) → cleaning (w_fs w) (w_fs w) →
  let r := prune_builds cfg p (Join [cfg_BuildPath cfg; p; "pending"]) builds w in
  r.1 = None ∧ cleaning (w_fs w) (w_fs r.2) ∧ ∀ name n, (name, n) ∈ builds → gone (w_fs r.2) p name.
Proof.
  induction builds as [|[name n] builds IH]; intros w Hp Hb Hcl; cbv zeta; cbn [prune_builds].
  - split_and!; [done|done|]. by intros name n ?%not_elem_of_nil.
  - assert (Hname : plain name) by (eapply Hb; by left). pose proof Hcl as (Hok & Hn & _).
    set (q := B ++ [p; "pending"; name]). rewrite pending_entry by done. fold q. rewrite bind_run, Hrem.
    pose proof (remove_spec q (w_fs w)) as Hspec. rewrite Hrem in Hspec.
    assert (Hq : Forall plain q) by (unfold q; solve_plain).
    assert (Hne : q ≠ []) by (unfold q; by destruct B).
    assert (Hclr : clear (w_fs w) q) by (apply (clear_build B (w_fs w) Hok p "pending" name); [done|left; by left]).
    specialize (Hspec (so_wf _ _ Hok) Hq Hne Hclr w eq_refl). apply removes_pending in Hspec as [Hw1 Hpp].
    assert (Hrun : (PlainFS_Remove (abs_path q) w).1 = None ∧ gone (w_fs (PlainFS_Remove (abs_path q) w).2) p name).
    { unfold PlainFS_Remove, RemoveAll. rewrite write_quiet by done. unfold k_remove_all, gone. fold q.
      destruct (locate_clear (w_fs w) (so_wf _ _ Hok) q false Hq Hclr) as [->|[-> Hnone]]; [by left| |done].
      rewrite decide_False by done. cbn [fst snd w_fs set_fs]. split; [done|].
      by rewrite lookup_remove_tree, decide_True. }
    destruct (PlainFS_Remove (abs_path q) w) as [e w1]. cbn [fst snd] in *. destruct Hrun as [-> Hgone].
    assert (Hcl1 : cleaning (w_fs w) (w_fs w1)).
    { split_and!; [by apply (store_ok_pruned (w_fs w))|eapply names_ok_pruned; [apply Hpp|done]|apply Hpp..]. }
    destruct (IH w1 Hp) as (Hr & Hcl2 & Hall); [intros name' n' Hin; eapply Hb; by right|by eapply cleaning_refl|].
    split_and!; [done|by eapply cleaning_trans|]. intros name' n' [[= -> _]|Hin]%elem_of_cons.
    + eapply gone_pruned; [apply Hcl2|done].
    + by eapply Hall.
Qed.

Lemma prune_projects_done projects : ∀ w,
  (∀ p, p ∈ projects → plain p) → cleaning (w_fs w) (w_fs w) →
  let r := prune_projects cfg projects w in
  r.1 = None ∧ cleaning (w_fs w) (w_fs r.2) ∧ ∀ p name, p ∈ projects → gone (w_fs r.2) p name.
Proof.
  induction projects as [|p projects IH]; intros w Hp Hcl; cbv zeta; cbn [prune_projects].
  - split_and!; [done|done|]. by intros p name ?%not_elem_of_nil.
  - assert (Hpl : plain p) by (apply Hp; by left). pose proof Hcl as (Hok & Hn & _). cbv zeta.
    assert (Hp' : ∀ q, q ∈ projects → plain q) by (intros q Hq; apply Hp; by right).
    rewrite bind_run. unfold ReadDir. rewrite read_quiet by done. rewrite pending_path by done.
    assert (Hpath : Forall plain (B ++ [p; "pending"])) by solve_plain.
    assert (Htop : top_dir "pending") by (left; by left).
    assert (Hnext : ∀ w1, cleaning (w_fs w) (w_fs w1) → (∀ name, gone (w_fs w1) p name) →
      let r := prune_projects cfg projects w1 in
      r.1 = None ∧ cleaning (w_fs w) (w_fs r.2) ∧ ∀ q name, q ∈ p :: projects → gone (w_fs r.2) q name).
    { intros w1 Hcl1 Hg. destruct (IH w1 Hp') as (H1 & H2 & H3); [by eapply cleaning_refl|]. cbv zeta.
      split_and!; [done|by eapply cleaning_trans|]. intros q name [->|Hq]%elem_of_cons; [|by apply H3].
      eapply gone_pruned; [apply H2|apply Hg]. }
    destruct (so_dirs _ _ Hok p "pending" Hpl Htop) as [Hnone|Hdir].
    + assert (Hrd : ∃ e, k_readdir (w_fs w) (abs_path (B ++ [p; "pending"])) = inl e).
      { unfold k_readdir. destruct (locate_clear (w_fs w) (so_wf _ _ Hok) (B ++ [p; "pending"]) true) as [->|[-> _]]; eauto.
        - by apply (clear_dir B (w_fs w) Hok).
        - right. intros t. congruence.
        - rewrite Hnone. eauto. }
      destruct Hrd as [e ->]. cbn [fst snd]. apply Hnext; [done|]. intros name. unfold gone.
      destruct (w_fs w !! (B ++ [p; "pending"; name])) eqn:Hx; [|done].
      change [p; "pending"; name] with ([p; "pending"] ++ [name]) in Hx. rewrite app_assoc in Hx.
      apply (so_wf _ _ Hok) in Hx. congruence.
    + destruct (k_readdir (w_fs w) (abs_path (B ++ [p; "pending"]))) as [e|l] eqn:Hl.
      { unfold k_readdir in Hl. rewrite (locate_dir (w_fs w) (so_wf _ _ Hok)), Hdir in Hl by done. done. }
      cbn [fst snd]. rewrite andM_run. rewrite <-(pending_path p Hpl) in *.
      destruct (prune_builds_done p l (tick w) Hpl) as (Hr & Hcl1 & Hall).
      { intros name n. by eapply readdir_plain. } { done. }
      rewrite Hr. apply Hnext; [done|]. intros name. unfold gone.
      destruct (w_fs w !! (B ++ [p; "pending"; name])) as [n|] eqn:Hx.
      * eapply Hall, readdir_complete; [exact Hl| |].
        -- rewrite pending_path by done. by apply (locate_dir (w_fs w) (so_wf _ _ Hok)).
        -- by rewrite <-app_assoc.
      * eapply gone_pruned; [apply Hcl1|exact Hx].
Qed.

End complete.
End prune.

(** ** Witnesses *)

Lemma plain_projects : plain "projects". Proof. plain_const. Qed.
Lemma plain_builds : plain "builds". Proof. plain_const. Qed.
Lemma plain_Dockerfile : plain "Dockerfile". Proof. plain_const. Qed.

Lemma scen_names : names_ok scen_stale_fs.
Proof.
  pose proof plain_projects. pose proof plain_builds. pose proof plain_Dockerfile. pose proof plain_yarn.
  pose proof (jo_id _ _ (scen_job_ok "" (or_introl eq_refl))) as [Hid _].
  unfold scen_stale_fs, scen_fs. repeat apply names_ok_insert; try (unfold build_at, scen_base; solve_plain).
  intros p n. by rewrite lookup_empty.
Qed.

Definition scen_stale_world : World := set_fs scen_stale_fs scen_world.

Lemma SetUp_prunes_pending_only_witness :
  let fs' := w_fs (@SetUp (scen_env full_disk alone) (scen_config (@PlainFS (scen_env full_disk alone)))
                     scen_stale_world).2 in
  store_ok scen_base fs' ∧ pruned scen_stale_fs fs' ∧ ∀ q, off_pending scen_base q → fs' !! q = scen_stale_fs !! q.
Proof.
  apply (@SetUp_prunes_pending_only (scen_env full_disk alone) scen_json (scen_docker None 0) _ scen_base
    (scen_config_ok _ _ _ _)).
  - constructor; [|constructor]. apply plain_builds.
  - exact scen_stale_store.
  - exact scen_names.
Defined.


Lemma getProjects_lists_witness :
  let l := [("yarn", Dir)] in
  (@getProjects (scen_env calm alone) (scen_config (@PlainFS (scen_env calm alone))) scen_world).1
    = Ok (filter (λ nd, is_dir nd.2 && has_dockerfile (scen_config (@PlainFS (scen_env calm alone))) scen_fs nd.1 = true) l).*1 ∧
  StronglySorted str_leP
    (filter (λ nd, is_dir nd.2 && has_dockerfile (scen_config (@PlainFS (scen_env calm alone))) scen_fs nd.1 = true) l).*1.
Proof.
  apply (@getProjects_lists (scen_env calm alone) (scen_config (@PlainFS (scen_env calm alone))) (λ n, eq_refl) scen_world).
  - vm_compute. reflexivity.
  - intros name Hin e. apply list_elem_of_singleton in Hin. injection Hin as ->. vm_compute. discriminate.
Defined.
