(* ===== verification/BrokerSpec.v ===== *)
(** The broker and its tailers: every line appended to a log reaches each client
    that watches the build, once; one tailer per watched build; and the crash on a
    log that is missing. *)
From S2P Require Import Prelude GoStrings Paths World FSFacts Logic Quiet Types Filesystem Config Job Metrics Queues Worker Store WorkSafety WorkFrame Scenario WorkSpec WorkFailure Scanner Broker Http Server HandlerSpec ListingSpec.

Open Scope string_scope.
Open Scope list_scope.
#[local] Open Scope Z_scope.

(** ** Following a file *)

Lemma str_drop_length_app (a b : string) : str_drop (String.length a) (a +:+ b) = b.
Proof. apply str_drop_app. Qed.

Lemma Tailer_New_end {E : Env} path w t d :
  (Tailer_New path w).1 = (t, None) → k_stat (w_fs w) path = inr (File d) → t = mkTailer (Some path) (String.length d).
Proof.
  intros Ht Hd. unfold Tailer_New in Ht. rewrite bind_run in Ht.
  unfold sys_read, syscall in Ht. destruct (env_fault (w_step w)); [done|]. rewrite Hd in Ht. simpl in Ht. by injection Ht as <-.
Qed.

(** The file only grows: each snapshot extends the one before. *)
Fixpoint grows (before : string) (turns : list string) : Prop :=
  match turns with
  | [] => True
  | contents :: turns => (∃ added, contents = before +:+ added) ∧ grows contents turns
  end.

Definition last_contents (before : string) (turns : list string) : string := default before (last turns).

Lemma last_contents_cons b c turns : last_contents b (c :: turns) = last_contents c turns.
Proof. unfold last_contents. rewrite last_cons. by destruct (last turns). Qed.

Lemma grows_last turns : ∀ before, grows before turns → ∃ added, last_contents before turns = before +:+ added.
Proof.
  induction turns as [|c turns IH]; intros before; [exists ""; by rewrite str_app_nil_r|].
  intros [[added ->] (more & Hm)%IH]. rewrite last_contents_cons, Hm, str_app_assoc. eauto.
Qed.

(** A read of [n] bytes behind [read]: it returns the next bytes, or is at the end. *)
Lemma Tailer_Read_at path read unread n :
  ∃ data rest, unread = data +:+ rest ∧ (String.length data ≤ n)%nat ∧
    Tailer_Read (read +:+ unread) n (mkTailer (Some path) (String.length read)) =
      (if decide (data = "") then AtEnd else Bytes data (mkTailer (Some path) (String.length (read +:+ data)))) ∧
    (data = "" → n = O ∨ unread = "").
Proof.
  unfold Tailer_Read. cbn [t_file t_off]. rewrite str_drop_length_app. exists (str_take n unread), (str_drop n unread).
  split_and!; [apply str_take_drop| |by rewrite str_length_app|by destruct n, unread; auto].
  rewrite str_take_at_most. lia.
Qed.

Lemma tail_exact path turns : ∀ read unread,
  grows (read +:+ unread) turns.*1 →
  ∃ data rest, tail turns (mkTailer (Some path) (String.length read))
    = Some (data, mkTailer (Some path) (String.length (read +:+ data))) ∧
    last_contents (read +:+ unread) turns.*1 = read +:+ data +:+ rest.
Proof.
  induction turns as [|[contents n] turns IH]; intros read unread Hg.
  - exists "", unread. by rewrite str_app_nil_r.
  - rewrite fmap_cons in *. cbn [fst grows tail] in *. destruct Hg as [[added ->] Hg]. rewrite last_contents_cons.
    rewrite str_app_assoc in *. destruct (Tailer_Read_at path read (unread +:+ added) n) as (d & r & Hr & _ & -> & _).
    case_decide as Hd; [by apply IH|].
    destruct (IH (read +:+ d) r) as (data & rest & Ht & Hl); [by rewrite str_app_assoc, <-Hr|].
    rewrite Ht. simpl. exists (d +:+ data), rest. split; [by rewrite !str_app_assoc|].
    rewrite Hr. rewrite str_app_assoc in Hl. by rewrite Hl, !str_app_assoc.
Qed.

(** A tailer delivers exactly what is appended to the file after it was opened,
    in order and without gaps, whatever the sizes of its reads and however often it
    finds itself at the end. *)
Theorem tailer_delivers {E : Env} path w t d turns :
  (Tailer_New path w).1 = (t, None) → k_stat (w_fs w) path = inr (File d) → grows d turns.*1 →
  ∃ data rest t', tail turns t = Some (data, t') ∧ last_contents d turns.*1 = d +:+ data +:+ rest.
Proof.
  intros Ht Hd Hg. rewrite (Tailer_New_end path w t d Ht Hd). destruct (tail_exact path turns d "") as (data & rest & Htl & Hl).
  - by rewrite str_app_nil_r.
  - rewrite str_app_nil_r in Hl. eauto.
Qed.

(** ** The registry of clients *)

Record br_inv (b : Broker) : Prop := {
  bi_count id : default 0 (br_count b !! id) = Z.of_nat (watchers id b);
  bi_tailers id : default O (br_tailers b !! id) = if decide (watchers id b = O) then O else 1%nat;
  bi_closed k : k ∈ br_closed b → br_clients b !! k = None;
}.

Lemma watching_insert k c m id :
  m !! k = None → watching id (<[k := c]> m) = ((if decide (cl_ID c = id) then 1 else 0) + watching id m)%nat.
Proof.
  intros Hk. unfold watching. destruct (decide (cl_ID c = id)) as [Hd|Hd].
  - rewrite map_filter_insert_True by done. apply map_size_insert_None. by apply map_lookup_filter_None; left.
  - rewrite map_filter_insert_not'; [done|done|]. intros y Hy. congruence.
Qed.

Lemma watching_delete k c m id :
  m !! k = Some c → watching id m = ((if decide (cl_ID c = id) then 1 else 0) + watching id (delete k m))%nat.
Proof. intros Hk. rewrite <-(insert_delete_id m k c Hk) at 1. apply watching_insert, lookup_delete_eq. Qed.

Lemma br_new_inv opens k c b : br_inv b → br_clients b !! k = None → k ∉ br_closed b → br_inv (new_client opens k c b).
Proof.
  intros [Hc Ht Hcl] Hk Hn. unfold watchers in *.
  assert (Hclosed : ∀ k', k' ∈ br_closed b → <[k := c]> (br_clients b) !! k' = None).
  { intros k' Hk'. rewrite lookup_insert_ne; [by apply Hcl|]. by intros ->. }
  pose proof (Hc (cl_ID c)) as Hid. pose proof (Ht (cl_ID c)) as Hti.
  unfold new_client. destruct (br_count b !! cl_ID c) as [cc|] eqn:Hcc; [destruct (decide (cc > 0))|];
    simpl in Hid; split; unfold watchers; simpl; try done; intros id; rewrite (watching_insert k c _ id Hk), ?lookup_insert;
    specialize (Hc id); specialize (Ht id);
    destruct (decide (cl_ID c = id)) as [<-|]; simpl; try done; try lia.
  - rewrite Ht. by rewrite decide_False by lia.
  - rewrite Hti, decide_True by lia. done.
  - rewrite Hti, decide_True by lia. done.
Qed.

Lemma br_close_inv k c b : br_inv b → br_clients b !! k = Some c → br_inv (closing_client k c b).
Proof.
  intros [Hc Ht Hcl] Hk. unfold watchers in *. pose proof (λ id, watching_delete k c (br_clients b) id Hk) as Hw.
  unfold closing_client. split; unfold watchers; simpl.
  - intros id. rewrite lookup_insert. specialize (Hc id). rewrite (Hw id) in Hc.
    destruct (decide (cl_ID c = id)) as [<-|]; simpl in *; [rewrite Hc; lia|done].
  - intros id. pose proof (Hc (cl_ID c)) as Hid. rewrite (Hw (cl_ID c)), decide_True in Hid by done.
    specialize (Ht id). rewrite (Hw id) in Ht.
    destruct (decide (default 0 (br_count b !! cl_ID c) - 1 = 0)) as [Hz|Hz].
    + rewrite lookup_insert. destruct (decide (cl_ID c = id)) as [<-|]; simpl in *; [|done].
      rewrite Ht. rewrite decide_True by lia. done.
    + destruct (decide (cl_ID c = id)) as [<-|]; simpl in *; [|done]. rewrite Ht.
      rewrite decide_False by lia. done.
  - intros k' [->|Hk']%elem_of_cons; [apply lookup_delete_eq|].
    destruct (decide (k = k')) as [->|]; [apply lookup_delete_eq|]. rewrite lookup_delete_ne by done. by apply Hcl.
Qed.

Lemma br_reachable opens b : rtc (br_step opens) NewBroker b → br_inv b.
Proof.
  revert b. apply rtc_ind_r.
  - split; simpl.
    + intros id. rewrite lookup_empty. done.
    + intros id. rewrite lookup_empty. done.
    + by intros k ?%not_elem_of_nil.
  - intros b1 b2 _ Hs Hb. destruct Hs as [k c b Hk Hn|k c b Hk|b]; [by apply br_new_inv|by apply br_close_inv|done].
Qed.

(** In every run of the broker, in which handlers register once and leave once:
    the count of an ID is the number of clients that watch it, one tailer runs for
    each ID that is watched and none for the others, and the server does not crash
    as long as the logs can be opened. *)
Theorem broker_counts opens b :
  rtc (br_step opens) NewBroker b →
  (∀ id, default 0 (br_count b !! id) = Z.of_nat (watchers id b)) ∧
  (∀ id, default O (br_tailers b !! id) = if decide (watchers id b = O) then O else 1%nat) ∧
  ((∀ log, opens log = true) → br_crashed b = false).
Proof.
  intros Hb. pose proof (br_reachable opens b Hb) as [Hc Ht _]. split_and!; [done|done|]. intros Ho.
  revert b Hb Hc Ht. apply (rtc_ind_r (λ b, _ → _ → br_crashed b = false)); [done|].
  intros b1 b2 Hb1 Hs IH _ _. pose proof (br_reachable opens b1 Hb1) as Hi.
  assert (Hn : br_crashed b1 = false) by (apply IH; apply Hi).
  destruct Hs as [k c b Hk Hkn|k c b Hk|b]; [| |done].
  - unfold new_client. rewrite Ho. destruct (br_count b !! cl_ID c); [case_decide|]; simpl; by rewrite ?Hn.
  - simpl. rewrite Hn. simpl. apply bool_decide_eq_false. intros Hx%(bi_closed _ Hi). congruence.
Qed.

(** A message reaches exactly the clients that watch its ID, each of them once. *)
Theorem notify_exact e b :
  NoDup (notify e b).*1 ∧
  (∀ k msg, (k, msg) ∈ notify e b ↔ msg = ev_Msg e ∧ ∃ c, br_clients b !! k = Some c ∧ cl_ID c = ev_ID e).
Proof.
  unfold notify. split.
  - rewrite <-list_fmap_compose. eapply sublist_NoDup; [apply (NoDup_fst_map_to_list (br_clients b))|].
    apply fmap_sublist, sublist_filter.
  - intros k msg. rewrite list_elem_of_fmap. split.
    + intros ([k' c] & [= -> ->] & [Hid Hc%elem_of_map_to_list]%list_elem_of_filter). eauto.
    + intros (-> & c & Hc & Hid). exists (k, c). split; [done|]. apply list_elem_of_filter. split; [done|].
      by apply elem_of_map_to_list.
Qed.

(** ** A log that is not there yet *)

(** A client that asks for the log of a pending build before the log file exists
    brings the server down: opening the tailer fails, the broker only logs that, and
    the tailer it starts nevertheless reads from a file it does not have. *)
Theorem missing_log_crashes {E : Env} {N : Network} (cfg : Config) opens msgs r w id log t err k b :
  (HandleServerPush cfg true msgs r (mkConn w new_response)).1 = Some (id, log) →
  (Tailer_New log (c_world (HandleServerPush cfg true msgs r (mkConn w new_response)).2)).1 = (t, Some err) →
  rtc (br_step opens) NewBroker b → watchers id b = O →
  (∀ contents n, Tailer_Read contents n t = NilDereference) ∧
  br_crashed (new_client false k (mkClient id log) b) = true.
Proof.
  intros _ Ht Hb Hw. split.
  - unfold Tailer_New in Ht. rewrite bind_run in Ht. destruct (sys_read _ _ _ _) as [[[]|e] w1]; simpl in Ht; try done.
    by injection Ht as <- _.
  - pose proof (bi_count _ (br_reachable opens b Hb) id) as Hc. rewrite Hw in Hc.
    unfold new_client. simpl. destruct (br_count b !! id) as [cc|]; simpl in *; [|apply orb_true_r].
    rewrite decide_False by lia. apply orb_true_r.
Qed.

Definition scen_log_request : Request :=
  mkRequest "GET" ("/log/yarn/" +:+ j_ID (scen_job scen_params "")) [] "" (Ok "").

Lemma missing_log_crashes_witness :
  ∃ id log t,
    (∀ contents n, Tailer_Read contents n t = NilDereference) ∧
    br_crashed (new_client false 0 (mkClient id log) NewBroker) = true.
Proof.
  do 3 eexists. eapply (@missing_log_crashes (scen_env calm alone) scen_network
    (scen_config (@PlainFS (scen_env calm alone))) (λ _, true) [] scen_log_request scen_stale_world).
  - vm_compute. reflexivity.
  - vm_compute. reflexivity.
  - apply rtc_refl.
  - reflexivity.
Defined.

(** ** Witnesses *)

Lemma tailer_delivers_witness :
  ∃ data rest t', tail [("ab", 10%nat); ("abcd", 1%nat); ("abcd", 1%nat); ("abcd", 5%nat)] (mkTailer (Some "/l") 2) = Some (data, t') ∧
    last_contents "ab" [("ab", 10%nat); ("abcd", 1%nat); ("abcd", 1%nat); ("abcd", 5%nat)].*1 = "ab" +:+ data +:+ rest.
Proof.
  eapply (@tailer_delivers (scen_env calm alone) "/l"
    (set_fs {[ [] := Dir; ["l"] := File "ab" ]} scen_world) (mkTailer (Some "/l") 2) "ab").
  - vm_compute. reflexivity.
  - vm_compute. reflexivity.
  - cbn [fmap list_fmap fst grows]; split_and!; [by exists ""|by exists "cd"|by exists ""|by exists ""|exact I].
Defined.

Lemma broker_counts_witness :
  let b := closing_client 0 (mkClient "id" "/l") (new_client true 1 (mkClient "id" "/l") (new_client true 0 (mkClient "id" "/l") NewBroker)) in
  (∀ id, default 0 (br_count b !! id) = Z.of_nat (watchers id b)) ∧
  (∀ id, default O (br_tailers b !! id) = if decide (watchers id b = O) then O else 1%nat) ∧
  ((∀ log : string, true = true) → br_crashed b = false).
Proof.
  apply (broker_counts (λ _, true)).
  eapply rtc_l; [apply (br_new (λ _, true) 0 (mkClient "id" "/l")); [reflexivity|apply not_elem_of_nil]|].
  eapply rtc_l; [apply (br_new (λ _, true) 1 (mkClient "id" "/l")); [reflexivity|apply not_elem_of_nil]|].
  eapply rtc_l; [apply (br_close (λ _, true) 0 (mkClient "id" "/l")); reflexivity|]. apply rtc_refl.
Defined.
