(* ===== verification/LogSpec.v ===== *)
(** The lines of a build log on their way: from the file through the tailer, the
    scanner and the broker to those who watch the build, and from a verbose rebuild
    to the logger. *)
From S2P Require Import Prelude GoStrings Paths World FSFacts Types Config Scenario Scanner Broker BrokerSpec.

Open Scope string_scope.
Open Scope list_scope.
#[local] Open Scope nat_scope.

Abbreviation stream := (stream_lines MaxScanTokenSize).
Abbreviation scanner_ok := (sc_ok MaxScanTokenSize).
Abbreviation roomy := (make_room startBufSize MaxScanTokenSize).

Lemma buf_pos : 0 < startBufSize. Proof. unfold startBufSize. lia. Qed.
Lemma max_pos : 0 < MaxScanTokenSize. Proof. unfold MaxScanTokenSize. lia. Qed.

Definition events (id : string) (ls : list string) : list Event := (λ l, mkEvent l id) <$> ls.

Lemma roomy_spec sc : scanner_ok sc →
  match roomy sc with
  | Some sc' => scanner_ok sc' ∧ sc_data sc' = sc_data sc ∧ 0 < sc_room sc'
  | None => String.length (sc_data sc) = MaxScanTokenSize
  end.
Proof.
  intros Hok. pose proof (make_room_spec _ _ sc buf_pos max_pos Hok) as H.
  destruct (make_room _ _ sc); [|done]. tauto.
Qed.

(** ** What the goroutine of a log sends *)

Section follow.
Context (path id : string).

Abbreviation at_ read := (mkTailer (Some path) (String.length read)).

(** Its events are the lines of the bytes that were read, whatever the reads were. *)
Lemma follow_lines turns : ∀ sc read unread,
  scanner_ok sc → grows (read +:+ unread) turns →
  ∃ st data rest, follow id turns sc (at_ read) = Some (events id (stream (sc_data sc) data).1, st, at_ (read +:+ data)) ∧
    last_contents (read +:+ unread) turns = read +:+ data +:+ rest ∧
    match st with
    | Some sc' => scanner_ok sc' ∧ sc_data sc' = (stream (sc_data sc) data).2
    | None => String.length (stream (sc_data sc) data).2 = MaxScanTokenSize
    end.
Proof.
  induction turns as [|contents turns IH]; intros sc read unread Hok Hg.
  - exists (Some sc), "", unread. cbn [follow stream_lines fst snd]. by rewrite str_app_nil_r.
  - cbn [grows] in Hg. destruct (grows_last (contents :: turns) _ Hg) as [all Hall]. destruct Hg as [[added ->] Hg].
    cbn [follow]. pose proof (roomy_spec sc Hok) as Hroom. destruct (make_room _ _ sc) as [sc'|].
    + destruct Hroom as (Hok' & Hdata & Hpos). rewrite last_contents_cons. rewrite str_app_assoc in *.
      destruct (Tailer_Read_at path read (unread +:+ added) (sc_room sc')) as (d & r & Hr & Hd & -> & _).
      rewrite <-Hdata. case_decide as Hempty; [by apply IH|]. destruct (scan_filled _ d sc' Hok' Hd) as [Hok2 Hlines].
      destruct (scan_buffered (fill d sc')) as [ls sc2]. cbn [fst snd] in *.
      destruct (IH sc2 (read +:+ d) r Hok2) as (st & data & rest & Hf & Hl & Hst); [by rewrite str_app_assoc, <-Hr|].
      rewrite Hf. exists st, (d +:+ data), rest. rewrite stream_lines_app, Hlines.
      destruct (stream (sc_data sc2) data) as [l2 c2]. cbn [fst snd] in *. split_and!; [|by rewrite Hr, <-(str_app_assoc read d r), Hl, !str_app_assoc|done].
      unfold events. simpl. by rewrite fmap_app, str_app_assoc.
    + exists None, "", (unread +:+ all). cbn [stream_lines fst snd]. rewrite str_app_nil_r. split_and!; [done| |done].
      by rewrite Hall, str_app_assoc.
Qed.

(** With nothing more being written it catches up, unless a line was too long. *)
Lemma follow_catches_up n : ∀ sc read unread,
  scanner_ok sc → String.length unread ≤ n →
  ∃ es st t, follow id (replicate n (read +:+ unread)) sc (at_ read) = Some (es, st, t) ∧
    (st ≠ None → t = at_ (read +:+ unread)).
Proof.
  induction n as [|n IH]; intros sc read unread Hok Hn.
  - destruct unread; [|simpl in Hn; lia]. rewrite str_app_nil_r. eexists _, _, _. by split.
  - cbn [replicate follow]. pose proof (roomy_spec sc Hok) as Hroom. destruct (make_room _ _ sc) as [sc'|]; [|by eexists _, _, _].
    destruct Hroom as (Hok' & Hdata & Hpos).
    destruct (Tailer_Read_at path read unread (sc_room sc')) as (d & r & Hr & Hd & -> & Hend).
    case_decide as Hempty.
    + destruct (Hend Hempty) as [?| ->]; [lia|]. apply IH; [done|]. simpl. lia.
    + destruct (scan_filled _ d sc' Hok' Hd) as [Hok2 _]. destruct (scan_buffered (fill d sc')) as [ls sc2]. cbn [fst snd] in *.
      rewrite Hr, str_length_app in Hn. assert (String.length d ≠ 0) by by destruct d.
      destruct (IH sc2 (read +:+ d) r Hok2) as (es & st & t & Hf & Ht); [lia|].
      rewrite Hr, <-(str_app_assoc read d r), Hf. simpl. by eexists _, _, _.
Qed.

Lemma follow_app turns turns' : ∀ sc t,
  follow id (turns ++ turns') sc t =
    match follow id turns sc t with
    | Some (es, Some sc', t') => '(es', st, t'') ← follow id turns' sc' t'; Some (es ++ es', st, t'')
    | r => r
    end.
Proof.
  induction turns as [|c turns IH]; intros sc t; cbn [app follow].
  - by destruct (follow id turns' sc t) as [[[]]|].
  - destruct (make_room _ _ sc) as [sc'|]; [|done]. destruct (Tailer_Read c (sc_room sc') t) as [d t'| |]; [|apply IH|done].
    destruct (scan_buffered (fill d sc')) as [ls sc2]. rewrite IH.
    destruct (follow id turns sc2 t') as [[[es [sc3|]] t3]|]; simpl; [|done..].
    destruct (follow id turns' sc3 t3) as [[[es' st] t4]|]; simpl; [|done]. by rewrite app_assoc.
Qed.
End follow.

(** A text whose lines are short is never stuck on the way. *)
Lemma short_not_stuck ls part data rest :
  Forall (short MaxScanTokenSize) ls → short MaxScanTokenSize part → data +:+ rest = log_text ls part →
  String.length (stream "" data).2 ≠ MaxScanTokenSize ∧ (rest = "" → stream "" data = (dropCR <$> ls, part)).
Proof.
  intros Hls [Hn Hp] Heq. assert (Hall : stream "" (data +:+ rest) = (dropCR <$> ls, part)).
  { rewrite Heq, stream_lines_text by done. rewrite stream_lines_part by (done || (change ("" +:+ part) with part; lia)).
    cbn [fst snd]. by rewrite app_nil_r. }
  split; [|by intros ->; rewrite str_app_nil_r in Hall].
  intros Hmax. rewrite stream_lines_app in Hall. destruct (stream "" data) as [l1 c1]. simpl in Hmax.
  rewrite stream_lines_stuck in Hall by lia. injection Hall as _ ->. lia.
Qed.

(** ** From the log to those who watch it *)

Lemma last_contents_app b l1 l2 : last_contents b (l1 ++ l2) = last_contents (last_contents b l1) l2.
Proof. unfold last_contents. rewrite last_app. by destruct (last l2). Qed.

Lemma last_contents_idle b n : last_contents b (replicate n b) = b.
Proof. induction n as [|n IH]; [done|]. cbn [replicate]. by rewrite last_contents_cons. Qed.

Lemma grows_app l1 l2 : ∀ b, grows b (l1 ++ l2) ↔ grows b l1 ∧ grows (last_contents b l1) l2.
Proof.
  induction l1 as [|c l1 IH]; intros b; cbn [app grows]; [cbn; tauto|]. rewrite IH, last_contents_cons. tauto.
Qed.

Lemma grows_idle b n : grows b (replicate n b).
Proof. induction n as [|n IH]; cbn [replicate grows]; [done|]. split; [exists ""; by rewrite str_app_nil_r|done]. Qed.

Lemma filter_key {A : Type} (k : nat) (l : list (nat * A)) : NoDup l.*1 →
  match list_find (λ km, km.1 = k) l with
  | Some (_, km) => filter (λ km, km.1 = k) l = [km]
  | None => filter (λ km, km.1 = k) l = []
  end.
Proof.
  induction l as [|[k' m] l IH]; [done|]. rewrite fmap_cons, NoDup_cons. cbn [fst]. intros [Hk Hl]. specialize (IH Hl).
  cbn [list_find]. rewrite filter_cons. cbn [fst]. destruct (decide (k' = k)) as [->|Hne].
  - f_equal. destruct (filter _ l) as [|[k2 m2] l2] eqn:Hf; [done|]. destruct Hk.
    assert (Hin : (k2, m2) ∈ filter (λ km, km.1 = k) l) by (rewrite Hf; left).
    apply list_elem_of_filter in Hin as [Hk2 Hin]. simpl in Hk2. subst k2. apply list_elem_of_fmap. by exists (k, m2).
  - destruct (list_find _ l) as [[i km]|]; done.
Qed.

(** A client is sent a message once when it watches its ID, and not at all otherwise. *)
Lemma notify_client e b k c : br_clients b !! k = Some c →
  snd <$> filter (λ km, km.1 = k) (notify e b) = if decide (cl_ID c = ev_ID e) then [ev_Msg e] else [].
Proof.
  intros Hc. destruct (notify_exact e b) as [Hnd Hin]. pose proof (filter_key k (notify e b) Hnd) as Hf.
  case_decide as Hid.
  - assert (Hk : (k, ev_Msg e) ∈ filter (λ km, km.1 = k) (notify e b)).
    { apply list_elem_of_filter. split; [done|]. apply Hin. eauto. }
    destruct (list_find _ _) as [[i km]|]; rewrite Hf in *; [|by apply not_elem_of_nil in Hk].
    apply list_elem_of_singleton in Hk as <-. done.
  - destruct (filter _ _) as [|[k' m] l] eqn:Hl; [done|].
    assert (Hk : (k', m) ∈ filter (λ km, km.1 = k) (notify e b)) by (rewrite Hl; left).
    apply list_elem_of_filter in Hk as [Heq [_ (c' & Hc' & Hid')]%Hin]. simpl in Heq. congruence.
Qed.

Lemma sent_to_client k c id ls : ∀ bs, length bs = length ls → Forall (λ b, br_clients b !! k = Some c) bs →
  sent_to k (zip (events id ls) bs) = if decide (cl_ID c = id) then ls else [].
Proof.
  induction ls as [|l ls IH]; intros [|b bs] Hlen Hbs; simplify_eq/=; [by case_decide|].
  apply Forall_cons in Hbs as [Hb Hbs].
  change (sent_to k (zip (events id (l :: ls)) (b :: bs))) with
    ((snd <$> filter (λ km, km.1 = k) (notify (mkEvent l id) b)) ++ sent_to k (zip (events id ls) bs)).
  rewrite (notify_client _ b k c Hb), (IH bs Hlen Hbs). cbn [ev_ID ev_Msg]. by case_decide.
Qed.

Section log.
Context {E : Env}.

(** C35: the log of a build reaches those who watch it.  Let complete lines, none of
    them of 64 KiB or more, be appended to the log while a tailer follows it, in
    whatever steps.  Then after as many more turns as bytes were appended the lines
    have been sent, each once and in order, without a carriage return at their ends,
    to every client that watches the build, and none to the others. *)
Theorem watchers_receive path w t d id turns ls part :
  (Tailer_New path w).1 = (t, None) → k_stat (w_fs w) path = inr (File d) → grows d turns →
  last_contents d turns = d +:+ log_text ls part → Forall (short MaxScanTokenSize) ls → short MaxScanTokenSize part →
  let idle := replicate (String.length (log_text ls part)) (last_contents d turns) in
  ∃ es sc t', follow id (turns ++ idle) NewScanner t = Some (es, Some sc, t') ∧ sc_data sc = part ∧
    ∀ k c bs, length bs = length es → Forall (λ b, br_clients b !! k = Some c) bs →
      sent_to k (zip es bs) = if decide (cl_ID c = id) then dropCR <$> ls else [].
Proof.
  intros Ht Hd Hg Hlast Hls Hpart idle. rewrite (Tailer_New_end path w t d Ht Hd). clear t Ht Hd.
  assert (Hlast' : last_contents d (turns ++ idle) = last_contents d turns).
  { unfold idle. by rewrite last_contents_app, last_contents_idle. }
  assert (Hg' : grows d (turns ++ idle)) by (apply grows_app; split; [done|apply grows_idle]).
  pose proof (NewScanner_ok MaxScanTokenSize) as Hnew.
  destruct (follow_lines path id (turns ++ idle) NewScanner d "" Hnew) as (st & data & rest & Hf & Hdata & Hst); [by rewrite str_app_nil_r|].
  destruct (follow_lines path id turns NewScanner d "" Hnew) as (st1 & data1 & rest1 & Hf1 & Hdata1 & Hst1); [by rewrite str_app_nil_r|].
  rewrite str_app_nil_r in *. rewrite Hlast', Hlast in Hdata. rewrite Hlast in Hdata1. cbn [sc_data NewScanner] in *.
  apply (inj (String.app d)) in Hdata, Hdata1. symmetry in Hdata, Hdata1.
  destruct (short_not_stuck ls part data rest Hls Hpart Hdata) as [Hmax Hall].
  destruct (short_not_stuck ls part data1 rest1 Hls Hpart Hdata1) as [Hmax1 _].
  destruct st as [sc|]; [|done]. destruct st1 as [sc1|]; [|done]. destruct Hst1 as [Hok1 _].
  assert (rest = "") as Hrest.
  { destruct (follow_catches_up path id (String.length (log_text ls part)) sc1 (d +:+ data1) rest1 Hok1) as (es2 & st2 & t2 & Hf2 & Ht2).
    { rewrite <-Hdata1, str_length_app. lia. }
    rewrite str_app_assoc, Hdata1, <-Hlast in Hf2. fold idle in Hf2.
    rewrite follow_app, Hf1, Hf2 in Hf. injection Hf as _ -> Ht2'. rewrite Ht2 in Ht2' by done.
    injection Ht2' as Hlen. rewrite !str_length_app in Hlen. pose proof (f_equal String.length Hdata) as Hl.
    pose proof (f_equal String.length Hdata1) as Hl1. rewrite str_length_app in Hl, Hl1. destruct rest; [done|simpl in Hl; lia]. }
  specialize (Hall Hrest). rewrite Hall in *. exists (events id (dropCR <$> ls)), sc. eexists. split; [exact Hf|].
  split; [apply Hst|]. intros k c bs Hlen Hbs. unfold events in Hlen. rewrite length_fmap in Hlen. by apply sent_to_client.
Qed.

(** A line of 64 KiB or more silently ends the log for those who watch it: whatever
    is appended after it, nothing but lines before it is sent. *)
Theorem long_line_ends_log path w t d id turns ls long more :
  (Tailer_New path w).1 = (t, None) → k_stat (w_fs w) path = inr (File d) → grows d turns →
  last_contents d turns = d +:+ log_text ls (long +:+ more) → Forall (short MaxScanTokenSize) ls →
  Contains long newline = false → MaxScanTokenSize ≤ String.length long →
  ∃ n st t', follow id turns NewScanner t = Some (events id (dropCR <$> take n ls), st, t').
Proof.
  intros Ht Hd Hg Hlast Hls Hn Hlen. rewrite (Tailer_New_end path w t d Ht Hd). clear t Ht Hd.
  pose proof (NewScanner_ok MaxScanTokenSize) as Hnew.
  destruct (follow_lines path id turns NewScanner d "" Hnew) as (st & data & rest & Hf & Hdata & _); [by rewrite str_app_nil_r|].
  rewrite str_app_nil_r in *. rewrite Hlast in Hdata. cbn [sc_data NewScanner] in *. apply (inj (String.app d)) in Hdata.
  assert (Hall : (stream "" (data +:+ rest)).1 = dropCR <$> ls).
  { rewrite <-Hdata, stream_lines_text by done. destruct (stream_lines_long MaxScanTokenSize long more Hn Hlen) as [-> _].
    apply app_nil_r. }
  rewrite stream_lines_app in Hall. destruct (stream "" data) as [l1 c1]. destruct (stream c1 rest) as [l2 c2]. cbn [fst] in *.
  exists (length l1), st. eexists. rewrite fmap_take, <-Hall, take_app_length. exact Hf.
Qed.
End log.

(** ** From a verbose rebuild to the logger *)

Lemma split_lines_app a b :
  split_lines (a +:+ b) =
    ((split_lines a).1 ++ (split_lines ((split_lines a).2 +:+ b)).1, (split_lines ((split_lines a).2 +:+ b)).2).
Proof.
  induction a as [|c a IH]; [by change (split_lines b = (([]:list string) ++ (split_lines b).1, (split_lines b).2)); destruct (split_lines b)|].
  rewrite str_app_cons. cbn [split_lines]. rewrite IH. pose proof (split_lines_rest a) as Hrest.
  destruct (split_lines a) as [ls rest]. cbn [fst snd] in *. case_decide as Hc; [done|]. destruct ls as [|l ls]; [|done].
  cbn [fst snd app]. rewrite str_app_cons. cbn [split_lines]. 
  destruct (split_lines (rest +:+ b)) as [[|l2 ls2] rest2]; by rewrite decide_False.
Qed.

Lemma split_lines_nil s : (split_lines s).1 = [] → (split_lines s).2 = s.
Proof.
  induction s as [|c s IH]; [done|]. cbn [split_lines]. destruct (split_lines s) as [[|l ls] rest]; case_decide; simpl in *; try done.
  intros _. by rewrite IH.
Qed.

Lemma split_lines_text ls s : Forall (short MaxScanTokenSize) ls →
  split_lines (log_text ls s) = (ls ++ (split_lines s).1, (split_lines s).2).
Proof.
  induction ls as [|l ls IH]; intros Hls; simpl; [by destruct (split_lines s)|]. apply Forall_cons in Hls as [[Hl _] Hls].
  by rewrite split_lines_line, IH.
Qed.

(** Everything in [text] went through the scanner. *)
Definition read_all (cur text : string) (ls : list string) (rest : string) : Prop :=
  ls = dropCR <$> (split_lines (cur +:+ text)).1 ∧ rest = (split_lines (cur +:+ text)).2 ∧ stream cur text = (ls, rest).

Lemma read_all_app cur a b l1 c1 l2 c2 : read_all cur a l1 c1 → read_all c1 b l2 c2 → read_all cur (a +:+ b) (l1 ++ l2) c2.
Proof.
  intros (H1 & Hc1 & H2) (H3 & H4 & H5). unfold read_all. rewrite <-str_app_assoc, split_lines_app, <-Hc1, stream_lines_app, H2, H5.
  split_and!; [|done..]. cbn [fst]. by rewrite fmap_app, H1, H3.
Qed.

Lemma stuck_app cur a b : String.length (stream cur a).2 = MaxScanTokenSize → String.length (stream cur (a +:+ b)).2 = MaxScanTokenSize.
Proof.
  rewrite stream_lines_app. destruct (stream cur a) as [l1 c1]. cbn [snd]. intros H. by rewrite stream_lines_stuck by lia.
Qed.

Abbreviation write := (pipe_write startBufSize MaxScanTokenSize).
Abbreviation pipe := (pipe_lines startBufSize MaxScanTokenSize).

(** A write returns when the scanner has read all of it, and never does once a line
    was too long. *)
Lemma pipe_write_spec fuel : ∀ b sc, scanner_ok sc → String.length b < fuel →
  match write fuel b sc with
  | Some (ls, sc') => scanner_ok sc' ∧ read_all (sc_data sc) b ls (sc_data sc')
  | None => String.length (stream (sc_data sc) b).2 = MaxScanTokenSize
  end.
Proof.
  induction fuel as [|fuel IH]; intros b sc Hok Hlen; [lia|]. cbn [pipe_write].
  pose proof (roomy_spec sc Hok) as Hroom. destruct (make_room _ _ sc) as [sc1|]; simpl; [|by rewrite stream_lines_stuck by lia].
  destruct Hroom as (Hok1 & <- & Hpos). set (data := str_take (sc_room sc1) b).
  assert (Hdata : String.length data ≤ sc_room sc1) by (unfold data; rewrite str_take_at_most; lia).
  assert (Hb : b = data +:+ str_drop (String.length data) b).
  { rewrite (str_take_drop (String.length data) b) at 1. f_equal. unfold data. rewrite str_take_at_most.
    clear. generalize (sc_room sc1) as n. induction b as [|c b IHb]; intros [|n]; simpl; try done. by rewrite IHb. }
  destruct (scan_filled _ data sc1 Hok1 Hdata) as [Hok2 Hlines]. destruct Hok1 as [Hn1 Hin1 Hlim1].
  assert (Hall : read_all (sc_data sc1) data (scan_buffered (fill data sc1)).1 (sc_data (scan_buffered (fill data sc1)).2)).
  { unfold read_all. rewrite Hlines. rewrite stream_lines_split in Hlines.
    - by injection Hlines as -> ->.
    - done.
    - unfold sc_room, sc_end in *. lia. }
  destruct (scan_buffered (fill data sc1)) as [ls sc2]. cbn [fst snd] in *. case_decide as Hend.
  - rewrite Hend, str_app_nil_r in Hb. by rewrite Hb.
  - assert (String.length data ≠ 0) as Hne.
    { unfold data. rewrite str_take_at_most. assert (b ≠ "") by (intros ->; apply Hend; by destruct (String.length data)).
      destruct b; [done|]. simpl. lia. }
    assert (Hlen2 : String.length (str_drop (String.length data) b) < fuel).
    { pose proof (f_equal String.length Hb) as Hl. rewrite str_length_app in Hl. lia. }
    specialize (IH _ sc2 Hok2 Hlen2). destruct (write fuel _ sc2) as [[more sc3]|]; simpl; rewrite Hb.
    + destruct IH as [Hok3 Hmore]. split; [done|]. by eapply read_all_app.
    + rewrite stream_lines_app, Hlines. by destruct (stream (sc_data sc2) _) as [l2 c2].
Qed.

Definition last_line (c : string) : list string := if decide (c = "") then [] else [dropCR c].

(** The text of some writes. *)
Definition written (writes : list string) : string := foldr String.app "" writes.

Lemma pipe_lines_spec writes : ∀ sc, scanner_ok sc →
  match pipe writes sc with
  | Some ls => ∃ l c, read_all (sc_data sc) (written writes) l c ∧ String.length c ≤ MaxScanTokenSize ∧
      (String.length c < MaxScanTokenSize → ls = l ++ last_line c)
  | None => String.length (stream (sc_data sc) (written writes)).2 = MaxScanTokenSize
  end.
Proof.
  induction writes as [|b writes IH]; intros sc Hok; cbn [pipe_lines written foldr].
  - pose proof (roomy_spec sc Hok) as Hroom. destruct Hok as [Hn Hin Hlim]. exists [], (sc_data sc). split_and!.
    + unfold read_all. rewrite str_app_nil_r, split_lines_none by done. done.
    + unfold sc_end in Hin. lia.
    + intros Hlt. unfold pipe_close. destruct (make_room _ _ sc) as [sc'|]; [|lia]. by destruct Hroom as (_ & -> & _).
  - pose proof (pipe_write_spec (S (String.length b)) b sc Hok) as Hw. specialize (Hw ltac:(lia)).
    destruct (pipe_write _ _ _ b sc) as [[ls sc']|]; simpl; [|by apply stuck_app]. destruct Hw as [Hok' Hall].
    specialize (IH sc' Hok'). destruct (pipe writes sc') as [more|]; simpl.
    + destruct IH as (l & c & Hmore & Hc & Hls). exists (ls ++ l), c. split_and!; [by eapply read_all_app|done|].
      intros Hlt. by rewrite (Hls Hlt), app_assoc.
    + destruct Hall as (_ & _ & Hb). rewrite stream_lines_app, Hb. fold (written writes) in *.
      by destruct (stream (sc_data sc') (written writes)).
Qed.

(** What a verbose rebuild logs is what the build wrote, line by line, a last line
    without a newline included. *)
Theorem verbose_rebuild_logs writes ls part :
  written writes = log_text ls part → Forall (short MaxScanTokenSize) ls → short MaxScanTokenSize part →
  pipe writes NewScanner = Some ((dropCR <$> ls) ++ last_line part).
Proof.
  intros Hw Hls Hpart. pose proof (pipe_lines_spec writes NewScanner (NewScanner_ok _)) as H. cbn [sc_data NewScanner] in H.
  destruct (short_not_stuck ls part (written writes) "") as [Hmax Hall]; [done|done|by rewrite str_app_nil_r|].
  specialize (Hall eq_refl). destruct (pipe writes NewScanner) as [out|]; [|done].
  destruct H as (l & c & (_ & _ & Hs) & _ & Hout). rewrite Hs in Hall. injection Hall as -> ->. destruct Hpart as [_ Hlt]. by rewrite Hout.
Qed.

(** When the build writes a line of more than 64 KiB a verbose rebuild never ends. *)
Theorem verbose_rebuild_hangs writes ls long c more :
  written writes = log_text ls (long +:+ String c more) → Forall (short MaxScanTokenSize) ls →
  Contains long newline = false → String.length long = MaxScanTokenSize →
  pipe writes NewScanner = None.
Proof.
  intros Hw Hls Hn Hlen. pose proof (pipe_lines_spec writes NewScanner (NewScanner_ok _)) as H. cbn [sc_data NewScanner] in H.
  destruct (pipe writes NewScanner) as [out|]; [|done].
  destruct H as (l & r & (Hl & Hr & Hs) & Hmax & _). change ("" +:+ written writes) with (written writes) in Hl, Hr.
  rewrite Hw in *. rewrite split_lines_text in Hl, Hr by done. cbn [fst snd] in *.
  rewrite stream_lines_text in Hs by done. destruct (stream_lines_long MaxScanTokenSize long (String c more) Hn) as [Hs1 _]; [lia|].
  rewrite Hs1, app_nil_r in Hs. injection Hs as <- _. apply (f_equal length) in Hl. rewrite !length_fmap, length_app in Hl.
  assert ((split_lines (long +:+ String c more)).1 = []) as Hnil by (apply nil_length_inv; lia).
  apply split_lines_nil in Hnil. rewrite Hnil in Hr. apply (f_equal String.length) in Hr. rewrite str_length_app in Hr. simpl in Hr. lia.
Qed.

(** ** Witnesses *)

(** A line of a few bytes is short. *)
Lemma short_few l : Contains l newline = false → (String.length l <=? 4096) = true → short MaxScanTokenSize l.
Proof. intros Hn Hl%Nat.leb_le. split; [done|]. unfold MaxScanTokenSize. lia. Qed.

Definition scen_log_world : World := set_fs {[ [] := Dir; ["l"] := File "old+" ]} scen_world.

Lemma watchers_receive_witness :
  let log := "old+" +:+ log_text ["one"; "two"] "th" in
  let idle := replicate (String.length (log_text ["one"; "two"] "th")) (last_contents "old+" ["old+on"; log]) in
  ∃ es sc t', follow "id" (["old+on"; log] ++ idle) NewScanner (mkTailer (Some "/l") 4) = Some (es, Some sc, t') ∧ sc_data sc = "th" ∧
    ∀ k c bs, length bs = length es → Forall (λ b, br_clients b !! k = Some c) bs →
      sent_to k (zip es bs) = if decide (cl_ID c = "id") then dropCR <$> ["one"; "two"] else [].
Proof.
  apply (@watchers_receive (scen_env calm alone) "/l" scen_log_world (mkTailer (Some "/l") 4) "old+" "id"
    ["old+on"; "old+" +:+ log_text ["one"; "two"] "th"] ["one"; "two"] "th").
  - vm_compute. reflexivity.
  - vm_compute. reflexivity.
  - cbn [grows]. split_and!; [by exists "on"|by eexists|exact I].
  - reflexivity.
  - repeat (apply Forall_cons; split); [by apply short_few..|]. by apply Forall_nil.
  - by apply short_few.
Defined.
