(* ===== verification/IndexSpec.v ===== *)
(** The index of jobs, their JSON form, and the rebuilding of images. *)
From S2P Require Import Prelude GoStrings Paths World FSFacts Logic Quiet Types Filesystem Config Job Metrics Queues Worker Store WorkSafety Scenario WorkSpec Http Server HandlerSpec.

Open Scope string_scope.
Open Scope list_scope.
#[local] Open Scope Z_scope.

(** ** Jobs as JSON *)

(** A job's JSON form carries its ID, project, state and build info; its start
    comes back rounded down to the second, as the format has no fractions. *)
Theorem Job_json_roundtrip `{JobJSON} j j0 :
  (∀ t, time_Parse (time_Format t) = Ok (t / Second * Second)) →
  ∃ j', Job_UnmarshalJSON (Job_MarshalJSON j) j0 = Ok j' ∧
    j_ID j' = j_ID j ∧ j_Project j' = j_Project j ∧ j_State j' = j_State j ∧
    j_BuildInfo j' = j_BuildInfo j ∧ j_StartedAt j' ≤ j_StartedAt j < j_StartedAt j' + Second.
Proof.
  intros Hf. unfold Job_UnmarshalJSON. cbn [Job_MarshalJSON jv_startedAt]. rewrite Hf. eexists.
  split; [done|]. split_and!; try done; simpl; unfold Second.
  - pose proof (Z.mul_div_le (j_StartedAt j) 1000000000). lia.
  - pose proof (Z.mul_succ_div_gt (j_StartedAt j) 1000000000). lia.
Qed.

Lemma Job_json_roundtrip_witness :
  ∃ j', Job_UnmarshalJSON (Job_MarshalJSON (scen_job scen_params "")) (scen_job ∅ "") = Ok j' ∧
    j_ID j' = j_ID (scen_job scen_params "") ∧ j_Project j' = "yarn" ∧ j_State j' = "pending" ∧
    j_BuildInfo j' = NewBuildInfo 6 ∧ j_StartedAt j' ≤ 5 < j_StartedAt j' + Second.
Proof.
  apply (@Job_json_roundtrip scen_jobjson (scen_job scen_params "")).
  intros t. cbn [time_Parse time_Format scen_jobjson]. rewrite of_bits_bits, decode_encode. reflexivity.
Defined.

(** ** The index *)

Section index.
Context {E : Env} {J : JSON} {JJ : JobJSON} {N : Network} (cfg : Config).

#[local] Instance later_total : Total later.
Proof. intros a b. unfold later. lia. Qed.

#[local] Instance later_trans : Transitive later.
Proof. intros a b c. unfold later. lia. Qed.

End index.

(** A build directory with a finished build, and one whose project directory was
    made a moment ago, or holds something else. *)
Definition scen_two_projects : World :=
  let w := scen_built (scen_docker None 0) "" in set_fs (<[["builds"; "zeta"] := Dir]> (w_fs w)) w.

Abbreviation scen_jobs w := (@getJobs (scen_env calm alone) scen_json (scen_config (@PlainFS (scen_env calm alone))) w).


(** GetJobs keeps the entries of one project for the next one when that has no
    pending or ready directory: it then looks for the builds of the first project in
    the directory of the second, fails, and the whole index with it. *)
Theorem getJobs_mixes_projects :
  (∃ job, (scen_jobs (scen_built (scen_docker None 0) "")).1 = Ok [job] ∧ j_Project job = "yarn") ∧
  (∃ msg, (scen_jobs scen_two_projects).1 = Err (ErrString msg) ∧ HasPrefix msg "cannot find job " = true).
Proof.
  split.
  - eexists. split; [vm_compute; reflexivity|reflexivity].
  - eexists. split; [vm_compute; reflexivity|reflexivity].
Qed.

(** ** Rebuilding images *)

Section rebuild.
Context {E : Env} {T : TarFormat} {H : Sha256} {D : Docker} (cfg : Config).
Context (containers_prune images_prune : nat → gores (list string * Z)) (pipe : string → M World error).

(** The accounting of the loop: each project tried is either counted or named. *)
Lemma rebuild_loop_accounts stopErr verbose projects : ∀ r w,
  let res := (rebuild_loop cfg pipe stopErr verbose projects r w).1 in
  match res.2 with
  | None =>
      rr_successful res.1 + Z.of_nat (length (rr_failed res.1))
        = rr_successful r + Z.of_nat (length (rr_failed r)) + Z.of_nat (length projects) ∧
      (stopErr = true → rr_failed res.1 = rr_failed r) ∧
      ∃ failed, rr_failed res.1 = rr_failed r ++ failed ∧ failed `sublist_of` projects
  | Some _ => stopErr = true ∧ ∃ project, project ∈ projects ∧ rr_failed res.1 = rr_failed r ++ [project]
  end.
Proof.
  induction projects as [|project projects IH]; intros r w; cbv zeta; cbn [rebuild_loop].
  - simpl. split_and!; [lia|done|]. exists []. by rewrite app_nil_r.
  - cbv zeta.
    assert (Hfail : ∀ e w1, let res := ((if stopErr then mret (mkRebuildResult (rr_successful r) (rr_failed r ++ [project]) (rr_prune r), Some e)
        else rebuild_loop cfg pipe stopErr verbose projects
               (mkRebuildResult (rr_successful r) (rr_failed r ++ [project]) (rr_prune r))) w1).1 in
      match res.2 with
      | None =>
          rr_successful res.1 + Z.of_nat (length (rr_failed res.1))
            = rr_successful r + Z.of_nat (length (rr_failed r)) + Z.of_nat (length (project :: projects)) ∧
          (stopErr = true → rr_failed res.1 = rr_failed r) ∧
          ∃ failed, rr_failed res.1 = rr_failed r ++ failed ∧ failed `sublist_of` project :: projects
      | Some _ => stopErr = true ∧ ∃ p, p ∈ project :: projects ∧ rr_failed res.1 = rr_failed r ++ [p]
      end).
    { intros e w1. destruct stopErr; cbv zeta.
      - split; [done|]. exists project. split; [by left|done].
      - specialize (IH (mkRebuildResult (rr_successful r) (rr_failed r ++ [project]) (rr_prune r)) w1).
        cbv zeta in IH. destruct (rebuild_loop _ _ _ _ _ _ w1) as [[r' [e'|]] w']; cbn [fst snd] in *; [by destruct IH|].
        destruct IH as (Hc & _ & failed & Hf & Hs). cbn [rr_failed rr_successful] in *. rewrite length_app in Hc.
        split_and!; [simpl in *; lia|done|]. exists (project :: failed). rewrite Hf, <-app_assoc. split; [done|]. by constructor. }
    rewrite bind_run. destruct (NewJob _ _ _ _ w) as [[j|e] w1]; cbn [fst snd]; [|apply Hfail].
    rewrite bind_run. destruct (BuildImage _ _ _ _ _ w1) as [[e|] w2]; cbn [fst snd]; [apply Hfail|].
    specialize (IH (mkRebuildResult (rr_successful r + 1) (rr_failed r) (rr_prune r)) w2). cbv zeta in IH.
    destruct (rebuild_loop _ _ _ _ _ _ w2) as [[r' [e'|]] w']; cbn [fst snd rr_failed rr_successful] in *.
    + destruct IH as (Hst & p & Hp & Hf). split; [done|]. exists p. split; [by right|done].
    + destruct IH as (Hc & Hst & failed & Hf & Hs). split_and!; [simpl; lia|done|]. exists failed. split; [done|]. by constructor.
Qed.

End rebuild.

