(* ===== verification/PoolSpec.v ===== *)
(** The worker pool in every run: no job is lost, done twice or overtaken, workers
    do not panic, and stopping drains the queue. *)
From S2P Require Import Prelude GoStrings World Types Job Pool.

Open Scope list_scope.

Lemma omap_at {A B : Type} (f : A → option B) l i x :
  l !! i = Some x → omap f l ≡ₚ option_list (f x) ++ omap f (delete i l).
Proof.
  intros H. rewrite (delete_Permutation l i x H) at 1. simpl. by destruct (f x).
Qed.

Lemma omap_insert_at {A B : Type} (f : A → option B) l i x y :
  l !! i = Some x → omap f (<[i := y]> l) ≡ₚ option_list (f y) ++ omap f (delete i l).
Proof.
  intros H. rewrite (omap_at f (<[i := y]> l) i y) by (by apply list_lookup_insert_eq; eapply lookup_lt_Some).
  assert (delete i (<[i := y]> l) = delete i l) as ->; [|done].
  apply list_eq. intros k. rewrite !list_lookup_delete. case_decide; by rewrite list_lookup_insert_ne by lia.
Qed.

(** The state of a pool, and what was observed on the way to it. *)
Record inv (p : Pool) (es : list event) : Prop := {
  i_room : (length (p_queue p) ≤ p_backlog p)%nat;
  i_fifo : accepted es = begun es ++ queued p;
  i_begun : begun es ≡ₚ running p ++ finished es;
  i_fresh : NoDup (accepted es);
  i_chan n : n ∈ accepted es → (n < length (p_chans p))%nat;
  i_sent : NoDup (sent p);
  i_sent_done n : n ∈ sent p → n ∈ finished es;
  i_open n : n ∈ queued p ++ running p → p_chans p !! n = Some (mkChan None false);
  i_unclosed n : n ∈ sent p → ∃ v, p_chans p !! n = Some (mkChan v false);
  i_produced n r : (n, r) ∈ produced es →
    (∃ c, p_chans p !! n = Some (mkChan (Some r) c) ∧ n ∉ (received es).*1) ∨
    ((n, r) ∈ received es ∧ ∃ c, p_chans p !! n = Some (mkChan None c));
  i_value n r c : p_chans p !! n = Some (mkChan (Some r) c) → (n, r) ∈ produced es;
  i_received n r : (n, r) ∈ received es → (n, r) ∈ produced es;
  i_once : NoDup (received es).*1;
  i_exited i : p_workers p !! i = Some Exited → p_closed p = true ∧ p_queue p = [];
}.

Lemma finished_produced es : finished es = (produced es).*1.
Proof.
  induction es as [|[| | |n r| | | |] es IH]; [done|try exact IH..].
  change (n :: finished es = n :: (produced es).*1). by rewrite IH.
Qed.

Lemma accepted_app es es' : accepted (es ++ es') = accepted es ++ accepted es'.
Proof. apply omap_app. Qed.
Lemma begun_app es es' : begun (es ++ es') = begun es ++ begun es'.
Proof. apply omap_app. Qed.
Lemma finished_app es es' : finished (es ++ es') = finished es ++ finished es'.
Proof. apply omap_app. Qed.
Lemma received_app es es' : received (es ++ es') = received es ++ received es'.
Proof. apply omap_app. Qed.
Lemma produced_app es es' : produced (es ++ es') = produced es ++ produced es'.
Proof. apply omap_app. Qed.

(** Observations about no job in particular. *)
Lemma inv_silent p es e :
  inv p es → match e with Refused | Left _ | Stopped | Panic => True | _ => False end → inv p (es ++ [e]).
Proof.
  intros Hi He.
  assert (H1 : accepted [e] = []) by (by destruct e). assert (H2 : begun [e] = []) by (by destruct e).
  assert (H3 : finished [e] = []) by (by destruct e). assert (H4 : received [e] = []) by (by destruct e).
  assert (H5 : produced [e] = []) by (by destruct e).
  destruct Hi. split; rewrite ?accepted_app, ?begun_app, ?finished_app, ?received_app, ?produced_app,
    ?H1, ?H2, ?H3, ?H4, ?H5, ?app_nil_r; done.
Qed.

Section steps.
Context (p : Pool) (es : list event) (Hi : inv p es).

Lemma accepted_split : accepted es ≡ₚ running p ++ finished es ++ queued p.
Proof. rewrite (i_fifo _ _ Hi), (i_begun _ _ Hi). by rewrite <-app_assoc. Qed.

Lemma places_disjoint : NoDup (running p ++ finished es ++ queued p).
Proof. rewrite <-accepted_split. apply Hi. Qed.

Lemma running_open i item : p_workers p !! i = Some (Running item) → p_chans p !! wi_result item = Some (mkChan None false).
Proof.
  intros Hw. apply (i_open _ _ Hi), elem_of_app. right.
  unfold running. apply list_elem_of_omap. exists (Running item). split; [by eapply list_elem_of_lookup_2|done].
Qed.

Lemma sent_open i item : p_workers p !! i = Some (Sent item) → ∃ v, p_chans p !! wi_result item = Some (mkChan v false).
Proof.
  intros Hw. apply (i_unclosed _ _ Hi). unfold sent. apply list_elem_of_omap.
  exists (Sent item). split; [by eapply list_elem_of_lookup_2|done].
Qed.

(** The parts of the pool when one worker changes. *)
Lemma running_set i w w' : p_workers p !! i = Some w →
  running (set_worker i w' p) ≡ₚ
  match w' with Running it => [wi_result it] | _ => [] end ++
  omap (λ w, match w with Running it => Some (wi_result it) | _ => None end) (delete i (p_workers p)).
Proof. intros Hw. unfold running. simpl. rewrite (omap_insert_at _ _ _ _ _ Hw). by destruct w'. Qed.

Lemma running_at i w : p_workers p !! i = Some w →
  running p ≡ₚ
  match w with Running it => [wi_result it] | _ => [] end ++
  omap (λ w, match w with Running it => Some (wi_result it) | _ => None end) (delete i (p_workers p)).
Proof. intros Hw. unfold running. rewrite (omap_at _ _ _ _ Hw). by destruct w. Qed.

Lemma sent_set i w w' : p_workers p !! i = Some w →
  sent (set_worker i w' p) ≡ₚ
  match w' with Sent it => [wi_result it] | _ => [] end ++
  omap (λ w, match w with Sent it => Some (wi_result it) | _ => None end) (delete i (p_workers p)).
Proof. intros Hw. unfold sent. simpl. rewrite (omap_insert_at _ _ _ _ _ Hw). by destruct w'. Qed.

Lemma sent_at i w : p_workers p !! i = Some w →
  sent p ≡ₚ
  match w with Sent it => [wi_result it] | _ => [] end ++
  omap (λ w, match w with Sent it => Some (wi_result it) | _ => None end) (delete i (p_workers p)).
Proof. intros Hw. unfold sent. rewrite (omap_at _ _ _ _ Hw). by destruct w. Qed.

Lemma worker_exited i w j : w ≠ Exited → <[i := w]> (p_workers p) !! j = Some Exited → p_workers p !! j = Some Exited.
Proof. intros Hw [(_ & ? & _)|[_ ?]]%list_lookup_insert_Some; [congruence|done]. Qed.

(** Adding a channel keeps the old ones. *)
Lemma new_chan_old n c : p_chans p !! n = Some c → p_chans (new_chan p) !! n = Some c.
Proof. intros H. simpl. rewrite lookup_app_l; [done|]. by eapply lookup_lt_Some. Qed.

Lemma new_chan_inv n r c : p_chans (new_chan p) !! n = Some (mkChan (Some r) c) → p_chans p !! n = Some (mkChan (Some r) c).
Proof. simpl. rewrite lookup_app_Some. intros [?|[_ Hl]]; [done|]. apply list_lookup_singleton_Some in Hl as [_ [=]]. Qed.

Lemma new_chan_fresh : length (p_chans p) ∉ accepted es.
Proof. intros Hn%(i_chan _ _ Hi). lia. Qed.

Lemma inv_new_chan : inv (new_chan p) es.
Proof.
  destruct Hi. split; try done.
  - intros n Hn. simpl. rewrite length_app. specialize (i_chan0 n Hn). lia.
  - intros n Hn. by apply new_chan_old, i_open0.
  - intros n Hn. destruct (i_unclosed0 n Hn) as [v Hv]. exists v. by apply new_chan_old.
  - intros n r Hn. destruct (i_produced0 n r Hn) as [(c & Hc & ?)|[? (c & Hc)]]; [left|right].
    + exists c. split; [by apply new_chan_old|done].
    + split; [done|]. exists c. by apply new_chan_old.
  - intros n r c Hc%new_chan_inv. by eapply i_value0.
Qed.

Lemma inv_send j : let '(p', e) := send j p in inv p' (es ++ [e]).
Proof.
  pose proof inv_new_chan as Hn. unfold send. destruct (p_closed p) eqn:Hc; [by apply inv_silent|].
  case_decide as Hr; [|by apply inv_silent].
  pose proof (i_fifo _ _ Hi) as Hf. pose proof new_chan_fresh as Hfr. destruct Hn.
  split; rewrite ?accepted_app, ?begun_app, ?finished_app, ?received_app, ?produced_app;
    cbn [accepted begun finished received produced omap list_omap]; rewrite ?app_nil_r; try done.
  - simpl. rewrite length_app. simpl. lia.
  - unfold queued. simpl. rewrite fmap_app. rewrite Hf. by rewrite <-app_assoc.
  - apply NoDup_app. split_and!; [done|by intros x Hx ->%list_elem_of_singleton|apply NoDup_singleton].
  - intros n [Hn| ->%list_elem_of_singleton]%elem_of_app; [by apply i_chan0|]. simpl. rewrite length_app. simpl. lia.
  - intros n. unfold queued. simpl. rewrite fmap_app, !elem_of_app. intros [[Hq|Hq%list_elem_of_singleton]|Hq].
    + apply i_open0, elem_of_app. by left.
    + subst n. simpl. by rewrite lookup_app_r, Nat.sub_diag by lia.
    + apply i_open0, elem_of_app. by right.
  - intros i Hw. destruct (i_exited0 i Hw). simpl in *. congruence.
Qed.

Lemma inv_handoff j i p' es' : handoff j i p = Some (p', es') → inv p' (es ++ es').
Proof.
  pose proof inv_new_chan as Hn. unfold handoff. destruct (p_closed p) eqn:Hc; [done|].
  destruct (p_queue p) as [|] eqn:Hq; [|done]. destruct (p_workers p !! i) as [[]|] eqn:Hw; try done.
  intros [= <- <-]. pose proof new_chan_fresh as Hfr. pose proof (i_fifo _ _ Hi) as Hf.
  pose proof (running_set i Waiting (Running (mkWorkItem j (length (p_chans p)))) Hw) as Hrs.
  pose proof (running_at i Waiting Hw) as Hra.
  pose proof (sent_set i Waiting (Running (mkWorkItem j (length (p_chans p)))) Hw) as Hss.
  pose proof (sent_at i Waiting Hw) as Hsa. simpl in Hra, Hsa, Hrs, Hss. rewrite <-Hra in Hrs. rewrite <-Hsa in Hss.
  set (item := mkWorkItem j (length (p_chans p))) in *. set (p2 := set_worker i (Running item) (new_chan p)).
  change (running (set_worker i (Running item) p)) with (running p2) in Hrs.
  change (sent (set_worker i (Running item) p)) with (sent p2) in Hss.
  unfold queued in Hf. rewrite Hq, app_nil_r in Hf. destruct Hn.
  split; rewrite ?accepted_app, ?begun_app, ?finished_app, ?received_app, ?produced_app;
    cbn [accepted begun finished received produced omap list_omap]; rewrite ?app_nil_r; try done.
  - unfold queued. simpl. rewrite Hq. rewrite Hf. by rewrite app_nil_r.
  - rewrite Hrs, (i_begun _ _ Hi). by rewrite Permutation_app_comm.
  - apply NoDup_app. split_and!; [done|by intros x Hx ->%list_elem_of_singleton|apply NoDup_singleton].
  - intros n [Hn| ->%list_elem_of_singleton]%elem_of_app; [by apply i_chan0|]. simpl. rewrite length_app. simpl. lia.
  - by rewrite Hss.
  - intros n. rewrite Hss. apply i_sent_done0.
  - intros n. rewrite Hrs. unfold queued. simpl. rewrite Hq. rewrite elem_of_app, elem_of_cons.
    intros [?%not_elem_of_nil|[->|Hr]]; [done| |].
    + simpl. by rewrite lookup_app_r, Nat.sub_diag by lia.
    + apply i_open0, elem_of_app. by right.
  - intros n. rewrite Hss. apply i_unclosed0.
  - intros k Hk. apply worker_exited in Hk; [|done]. destruct (i_exited0 k Hk). simpl in *. congruence.
Qed.

Lemma inv_take i p' es' : take_item i p = Some (p', es') → inv p' (es ++ es').
Proof.
  unfold take_item. destruct (p_queue p) as [|item rest] eqn:Hq; [done|].
  destruct (p_workers p !! i) as [[]|] eqn:Hw; try done. intros [= <- <-].
  pose proof (i_fifo _ _ Hi) as Hf. unfold queued in Hf. rewrite Hq in Hf. simpl in Hf.
  pose proof (running_set i Waiting (Running item) Hw) as Hrs. pose proof (running_at i Waiting Hw) as Hra.
  pose proof (sent_set i Waiting (Running item) Hw) as Hss. pose proof (sent_at i Waiting Hw) as Hsa.
  simpl in Hra, Hsa, Hrs, Hss. rewrite <-Hra in Hrs. rewrite <-Hsa in Hss.
  change (running (set_worker i (Running item) p)) with (running (set_queue rest (set_worker i (Running item) p))) in Hrs.
  change (sent (set_worker i (Running item) p)) with (sent (set_queue rest (set_worker i (Running item) p))) in Hss.
  destruct Hi.
  split; rewrite ?accepted_app, ?begun_app, ?finished_app, ?received_app, ?produced_app;
    cbn [accepted begun finished received produced omap list_omap]; rewrite ?app_nil_r; try done.
  - rewrite Hq in i_room0. simpl in *. lia.
  - rewrite Hf. unfold queued. simpl. by rewrite <-app_assoc.
  - rewrite Hrs, i_begun0. by rewrite Permutation_app_comm.
  - by rewrite Hss.
  - intros n. rewrite Hss. apply i_sent_done0.
  - intros n. rewrite Hrs. unfold queued in *. simpl. rewrite Hq in i_open0. simpl in i_open0. intros Hn. apply i_open0.
    revert Hn. rewrite !elem_of_app, !elem_of_cons, elem_of_app. tauto.
  - intros n. rewrite Hss. apply i_unclosed0.
  - intros k Hk. apply worker_exited in Hk; [|done]. destruct (i_exited0 k Hk). congruence.
Qed.

Lemma inv_finish i r p' es' : finish i r p = Some (p', es') → inv p' (es ++ es').
Proof.
  unfold finish. destruct (p_workers p !! i) as [[|item| |]|] eqn:Hw; try done.
  rewrite (running_open i item Hw). intros [= <- <-].
  set (n := wi_result item). assert (Hlt : (n < length (p_chans p))%nat) by (eapply lookup_lt_Some, (running_open i item Hw)).
  pose proof (running_set i (Running item) (Sent item) Hw) as Hrs. pose proof (running_at i (Running item) Hw) as Hra.
  pose proof (sent_set i (Running item) (Sent item) Hw) as Hss. pose proof (sent_at i (Running item) Hw) as Hsa.
  simpl in Hra, Hsa, Hrs, Hss. fold n in Hra, Hss. set (R := omap _ (delete i (p_workers p))) in Hra, Hrs.
  rewrite <-Hsa in Hss. pose proof places_disjoint as Hnd. rewrite Hra in Hnd. simpl in Hnd.
  apply NoDup_cons in Hnd as [Hn Hnd]. rewrite !elem_of_app in Hn.
  set (p2 := set_worker i (Sent item) (set_chan n (mkChan (Some r) false) p)).
  change (running (set_worker i (Sent item) p)) with (running p2) in Hrs.
  change (sent (set_worker i (Sent item) p)) with (sent p2) in Hss.
  assert (Hother : ∀ m, m ≠ n → p_chans p2 !! m = p_chans p !! m) by (intros m Hm; by apply list_lookup_insert_ne).
  assert (Hhere : p_chans p2 !! n = Some (mkChan (Some r) false)) by (by apply list_lookup_insert_eq).
  pose proof (running_open i item Hw) as Hopen. fold n in Hopen. destruct Hi.
  split; rewrite ?accepted_app, ?begun_app, ?finished_app, ?received_app, ?produced_app;
    cbn [accepted begun finished received produced omap list_omap]; rewrite ?app_nil_r; try done.
  - rewrite Hrs, i_begun0, Hra. rewrite (Permutation_app_comm (finished es)). simpl. by rewrite Permutation_middle.
  - intros m Hm. unfold p2. simpl. rewrite length_insert. by apply i_chan0.
  - rewrite Hss. apply NoDup_cons. split; [|done]. intros Hs%i_sent_done0. apply Hn. tauto.
  - intros m. rewrite Hss, elem_of_cons, elem_of_app. intros [->|Hm]; [right; by left|left; by apply i_sent_done0].
  - intros m Hm. rewrite Hother.
    + apply i_open0. revert Hm. rewrite Hrs, Hra. rewrite !elem_of_app, elem_of_cons. change (queued p2) with (queued p). tauto.
    + intros ->. rewrite Hrs in Hm. apply elem_of_app in Hm as [Hm|Hm]; apply Hn; tauto.
  - intros m. rewrite Hss, elem_of_cons. intros [->|Hm]; [eauto|].
    destruct (i_unclosed0 m Hm) as [v Hv]. exists v. rewrite Hother; [done|]. intros ->. apply Hn. right. left. by apply i_sent_done0.
  - intros m s. rewrite elem_of_app. intros [Hm|[= -> ->]%list_elem_of_singleton].
    + assert (m ≠ n) as Hne.
      { intros ->. destruct (i_produced0 n s Hm) as [(c & Hc & _)|[_ (c & Hc)]]; [congruence|].
        apply Hn. right. left. rewrite finished_produced. apply list_elem_of_fmap. by exists (n, s). }
      rewrite Hother by done. by apply i_produced0.
    + left. exists false. split; [done|]. intros Hrec. apply list_elem_of_fmap in Hrec as ([m s] & -> & Hrec).
      apply Hn. right. left. rewrite finished_produced. apply list_elem_of_fmap. exists (m, s). split; [done|]. by apply i_received0.
  - intros m s c. destruct (decide (m = n)) as [->|Hne].
    + rewrite Hhere. intros [= <- <-]. apply elem_of_app. right. by left.
    + rewrite Hother by done. intros Hm. apply elem_of_app. left. by eapply i_value0.
  - intros m s Hm. apply elem_of_app. left. by apply i_received0.
  - intros k Hk. apply worker_exited in Hk; [|done]. by apply i_exited0 in Hk.
Qed.

Lemma inv_close i p' es' : close_result i p = Some (p', es') → inv p' (es ++ es').
Proof.
  unfold close_result. destruct (p_workers p !! i) as [[| |item|]|] eqn:Hw; try done.
  destruct (sent_open i item Hw) as [v Hv]. rewrite Hv. intros [= <- <-]. rewrite app_nil_r.
  set (n := wi_result item) in *.
  pose proof (running_set i (Sent item) Waiting Hw) as Hrs. pose proof (running_at i (Sent item) Hw) as Hra.
  pose proof (sent_set i (Sent item) Waiting Hw) as Hss. pose proof (sent_at i (Sent item) Hw) as Hsa.
  simpl in Hra, Hsa, Hrs, Hss. fold n in Hsa. rewrite <-Hra in Hrs. set (R := omap _ (delete i (p_workers p))) in Hsa, Hss.
  set (p2 := set_worker i Waiting (set_chan n (mkChan v true) p)).
  change (running (set_worker i Waiting p)) with (running p2) in Hrs.
  change (sent (set_worker i Waiting p)) with (sent p2) in Hss.
  assert (Hother : ∀ m, m ≠ n → p_chans p2 !! m = p_chans p !! m) by (intros m Hm; by apply list_lookup_insert_ne).
  assert (Hhere : p_chans p2 !! n = Some (mkChan v true)) by (apply list_lookup_insert_eq; by eapply lookup_lt_Some).
  pose proof (i_sent _ _ Hi) as Hnd. rewrite Hsa in Hnd. apply NoDup_cons in Hnd as [Hn Hnd].
  assert (Hdone : n ∈ finished es) by (apply (i_sent_done _ _ Hi); rewrite Hsa; by left).
  pose proof places_disjoint as Hpl. destruct Hi. split; try done.
  - by rewrite Hrs.
  - intros m Hm. unfold p2. simpl. rewrite length_insert. by apply i_chan0.
  - by rewrite Hss.
  - intros m Hm. apply i_sent_done0. rewrite Hsa. right. by rewrite Hss in Hm.
  - intros m. rewrite Hrs. intros Hm. rewrite Hother; [by apply i_open0|]. intros ->.
    apply NoDup_app in Hpl as (_ & Hd1 & Hpl). apply NoDup_app in Hpl as (_ & Hd2 & _).
    apply elem_of_app in Hm as [Hm|Hm]; [by apply (Hd2 n)|]. apply (Hd1 n Hm). apply elem_of_app. by left.
  - intros m. rewrite Hss. intros Hm. destruct (i_unclosed0 m) as [u Hu]; [rewrite Hsa; by right|].
    exists u. rewrite Hother; [done|]. by intros ->.
  - intros m s Hm. destruct (decide (m = n)) as [->|Hne]; [|rewrite Hother by done; by apply i_produced0].
    rewrite Hhere. destruct (i_produced0 n s Hm) as [(c & Hc & Hr)|[Hr (c & Hc)]]; [left|right]; rewrite Hv in Hc; injection Hc as -> <-; eauto.
  - intros m s c. destruct (decide (m = n)) as [->|Hne]; [|rewrite Hother by done; apply i_value0].
    rewrite Hhere. intros [= -> _]. by eapply i_value0.
  - intros k Hk. apply worker_exited in Hk; [|done]. by apply i_exited0 in Hk.
Qed.

Lemma inv_exit i p' es' : exit_loop i p = Some (p', es') → inv p' (es ++ es').
Proof.
  unfold exit_loop. destruct (p_closed p) eqn:Hc; [|done]. destruct (p_queue p) as [|] eqn:Hq; [|done].
  destruct (p_workers p !! i) as [[]|] eqn:Hw; try done. intros [= <- <-].
  assert (Hr : running (set_worker i Exited p) ≡ₚ running p).
  { rewrite (running_set i Waiting Exited Hw). by rewrite (running_at i Waiting Hw). }
  assert (Hs : sent (set_worker i Exited p) ≡ₚ sent p).
  { rewrite (sent_set i Waiting Exited Hw). by rewrite (sent_at i Waiting Hw). }
  apply inv_silent; [|done]. destruct Hi. split; try done.
  - by rewrite Hr.
  - by rewrite Hs.
  - intros n. rewrite Hs. apply i_sent_done0.
  - intros n. rewrite Hr. apply i_open0.
  - intros n. rewrite Hs. apply i_unclosed0.
Qed.

Lemma inv_stop : let '(p', e) := stop p in inv p' (es ++ [e]).
Proof.
  unfold stop. destruct (p_closed p) eqn:Hc; apply inv_silent; try done. destruct Hi. split; try done.
  intros i Hw. by destruct (i_exited0 i Hw).
Qed.

Lemma inv_wait n p' es' : wait n p = Some (p', es') → inv p' (es ++ es').
Proof.
  unfold wait. destruct (p_chans p !! n) as [[[r|] c]|] eqn:Hn; [| |done].
  - intros [= <- <-]. set (p2 := set_chan n (mkChan None c) p).
    assert (Hother : ∀ m, m ≠ n → p_chans p2 !! m = p_chans p !! m) by (intros m Hm; by apply list_lookup_insert_ne).
    assert (Hhere : p_chans p2 !! n = Some (mkChan None c)) by (apply list_lookup_insert_eq; by eapply lookup_lt_Some).
    pose proof (i_value _ _ Hi n r c Hn) as Hprod.
    assert (Hnr : n ∉ (received es).*1).
    { destruct (i_produced _ _ Hi n r Hprod) as [(c' & _ & ?)|[_ (c' & Hc')]]; [done|congruence]. }
    destruct Hi.
    split; rewrite ?accepted_app, ?begun_app, ?finished_app, ?received_app, ?produced_app;
      cbn [accepted begun finished received produced omap list_omap]; rewrite ?app_nil_r; try done.
    + intros m Hm. unfold p2. simpl. rewrite length_insert. by apply i_chan0.
    + intros m Hm. specialize (i_open0 m Hm). rewrite Hother; [done|]. intros ->. congruence.
    + intros m Hm. destruct (i_unclosed0 m Hm) as [v Hv]. destruct (decide (m = n)) as [->|Hne]; [|exists v; by rewrite Hother].
      exists None. rewrite Hhere. congruence.
    + intros m s Hm. rewrite fmap_app. destruct (decide (m = n)) as [->|Hne].
      * right. split; [|by exists c]. apply elem_of_app. right.
        destruct (i_produced0 n s Hm) as [(c' & Hc' & _)|[_ (c' & Hc')]]; [|congruence].
        assert (s = r) as -> by congruence. by left.
      * rewrite Hother by done. destruct (i_produced0 m s Hm) as [(c' & Hc' & Hr)|[Hr Hc']]; [left|right].
        -- exists c'. split; [done|]. rewrite elem_of_app. intros [?|Hx%list_elem_of_singleton]; [done|]. by simpl in Hx.
        -- split; [apply elem_of_app; by left|done].
    + intros m s c'. destruct (decide (m = n)) as [->|Hne]; [by rewrite Hhere|]. rewrite Hother by done. apply i_value0.
    + intros m s [Hm|[= -> ->]%list_elem_of_singleton]%elem_of_app; [by apply i_received0|done].
    + rewrite fmap_app. apply NoDup_app. split_and!; [done| |apply NoDup_singleton].
      intros m Hm Hx%list_elem_of_singleton. simpl in Hx. by subst.
  - destruct c; [|done]. intros [= <- <-]. by apply inv_silent.
Qed.

Lemma inv_act a p' es' : act a p = Some (p', es') → inv p' (es ++ es').
Proof.
  destruct a; simpl.
  - pose proof (inv_send j) as H. destruct (send j p) as [q e]. intros [= <- <-]. exact H.
  - apply inv_handoff.
  - apply inv_take.
  - apply inv_finish.
  - apply inv_close.
  - apply inv_exit.
  - pose proof inv_stop as H. destruct (stop p) as [q e]. intros [= <- <-]. exact H.
  - apply inv_wait.
Qed.
End steps.

Lemma inv_run l : ∀ p es, inv p es → inv (run l p).1 (es ++ (run l p).2).
Proof.
  induction l as [|a l IH]; intros p es Hi; simpl; [by rewrite app_nil_r|].
  destruct (act a p) as [[p' es']|] eqn:Ha; [|by apply IH].
  specialize (IH p' (es ++ es') (inv_act p es Hi a p' es' Ha)).
  destruct (run l p') as [p'' es'']. simpl in *. by rewrite app_assoc.
Qed.

Lemma inv_new m c b p : NewWorkerPool m c b = Some p → inv p [].
Proof.
  unfold NewWorkerPool. case_decide as Hb; [done|]. intros [= <-].
  assert (Hr : ∀ f : worker → option nat, f Waiting = None → omap f (replicate (Z.to_nat c) Waiting) = []).
  { intros f Hf. induction (Z.to_nat c) as [|k IH]; simpl; [done|]. by rewrite Hf. }
  assert (Hn : ∀ (A : Type) (x : A), x ∉ []) by (intros A x; apply not_elem_of_nil).
  split; simpl; unfold running, sent, queued; simpl; rewrite ?Hr by done; try done; try constructor;
    try (intros; exfalso; eapply Hn; eassumption).
  - lia.
  - by apply lookup_replicate in H as [? _].
  - done.
Qed.

(** The size of a pool does not change. *)
Lemma act_sizes a p p' es : act a p = Some (p', es) →
  p_backlog p' = p_backlog p ∧ length (p_workers p') = length (p_workers p).
Proof.
  destruct a; simpl; unfold send, handoff, take_item, finish, close_result, exit_loop, stop, wait; intros H;
    repeat (case_match; simplify_eq/=); rewrite ?length_insert; done.
Qed.

Lemma run_sizes l : ∀ p, p_backlog (run l p).1 = p_backlog p ∧ length (p_workers (run l p).1) = length (p_workers p).
Proof.
  induction l as [|a l IH]; intros p; simpl; [done|]. destruct (act a p) as [[p' es]|] eqn:Ha; [|apply IH].
  destruct (act_sizes a p p' es Ha) as [H1 H2]. destruct (IH p') as [H3 H4].
  destruct (run l p') as [q es']. simpl in *. lia.
Qed.

Lemma busy_length (l : list worker) :
  (length (omap (λ w, match w with Running it => Some (wi_result it) | _ => None end) l) +
   length (omap (λ w, match w with Sent it => Some (wi_result it) | _ => None end) l) ≤ length l)%nat.
Proof.
  induction l as [|[] l IH]; cbn [omap list_omap length] in *; simpl; unfold omap in *; lia.
Qed.

(** C21: in every run of the pool, whatever the order of sends, workers and waits: the
    jobs accepted are, in their order, those started followed by those in the queue,
    so that none overtakes another; each one started is either with a worker or
    finished, and no job is accepted, started or finished twice; the queue never
    holds more than the backlog, nor the workers more jobs than the concurrency. *)
Theorem pool_conserves m c b p0 l :
  NewWorkerPool m c b = Some p0 →
  let '(p, es) := run l p0 in
  accepted es = begun es ++ queued p ∧ begun es ≡ₚ running p ++ finished es ∧ NoDup (accepted es) ∧
  (length (queued p) ≤ Z.to_nat b)%nat ∧ (length (running p) + length (sent p) ≤ Z.to_nat c)%nat.
Proof.
  intros Hp. pose proof (inv_run l p0 [] (inv_new m c b p0 Hp)) as Hi. pose proof (run_sizes l p0) as [Hs1 Hs2].
  destruct (run l p0) as [p es]. simpl in *. unfold NewWorkerPool in Hp. case_decide; [done|]. injection Hp as <-.
  simpl in *. rewrite length_replicate in Hs2. split_and!; try apply Hi.
  - unfold queued. rewrite length_fmap, <-Hs1. apply Hi.
  - rewrite <-Hs2. apply busy_length.
Qed.


(** A worker never panics: the channel it sends a result to is its own, empty and
    open, and so is the one it closes. *)
Theorem workers_do_not_panic m c b p0 l a p' es' :
  NewWorkerPool m c b = Some p0 →
  match a with Take _ | Finish _ _ | Close _ | Exit _ => True | _ => False end →
  act a (run l p0).1 = Some (p', es') → Panic ∉ es'.
Proof.
  intros Hp Ha. pose proof (inv_run l p0 [] (inv_new m c b p0 Hp)) as Hi.
  destruct (run l p0) as [p es]. simpl in *. destruct a as [j|j i|i|i r|i|i| |n]; try done; simpl.
  - unfold take_item. intros H. repeat (case_match; simplify_eq/=). by intros [=]%list_elem_of_singleton.
  - unfold finish. destruct (p_workers p !! i) as [[|item| |]|] eqn:Hw; try done.
    rewrite (running_open p es Hi i item Hw). intros [= _ <-]. by intros [=]%list_elem_of_singleton.
  - unfold close_result. destruct (p_workers p !! i) as [[| |item|]|] eqn:Hw; try done.
    destruct (sent_open p es Hi i item Hw) as [v ->]. intros [= _ <-]. apply not_elem_of_nil.
  - unfold exit_loop. intros H. repeat (case_match; simplify_eq/=). by intros [=]%list_elem_of_singleton.
Qed.

(** A pool whose workers have all left has no job. *)
Lemma all_left p es : inv p es → (0 < length (p_workers p))%nat → Forall (λ w, w = Exited) (p_workers p) →
  accepted es ≡ₚ finished es.
Proof.
  intros Hi Hlen Hall. rewrite (i_fifo _ _ Hi), (i_begun _ _ Hi).
  destruct (lookup_lt_is_Some_2 (p_workers p) 0) as [w Hw]; [done|].
  assert (w = Exited) as -> by (by eapply (Forall_lookup_1 _ _ _ _ Hall Hw)).
  destruct (i_exited _ _ Hi 0%nat Hw) as [_ Hq]. unfold queued, running. rewrite Hq. simpl. rewrite app_nil_r.
  by replace (omap _ (p_workers p)) with (@nil nat) by (clear -Hall; induction Hall as [|v vs -> _ IH]; simpl; done).
Qed.


(** ** Witnesses: one worker, a backlog of two *)

Definition some_job : Job :=
  mkJob "" "p" ∅ "" false "" "" "" "" "" "" "" "" "" "" "" 0 (NewBuildInfo 0) "pending".
Definition some_result : WorkResult := mkWorkResult (Some (NewBuildInfo 0)) None.
Definition busy_day : list action :=
  [Send some_job; Take 0; Send some_job; Send some_job; Send some_job; Finish 0 some_result; Close 0; Wait 0; Take 0].
Definition small_pool : Pool := mkPool 2 [] false [Waiting] [].

Lemma pool_conserves_witness :
  let '(p, es) := run busy_day small_pool in
  accepted es = begun es ++ queued p ∧ begun es ≡ₚ running p ++ finished es ∧ NoDup (accepted es) ∧
  (length (queued p) ≤ 2)%nat ∧ (length (running p) + length (sent p) ≤ 1)%nat.
Proof. apply (pool_conserves 100 1 2 small_pool busy_day). reflexivity. Defined.


Lemma workers_do_not_panic_witness : Panic ∉ [Finished 1 some_result].
Proof.
  eapply (workers_do_not_panic 100 1 2 small_pool busy_day (Finish 0 some_result)); [reflexivity|exact I|].
  vm_compute. reflexivity.
Defined.

