(* ===== verification/PoolStop.v ===== *)
(** Stopping the pool terminates: the actions of the workers use up a measure that
    nothing else adds to once the queue is closed, and they only run out of
    actions when all of them have left. *)
From S2P Require Import Prelude GoStrings World Types Job Pool PoolSpec.

Open Scope list_scope.

(** What a worker still has to do before it waits again and leaves. *)
Definition effort (w : worker) : nat :=
  match w with Waiting => 1 | Running _ => 3 | Sent _ => 2 | Exited => 0 end%nat.

(** What all of them have to do, a queued job being taken, finished and closed. *)
Definition work_left (p : Pool) : nat := (3 * length (p_queue p) + sum_list_with effort (p_workers p))%nat.

(** One action of one worker. *)
Definition worker_step (p p' : Pool) : Prop := ∃ a es, is_worker a = true ∧ act a p = Some (p', es).

(** The number of worker actions of a run that are possible where they occur. *)
Fixpoint worker_acts (l : list action) (p : Pool) : nat :=
  match l with
  | [] => 0
  | a :: l =>
      match act a p with
      | Some (p', _) => (if is_worker a then 1 else 0) + worker_acts l p'
      | None => worker_acts l p
      end
  end%nat.

Lemma effort_insert i w w' l : l !! i = Some w →
  (sum_list_with effort (<[i := w']> l) + effort w = sum_list_with effort l + effort w')%nat.
Proof.
  revert i. induction l as [|v l IH]; intros [|i]; simpl; try done.
  - intros [= ->]. lia.
  - intros H%IH. lia.
Qed.

(** Each action of a worker leaves less to do. *)
Lemma worker_act_less a p p' es : is_worker a = true → act a p = Some (p', es) → (work_left p' < work_left p)%nat.
Proof.
  destruct a; try done; simpl; intros _; unfold take_item, finish, close_result, exit_loop, work_left; intros H;
    repeat (case_match; simplify_eq/=);
    match goal with Hw : p_workers p !! _ = Some ?w |- context [<[_ := ?w']> _] =>
      pose proof (effort_insert _ _ w' _ Hw) end; simpl in *; try rewrite H1; simpl; lia.
Qed.

(** The other actions on a closed pool add nothing. *)
Lemma other_act_left a p p' es : p_closed p = true → is_worker a = false → act a p = Some (p', es) →
  work_left p' = work_left p ∧ p_closed p' = true.
Proof.
  intros Hc. destruct a; try done; simpl; intros _; unfold send, handoff, stop, wait; rewrite ?Hc; intros H;
    repeat (case_match; simplify_eq/=); simplify_eq/=; done.
Qed.

Lemma worker_act_closed a p p' es : is_worker a = true → act a p = Some (p', es) → p_closed p' = p_closed p.
Proof.
  destruct a; try done; simpl; intros _; unfold take_item, finish, close_result, exit_loop; intros H;
    repeat (case_match; simplify_eq/=); done.
Qed.

Lemma run_left l : ∀ p, p_closed p = true →
  (worker_acts l p + work_left (run l p).1 ≤ work_left p)%nat ∧ p_closed (run l p).1 = true.
Proof.
  induction l as [|a l IH]; intros p Hc; simpl; [split; [lia|done]|].
  destruct (act a p) as [[p' es]|] eqn:Ha; [|by apply IH].
  assert (p_closed p' = true ∧ ((if is_worker a then 1 else 0) + work_left p' ≤ work_left p)%nat) as [Hc' Hl].
  { destruct (is_worker a) eqn:Hw.
    - rewrite (worker_act_closed a p p' es Hw Ha). pose proof (worker_act_less a p p' es Hw Ha). split; [done|lia].
    - destruct (other_act_left a p p' es Hc Hw Ha) as [-> ?]. done. }
  destruct (IH p' Hc') as [H1 H2]. destruct (run l p') as [p'' es'']. simpl in *. split; [lia|done].
Qed.

(** The workers cannot go on for ever. *)
Lemma worker_step_sn p : sn worker_step p.
Proof.
  induction (well_founded_ltof _ work_left p) as [p _ IH]. constructor. intros p' (a & es & Hw & Ha).
  apply IH. unfold ltof. by eapply worker_act_less.
Qed.

(** On a closed pool only workers that have left have nothing to do. *)
Lemma worker_goes_on p es i w : inv p es → p_closed p = true → p_workers p !! i = Some w → w ≠ Exited → red worker_step p.
Proof.
  intros Hi Hc Hw Hne. destruct w as [|item|item|]; [| | |done].
  - destruct (p_queue p) as [|item rest] eqn:Hq.
    + eexists _, (Exit i), _. split; [done|]. simpl. unfold exit_loop. by rewrite Hc, Hq, Hw.
    + eexists _, (Take i), _. split; [done|]. simpl. unfold take_item. by rewrite Hq, Hw.
  - eexists _, (Finish i (mkWorkResult None None)), _. split; [done|]. simpl. unfold finish.
    by rewrite Hw, (running_open p es Hi i item Hw).
  - destruct (sent_open p es Hi i item Hw) as [v Hv].
    eexists _, (Close i), _. split; [done|]. simpl. unfold close_result. by rewrite Hw, Hv.
Qed.

Lemma wg_count_zero p : wg_count p = 0%nat ↔ Forall (λ w, w = Exited) (p_workers p).
Proof.
  unfold wg_count. induction (p_workers p) as [|w l IH]; [done|]. rewrite filter_cons, Forall_cons, <-IH.
  case_decide as Hw; destruct w; simpl; intuition (try done; congruence).
Qed.

Lemma some_worker l : ¬ Forall (λ w, w = Exited) l → ∃ i w, l !! i = Some w ∧ w ≠ Exited.
Proof.
  induction l as [|w l IH]; intros H; [by destruct H|].
  destruct (has_left w) eqn:Hw; [|by exists 0%nat, w; destruct w].
  destruct IH as (i & v & Hi & Hv); [|by exists (S i), v].
  intros Hl. apply H. constructor; [by destruct w|done].
Qed.

Lemma run_app l l' p :
  run (l ++ l') p = let '(p1, es) := run l p in let '(p2, es') := run l' p1 in (p2, es ++ es').
Proof.
  revert p. induction l as [|a l IH]; intros p; simpl; [by destruct (run l' p)|].
  destruct (act a p) as [[p1 es]|]; [|apply IH]. rewrite IH.
  destruct (run l p1) as [p2 es2]. destruct (run l' p2) as [p3 es3]. by rewrite app_assoc.
Qed.

(** What is left on a pool is bounded by its sizes. *)
Lemma work_left_bound p es : inv p es → (work_left p ≤ 3 * (p_backlog p + length (p_workers p)))%nat.
Proof.
  intros Hi. pose proof (i_room p es Hi). unfold work_left.
  assert (sum_list_with effort (p_workers p) ≤ 3 * length (p_workers p))%nat; [|lia].
  clear. induction (p_workers p) as [|[] l IH]; simpl; lia.
Qed.


