(* ===== verification/ConfigSpec.v ===== *)
(** What a parsed configuration guarantees, and the gauges of hosted builds. *)
From S2P Require Import Prelude GoStrings Paths World FSFacts Logic Quiet Types Filesystem Config Metrics Scenario Pool.

Open Scope string_scope.
Open Scope list_scope.
#[local] Open Scope Z_scope.

Section parse.
Context {E : Env}.
Context (getuid num_cpu : Z) (decode : string → Config → gores Config).

(** The settings of the file with the defaults for those it leaves out. *)
Definition with_defaults (c : Config) : Config :=
  let conc := if decide (cfg_Concurrency c = 0) then num_cpu else cfg_Concurrency c in
  mkConfig (cfg_Addr c) (cfg_FileSystem c) (if decide (cfg_UID c = "") then itoa getuid else cfg_UID c)
    (cfg_ProjectsPath c) (cfg_BuildPath c) (cfg_Mounts c) conc
    (if decide (cfg_Backlog c = 0) then wrap64 (conc * 2) else cfg_Backlog c).

Lemma PathIsDir_ok p w : (PathIsDir p w).1 = None → k_stat (w_fs w) p = inr Dir.
Proof.
  unfold PathIsDir. rewrite bind_run. unfold Stat, sys_read, syscall. destruct (env_fault _); [done|].
  destruct (k_stat _ _) as [e|n]; [done|]. cbn [fst snd]. by destruct n.
Qed.

Lemma PathIsDir_fs p w : w_fs (PathIsDir p w).2 = w_fs w.
Proof.
  unfold PathIsDir. rewrite bind_run. unfold Stat, sys_read, syscall. destruct (env_fault _); [done|].
  destruct (k_stat _ _) as [e|n]; [done|]. cbn [fst snd]. by destruct (is_dir n).
Qed.

Lemma default_settings c :
  with_defaults c =
  let c1 := if decide (cfg_UID c = "") then set_UID (itoa getuid) c else c in
  let c2 := if decide (cfg_Concurrency c1 = 0) then set_Concurrency num_cpu c1 else c1 in
  if decide (cfg_Backlog c2 = 0) then set_Backlog (wrap64 (cfg_Concurrency c2 * 2)) c2 else c2.
Proof. unfold with_defaults. destruct c. simpl. repeat (case_decide; simpl in *; try done). Qed.

Lemma ParseConfig_run addr fs r w c :
  (ParseConfig getuid num_cpu decode addr fs r w).1 = Ok c →
  ∃ c0, decode r (mkConfig addr fs "" "" "" ∅ 0 0) = Ok c0 ∧ addr ≠ "" ∧ c = with_defaults c0 ∧
    k_stat (w_fs w) (cfg_ProjectsPath c0) = inr Dir ∧ k_stat (w_fs w) (cfg_BuildPath c0) = inr Dir.
Proof.
  unfold ParseConfig. case_decide as Haddr; [done|]. destruct (decode _ _) as [c0|e]; [|done].
  cbv zeta. rewrite !bind_run. set (c1 := if decide (cfg_UID c0 = "") then _ else _).
  assert (Hpaths : cfg_ProjectsPath c1 = cfg_ProjectsPath c0 ∧ cfg_BuildPath c1 = cfg_BuildPath c0)
    by (unfold c1; by case_decide).
  destruct Hpaths as [Hp Hb].
  destruct (PathIsDir (cfg_ProjectsPath c1) w).1 as [e|] eqn:H1; [done|].
  rewrite bind_run. destruct (PathIsDir (cfg_BuildPath c1) _).1 as [e|] eqn:H2; [done|].
  intros Hc. apply PathIsDir_ok in H1, H2. rewrite PathIsDir_fs in H2. rewrite Hp in H1. rewrite Hb in H2.
  exists c0. rewrite default_settings. split_and!; try done. injection Hc as <-. done.
Qed.

Lemma wrap64_small z : int64_min ≤ z ≤ int64_max → wrap64 z = z.
Proof. unfold wrap64, int64_min, int64_max. intros H. rewrite Z.mod_small; lia. Qed.

(** The configuration that parses: directories for the projects and the builds, and
    every setting of the file with defaults for the others. *)
Theorem ParseConfig_defaults addr fs r w c :
  (ParseConfig getuid num_cpu decode addr fs r w).1 = Ok c →
  ∃ c0, decode r (mkConfig addr fs "" "" "" ∅ 0 0) = Ok c0 ∧ addr ≠ "" ∧ c = with_defaults c0 ∧
    k_stat (w_fs w) (cfg_ProjectsPath c) = inr Dir ∧ k_stat (w_fs w) (cfg_BuildPath c) = inr Dir.
Proof. intros (c0 & Hd & Ha & -> & Hp & Hb)%ParseConfig_run. by exists c0. Qed.

(** The 64-bit product of the default backlog: twice the concurrency, taken modulo
    2^64 into the signed range. *)
Lemma wrap64_double z : int64_min ≤ z ≤ int64_max →
  wrap64 (z * 2) = if decide (2 ^ 62 ≤ z) then 2 * z - 2 ^ 64 else if decide (z < - 2 ^ 62) then 2 * z + 2 ^ 64 else 2 * z.
Proof.
  unfold wrap64, int64_min, int64_max. intros H. repeat case_decide.
  - replace (z * 2 + 2 ^ 63) with (2 * z - 2 ^ 63 + 1 * 2 ^ 64) by lia. rewrite Z.mod_add, Z.mod_small by lia. lia.
  - replace (z * 2 + 2 ^ 63) with (2 * z + 2 ^ 64 + 2 ^ 63 + (-1) * 2 ^ 64) by lia. rewrite Z.mod_add, Z.mod_small by lia. lia.
  - rewrite Z.mod_small; lia.
Qed.

End parse.

(** A file that sets nothing but the two paths. *)
Definition scen_decode (r : string) (c : Config) : gores Config :=
  Ok (mkConfig (cfg_Addr c) (cfg_FileSystem c) (cfg_UID c) "/projects" "/builds" ∅ 0 0).

Lemma ParseConfig_defaults_witness :
  let E := scen_env calm alone in
  let fs := @PlainFS E in
  ∃ c, (@ParseConfig E 0 4 scen_decode "0.0.0.0:8462" fs "" scen_world).1 = Ok c ∧
  ∃ c0, scen_decode "" (mkConfig "0.0.0.0:8462" fs "" "" "" ∅ 0 0) = Ok c0 ∧ "0.0.0.0:8462" ≠ "" ∧
    c = with_defaults 0 4 c0 ∧
    k_stat (w_fs scen_world) (cfg_ProjectsPath c) = inr Dir ∧ k_stat (w_fs scen_world) (cfg_BuildPath c) = inr Dir.
Proof.
  intros E fs. eexists. split; [reflexivity|].
  apply (@ParseConfig_defaults E 0 4 scen_decode "0.0.0.0:8462" fs "" scen_world). reflexivity.
Defined.


(** ** Gauges *)

Section gauges.
Context {E : Env} (Hquiet : quiet E).

(** The gauge of a project, when its directory of ready builds can be read. *)
Definition hosted_gauge (fs : FS) (buildPath : string) (project : string * node) : option metric_call :=
  match k_readdir fs (buildPath +:+ "/" +:+ project.1 +:+ "/ready") with
  | inr l => Some (SetGauge BuildsHosted project.1 (Z.of_nat (length l)))
  | inl _ => None
  end.

Lemma record_hosted_run buildPath l : ∀ w,
  w_fs (record_hosted buildPath l w).2 = w_fs w ∧
  w_metrics (record_hosted buildPath l w).2
    = (λ calls, calls ++ omap (hosted_gauge (w_fs w) buildPath) l) <$> w_metrics w.
Proof.
  induction l as [|[project n] l IH]; intros w; cbn [record_hosted].
  - split; [done|]. simpl. destruct (w_metrics w); simpl; [by rewrite app_nil_r|done].
  - rewrite bind_run. unfold ReadDir. rewrite read_quiet by done.
    assert (Hg : hosted_gauge (w_fs w) buildPath (project, n) =
      match k_readdir (w_fs w) (buildPath +:+ "/" +:+ project +:+ "/ready") with
      | inr l => Some (SetGauge BuildsHosted project (Z.of_nat (length l))) | inl _ => None end) by done.
    destruct (k_readdir _ _) as [e|names]; cbn [fst snd]; rewrite bind_run.
    + destruct (IH (tick w)) as [Hf Hm]. cbn [mret M_ret fst snd]. rewrite Hf, Hm. split; [done|]. cbn [omap list_omap].
      by rewrite Hg.
    + set (w1 := (Record_ _ (tick w)).2). destruct (IH w1) as [Hf Hm]. rewrite Hf, Hm. split; [done|].
      cbn [omap list_omap]. rewrite Hg. unfold w1. simpl. destruct (w_metrics w) as [calls|]; simpl; [|done].
      by rewrite <-app_assoc.
Qed.

(** RecordHostedBuilds sets, for each project in the order of their names, the
    gauge of its hosted builds to the number of entries of its directory of ready
    builds, and leaves out the projects without one. *)
Theorem RecordHostedBuilds_gauges buildPath projectsPath w l :
  k_readdir (w_fs w) projectsPath = inr l →
  w_metrics (RecordHostedBuilds buildPath projectsPath w).2
    = (λ calls, calls ++ omap (hosted_gauge (w_fs w) buildPath) l) <$> w_metrics w.
Proof.
  intros Hl. unfold RecordHostedBuilds. rewrite bind_run. unfold ReadDir. rewrite read_quiet, Hl by done.
  cbn [fst snd]. by destruct (record_hosted_run buildPath l (tick w)) as [_ ->].
Qed.
End gauges.

Lemma RecordHostedBuilds_gauges_witness :
  ∃ l, w_metrics (@RecordHostedBuilds (scen_env calm alone) "/builds" "/projects" scen_world).2
    = (λ calls, calls ++ omap (hosted_gauge scen_fs "/builds") l) <$> Some [].
Proof.
  eexists. apply (@RecordHostedBuilds_gauges (scen_env calm alone) (λ n, eq_refl) "/builds" "/projects" scen_world).
  vm_compute. reflexivity.
Defined.
