(* ===== verification/ServeSpec.v ===== *)
(** Routing: which handler a request reaches, what the paths are that handlers see,
    and requests from their path to their answer. *)
From S2P Require Import Prelude GoStrings Paths World FSFacts Logic Quiet Types Filesystem Config Job Metrics Queues Worker Store WorkSafety WorkFrame Scenario WorkSpec WorkFailure Pool Broker Http Server Mux Serve HandlerSpec ListingSpec BrokerSpec ConfigSpec.

Open Scope string_scope.
Open Scope list_scope.
#[local] Open Scope Z_scope.

(** ** The table of routes *)

(** The handler of a clean path. *)
Definition target (path : string) : route endpoint :=
  if decide (path = "/metrics") then To MetricsPage
  else if decide (path = "/jobs") then To Jobs
  else if HasPrefix path "/index/" then To Index
  else if HasPrefix path "/job/" then To ShowJob
  else if HasPrefix path "/log/" then To ServerPush
  else if rooted path then To Static
  else Nowhere.

(** The paths that lack their slash. *)
Definition bare : list string := ["/index"; "/job"; "/log"].

Lemma append_slash_inj a b : a +:+ "/" = b +:+ "/" → a = b.
Proof.
  revert b. induction a as [|c a IH]; intros [|d b]; rewrite ?str_app_cons; simpl; try done.
  - intros [= _ Hb]. by destruct b.
  - intros [= _ Ha]. by destruct a.
  - intros [= -> H]. f_equal. by apply IH.
Qed.

(** The mux that the registrations make. *)
Definition route_map : gmap string endpoint :=
  <["/metrics" := MetricsPage]> (<["/log/" := ServerPush]> (<["/job/" := ShowJob]>
    (<["/index/" := Index]> (<["/jobs" := Jobs]> (<["/" := Static]> ∅))))).
Definition route_mux : ServeMux endpoint :=
  mkMux route_map [("/index/", Index); ("/job/", ShowJob); ("/log/", ServerPush); ("/", Static)].

Lemma routes_eq : routes = Some route_mux.
Proof. reflexivity. Qed.

Lemma routes_match path : mux_handler path route_mux = target path.
Proof.
  unfold mux_handler, mux_match, target. cbn [mx_m mx_es route_mux]. unfold route_map.
  rewrite !lookup_insert, lookup_empty.
  repeat match goal with
    | |- context [decide (?k = path)] => destruct (decide (k = path)) as [<-|?]; [reflexivity|]
    end.
  rewrite !(decide_False (P := path = _)) by congruence. unfold rooted.
  rewrite !filter_cons, filter_nil. cbn [fst].
  by destruct (HasPrefix path "/index/"), (HasPrefix path "/job/"), (HasPrefix path "/log/"), (HasPrefix path "/").
Qed.

(** A path is redirected for want of a slash just when it is one of three. *)
Lemma shouldRedirect_bare path : shouldRedirect path route_mux = bool_decide (path ∈ bare).
Proof.
  unfold shouldRedirect. cbn [mx_m route_mux]. unfold route_map. rewrite !lookup_insert, !lookup_empty.
  repeat match goal with
    | |- context [decide (?k = path)] => destruct (decide (k = path)) as [<-|?]; [reflexivity|]
    end.
  case_decide as He; [by subst|].
  repeat match goal with
    | |- context [decide (?k = path +:+ "/")] => destruct (decide (k = path +:+ "/")) as [Hk|?]
    end.
  all: try (apply (f_equal ends_slash) in Hk; rewrite ends_slash_app in Hk by done; discriminate Hk).
  - by apply (append_slash_inj "/log") in Hk as <-.
  - by apply (append_slash_inj "/job") in Hk as <-.
  - by apply (append_slash_inj "/index") in Hk as <-.
  - by apply (append_slash_inj "") in Hk as <-.
  - rewrite bool_decide_false; [done|]. unfold bare. rewrite !elem_of_cons.
    by intros [->|[->|[->|?%not_elem_of_nil]]].
Qed.

(** ** Where requests go *)

Lemma target_bare path : path ∈ bare → cleanPath path = path.
Proof. intros H. repeat (apply elem_of_cons in H as [->|H]; [reflexivity|]). by apply not_elem_of_nil in H. Qed.

Lemma target_not_moved path path' : target path ≠ Moved path'.
Proof. unfold target. repeat case_decide; try done. repeat (destruct (HasPrefix _ _); [done|]). by destruct (rooted path). Qed.

Lemma dispatch_route method path : method ≠ "CONNECT" →
  mux_Handler method path route_mux =
  if decide (cleanPath path ∈ bare) then Moved (cleanPath path +:+ "/")
  else if decide (cleanPath path = path) then target path else Moved (cleanPath path).
Proof.
  intros Hm. unfold mux_Handler. rewrite decide_False by done. cbv zeta. rewrite shouldRedirect_bare.
  case_bool_decide as Hb; [by rewrite decide_True|]. rewrite (decide_False (P := _ ∈ bare)) by done.
  destruct (decide (cleanPath path = path)) as [Hc|Hc]; [|by rewrite decide_True].
  rewrite decide_False by (intros Hn; by apply Hn). apply routes_match.
Qed.

(** C27: how the server routes a request, unless its method is CONNECT: a path that
    is not clean is redirected to the clean one, and /index, /job and /log to
    themselves with a slash; every other path reaches the handler of the table, the
    longest pattern first; and a request that follows a redirection reaches its
    handler without another one. *)
Theorem routes_dispatch mux method path :
  routes = Some mux → method ≠ "CONNECT" →
  mux_Handler method path mux =
    (if decide (cleanPath path ∈ bare) then Moved (cleanPath path +:+ "/")
     else if decide (cleanPath path = path) then target path else Moved (cleanPath path)) ∧
  (∀ path', mux_Handler method path mux = Moved path' → mux_Handler method path' mux = target path').
Proof.
  rewrite routes_eq. intros [= <-] Hm. split; [by apply dispatch_route|].
  intros path'. rewrite (dispatch_route method path), (dispatch_route method path') by done.
  destruct (decide (cleanPath path ∈ bare)) as [Hb|Hb].
  - intros [= <-]. unfold bare in Hb. rewrite !elem_of_cons in Hb.
    by destruct Hb as [->|[->|[->|[]%not_elem_of_nil]]]; vm_compute.
  - case_decide as Hc; [by intros ?%target_not_moved|]. intros [= <-].
    by rewrite cleanPath_idemp, decide_False, decide_True by done.
Qed.

Lemma routes_dispatch_witness :
  mux_Handler "GET" "/job/x/../y" route_mux = 
    (if decide (cleanPath "/job/x/../y" ∈ bare) then Moved (cleanPath "/job/x/../y" +:+ "/")
     else if decide (cleanPath "/job/x/../y" = "/job/x/../y") then target "/job/x/../y" else Moved (cleanPath "/job/x/../y")) ∧
  (∀ path', mux_Handler "GET" "/job/x/../y" route_mux = Moved path' → mux_Handler "GET" path' route_mux = target path').
Proof. apply (routes_dispatch route_mux "GET" "/job/x/../y"); [exact routes_eq|discriminate]. Defined.

(** ** The paths that handlers see *)

(** The project and the ID in a path that reached a handler. *)
Lemma handled_parts method path h project id :
  method ≠ "CONNECT" → mux_Handler method path route_mux = To h → path_parts path = Some (project, id) →
  plain project ∧ (plain id ∨ id = "").
Proof.
  intros Hm Hto. assert (Hclean : cleanPath path = path).
  { rewrite (dispatch_route method path Hm) in Hto. by repeat case_decide. }
  destruct (cleanPath_shape path) as (cs & Hcs & Hsh). rewrite Hclean in Hsh. unfold path_parts.
  destruct cs as [|a cs]; [destruct Hsh as [->|[[] _]]; done|].
  destruct Hsh as [->|[_ ->]].
  - rewrite Split_abs_path by done. destruct cs as [|p [|i [|? ?]]]; try done. intros [= <- <-].
    rewrite !Forall_cons in Hcs. tauto.
  - rewrite Split_abs_path_slash by done. destruct cs as [|p [|i [|? ?]]]; try done. intros [= <- <-].
    rewrite !Forall_cons in Hcs. tauto.
Qed.



(** ** From a request to its answer *)

Lemma job_url_path j : "/" +:+ getJobURL j = abs_path ["job"; j_Project j; j_ID j].
Proof. done. Qed.

Lemma plain_job : plain "job". Proof. plain_const. Qed.
Lemma plain_log_dir : plain "log". Proof. plain_const. Qed.

Lemma route_to path : path ∉ bare → cleanPath path = path → mux_Handler "GET" path route_mux = target path.
Proof. intros Hb Hc. by rewrite dispatch_route, Hc, decide_False, decide_True by done. Qed.

Lemma job_route project id : plain project → plain id →
  mux_Handler "GET" (abs_path ["job"; project; id]) route_mux = To ShowJob.
Proof.
  intros Hp Hid. pose proof plain_job. rewrite route_to; [| |apply cleanPath_abs_path; solve_plain].
  - unfold target. rewrite !decide_False by discriminate.
    change (abs_path ["job"; project; id]) with ("/job/" +:+ (project +:+ "/" +:+ id)). by rewrite HasPrefix_app.
  - unfold bare. rewrite !elem_of_cons. by intros [Hx|[Hx|[Hx|Hx%not_elem_of_nil]]]; try discriminate Hx.
Qed.

Lemma log_route project : plain project → mux_Handler "GET" (abs_path ["log"; project] +:+ "/") route_mux = To ServerPush.
Proof.
  intros Hp. pose proof plain_log_dir. rewrite route_to.
  - unfold target. rewrite !decide_False by discriminate.
    change (abs_path ["log"; project] +:+ "/") with ("/log/" +:+ (project +:+ "/")). by rewrite HasPrefix_app.
  - unfold bare. rewrite !elem_of_cons. by intros [Hx|[Hx|[Hx|Hx%not_elem_of_nil]]]; try discriminate Hx.
  - apply cleanPath_abs_path_slash; [solve_plain|done].
Qed.

Lemma push_messages_world `{Network} msgs c : c_world (push_messages msgs c).2 = c_world c.
Proof.
  revert c. induction msgs as [|msg msgs IH]; intros c; [done|]. cbn [push_messages]. rewrite bind_run, IH.
  unfold WriteBody. by destruct (rs_Write _ _).
Qed.

Section requests.
Context {E : Env} {J : JSON} {T : TarFormat} {H : Sha256} {JJ : JobJSON} {N : Network} {P : WorkerPool} {TM : Templates}.
Context (static metrics_page : Request → M Conn ()) (redirect : string → Request → M Conn ()).
Context (Hquiet : quiet E) (B : path) (srv : Server) (Hmux : routes = Some (srv_mux srv)).
Context (Hcfg : cfg_BuildPath (srv_cfg srv) = abs_path B).

Let serve := serve static metrics_page redirect srv.

Lemma srv_routes : srv_mux srv = route_mux.
Proof. rewrite routes_eq in Hmux. congruence. Qed.

(** C26: the URL that a build carries leads to it: a request for the JSON of the path
    that getJobURL makes of a published job is routed to HandleShowJob, which reads
    the project and ID back from it and answers 200 with the build and its log. *)
Theorem job_url_shows j w r bi flusher msgs :
  job_ok B j → rq_Method r = "GET" → rq_ContentType r = "application/json" →
  rq_Path r = "/" +:+ getJobURL j →
  store_ok B (w_fs w) → published B j (w_fs w) bi → json_good (set_ContainerLogs "" "" bi) →
  w_fs w !! build_at B (j_Project j) "pending" (j_ID j) = None → net_write 0 = None →
  ∃ log, w_fs w !! (build_at B (j_Project j) "ready" (j_ID j) ++ ["out.log"]) = Some (File log) ∧
  ∀ body, json_struct (listed_job (j_ID j) (j_Project j) "ready" zero_time (set_ContainerLogs log "" bi)) = Ok body →
    let resp := c_resp (serve flusher msgs r (mkConn w new_response)).2 in
    rs_status resp = 200 ∧ rs_content_type resp = Some "application/json" ∧ rs_body resp = body.
Proof.
  intros Hj Hm Hct Hpath Hok Hp Hgood Hn Hw. rewrite job_url_path in Hpath.
  assert (Hproj : plain (j_Project j)) by apply Hj. assert (Hid : plain (j_ID j)) by apply Hj.
  pose proof plain_job as Hplain.
  assert (Hparts : path_parts (rq_Path r) = Some (j_Project j, j_ID j)).
  { rewrite Hpath. unfold path_parts. by rewrite Split_abs_path by (solve_plain). }
  destruct (HandleShowJob_published (srv_cfg srv) Hquiet B j Hj Hcfg w r bi) as (log & Hlog & Hshow); [done..|].
  exists log. split; [done|]. intros body Hbody. specialize (Hshow body Hbody). unfold serve, Serve.serve.
  rewrite Hm, Hpath, srv_routes, job_route by done. by rewrite bind_run.
Qed.

(** C40: one request for the log of a project, with nothing after its slash, brings
    the server down: the empty ID stands for the directory of pending builds, which
    is there once the project was built, so that the handler registers a client for
    a log file that does not exist; the broker only logs that its tailer fails to
    open, and reading from it dereferences nil. *)
Theorem project_log_crashes project w r msgs opens b k :
  Forall plain B → plain project → rq_Method r = "GET" → rq_Path r = "/log/" +:+ project +:+ "/" →
  store_ok B (w_fs w) → w_fs w !! (B ++ [project; "pending"]) = Some Dir →
  w_fs w !! (B ++ [project; "pending"; "out.log"]) = None →
  rtc (br_step opens) NewBroker b → watchers "" b = O →
  let out := serve true msgs r (mkConn w new_response) in
  ∃ log t err, out.1 = Some ("", log) ∧ (Tailer_New log (c_world out.2)).1 = (t, Some err) ∧
    (∀ contents n, Tailer_Read contents n t = NilDereference) ∧
    br_crashed (new_client false k (mkClient "" log) b) = true.
Proof.
  intros HB Hp Hm Hpath Hok Hdir Hlog Hb Hw out.
  assert (Hpath' : rq_Path r = abs_path ["log"; project] +:+ "/") by (rewrite Hpath; unfold abs_path, render; simpl; by rewrite !str_app_assoc).
  assert (Hparts : path_parts (rq_Path r) = Some (project, "")).
  { rewrite Hpath'. unfold path_parts. pose proof plain_log_dir. by rewrite Split_abs_path_slash by solve_plain. }
  assert (Hjoin : ∀ es cs, mjoin (comps <$> es) = cs → Forall plain cs → Join (cfg_BuildPath (srv_cfg srv) :: es) = abs_path (B ++ cs)).
  { intros es cs. rewrite Hcfg. by apply Join_below. }
  pose proof plain_pending as Hpend. pose proof plain_log as Hout.
  assert (Hserve : out = HandleServerPush (srv_cfg srv) true msgs r (mkConn w new_response)).
  { unfold out, serve, Serve.serve. by rewrite Hm, Hpath', srv_routes, log_route by done. }
  assert (Hgs : GetState (cfg_BuildPath (srv_cfg srv)) project "" w = (Ok "pending", tick w)).
  { unfold GetState. rewrite bind_run. unfold Stat. rewrite read_quiet by done.
    rewrite (Hjoin [project; "pending"; ""] [project; "pending"]);
      [|csimpl; by rewrite !comps_plain by done|solve_plain].
    rewrite k_stat_clear; [by rewrite Hdir|apply Hok|solve_plain|by apply clear_dir|by intros t; rewrite Hdir]. }
  pose proof Hserve as Hserve'. unfold HandleServerPush in Hserve. rewrite Hm, decide_False in Hserve by (by intros []).
  rewrite Hparts, bind_run, lift_run in Hserve. cbn [c_world] in Hserve. rewrite Hgs in Hserve. cbn [fst snd] in Hserve.
  rewrite decide_False in Hserve by (intros Hx; by apply Hx). rewrite !bind_run in Hserve.
  rewrite (Hjoin [project; "pending"; ""] [project; "pending"]) in Hserve;
    [|csimpl; by rewrite !comps_plain by done|solve_plain].
  rewrite (Join_below (B ++ [project; "pending"]) [BuildLogFname] ["out.log"]) in Hserve by (done || solve_plain).
  rewrite <-app_assoc in Hserve. cbn [app] in Hserve.
  assert (Hfs : w_fs (c_world out.2) = w_fs w) by (rewrite Hserve; cbn [mret M_ret snd]; by rewrite push_messages_world).
  assert (Hlk : k_stat (w_fs w) (abs_path (B ++ [project; "pending"; "out.log"])) = inl ENOENT).
  { rewrite k_stat_clear; [by rewrite Hlog|apply Hok|solve_plain| |by intros t; rewrite Hlog].
    change [project; "pending"; "out.log"] with ([project; "pending"] ++ ["out.log"]). rewrite app_assoc.
    apply wf_clear_child; [apply Hok|done]. }
  assert (Hopen : (Tailer_New (abs_path (B ++ [project; "pending"; "out.log"])) (c_world out.2)).1
    = (mkTailer None 0, Some (PathError "open" (abs_path (B ++ [project; "pending"; "out.log"])) ENOENT))).
  { unfold Tailer_New. rewrite bind_run, read_quiet, Hfs, Hlk by done. done. }
  exists (abs_path (B ++ [project; "pending"; "out.log"])), (mkTailer None 0). eexists.
  split; [by rewrite Hserve|]. split; [exact Hopen|].
  eapply (missing_log_crashes (srv_cfg srv) opens msgs r w); [|rewrite <-Hserve'; exact Hopen|exact Hb|exact Hw].
  by rewrite <-Hserve', Hserve.
Qed.
End requests.

(** ** Starting and stopping *)

Section starting.
Context {E : Env} {Pr : Prometheus}.
Context (chan_max : Z) (statik : error).

(** The registrations of the routes do not panic, so that whether a server starts
    depends on the embedded files, the worker pool and the metrics registry. *)
Lemma NewServer_starts cfg (metrics : bool) reg :
  statik = None →
  is_Some (NewWorkerPool chan_max (cfg_Concurrency cfg) (cfg_Backlog cfg)) →
  (metrics = true → is_Some (NewRecorder reg)) →
  ∃ srv reg', NewServer chan_max statik (Some cfg) metrics reg = Returned (srv, reg') ∧
    routes = Some (srv_mux srv) ∧ srv_cfg srv = cfg ∧ srv_br srv = NewBroker ∧ srv_metrics srv = metrics ∧
    NewWorkerPool chan_max (cfg_Concurrency cfg) (cfg_Backlog cfg) = Some (srv_pool srv).
Proof.
  intros Hs [pool Hpool] Hm. unfold NewServer. rewrite Hs, routes_eq, Hpool. destruct metrics.
  - destruct (Hm eq_refl) as [reg' ->]. do 2 eexists. by split_and!.
  - do 2 eexists. by split_and!.
Qed.

(** The server is never stopped in order: ListenAndServe only returns with an error,
    at which StartServer ends the process, so that its call of Stop is not reached. *)
Lemma StartServer_never_stops cfg reg listen :
  (∀ srv, listen srv ≠ None) → ∀ r, StartServer chan_max statik cfg reg listen ≠ Returned r.
Proof.
  intros Hl r. unfold StartServer. destruct (NewServer _ _ _ _ _) as [[srv reg']|e|n|]; try done.
  specialize (Hl srv). by destruct (listen srv).
Qed.

(** A server without metrics crashes once it counts the hosted builds of a project. *)
Lemma hosted_round_nil srv w p l :
  quiet E → srv_metrics srv = false → k_readdir (w_fs w) (cfg_ProjectsPath (srv_cfg srv)) = inr (p :: l) →
  (hosted_round srv w).1 = Panicked.
Proof.
  intros Hq Hm Hr. unfold hosted_round. rewrite Hm, bind_run. unfold ReadDir. rewrite read_quiet, Hr by done.
  cbn [fst snd]. destruct p as [project n]. rewrite bind_run. by destruct (sys_read _ _ _ _).
Qed.
End starting.

(** The names of the collectors are distinct: a registry that refuses just the names
    it has takes them once, and refuses them the second time. *)
Section recorder.
Context {Pr : Prometheus} (names : PromRegistry → list string).
Hypothesis promauto_spec : ∀ o reg,
  if bool_decide (o_Name o ∈ names reg) then promauto o reg = None
  else ∃ reg', promauto o reg = Some reg' ∧ names reg' = o_Name o :: names reg.

Lemma make_collectors_spec cs : ∀ reg,
  NoDup ((o_Name ∘ recorder_opts) <$> cs) → (∀ c, c ∈ cs → o_Name (recorder_opts c) ∉ names reg) →
  ∃ reg', make_collectors cs reg = Some reg' ∧ ∀ c, c ∈ cs → o_Name (recorder_opts c) ∈ names reg'.
Proof.
  assert (Hkeep : ∀ cs reg reg' x, make_collectors cs reg = Some reg' → x ∈ names reg → x ∈ names reg').
  { clear cs. intros cs. induction cs as [|c cs IH]; intros reg reg' x; simpl; [by intros [= ->]|].
    specialize (promauto_spec (recorder_opts c) reg). case_bool_decide; [by rewrite promauto_spec|].
    destruct promauto_spec as (reg1 & -> & Hn). simpl. intros Hm Hx. apply (IH reg1); [done|]. rewrite Hn. by right. }
  induction cs as [|c cs IH]; intros reg Hnd Hn; simpl; [exists reg; by split; [|intros c ?%not_elem_of_nil]|].
  cbn [fmap list_fmap] in Hnd. apply NoDup_cons in Hnd as [Hc Hnd].
  specialize (promauto_spec (recorder_opts c) reg).
  rewrite bool_decide_false in promauto_spec by (apply Hn; by left). destruct promauto_spec as (reg1 & -> & Hreg1). simpl.
  destruct (IH reg1 Hnd) as (reg' & Hmake & Hin).
  - intros d Hd. rewrite Hreg1, elem_of_cons. intros [Heq|Hd']; [|apply (Hn d); [by right|done]].
    apply Hc. apply list_elem_of_fmap. exists d. by split.
  - exists reg'. split; [done|]. intros d [->|Hd]%elem_of_cons; [|by apply Hin].
    apply (Hkeep cs reg1 reg' _ Hmake). rewrite Hreg1. by left.
Qed.

Lemma NewRecorder_once reg :
  (∀ c, o_Name (recorder_opts c) ∉ names reg) →
  ∃ reg', NewRecorder reg = Some reg' ∧ NewRecorder reg' = None.
Proof.
  intros Hn. unfold NewRecorder. destruct (make_collectors_spec collectors reg) as (reg' & Hm & Hin).
  - by apply (bool_decide_unpack (NoDup ((o_Name ∘ recorder_opts) <$> collectors))); vm_compute.
  - intros c _. apply Hn.
  - exists reg'. split; [done|]. cbn [collectors make_collectors].
    specialize (promauto_spec (recorder_opts BuildsHosted) reg').
    rewrite bool_decide_true in promauto_spec by (apply Hin; by left). by rewrite promauto_spec.
Qed.
End recorder.

(** ** Witnesses *)

Definition scen_server : Server :=
  mkServer "0.0.0.0:8462" route_mux (scen_config (@PlainFS (scen_env calm alone))) (mkPool 2 [] false [Waiting] []) NewBroker true.
#[export] Instance scen_pool : WorkerPool := {| SendWork _ := mret (Err (ErrString "queue is full")) |}.

Lemma job_url_shows_witness :
  let w := scen_built (scen_docker None 0) "prod" in
  let j := scen_job scen_params "prod" in
  let r := mkRequest "GET" ("/" +:+ getJobURL j) [] "application/json" (Ok "") in
  ∃ log, w_fs w !! (build_at scen_base (j_Project j) "ready" (j_ID j) ++ ["out.log"]) = Some (File log) ∧
  ∀ body, json_struct (listed_job (j_ID j) (j_Project j) "ready" zero_time
            (set_ContainerLogs log "" (scen_info (scen_docker None 0) "prod"))) = Ok body →
    let resp := c_resp (@serve (scen_env calm alone) scen_json scen_tar scen_sha scen_jobjson scen_network scen_pool scen_templates
      (λ _, mret ()) (λ _, mret ()) (λ _ _, mret ()) scen_server true [] r (mkConn w new_response)).2 in
    rs_status resp = 200 ∧ rs_content_type resp = Some "application/json" ∧ rs_body resp = body.
Proof.
  cbv zeta. apply (@job_url_shows (scen_env calm alone) scen_json scen_tar scen_sha scen_jobjson scen_network scen_pool scen_templates
    (λ _, mret ()) (λ _, mret ()) (λ _ _, mret ()) (λ n, eq_refl) scen_base scen_server routes_eq eq_refl).
  - exact (scen_job_ok "prod" (or_intror plain_prod)).
  - reflexivity.
  - reflexivity.
  - reflexivity.
  - apply (scen_built_store None 0 "prod" (or_intror plain_prod)).
  - apply published_check_sound. vm_compute. reflexivity.
  - exact I.
  - vm_compute. reflexivity.
  - reflexivity.
Defined.

Lemma project_log_crashes_witness :
  let out := @serve (scen_env calm alone) scen_json scen_tar scen_sha scen_jobjson scen_network scen_pool scen_templates
      (λ _, mret ()) (λ _, mret ()) (λ _ _, mret ()) scen_server true [] (mkRequest "GET" "/log/yarn/" [] "" (Ok ""))
      (mkConn scen_stale_world new_response) in
  ∃ log t err, out.1 = Some ("", log) ∧ (@Tailer_New (scen_env calm alone) log (c_world out.2)).1 = (t, Some err) ∧
    (∀ contents n, Tailer_Read contents n t = NilDereference) ∧
    br_crashed (new_client false 0 (mkClient "" log) NewBroker) = true.
Proof.
  apply (@project_log_crashes (scen_env calm alone) scen_json scen_tar scen_sha scen_jobjson scen_network scen_pool scen_templates
    (λ _, mret ()) (λ _, mret ()) (λ _ _, mret ()) (λ n, eq_refl) scen_base scen_server routes_eq eq_refl "yarn") with (opens := λ _, true).
  - apply Forall_cons. split; [apply plain_builds|constructor].
  - exact plain_yarn.
  - reflexivity.
  - reflexivity.
  - exact scen_stale_store.
  - vm_compute. reflexivity.
  - vm_compute. reflexivity.
  - apply rtc_refl.
  - reflexivity.
Defined.
