(* ===== verification/Concurrent.v ===== *)
(** cmd/mistryd/project_queue.go and job_queue.go under concurrency: several
    goroutines, interleaved at each operation on a mutex. *)
From S2P Require Import Prelude GoStrings World Types Filesystem Config Job Queues.
From stdpp Require Import relations.

Open Scope list_scope.

(** ** Counting the goroutines in some place *)

Definition count {A : Type} (f : A → bool) (l : list A) : nat := length (filter (λ x, f x = true) l).

Lemma count_insert {A : Type} (f : A → bool) (l : list A) i x y :
  l !! i = Some x → (count f (<[i := y]> l) + Nat.b2n (f x) = count f l + Nat.b2n (f y))%nat.
Proof.
  unfold count. revert i. induction l as [|z l IH]; intros [|i] H; simpl in *; try done.
  - injection H as ->. rewrite !filter_cons. destruct (f x), (f y); simpl; lia.
  - specialize (IH i H). rewrite !filter_cons. case_decide; simpl; lia.
Qed.

Lemma count_pos {A : Type} (f : A → bool) (l : list A) i x : l !! i = Some x → f x = true → (0 < count f l)%nat.
Proof.
  intros Hi Hx. unfold count. assert (x ∈ filter (λ x, f x = true) l) as Hin.
  { apply list_elem_of_filter. split; [done|]. by eapply list_elem_of_lookup_2. }
  destruct (filter _ l); simpl; [by apply not_elem_of_nil in Hin|lia].
Qed.

Lemma count_two {A : Type} (f : A → bool) (l : list A) i j x y :
  l !! i = Some x → l !! j = Some y → f x = true → f y = true → (count f l ≤ 1)%nat → i = j.
Proof.
  unfold count. revert i j. induction l as [|z l IH]; intros [|i] [|j] Hi Hj Hx Hy; simpl in *; try done.
  - injection Hi as ->. rewrite filter_cons_True by done. simpl. intros H.
    pose proof (count_pos f l j y Hj Hy) as Hp. unfold count in Hp. lia.
  - injection Hj as ->. rewrite filter_cons_True by done. simpl. intros H.
    pose proof (count_pos f l i x Hi Hx) as Hp. unfold count in Hp. lia.
  - rewrite filter_cons. intros H. f_equal. eapply IH; try done. case_decide; simpl in H; lia.
Qed.

Lemma count_witness {A : Type} (f : A → bool) (l : list A) : (0 < count f l)%nat → ∃ i x, l !! i = Some x ∧ f x = true.
Proof.
  unfold count. intros H. destruct (filter (λ x, f x = true) l) as [|x r] eqn:Hf; simpl in H; [lia|].
  assert (x ∈ filter (λ x, f x = true) l) as [Hx Hin]%list_elem_of_filter by (rewrite Hf; by left).
  apply list_elem_of_lookup in Hin as [i Hi]. eauto.
Qed.

Lemma count_none {A : Type} (f : A → bool) x n : f x = false → count f (replicate n x) = O.
Proof.
  intros Hf. unfold count. induction n as [|n IH]; [done|]. simpl. rewrite filter_cons_False; [done|congruence].
Qed.

(** ** The project mutexes *)

(** Where a goroutine is: outside; in [Lock], before and after [q.mu.Lock()], and
    before [plock.Lock()]; inside; in [Unlock], before and after [q.mu.Lock()], and
    after the project's mutex was unlocked. *)
Inductive place :=
| Outside
| LockMu (project : string)
| LockLookup (project : string)
| LockProject (project : string)
| Inside (project : string)
| UnlockMu (project : string)
| UnlockProject (project : string)
| UnlockEnd (project : string).

(** [ProjectQueue], with the goroutines that use it, and whether one unlocked a
    mutex that was missing or free, which crashes the server. *)
Record PQ := mkPQ {
  q_mu : bool;
  q_p : gmap string bool;
  q_threads : list place;
  q_crashed : bool;
}.

Definition move (i : nat) (c : place) (q : PQ) : PQ := mkPQ (q_mu q) (q_p q) (<[i := c]> (q_threads q)) (q_crashed q).
Definition set_mu (b : bool) (q : PQ) : PQ := mkPQ b (q_p q) (q_threads q) (q_crashed q).
Definition set_p (m : gmap string bool) (q : PQ) : PQ := mkPQ (q_mu q) m (q_threads q) (q_crashed q).
Definition crash (q : PQ) : PQ := mkPQ (q_mu q) (q_p q) (q_threads q) true.

(** The next step of goroutine [i]; [None] when it has to wait.  One that is outside
    waits for a call. *)
Definition advance (i : nat) (q : PQ) : option PQ :=
  match q_threads q !! i with
  | Some (LockMu p) => if q_mu q then None else Some (move i (LockLookup p) (set_mu true q))
  | Some (LockLookup p) =>
      let m := match q_p q !! p with Some _ => q_p q | None => <[p := false]> (q_p q) end in
      Some (move i (LockProject p) (set_mu false (set_p m q)))
  | Some (LockProject p) =>
      match q_p q !! p with
      | Some false => Some (move i (Inside p) (set_p (<[p := true]> (q_p q)) q))
      | _ => None
      end
  | Some (Inside p) => Some (move i (UnlockMu p) q)
  | Some (UnlockMu p) => if q_mu q then None else Some (move i (UnlockProject p) (set_mu true q))
  | Some (UnlockProject p) =>
      match q_p q !! p with
      | Some true => Some (move i (UnlockEnd p) (set_p (<[p := false]> (q_p q)) q))
      | _ => Some (crash q)
      end
  | Some (UnlockEnd p) => Some (move i Outside (set_mu false q))
  | _ => None
  end.

(** Steps: a call of [Lock] by a goroutine that is outside, or a goroutine goes on. *)
Inductive step : PQ → PQ → Prop :=
| step_call i p q : q_threads q !! i = Some Outside → step q (move i (LockMu p) q)
| step_advance i q q' : advance i q = Some q' → step q q'.

Definition start_pq (n : nat) : PQ := mkPQ false ∅ (replicate n Outside) false.

(** Who holds [q.mu], and who holds the mutex of project [p]. *)
Definition holds_mu (c : place) : bool :=
  match c with LockLookup _ | UnlockProject _ | UnlockEnd _ => true | _ => false end.
Definition holds (p : string) (c : place) : bool :=
  match c with Inside p' | UnlockMu p' | UnlockProject p' => bool_decide (p' = p) | _ => false end.
Definition knows (p : string) (c : place) : bool :=
  match c with LockProject p' => bool_decide (p' = p) | _ => false end.

Record pq_inv (q : PQ) : Prop := {
  pi_mu : count holds_mu (q_threads q) = Nat.b2n (q_mu q);
  pi_p p : count (holds p) (q_threads q) = Nat.b2n (default false (q_p q !! p));
  pi_known i p : q_threads q !! i = Some (LockProject p) → is_Some (q_p q !! p);
  pi_safe : q_crashed q = false;
}.

Lemma pq_start n : pq_inv (start_pq n).
Proof.
  split; simpl.
  - by apply count_none.
  - intros p. by rewrite lookup_empty, count_none.
  - intros i p [? _]%lookup_replicate. done.
  - done.
Qed.

(** How one goroutine's move changes the counts. *)
Lemma pq_move q i c c' (mu : bool) m :
  pq_inv q → q_threads q !! i = Some c →
  (Nat.b2n (q_mu q) + Nat.b2n (holds_mu c') = Nat.b2n mu + Nat.b2n (holds_mu c))%nat →
  (∀ p, Nat.b2n (default false (q_p q !! p)) + Nat.b2n (holds p c')
        = Nat.b2n (default false (m !! p)) + Nat.b2n (holds p c))%nat →
  (∀ p, is_Some (q_p q !! p) → is_Some (m !! p)) →
  (∀ p, c' = LockProject p → is_Some (m !! p)) →
  pq_inv (mkPQ mu m (<[i := c']> (q_threads q)) false).
Proof.
  intros [Hmu Hp Hk Hs] Hi H1 H2 H3 H4. split; simpl.
  - pose proof (count_insert holds_mu _ _ _ c' Hi). lia.
  - intros p. pose proof (count_insert (holds p) _ _ _ c' Hi). specialize (H2 p). specialize (Hp p). lia.
  - intros j p [(-> & Heq & _)|[_ Hj]]%list_lookup_insert_Some; [by apply H4|]. by eapply H3, Hk.
  - done.
Qed.

Lemma default_insert p p' b (m : gmap string bool) :
  default false (<[p := b]> m !! p') = if decide (p = p') then b else default false (m !! p').
Proof. rewrite lookup_insert. by case_decide. Qed.

(** A goroutine inside, or about to unlock, finds its mutex locked. *)
Lemma held_locked q i c p : pq_inv q → q_threads q !! i = Some c → holds p c = true → q_p q !! p = Some true.
Proof.
  intros Hq Hi Hh. pose proof (count_pos (holds p) _ _ _ Hi Hh) as Hc. rewrite (pi_p _ Hq) in Hc.
  destruct (q_p q !! p) as [[]|]; simpl in Hc; [done|lia..].
Qed.

Lemma pq_call q i p : pq_inv q → q_threads q !! i = Some Outside → pq_inv (move i (LockMu p) q).
Proof.
  intros Hq Hi. pose proof (pi_safe _ Hq) as Hcr. unfold move. rewrite Hcr.
  apply (pq_move q i Outside (LockMu p)); auto. done.
Qed.

Lemma pq_advance q i q' : pq_inv q → advance i q = Some q' → pq_inv q'.
Proof.
  intros Hq. pose proof (pi_safe _ Hq) as Hcr. unfold advance.
  destruct (q_threads q !! i) as [c|] eqn:Hi; [|done].
  pose proof (count_pos holds_mu _ _ _ Hi) as Hmu. rewrite (pi_mu _ Hq) in Hmu.
  destruct c as [|p|p|p|p|p|p|p]; try done; unfold move, set_mu, set_p; simpl.
  - destruct (q_mu q) eqn:Hm; [done|]. intros [= <-]. simpl. rewrite Hcr.
    eapply pq_move; [done|exact Hi|rewrite Hm; done|done|done|done].
  - intros [= <-]. simpl. rewrite Hcr. specialize (Hmu eq_refl). destruct (q_mu q) eqn:Hm; [|simpl in Hmu; lia].
    eapply pq_move; [done|exact Hi|rewrite Hm; done|..].
    + intros p'. simpl. destruct (q_p q !! p) eqn:Hp; [done|]. rewrite default_insert. case_decide; [|done].
      subst. by rewrite Hp.
    + intros p' Hp'. destruct (q_p q !! p) eqn:Hp; [done|]. rewrite lookup_insert. by case_decide.
    + intros p' [= <-]. destruct (q_p q !! p) eqn:Hp; [by rewrite Hp|]. by rewrite lookup_insert_eq.
  - destruct (q_p q !! p) as [[]|] eqn:Hp; try done. intros [= <-]. simpl. rewrite Hcr.
    eapply pq_move; [done|exact Hi|simpl; lia|..].
    + intros p'. simpl. rewrite default_insert. case_decide as Hd; [subst; rewrite Hp, bool_decide_true by done; done|].
      rewrite bool_decide_false by congruence. simpl. lia.
    + intros p' Hp'. rewrite lookup_insert. by case_decide.
    + done.
  - intros [= <-]. simpl. rewrite Hcr. eapply pq_move; [done|exact Hi|simpl; lia|done|done|done].
  - destruct (q_mu q) eqn:Hm; [done|]. intros [= <-]. simpl. rewrite Hcr.
    eapply pq_move; [done|exact Hi|rewrite Hm; done|done|done|done].
  - rewrite (held_locked q i _ p Hq Hi) by (simpl; by apply bool_decide_true). intros [= <-]. simpl. rewrite Hcr.
    pose proof (held_locked q i _ p Hq Hi) as Hp. simpl in Hp. rewrite bool_decide_true in Hp by done. specialize (Hp eq_refl).
    eapply pq_move; [done|exact Hi|simpl; lia|..].
    + intros p'. simpl. rewrite default_insert. case_decide as Hd; [subst; rewrite Hp, bool_decide_true by done; done|].
      rewrite bool_decide_false by congruence. simpl. lia.
    + intros p' Hp'. rewrite lookup_insert. by case_decide.
    + done.
  - intros [= <-]. simpl. rewrite Hcr. specialize (Hmu eq_refl). destruct (q_mu q) eqn:Hm; [|simpl in Hmu; lia].
    eapply pq_move; [done|exact Hi|rewrite Hm; done|done|done|done].
Qed.

Lemma pq_reachable n q : rtc step (start_pq n) q → pq_inv q.
Proof.
  revert q. apply rtc_ind_r; [apply pq_start|].
  intros q1 q2 _ Hs Hq. destruct Hs as [i p q1 Hi|i q1 q2 Ha]; [by apply pq_call|by eapply pq_advance].
Qed.

(** C12: the mutexes of ProjectQueue exclude: however the calls of any number of
    goroutines interleave, two of them are never between Lock and Unlock of the same
    project, and no Unlock meets a mutex that is missing or not locked. *)
Theorem project_mutual_exclusion n q i j p c d :
  rtc step (start_pq n) q → q_threads q !! i = Some c → q_threads q !! j = Some d →
  holds p c = true → holds p d = true → i = j ∧ q_crashed q = false.
Proof.
  intros Hq%pq_reachable Hi Hj Hc Hd. split; [|apply Hq].
  eapply (count_two (holds p)); try done. rewrite (pi_p _ Hq). destruct (default false _); simpl; lia.
Qed.

(** C33: they do not deadlock: whenever a goroutine is in a call or between Lock and
    Unlock, some goroutine can go on. *)
Theorem project_queue_live n q i c :
  rtc step (start_pq n) q → q_threads q !! i = Some c → c ≠ Outside → ∃ j q', advance j q = Some q'.
Proof.
  intros Hq%pq_reachable Hi Hc. destruct (q_mu q) eqn:Hmu.
  - assert (Hpos : (0 < count holds_mu (q_threads q))%nat) by (rewrite (pi_mu _ Hq), Hmu; simpl; lia).
    destruct (count_witness _ _ Hpos) as (j & d & Hj & Hd). exists j. unfold advance. rewrite Hj.
    destruct d as [|p|p|p|p|p|p|p]; try done; [eauto| |eauto].
    rewrite (held_locked q j _ p Hq Hj) by (simpl; by apply bool_decide_true). eauto.
  - assert (Hrun : ∀ j d, q_threads q !! j = Some d →
      match d with Outside | LockProject _ => False | _ => True end → ∃ q', advance j q = Some q').
    { intros j d Hj Hd. unfold advance. rewrite Hj. destruct d as [|p|p|p|p|p|p|p]; try done; rewrite ?Hmu; [eauto..| |eauto].
      rewrite (held_locked q j _ p Hq Hj) by (simpl; by apply bool_decide_true). eauto. }
    destruct c as [|p|p|p|p|p|p|p]; try done; try (exists i; by eapply Hrun).
    destruct (pi_known _ Hq i p Hi) as [[] Hp].
    + assert (Hpos : (0 < count (holds p) (q_threads q))%nat) by (rewrite (pi_p _ Hq), Hp; simpl; lia).
      destruct (count_witness _ _ Hpos) as (j & d & Hj & Hd). exists j. eapply Hrun; [done|]. by destruct d.
    + exists i. unfold advance. rewrite Hi, Hp. eauto.
Qed.

(** ** The job queue *)

(** A goroutine in [Work]: it has not asked the queue (or is done), it registered the
    job and builds it, or it coalesces with another. *)
Inductive role :=
| Free
| Leads (id : string)
| Follows (id : string).

(** [JobQueue], with the goroutines that use it. *)
Record JQ := mkJQ {
  jq_jobs : gmap string bool;
  jq_roles : list role;
}.

(** [Add] and [Delete] are atomic, under the queue's mutex. *)
Inductive jq_step : JQ → JQ → Prop :=
| jq_add i j q b jobs :
    jq_roles q !! i = Some Free → jobs_add (j_ID j) (jq_jobs q) = (b, jobs) →
    jq_step q (mkJQ jobs (<[i := if b : bool then Leads (j_ID j) else Follows (j_ID j)]> (jq_roles q)))
| jq_delete i id q :
    jq_roles q !! i = Some (Leads id) →
    jq_step q (mkJQ (jobs_delete id (jq_jobs q)) (<[i := Free]> (jq_roles q)))
| jq_leave i id q :
    jq_roles q !! i = Some (Follows id) → jq_step q (mkJQ (jq_jobs q) (<[i := Free]> (jq_roles q))).

Definition start_jq (n : nat) : JQ := mkJQ ∅ (replicate n Free).

Definition leads (id : string) (r : role) : bool :=
  match r with Leads id' => bool_decide (id' = id) | _ => false end.

Definition jq_inv (q : JQ) : Prop :=
  ∀ id, count (leads id) (jq_roles q) = Nat.b2n (jobs_has (jq_jobs q) id).

Lemma jq_reachable n q : rtc jq_step (start_jq n) q → jq_inv q.
Proof.
  revert q. apply rtc_ind_r.
  - intros id. simpl. unfold jobs_has. by rewrite lookup_empty, count_none.
  - intros q1 q2 _ Hs Hq id. specialize (Hq id).
    destruct Hs as [i j q b jobs Hi Ha|i id' q Hi|i id' q Hi]; simpl.
    + unfold jobs_add in Ha. destruct (jobs_has (jq_jobs q) (j_ID j)) eqn:Hj; injection Ha as <- <-.
      * pose proof (count_insert (leads id) _ _ _ (Follows (j_ID j)) Hi) as Hc. simpl in Hc. lia.
      * pose proof (count_insert (leads id) _ _ _ (Leads (j_ID j)) Hi) as Hc. simpl in Hc.
        unfold jobs_has in *. rewrite lookup_insert. case_decide as Hd; simpl.
        -- subst. rewrite Hj in Hq. rewrite bool_decide_true in Hc by done. simpl in *. lia.
        -- rewrite bool_decide_false in Hc by done. simpl in *. lia.
    + pose proof (count_insert (leads id) _ _ _ Free Hi) as Hc. simpl in Hc.
      pose proof (count_pos (leads id) _ _ _ Hi) as Hp. simpl in Hp. unfold jobs_has, jobs_delete in *. rewrite lookup_delete.
      case_decide as Hd; simpl.
      * subst. rewrite bool_decide_true in Hc, Hp by done. specialize (Hp eq_refl).
        destruct (default false (jq_jobs q !! id)); simpl in *; lia.
      * rewrite bool_decide_false in Hc by done. simpl in *. lia.
    + pose proof (count_insert (leads id) _ _ _ Free Hi) as Hc. simpl in Hc. lia.
Qed.

(** C11: a job is built by one goroutine at a time: however the calls interleave, two
    goroutines never both hold the registration of the same ID, and asking for it is
    refused exactly while another one holds it. *)
Theorem one_leader n q :
  rtc jq_step (start_jq n) q →
  (∀ i j id, jq_roles q !! i = Some (Leads id) → jq_roles q !! j = Some (Leads id) → i = j) ∧
  (∀ id, (jobs_add id (jq_jobs q)).1 = false ↔ ∃ j, jq_roles q !! j = Some (Leads id)).
Proof.
  intros Hq%jq_reachable. split.
  - intros i j id Hi Hj. eapply (count_two (leads id)); try done; try (simpl; by apply bool_decide_true).
    rewrite (Hq id). destruct (jobs_has _ _); simpl; lia.
  - intros id. unfold jobs_add. split.
    + destruct (jobs_has (jq_jobs q) id) eqn:Hj; [|done]. intros _.
      assert (Hpos : (0 < count (leads id) (jq_roles q))%nat) by (rewrite (Hq id), Hj; simpl; lia).
      destruct (count_witness _ _ Hpos) as (j & [|id'|id'] & Hx & Hl); try done. simpl in Hl.
      apply bool_decide_eq_true_1 in Hl. subst. eauto.
    + intros [j Hx]. pose proof (count_pos (leads id) _ _ _ Hx) as Hp. rewrite (Hq id) in Hp.
      destruct (jobs_has (jq_jobs q) id); [done|]. simpl in Hp. rewrite bool_decide_true in Hp by done. specialize (Hp eq_refl). lia.
Qed.

(** ** Witnesses *)

(** Two goroutines: the first one is inside, the second one waits for it. *)
Definition two_callers : PQ :=
  mkPQ false {["yarn" := true]} [Inside "yarn"; LockProject "yarn"] false.

Lemma two_callers_reachable : rtc step (start_pq 2) two_callers.
Proof.
  eapply rtc_l; [apply (step_call 0 "yarn"); reflexivity|].
  eapply rtc_l; [apply (step_advance 0); reflexivity|]. eapply rtc_l; [apply (step_advance 0); reflexivity|].
  eapply rtc_l; [apply (step_advance 0); reflexivity|]. eapply rtc_l; [apply (step_call 1 "yarn"); reflexivity|].
  eapply rtc_l; [apply (step_advance 1); reflexivity|]. eapply rtc_l; [apply (step_advance 1); reflexivity|].
  apply rtc_refl.
Qed.

Lemma project_mutual_exclusion_witness : 0%nat = 0%nat ∧ q_crashed two_callers = false.
Proof.
  apply (project_mutual_exclusion 2 two_callers 0 0 "yarn" (Inside "yarn") (Inside "yarn") two_callers_reachable);
    reflexivity.
Defined.

Lemma project_queue_live_witness : ∃ j q', advance j two_callers = Some q'.
Proof.
  apply (project_queue_live 2 two_callers 1 (LockProject "yarn") two_callers_reachable); [reflexivity|discriminate].
Defined.

Definition queue_job : Job :=
  mkJob "id" "yarn" ∅ "" false "" "" "" "" "" "" "" "" "" "" "" 0 (NewBuildInfo 0) "pending".

Lemma one_leader_witness :
  let q := mkJQ {["id" := true]} [Leads "id"; Follows "id"] in
  (∀ i j id, jq_roles q !! i = Some (Leads id) → jq_roles q !! j = Some (Leads id) → i = j) ∧
  (∀ id, (jobs_add id (jq_jobs q)).1 = false ↔ ∃ j, jq_roles q !! j = Some (Leads id)).
Proof.
  apply (one_leader 2). eapply rtc_l; [eapply (jq_add 0 queue_job); reflexivity|].
  eapply rtc_l; [eapply (jq_add 1 queue_job); reflexivity|]. apply rtc_refl.
Defined.
