(* ===== verification/BrokerLive.v ===== *)
(** The broker among its goroutines: what they do together refines the steps of the
    broker alone, and the broker always comes back to its select, where it serves
    whoever waits. *)
From S2P Require Import Prelude GoStrings Paths World Broker BrokerNet BrokerSpec Concurrent.
From stdpp Require Import relations.

Open Scope list_scope.
#[local] Open Scope Z_scope.

(** ** The invariant *)

(** Where a handler and its second goroutine are, and what the broker has of it. *)
Definition handler_ok (b : Broker) (k : nat) (h : handler) : Prop :=
  match h_main h, h_closer h with
  | Registering, NotStarted => br_clients b !! k = None ∧ k ∉ br_closed b
  | (Receiving | Writing), (Watching | Leaving) => br_clients b !! k = Some (h_client h)
  | (Receiving | Writing | Ended), Gone => br_clients b !! k = None
  | _, _ => False
  end.

(** The channel of a watched ID is that of a tailer that runs. *)
Definition tailer_runs (s : Net) (id : string) : Prop :=
  ∃ t tp, n_stop s !! id = Some t ∧ n_tails s !! t = Some tp ∧ tp_open tp = true ∧ tp_id tp = id.

Definition pc_ok (s : Net) : Prop :=
  match n_pc s with
  | Selecting => True
  | Delivering _ todo => Forall (λ k, is_Some (br_clients (n_br s) !! k)) todo
  | Stopping t => ∃ i tp, t = Some i ∧ n_tails s !! i = Some tp ∧ tp_open tp = true ∧ watchers (tp_id tp) (n_br s) = O
  end.

Record net_inv (s : Net) : Prop := {
  ni_br : br_inv (n_br s);
  ni_handler k h : n_handlers s !! k = Some h → handler_ok (n_br s) k h;
  ni_range k : is_Some (br_clients (n_br s) !! k) ∨ k ∈ br_closed (n_br s) → (k < length (n_handlers s))%nat;
  ni_pc : pc_ok s;
  ni_stop id : watchers id (n_br s) ≠ O → tailer_runs s id;
}.

Lemma net_inv_new : net_inv NewNet.
Proof.
  split; try done.
  intros k [[c Hc]|Hk]; [by simpl in Hc; rewrite lookup_empty in Hc|by apply not_elem_of_nil in Hk].
Qed.

(** Moving a handler where the broker does not look. *)
Lemma net_inv_handler s k h h' : net_inv s → n_handlers s !! k = Some h → handler_ok (n_br s) k h' → net_inv (set_handler k h' s).
Proof.
  intros [Hb Hh Hr Hp Hs] Hk Hok. split; simpl; try done.
  - intros k' h1. rewrite list_lookup_insert_Some. intros [(<- & <- & _)|[Hne Hl]]; [done|by apply Hh].
  - intros k' Hk'. rewrite length_insert. by apply Hr.
Qed.

(** Moving the goroutine that scans. *)
Lemma net_inv_scan s t id sc sc' o : net_inv s → n_tails s !! t = Some (mkTailProc id sc o) → net_inv (set_tail t (mkTailProc id sc' o) s).
Proof.
  intros [Hb Hh Hr Hp Hs] Ht.
  assert (Hl : ∀ i tp, n_tails s !! i = Some tp → ∃ tp', <[t := mkTailProc id sc' o]> (n_tails s) !! i = Some tp' ∧
    tp_open tp' = tp_open tp ∧ tp_id tp' = tp_id tp).
  { intros i tp Hi. destruct (decide (i = t)) as [->|Hne]; [|rewrite list_lookup_insert_ne by done; eauto].
    rewrite list_lookup_insert_eq by (by eapply lookup_lt_Some). eexists. split; [done|]. by rewrite Ht in Hi; injection Hi as <-. }
  split; simpl; try done.
  - unfold pc_ok in *. simpl. destruct (n_pc s) as [| |c]; [done..|]. destruct Hp as (i & tp & -> & Hi & Ho & Hw).
    destruct (Hl i tp Hi) as (tp' & Hi' & Ho' & Hid). exists i, tp'. by rewrite Ho', Hid.
  - intros id' (i & tp & Hst & Hi & Ho & Hid)%Hs. destruct (Hl i tp Hi) as (tp' & Hi' & Ho' & Hid'). exists i, tp'. by rewrite Ho', Hid'.
Qed.

Lemma net_inv_pc s pc : net_inv s → pc_ok (set_pc pc s) → net_inv (set_pc pc s).
Proof. intros [Hb Hh Hr Hp Hs] Hpc. by split. Qed.

(** ** Registration *)

Lemma new_clients opens k c b : br_clients (new_client opens k c b) = <[k := c]> (br_clients b).
Proof. unfold new_client. by destruct (br_count b !! cl_ID c); [case_decide|]. Qed.
Lemma new_closed opens k c b : br_closed (new_client opens k c b) = br_closed b.
Proof. unfold new_client. by destruct (br_count b !! cl_ID c); [case_decide|]. Qed.

Lemma net_inv_register opens s k c :
  net_inv s → n_pc s = Selecting → n_handlers s !! k = Some (mkHandler c Registering NotStarted) → net_inv (register opens k c s).
Proof.
  intros [Hb Hh Hr Hp Hs] Hpc Hk. pose proof (Hh k _ Hk) as [Hn Hc]. simpl in Hn.
  pose proof (br_new_inv (opens (cl_Extra c)) k c (n_br s) Hb Hn Hc) as Hb'.
  assert (Hw : ∀ id, watchers id (new_client (opens (cl_Extra c)) k c (n_br s)) = ((if decide (cl_ID c = id) then 1 else 0) + watchers id (n_br s))%nat).
  { intros id. unfold watchers. rewrite new_clients. by apply watching_insert. }
  assert (Hh' : ∀ k' h, <[k := mkHandler c Receiving Watching]> (n_handlers s) !! k' = Some h →
    handler_ok (new_client (opens (cl_Extra c)) k c (n_br s)) k' h).
  { intros k' h. unfold handler_ok. rewrite list_lookup_insert_Some, new_clients, new_closed.
    intros [(<- & <- & _)|[Hne Hl]]; [by rewrite lookup_insert_eq|]. rewrite lookup_insert_ne by done. by apply Hh. }
  assert (Hr' : ∀ k', is_Some (br_clients (new_client (opens (cl_Extra c)) k c (n_br s)) !! k') ∨ k' ∈ br_closed (new_client (opens (cl_Extra c)) k c (n_br s)) →
    (k' < length (<[k := mkHandler c Receiving Watching]> (n_handlers s)))%nat).
  { intros k'. rewrite new_clients, new_closed, length_insert. destruct (decide (k' = k)) as [->|Hne]; [intros _; by eapply lookup_lt_Some|].
    rewrite lookup_insert_ne by done. apply Hr. }
  unfold register. case_decide as Hcount.
  - split; try done. simpl. intros id. rewrite Hw. intros Hx. apply Hs.
    destruct (decide (cl_ID c = id)) as [<-|]; [|done]. pose proof (bi_count _ Hb (cl_ID c)) as Hcc. lia.
  - split; try done. simpl. intros id. rewrite Hw. unfold tailer_runs. simpl. destruct (decide (cl_ID c = id)) as [<-|Hne].
    + intros _. exists (length (n_tails s)), (mkTailProc (cl_ID c) Scanning true).
      by rewrite lookup_insert_eq, list_lookup_middle.
    + intros (t & tp & Hst & Ht & Ho & Hid)%Hs. exists t, tp. rewrite lookup_insert_ne by done. split_and!; try done.
      by apply lookup_app_l_Some.
Qed.

(** ** Departure *)

Lemma net_inv_leave s k c m :
  net_inv s → n_pc s = Selecting → n_handlers s !! k = Some (mkHandler c m Leaving) → net_inv (leave k (mkHandler c m Leaving) s).
Proof.
  intros [Hb Hh Hr Hp Hs] Hpc Hk. pose proof (Hh k _ Hk) as Hok. unfold handler_ok in Hok. simpl in Hok.
  assert (Hin : br_clients (n_br s) !! k = Some c) by by destruct m.
  pose proof (br_close_inv k c (n_br s) Hb Hin) as Hb'.
  assert (Hw : ∀ id, watchers id (n_br s) = ((if decide (cl_ID c = id) then 1 else 0) + watchers id (closing_client k c (n_br s)))%nat).
  { intros id. by apply watching_delete. }
  assert (Hruns : tailer_runs s (cl_ID c)) by (apply Hs; rewrite Hw, decide_True by done; lia).
  split.
  - done.
  - simpl. intros k' h. unfold handler_ok. rewrite list_lookup_insert_Some. intros [(<- & <- & _)|[Hne Hl]].
    + simpl. rewrite lookup_delete_eq. by destruct m.
    + specialize (Hh k' h Hl). unfold handler_ok in Hh. simpl. rewrite lookup_delete_ne by done.
      destruct (h_main h), (h_closer h); try done. destruct Hh as [? Hc]. split; [done|]. by intros [->|?]%elem_of_cons.
  - simpl. intros k'. rewrite length_insert. intros [Hx|Hx].
    + apply Hr. left. destruct (decide (k' = k)) as [->|]; [by rewrite lookup_delete_eq in Hx; destruct Hx|by rewrite lookup_delete_ne in Hx].
    + apply elem_of_cons in Hx as [->|Hx]; [by eapply lookup_lt_Some|apply Hr; by right].
  - unfold pc_ok, leave. cbn [n_pc n_br n_tails h_client]. case_decide as Hz; [|done].
    destruct Hruns as (t & tp & Hst & Ht & Ho & Hid). exists t, tp. split_and!; try done. rewrite Hid.
    pose proof (bi_count _ Hb' (cl_ID c)) as Hc'. lia.
  - intros id Hx. destruct (Hs id) as (t & tp & H1); [rewrite Hw; simpl in Hx; lia|]. by exists t, tp.
Qed.

(** ** Every action keeps it *)

Lemma notify_registered e b : Forall (λ k, is_Some (br_clients b !! k)) (notify e b).*1.
Proof.
  apply Forall_forall. intros k ([k' msg] & -> & Hin)%list_elem_of_fmap.
  apply notify_exact in Hin as [_ (c & Hc & _)]. by exists c.
Qed.

Section act.
Context (opens : string → bool).

(** One action keeps the invariant, and is a step of the broker or none. *)
Lemma net_inv_act a s s' : net_inv s → net_act opens a s = Some s' →
  net_inv s' ∧ (n_br s' = n_br s ∨ br_step opens (n_br s) (n_br s')).
Proof.
  intros Hi Ha. assert (Hmove : ∀ k h h' s1, n_handlers s !! k = Some h → handler_ok (n_br s) k h' → s1 = set_handler k h' s →
    net_inv s1 ∧ (n_br s1 = n_br s ∨ br_step opens (n_br s) (n_br s1))).
  { intros k h h' s1 Hk Hok ->. split; [by eapply net_inv_handler|by left]. }
  destruct a as [c|k|k|k| | |k|k| |t msg|t|t]; cbn [net_act] in Ha.
  - injection Ha as <-. split; [|by left]. destruct Hi as [Hb Hh Hr Hp Hs]. split; simpl; try done.
    + intros k h [Hk|[Hk Hl]]%lookup_app_Some; [by apply Hh|].
      apply list_lookup_singleton_Some in Hl as [Hk0 <-]. assert (k = length (n_handlers s)) as -> by lia.
      unfold handler_ok. simpl. split; [apply eq_None_not_Some|]; intros Hx.
      * assert (length (n_handlers s) < length (n_handlers s))%nat by (apply Hr; by left). lia.
      * assert (length (n_handlers s) < length (n_handlers s))%nat by (apply Hr; by right). lia.
    + intros k Hk. rewrite length_app. specialize (Hr k Hk). lia.
  - destruct (n_pc s) eqn:Hpc; try done. destruct (n_handlers s !! k) as [[c [] []]|] eqn:Hk; try done. injection Ha as <-.
    split; [by apply net_inv_register|]. right. pose proof (ni_handler s Hi k _ Hk) as [Hn Hc].
    replace (n_br (register opens k c s)) with (new_client (opens (cl_Extra c)) k c (n_br s)) by (unfold register; by case_decide).
    by apply br_new.
  - destruct (n_handlers s !! k) as [[c m []]|] eqn:Hk; try done. injection Ha as <-. eapply Hmove; [done| |done].
    pose proof (ni_handler s Hi k _ Hk) as Hok. unfold handler_ok in *. simpl in *. by destruct m.
  - destruct (n_pc s) eqn:Hpc; try done. destruct (n_handlers s !! k) as [[c m []]|] eqn:Hk; try done. injection Ha as <-.
    split; [by apply net_inv_leave|]. right. apply br_close. pose proof (ni_handler s Hi k _ Hk) as Hok. unfold handler_ok in Hok.
    simpl in *. by destruct m.
  - destruct (n_pc s) as [|msg [|k todo]|] eqn:Hpc; try done. pose proof (ni_pc s Hi) as Hp. unfold pc_ok in Hp. rewrite Hpc in Hp.
    apply Forall_cons in Hp as [[c' Hc'] Htodo]. destruct (n_handlers s !! k) as [[c m cl]|] eqn:Hk; try done.
    pose proof (ni_handler s Hi k _ Hk) as Hok. unfold handler_ok in Hok. simpl in Hok.
    assert (cl ≠ Gone) as Hcl by (intros ->; destruct m; congruence).
    destruct m, cl; try done; injection Ha as <-; (split; [|by left]); (apply net_inv_pc; [eapply net_inv_handler; done|done]).
  - destruct (n_pc s) as [|msg []|]; try done. injection Ha as <-. split; [by apply net_inv_pc|by left].
  - destruct (n_handlers s !! k) as [[c [] cl]|] eqn:Hk; try done. injection Ha as <-. eapply Hmove; [done| |done].
    pose proof (ni_handler s Hi k _ Hk) as Hok. unfold handler_ok in *. simpl in *. by destruct cl.
  - destruct (n_handlers s !! k) as [[c [] []]|] eqn:Hk; try done. injection Ha as <-. eapply Hmove; [done| |done].
    by pose proof (ni_handler s Hi k _ Hk) as Hok.
  - destruct (n_pc s) as [| |[t|]] eqn:Hpc; try done. destruct (n_tails s !! t) as [[id sc []]|] eqn:Ht; try done. injection Ha as <-.
    split; [|by left]. destruct Hi as [Hb Hh Hr Hp Hs]. split; simpl; try done.
    unfold pc_ok in Hp. rewrite Hpc in Hp. destruct Hp as (i & tp & [= <-] & Htp & _ & Hw). rewrite Ht in Htp. injection Htp as <-.
    simpl in Hw. intros id' Hid'. destruct (Hs id' Hid') as (i & tp & Hst & Hi & Ho & Heq). exists i, tp. split_and!; try done. simpl.
    rewrite list_lookup_insert_ne; [done|]. intros <-. rewrite Ht in Hi. injection Hi as <-. simpl in Heq. by subst.
  - destruct (n_tails s !! t) as [[id [] o]|] eqn:Ht; try done. injection Ha as <-. split; [by eapply net_inv_scan|by left].
  - destruct (n_pc s) eqn:Hpc; try done. destruct (n_tails s !! t) as [[id [] o]|] eqn:Ht; try done. injection Ha as <-.
    split; [|by left]. apply net_inv_pc; [by eapply net_inv_scan|]. apply notify_registered.
  - destruct (n_tails s !! t) as [[id [] o]|] eqn:Ht; try done. injection Ha as <-. split; [by eapply net_inv_scan|by left].
Qed.

Lemma net_reachable s : rtc (net_step opens) NewNet s → net_inv s ∧ rtc (br_step opens) NewBroker (n_br s).
Proof.
  revert s. apply rtc_ind_r; [split; [apply net_inv_new|apply rtc_refl]|].
  intros s s' _ [a Ha] [Hi Hb]. destruct (net_inv_act a s s' Hi Ha) as [Hi' Hs]. split; [done|].
  destruct Hs as [->|Hs]; [done|]. by eapply rtc_r.
Qed.

(** ** The broker comes back *)

(** What is left to do before it does. *)
Definition is_writing (h : handler) : bool := match h_main h with Writing => true | _ => false end.
Definition to_go (s : Net) : nat :=
  match n_pc s with Selecting => 0 | Delivering _ todo => 2 * length todo + 1 | Stopping _ => 1 end + count is_writing (n_handlers s).

Lemma inner_less a s s' : net_inv s → inner a = true → net_act opens a s = Some s' → (to_go s' < to_go s)%nat.
Proof.
  intros Hi Hin Ha. destruct a as [c|k|k|k| | |k|k| |t msg|t|t]; try done; cbn [net_act] in Ha; unfold to_go.
  - destruct (n_pc s) as [|msg [|k todo]|] eqn:Hpc; try done. pose proof (ni_pc s Hi) as Hp. unfold pc_ok in Hp. rewrite Hpc in Hp.
    apply Forall_cons in Hp as [[c' Hc'] _]. destruct (n_handlers s !! k) as [[c m cl]|] eqn:Hk; try done.
    pose proof (ni_handler s Hi k _ Hk) as Hok. unfold handler_ok in Hok. simpl in Hok.
    assert (cl ≠ Gone) as Hcl by (intros ->; destruct m; congruence).
    destruct m, cl; try done; injection Ha as <-; simpl;
      match goal with |- context [<[k := ?h]> _] => pose proof (count_insert is_writing _ k _ h Hk) as Hc; simpl in Hc end; lia.
  - destruct (n_pc s) as [|msg []|] eqn:Hpc; try done. injection Ha as <-. simpl. lia.
  - destruct (n_handlers s !! k) as [[c [] cl]|] eqn:Hk; try done. injection Ha as <-. simpl.
    pose proof (count_insert is_writing _ k _ (mkHandler c Receiving cl) Hk) as Hc. simpl in Hc. lia.
  - destruct (n_pc s) as [| |[t|]] eqn:Hpc; try done. destruct (n_tails s !! t) as [[id sc []]|] eqn:Ht; try done. injection Ha as <-. simpl. lia.
Qed.

Lemma inner_sn s : net_inv s → sn (inner_step opens) s.
Proof.
  remember (to_go s) as n eqn:Hn. revert s Hn. induction (lt_wf n) as [n _ IH]. intros s -> Hi. constructor.
  intros s' (a & Hin & Ha). eapply IH; [by eapply inner_less|done|]. by eapply net_inv_act.
Qed.

(** Away from its select the broker, or a handler it waits for, can go on. *)
Lemma inner_goes_on s : net_inv s → n_pc s ≠ Selecting → red (inner_step opens) s.
Proof.
  intros Hi Hpc. pose proof (ni_pc s Hi) as Hp. unfold pc_ok in Hp. destruct (n_pc s) as [|msg [|k todo]|t] eqn:Heq; [done|..].
  - exists (set_pc Selecting s), Delivered. simpl. by rewrite Heq.
  - apply Forall_cons in Hp as [[c Hc] _].
    assert (k < length (n_handlers s))%nat as [h Hk]%lookup_lt_is_Some_2 by (apply (ni_range s Hi); left; by exists c).
    pose proof (ni_handler s Hi k h Hk) as Hok. unfold handler_ok in Hok. destruct h as [c' m cl]. simpl in Hok.
    destruct m, cl; try done; try (by destruct Hok; congruence); try congruence.
    + eexists _, Deliver. simpl. by rewrite Heq, Hk.
    + eexists _, Deliver. simpl. by rewrite Heq, Hk.
    + eexists _, (Written k). simpl. by rewrite Hk.
    + eexists _, (Written k). simpl. by rewrite Hk.
  - destruct Hp as (i & [id sc o] & -> & Hi' & Ho & _). simpl in Ho. subst o. eexists _, Stop. simpl. by rewrite Heq, Hi'.
Qed.

End act.

(** ** A run *)

Fixpoint net_run (opens : string → bool) (l : list net_action) (s : Net) : option Net :=
  match l with
  | [] => Some s
  | a :: l => s ← net_act opens a s; net_run opens l s
  end.

Lemma net_run_reachable opens l : ∀ s s', net_run opens l s = Some s' → rtc (net_step opens) s s'.
Proof.
  induction l as [|a l IH]; intros s s'; simpl; [intros [= <-]; apply rtc_refl|].
  destruct (net_act opens a s) as [s1|] eqn:Ha; [|done]. simpl. intros H%IH. eapply rtc_l; [by exists a|done].
Qed.

(** Two clients watch a build; a line is on its way to them while one leaves. *)
Definition two_watch : list net_action :=
  let c := mkClient "id" "/l" in
  [Request c; Request c; Register 0; Register 1; Line 0 "line"; Notify 0; Deliver; Disconnect 1; Line 0 "next"].
Definition two_watch_net : Net := default NewNet (net_run (λ _, true) two_watch NewNet).

