(* ===== verification/Client.v ===== *)
(** cmd/mistry: the command-line client.  The state adds to that of World.v the
    requests sent and the commands run.  What the client prints is not modelled. *)
From S2P Require Import Prelude Cli GoStrings Paths World FSFacts Logic Types Filesystem Http.
From Stdlib Require Import Ascii.

Open Scope string_scope.
Open Scope list_scope.
#[local] Open Scope Z_scope.

Record CW := mkCW {
  cw_world : World;
  cw_sent : list (string * string * Z);
  cw_cmds : list (list string);
}.

(** What [http.Client.Post] ends in: an [url.Error], with what its [Timeout] method
    answers, or a response with its status and the result of reading its body. *)
Inductive post_outcome :=
| PostFailed (Timeout : bool) (e : goerr)
| Posted (StatusCode : Z) (Body : gores string).

(** [time.ParseDuration] and [Duration.String] in nanoseconds, the JSON of a
    request, and the answers of the network to the [n]-th request. *)
Class ClientEnv := {
  parse_duration : string → gores Z;
  duration_string : Z → string;
  request_json : JobRequest → gores string;
  http_post : nat → string → string → Z → post_outcome;
}.

(** Errors of [sendRequest]: those of type [*url.Error], and others. *)
Inductive send_error :=
| UrlError (Timeout : bool) (e : goerr)
| OtherError (e : goerr).

Definition send_goerr (e : send_error) : goerr :=
  match e with UrlError _ e | OtherError e => e end.

(** ** Dynamic arguments *)

(** [parseDynamicArgs]: the loop on what is left of [args]. *)
Fixpoint parse_args (parsed : Params) (args : list string) : Params :=
  match args with
  | [] => parsed
  | a :: rest =>
      let arg := TrimLeft a "--" in
      if Contains arg "="%char then
        match Split "="%char arg with
        | k :: v :: _ => parse_args (<[k := v]> parsed) rest
        | _ => parse_args parsed rest
        end
      else
        match rest with
        | v :: rest' => parse_args (<[arg := v]> parsed) rest'
        | [] => parsed
        end
  end.

Definition parseDynamicArgs (args : list string) : Params := parse_args ∅ args.

(** ** The file system calls of the client *)

(** The part of [path] before its last element, without the separator before it;
    [None] when there is none. *)
Fixpoint drop_while (P : ascii → bool) (l : list ascii) : list ascii :=
  match l with c :: l' => if P c then drop_while P l' else l | [] => [] end.

Definition is_sep (c : ascii) : bool := bool_decide (c = slash).

Definition dir_of (path : string) : option string :=
  match drop_while (λ c, negb (is_sep c)) (drop_while is_sep (reverse (String.list_ascii_of_string path))) with
  | _ :: ((_ :: _) as l) => Some (String.string_of_list_ascii (reverse l))
  | _ => None
  end.

Section client.
Context {E : Env} {J : JSON} {C : ClientEnv}.

(** [os.MkdirAll], whose recursion is on ever shorter paths. *)
Fixpoint mkdir_all (fuel : nat) (path : string) : M World error :=
  match fuel with
  | O => mret (Some (PathError "mkdir" path EINVAL))
  | S fuel' =>
      r ← Stat path;
      match r with
      | Ok Dir => mret None
      | Ok _ => mret (Some (PathError "mkdir" path ENOTDIR))
      | Err _ =>
          (match dir_of path with Some d => mkdir_all fuel' d | None => mret None end) ;?
          err ← Mkdir path;
          match err with
          | None => mret None
          | Some e =>
              r ← Lstat path;
              match r with Ok Dir => mret None | _ => mret (Some e) end
          end
      end
  end.

Definition MkdirAll (path : string) : M World error := mkdir_all (S (String.length path)) path.

(** [removeDirContents]. *)
Definition removeDirContents (dir : string) : M World error :=
  r ← ReadDir dir;
  match r with
  | Err e => mret (Some e)
  | Ok items => forM (λ item : string * node, RemoveAll (Paths.Join [dir; item.1])) items
  end.

(** ** Transports *)

Definition on_world {A : Type} (m : M World A) : M CW A :=
  λ c, let '(a, w) := m (cw_world c) in (a, mkCW w (cw_sent c) (cw_cmds c)).

Definition run_cmd (args : list string) : M CW (string * error) :=
  modify (λ c, mkCW (cw_world c) (cw_sent c) (cw_cmds c ++ [args]));;
  on_world (RunCmd args).

(** The [Copy] method of a [Transport]; [None] is the end of the process by
    [log.Fatalf]. *)
Definition Transport : Type :=
  ∀ user host project src dst : string, bool → M CW (option (string * error)).

Definition Scp_Copy : Transport := λ user host project src dst clearDst,
  err ← (if clearDst then on_world (removeDirContents dst) else mret None);
  match err with
  | Some e => mret (Some ("", Some e))
  | None =>
      r ← run_cmd ["scp"; "-r"; user +:+ "@" +:+ host +:+ ":" +:+ src; dst];
      mret (Some r)
  end.

Definition Rsync_Copy : Transport := λ user host project src dst clearDst,
  match Index src project with
  | None => mret None
  | Some idx =>
      let src := str_drop idx src in
      r ← run_cmd (["rsync"; "-rtlp"] ++ (if clearDst then ["--delete"] else []) ++
                   [user +:+ "@" +:+ host +:+ "::" +:+ "mistry" +:+ "/" +:+ src; dst]);
      mret (Some r)
  end.

(** [transports], as [init] fills it. *)
Definition transports : gmap string Transport := <[Rsync := Rsync_Copy]> (<[Scp := Scp_Copy]> ∅).

(** ** Requests *)

Definition sendRequest (url reqBody : string) (timeout : Z) : M CW (result send_error string) :=
  λ c,
    let c' := mkCW (cw_world c) (cw_sent c ++ [(url, reqBody, timeout)]) (cw_cmds c) in
    (match http_post (length (cw_sent c)) url reqBody timeout with
     | PostFailed t e => Err (UrlError t e)
     | Posted _ (Err e) => Err (OtherError e)
     | Posted code (Ok respBody) =>
         if decide (code = StatusServiceUnavailable) then
           Err (OtherError (ErrString ("(error: " +:+ itoa code +:+ ") Server is overloaded; try again later")))
         else if decide (code ≠ StatusCreated) then
           Err (OtherError (ErrString ("(error: " +:+ itoa code +:+ ") Error scheduling build: " +:+ respBody)))
         else Ok respBody
     end, c').

Definition isTimeout (err : send_error) : bool :=
  match err with UrlError t _ => t | OtherError _ => false end.

(** ** The build command *)

(** The values of the command's flags. *)
Record Flags := mkFlags {
  f_host : string; f_port : string; f_project : string; f_group : string;
  f_rebuild : bool; f_timeout : string; f_noWait : bool; f_transport : string;
  f_transportUser : string; f_target : string; f_clearTarget : bool;
}.

(** The flags of the command build, for the name of the current user. *)
Definition build_Flags (username : string) : list Flag :=
  [StringFlag "host" "0.0.0.0" "host to connect to";
   StringFlag "port, p" "8462" "port to connect to";
   StringFlag "project" "" "job's project";
   StringFlag "group, g" "" "group project builds (optional)";
   BoolFlag "verbose, v" "";
   BoolFlag "json-result" "output the build result in JSON format to STDOUT (implies verbose: false)";
   BoolFlag "rebuild" "rebuild the docker image";
   StringFlag "timeout" "60m"
     "time to wait for the build to finish, accepts values as defined at https://golang.org/pkg/time/#ParseDuration";
   BoolFlag "no-wait" "if set, schedule the job but don't fetch the artifacts";
   StringFlag "transport" Scp "the method to use for fetching artifacts";
   StringFlag "transport-user" username "user to fetch the artifacts with";
   StringFlag "target, t" "." "the local directory where the artifacts will be saved";
   BoolFlag "clear-target" "remove contents of the target directory before fetching artifacts"].

(** Their values when only a project is given. *)
Definition default_flags (username project : string) : Flags :=
  mkFlags "0.0.0.0" "8462" project "" false "60m" false Scp username "." false.

(** How the command ends: it returns an error or nil, or [log.Fatalf] ends it. *)
Inductive ending := Return (e : error) | Exit.

(** The mandatory arguments. *)
Definition check_flags (f : Flags) : error :=
  if decide (f_host f = "") then Some (ErrString "host cannot be empty")
  else if decide (f_project f = "") then Some (ErrString "project cannot be empty")
  else if decide (f_target f = "") then Some (ErrString "target cannot be empty")
  else if decide (f_noWait f = false ∧ f_transport f = "") then
    Some (ErrString "you need to either specify a transport or use the async flag")
  else None.

Definition client_timeout (f : Flags) : gores Z :=
  if decide (f_timeout f = "") then Ok 0 else parse_duration (f_timeout f).

(** The loop that puts the contents of files in the place of arguments that start
    with @. *)
Fixpoint read_params (l : list (string * string)) (params : Params) : M World (gores Params) :=
  match l with
  | [] => mret (Ok params)
  | (k, v) :: l' =>
      if HasPrefix v "@" then
        data ←? ReadFile (TrimPrefix v "@");
        read_params l' (<[k := data]> params)
      else read_params l' params
  end.

(** The target without a slash at its end. *)
Definition strip_target (target : string) : string :=
  match reverse (String.list_ascii_of_string target) with
  | c :: l => if is_sep c then String.string_of_list_ascii (reverse l) else target
  | [] => target
  end.

Definition ensure_target (target : string) : M World error :=
  fi ← Stat target;
  match fi with
  | Err err =>
      if IsNotExist err then
        wrapM (λ err, ErrString ("Error creating target path (" +:+ target +:+ "): " +:+ Error err))
          (MkdirAll target)
      else mret (Some (ErrString ("Error checking for target path (" +:+ target +:+ "): " +:+ Error err)))
  | Ok n =>
      if is_dir n then mret None
      else mret (Some (ErrString ("Target path (" +:+ target +:+ ") is not a directory. Aborting.")))
  end.

Definition jobs_url (f : Flags) : string :=
  "http://" +:+ f_host f +:+ ":" +:+ f_port f +:+ "/" +:+ "jobs" +:+ (if f_noWait f then "?async" else "").

(** From the response's body to the artifacts. *)
Definition transfer (f : Flags) (ts : Transport) (target body : string) : M CW ending :=
  now ← on_world Now;
  match json_unmarshal body (NewBuildInfo now) with
  | Err e => mret (Return (Some e))
  | Ok bi =>
      if decide (bi_ExitCode bi ≠ ContainerSuccessExitCode) then
        mret (Return (Some (ErrString ("Build failed with exit code " +:+ itoa (bi_ExitCode bi)))))
      else
        r ← ts (f_transportUser f) (f_host f) (f_project f) (bi_Path bi +:+ "/*") target (f_clearTarget f);
        match r with
        | None => mret Exit
        | Some (_, err) => mret (Return err)
        end
  end.

(** The request and what follows it. *)
Definition schedule (f : Flags) (ts : Transport) (target : string) (params : Params) (timeout : Z) : M CW ending :=
  match request_json (mkJobRequest (f_project f) params (f_group f) (f_rebuild f)) with
  | Err e => mret (Return (Some e))
  | Ok jrJSON =>
      r ← sendRequest (jobs_url f) jrJSON timeout;
      match r with
      | Err err =>
          if isTimeout err then
            mret (Return (Some (ErrString ("The build did not finish after " +:+ duration_string timeout
                                           +:+ ", " +:+ Error (send_goerr err)))))
          else mret (Return (Some (send_goerr err)))
      | Ok body => if f_noWait f then mret (Return None) else transfer f ts target body
      end
  end.

(** The [Action] of the build command, on its flags and its arguments. *)
Definition Action (f : Flags) (args : list string) : M CW ending :=
  match check_flags f with
  | Some e => mret (Return (Some e))
  | None =>
      match client_timeout f with
      | Err e => mret (Return (Some e))
      | Ok timeout =>
          match transports !! f_transport f with
          | None => mret (Return (Some (ErrString ("invalid transport argument (" +:+ f_transport f +:+ ")"))))
          | Some ts =>
              let params := parseDynamicArgs args in
              l ← on_world (Range params);
              r ← on_world (read_params l params);
              match r with
              | Err e => mret (Return (Some e))
              | Ok params =>
                  let target := strip_target (f_target f) in
                  err ← on_world (ensure_target target);
                  match err with
                  | Some e => mret (Return (Some e))
                  | None => schedule f ts target params timeout
                  end
              end
          end
      end
  end.
End client.
