(* ===== verification/ClientSpec.v ===== *)
(** What the client does: its arguments, its target directory, and when it asks
    for a build and fetches artifacts. *)
From S2P Require Import Prelude GoStrings Paths World FSFacts Logic Quiet Types Filesystem Scenario Http Client.
From Stdlib Require Import Ascii.

Open Scope string_scope.
Open Scope list_scope.
#[local] Open Scope Z_scope.

(** ** Dynamic arguments *)

(** An argument as a user writes it, behind any number of dashes: [--k=v], or
    [--k v]. *)
Inductive darg :=
| Joined (dashes : nat) (k v : string)
| Separate (dashes : nat) (k v : string).

Fixpoint put_dashes (n : nat) (s : string) : string :=
  match n with O => s | S n' => String "-"%char (put_dashes n' s) end.

Definition darg_words (d : darg) : list string :=
  match d with
  | Joined n k v => [put_dashes n (k +:+ "=" +:+ v)]
  | Separate n k v => [put_dashes n k; v]
  end.

Definition darg_key (d : darg) : string := match d with Joined _ k _ | Separate _ k _ => k end.

(** The value that is parsed: a joined one ends before its first equals sign. *)
Definition darg_value (d : darg) : string :=
  match d with
  | Joined _ _ v => default "" (head (Split "="%char v))
  | Separate _ _ v => v
  end.

(** A key has no equals sign and does not start with a dash. *)
Definition good_key (k : string) : Prop := Contains k "="%char = false ∧ HasPrefix k "-" = false.

#[export] Instance good_key_dec k : Decision (good_key k).
Proof. unfold good_key. apply _. Defined.

Lemma TrimLeft_dashes n s : TrimLeft (put_dashes n s) "--" = TrimLeft s "--".
Proof. induction n as [|n IH]; [done|]. exact IH. Qed.

Lemma TrimLeft_none s : HasPrefix s "-" = false → TrimLeft s "--" = s.
Proof.
  destruct s as [|c s]; [done|]. intros H. cbn [TrimLeft Contains].
  cbn [HasPrefix] in H. destruct (bool_decide ("-"%char = c)) eqn:Hc.
  - by destruct s.
  - apply bool_decide_eq_false in Hc. by rewrite bool_decide_eq_false_2 by congruence.
Qed.

Lemma TrimLeft_key n k r : good_key k → (r = "" ∨ HasPrefix r "-" = false) →
  TrimLeft (put_dashes n (k +:+ r)) "--" = k +:+ r.
Proof.
  intros [_ Hk] Hr. rewrite TrimLeft_dashes. apply TrimLeft_none.
  destruct k as [|c k]; [by destruct Hr as [->|Hr]|].
  change (HasPrefix (String c (k +:+ r)) "-" = false). cbn [HasPrefix] in *. by destruct (k +:+ r), k.
Qed.

Lemma parse_darg parsed d rest :
  good_key (darg_key d) →
  parse_args parsed (darg_words d ++ rest) = parse_args (<[darg_key d := darg_value d]> parsed) rest.
Proof.
  intros Hk. destruct d as [n k v|n k v]; cbn [darg_words darg_key darg_value app parse_args] in *.
  - rewrite TrimLeft_key by (done || by right). destruct Hk as [Hk _].
    rewrite Contains_app, Hk. change ("=" +:+ v) with (String "="%char v).
    replace (Contains (String "="%char v) "="%char) with true by done. cbn [orb].
    rewrite Split_app_sep, Split_none by done. simpl app.
    by destruct (Split "="%char v) as [|h t] eqn:Hs; [destruct (Split_not_nil _ _ Hs)|].
  - pose proof (TrimLeft_key n k "" Hk ltac:(by left)) as Ht. rewrite str_app_nil_r in Ht.
    rewrite Ht. by destruct Hk as [-> _].
Qed.

(** C38: parseDynamicArgs reads any mixture of [--k=v] and [--k v], with any number
    of dashes, as the map of the keys to their values, the last occurrence of a key
    winning; a value joined to its key is cut at its first equals sign. *)
Theorem parse_arguments ds :
  Forall (λ d, good_key (darg_key d)) ds →
  parseDynamicArgs (mjoin (darg_words <$> ds)) = foldl (λ m d, <[darg_key d := darg_value d]> m) ∅ ds.
Proof.
  unfold parseDynamicArgs. generalize (∅ : Params). intros m H. revert m.
  induction H as [|d ds Hd _ IH]; intros m; [done|].
  rewrite fmap_cons. change (mjoin (darg_words d :: (darg_words <$> ds))) with (darg_words d ++ mjoin (darg_words <$> ds)).
  rewrite parse_darg by done. apply IH.
Qed.

Lemma parse_arguments_witness :
  parseDynamicArgs ["--url=a?b=c"; "x"; "y"] = foldl (λ m d, <[darg_key d := darg_value d]> m) ∅ [Joined 2 "url" "a?b=c"; Separate 0 "x" "y"] ∧
  parseDynamicArgs ["--url=a?b=c"] !! "url" = Some "a?b".
Proof.
  split; [|by vm_compute]. apply (parse_arguments [Joined 2 "url" "a?b=c"; Separate 0 "x" "y"]).
  repeat constructor; by vm_compute.
Defined.

(** ** Directories *)

Section directories.
Context {E : Env}.

(** [fs] is [fs0] with nodes strictly below [p] removed. *)
Definition cleared (p : path) (fs0 fs : FS) : Prop :=
  pruned fs0 fs ∧ ∀ q, q = p ∨ ¬ p `prefix_of` q → fs !! q = fs0 !! q.

Lemma cleared_refl p fs : cleared p fs fs.
Proof. done. Qed.

Lemma cleared_remove p c fs0 fs : cleared p fs0 fs → cleared p fs0 (remove_tree (p ++ [c]) fs).
Proof.
  intros [Hs Ho]. split.
  - intros q n. rewrite lookup_remove_tree. case_decide; [done|apply Hs].
  - intros q Hq. rewrite lookup_remove_tree, decide_False; [by apply Ho|].
    intros Hpre. destruct Hq as [->|Hq].
    + apply prefix_length in Hpre. rewrite length_app in Hpre. simpl in Hpre. lia.
    + destruct Hq. etrans; [|done]. by exists [c].
Qed.

(** One entry of the directory. *)
Lemma RemoveAll_entry p c fs0 (gone : list string) :
  Forall plain p → plain c → fs0 !! p = Some Dir → wf fs0 →
  triple (λ fs, wf fs ∧ cleared p fs0 fs ∧ ∀ d r, d ∈ gone → fs !! (p ++ d :: r) = None)
    (RemoveAll (Paths.Join [abs_path p; c]))
    (λ e fs, wf fs ∧ cleared p fs0 fs ∧ (e = None → ∀ d r, d ∈ c :: gone → fs !! (p ++ d :: r) = None)).
Proof.
  intros Hp Hc Hd _. rewrite Join_abs, (mjoin_comps_plain [c]) by (rewrite ?(mjoin_comps_plain [c]); auto).
  apply triple_write.
  - intros fs e (Hw & Hcl & Hg) _. done.
  - intros fs fs' (Hw & Hcl & Hg) Hk. unfold k_remove_all in Hk.
    assert (Hdir : fs !! p = Some Dir) by (rewrite (proj2 Hcl p); auto).
    assert (Hpc : Forall plain (p ++ [c])) by (apply Forall_app; auto).
    assert (Hne : p ++ [c] ≠ []) by (by destruct p).
    rewrite (locate_child fs Hw p c false) in Hk by auto. rewrite decide_False in Hk by done.
    injection Hk as <-. split_and!; [by apply wf_remove_tree|by apply cleared_remove|].
    intros _ d r [->|Hin]%elem_of_cons; rewrite lookup_remove_tree.
    + rewrite decide_True; [done|]. exists r. by rewrite <-app_assoc.
    + case_decide; auto.
Qed.

Lemma RemoveAll_entries p fs0 (items : list (string * node)) : ∀ gone,
  Forall plain p → (∀ c n, (c, n) ∈ items → plain c) → fs0 !! p = Some Dir → wf fs0 →
  triple (λ fs, wf fs ∧ cleared p fs0 fs ∧ ∀ d r, d ∈ gone → fs !! (p ++ d :: r) = None)
    (forM (λ item : string * node, RemoveAll (Paths.Join [abs_path p; item.1])) items)
    (λ e fs, cleared p fs0 fs ∧ (e = None → ∀ d r, d ∈ items.*1 ++ gone → fs !! (p ++ d :: r) = None)).
Proof.
  induction items as [|[c n] items IH]; intros gone Hp Hn Hd Hw; cbn [forM].
  - apply triple_ret. by intros fs (_ & Hcl & Hg).
  - eapply triple_andM.
    + apply (RemoveAll_entry p c fs0 gone); try done. apply (Hn c n). by left.
    + intros e fs (_ & Hcl & _). done.
    + eapply triple_weaken; [apply (IH (c :: gone)); [done| |done..]|..].
      * intros c' n' Hin. apply (Hn c' n'). by right.
      * intros fs (Hw' & Hcl & Hg). auto.
      * intros e fs (Hcl & Hg). split; [done|]. intros He d r Hin. apply Hg; [done|].
        rewrite fmap_cons in Hin. apply elem_of_app in Hin as [[->|Hin]%elem_of_cons|Hin];
          apply elem_of_app; [right; by left|by left|right; by right].
Qed.

(** RemoveDirContents touches nothing but what is below the directory, whatever
    fails, and when it reports no error nothing is left there and the directory
    itself is. *)
Theorem removeDirContents_clears p w :
  wf (w_fs w) → names_ok (w_fs w) → Forall plain p → w_fs w !! p = Some Dir →
  cleared p (w_fs w) (w_fs (removeDirContents (abs_path p) w).2) ∧
  ((removeDirContents (abs_path p) w).1 = None →
     ∀ c r, w_fs (removeDirContents (abs_path p) w).2 !! (p ++ c :: r) = None).
Proof.
  intros Hw Hn Hp Hd.
  refine ((_ : triple (λ fs, fs = w_fs w) (removeDirContents (abs_path p)) (λ e fs, cleared p (w_fs w) fs ∧
    (e = None → ∀ c r, fs !! (p ++ c :: r) = None))) w eq_refl).
  eapply triple_bind.
  - apply (triple_read _ _ _ _ (λ r fs, fs = w_fs w ∧ ∀ l, r = Ok l → k_readdir (w_fs w) (abs_path p) = inr l)).
    + by intros fs e -> _.
    + intros fs l -> Hl. split; [done|]. by intros ? [= <-].
  - intros [l|e].
    + apply triple_pre. intros w0 [H0 Hl]. specialize (Hl l eq_refl).
      eapply triple_weaken; [apply (RemoveAll_entries p (w_fs w) l []); try done|..].
      * intros c n Hin. by eapply readdir_plain.
      * intros fs ->. rewrite H0. split_and!; [done|done|]. intros d r Hin. by apply not_elem_of_nil in Hin.
      * intros e fs [Hcl Hg]. split; [done|]. intros He c r.
        destruct (decide (c ∈ l.*1)) as [Hin|Hin]; [apply Hg; [done|]; apply elem_of_app; by left|].
        destruct (fs !! (p ++ c :: r)) as [n|] eqn:Hq; [|done].
        apply (proj1 Hcl) in Hq. exfalso. apply Hin.
        assert (∃ m, w_fs w !! (p ++ [c]) = Some m) as [m Hm].
        { destruct r as [|d r]; [eauto|]. exists Dir.
          replace (p ++ c :: d :: r) with ((p ++ [c]) ++ d :: r) in Hq by (by rewrite <-app_assoc).
          by apply (wf_prefix _ _ (d :: r) n). }
        apply list_elem_of_fmap. exists (c, m). split; [done|].
        by apply (readdir_complete (w_fs w) (abs_path p) l p c m Hl (locate_dir _ Hw p true Hp Hd)).
    + apply triple_ret. by intros fs [-> _].
Qed.
(** ** The target directory *)

Lemma list_ascii_app a b :
  String.list_ascii_of_string (a +:+ b) = String.list_ascii_of_string a ++ String.list_ascii_of_string b.
Proof. induction a as [|c a IH]; [done|]. rewrite str_app_cons. simpl. by rewrite IH. Qed.

Lemma no_slash_chars s c : Contains s slash = false → c ∈ String.list_ascii_of_string s → is_sep c = false.
Proof.
  induction s as [|d s IH]; [by intros _ ?%not_elem_of_nil|]. intros [Hd Hs]%orb_false_iff.
  intros [->|Hc]%elem_of_cons; [|by apply IH].
  apply bool_decide_eq_false in Hd. apply bool_decide_eq_false. congruence.
Qed.

Lemma drop_while_app P l1 l2 : (∀ c, c ∈ l1 → P c = true) → drop_while P (l1 ++ l2) = drop_while P l2.
Proof.
  induction l1 as [|c l1 IH]; intros H; [done|]. simpl. rewrite H by (by left).
  apply IH. intros d Hd. apply H. by right.
Qed.

Lemma abs_path_snoc p c : p ≠ [] → abs_path (p ++ [c]) = abs_path p +:+ "/" +:+ c.
Proof.
  intros Hp. unfold abs_path, render. rewrite str_app_assoc. f_equal.
  induction p as [|d p IH]; [done|]. destruct p as [|e p]; [done|].
  change (d +:+ "/" +:+ GoStrings.Join "/" ((e :: p) ++ [c]) = (d +:+ "/" +:+ GoStrings.Join "/" (e :: p)) +:+ "/" +:+ c).
  rewrite IH by done. by rewrite !str_app_assoc.
Qed.

Lemma dir_of_app s c :
  c ≠ "" → Contains c slash = false →
  dir_of (s +:+ "/" +:+ c) = if decide (s = "") then None else Some s.
Proof.
  intros Hne Hc. unfold dir_of. rewrite !list_ascii_app, !reverse_app.
  set (l := String.list_ascii_of_string c).
  assert (Hl : ∀ x, x ∈ reverse l → is_sep x = false).
  { intros x Hx. rewrite elem_of_reverse in Hx. apply (no_slash_chars c); done. }
  assert (Hfirst : ∀ r, drop_while is_sep (reverse l ++ r) = reverse l ++ r).
  { intros r. destruct (reverse l) as [|x l'] eqn:Heq.
    - destruct c; [done|]. apply (f_equal length) in Heq. by rewrite length_reverse in Heq.
    - simpl. by rewrite Hl by (by left). }
  rewrite <-app_assoc, Hfirst.
  rewrite drop_while_app by (intros x Hx; by rewrite Hl). cbn [String.list_ascii_of_string reverse app].
  change (drop_while _ _) with (slash :: reverse (String.list_ascii_of_string s)).
  destruct s as [|x s]; [done|]. rewrite decide_False by done.
  destruct (reverse (String.list_ascii_of_string (String x s))) as [|y l'] eqn:Heq.
  - apply (f_equal length) in Heq. by rewrite length_reverse in Heq.
  - rewrite <-Heq, reverse_involutive. by rewrite String.string_of_list_ascii_of_string.
Qed.

Lemma dir_of_snoc p c : plain c → dir_of (abs_path (p ++ [c])) = if decide (p = []) then None else Some (abs_path p).
Proof.
  intros (H1 & _ & _ & H2). destruct (decide (p = [])) as [->|Hp].
  - change (abs_path ([] ++ [c])) with ("" +:+ "/" +:+ c). by rewrite dir_of_app.
  - rewrite abs_path_snoc, dir_of_app by done. by rewrite decide_False.
Qed.

(** [fs'] is [fs] with [p] and every directory above it. *)
Definition with_dirs (p : path) (fs fs' : FS) : Prop :=
  wf fs' ∧ ∀ q, fs' !! q = if decide (q `prefix_of` p) then Some Dir else fs !! q.

(** Nothing stands in the way of directories along [p]. *)
Definition free_for_dirs (p : path) (fs : FS) : Prop :=
  ∀ q n, q `prefix_of` p → fs !! q = Some n → n = Dir.

Lemma with_dirs_present p fs : wf fs → fs !! p = Some Dir → with_dirs p fs fs.
Proof.
  intros Hw Hp. split; [done|]. intros q. case_decide as Hq; [|done]. destruct Hq as [r ->].
  destruct r as [|c r]; [by rewrite app_nil_r in Hp|]. by apply (wf_prefix _ _ _ _ Hw Hp).
Qed.

Lemma with_dirs_insert p c fs fs' :
  with_dirs p fs fs' → wf (<[p ++ [c] := Dir]> fs') → with_dirs (p ++ [c]) fs (<[p ++ [c] := Dir]> fs').
Proof.
  intros [_ Hd] Hw. split; [done|]. intros q. destruct (decide (q = p ++ [c])) as [->|Hne].
  - by rewrite lookup_insert_eq, decide_True.
  - rewrite lookup_insert_ne, Hd by done. do 2 case_decide; try done.
    + destruct H0. by apply prefix_app_r.
    + destruct H. by destruct (prefix_snoc_inv _ _ _ H0).
Qed.

Lemma mkdir_all_quiet (Hquiet : quiet E) p : ∀ fuel fs0,
  (length p < fuel)%nat → wf fs0 → Forall plain p → free_for_dirs p fs0 →
  triple (λ fs, fs = fs0) (mkdir_all fuel (abs_path p)) (λ e fs, e = None ∧ with_dirs p fs0 fs).
Proof.
  induction p as [|c p IH] using rev_ind; intros [|fuel] fs0 Hf Hw Hp Hfree w Hw0; [lia| |lia|].
  - cbv beta in Hw0. cbn [mkdir_all]. rewrite bind_run. unfold Stat. rewrite read_quiet by done.
    rewrite Hw0, k_stat_clear; [|done..|by apply (wf_clear _ [] Dir); [|apply Hw]|by intros t; rewrite (proj1 Hw)].
    rewrite (proj1 Hw). simpl. rewrite Hw0. split; [done|]. apply with_dirs_present; [done|apply Hw].
  - cbv beta in Hw0. rewrite length_app in Hf. simpl in Hf. cbn [mkdir_all]. rewrite bind_run. unfold Stat. rewrite read_quiet by done.
    assert (Hclr : clear fs0 (p ++ [c])).
    { intros q r n Heq _ Hn. apply (Hfree q n); [|done]. by exists r. }
    rewrite Hw0, k_stat_clear; [|done..|by intros t Ht; apply Hfree in Ht].
    destruct (fs0 !! (p ++ [c])) as [n|] eqn:Hn.
    + apply Hfree in Hn as Hdir; [|done]. subst n. simpl. rewrite Hw0. split; [done|]. by apply with_dirs_present.
    + cbn [fst snd]. apply Forall_app in Hp as Hpc. destruct Hpc as [Hp' Hc']. apply Forall_cons in Hc' as [Hc' _].
      assert (Hup : ∃ w1, (match dir_of (abs_path (p ++ [c])) with Some d => mkdir_all fuel d | None => mret None end) (tick w) = (None, w1) ∧ with_dirs p fs0 (w_fs w1)).
      { rewrite dir_of_snoc by done. case_decide as Hnil.
        - subst p. exists (tick w). split; [done|]. simpl. rewrite Hw0. apply with_dirs_present; [done|apply Hw].
        - destruct (IH fuel fs0 ltac:(lia) Hw Hp') with (w := tick w) as [He Hd].
          + intros q m Hq. apply Hfree. by apply prefix_app_r.
          + done.
          + destruct (mkdir_all fuel (abs_path p) (tick w)) as [e w1]. simpl in *. subst e. eauto. }
      destruct Hup as (w1 & Hup & Hd). rewrite andM_run, Hup. cbn [fst snd].
      assert (Hpd : w_fs w1 !! p = Some Dir) by (rewrite (proj2 Hd); by rewrite decide_True).
      assert (Hn1 : w_fs w1 !! (p ++ [c]) = None).
      { rewrite (proj2 Hd), decide_False; [done|]. intros Hpre%prefix_length. rewrite length_app in Hpre. simpl in Hpre. lia. }
      rewrite bind_run. unfold Mkdir. rewrite write_quiet by done.
      rewrite (k_make_child _ (proj1 Hd) Dir p c) by done. simpl. split; [done|].
      apply with_dirs_insert; [done|]. apply wf_insert; [apply Hd|by destruct p|by rewrite parent_snoc|by left].
Qed.

Lemma length_abs_path p : Forall plain p → (length p <= String.length (abs_path p))%nat.
Proof.
  induction p as [|c p IH] using rev_ind; intros Hp; [simpl; lia|]. apply Forall_app in Hp as [Hp Hc].
  rewrite length_app. destruct (decide (p = [])) as [->|Hne].
  - unfold abs_path, render. rewrite str_length_app. simpl. lia.
  - rewrite abs_path_snoc, !str_length_app by done. specialize (IH Hp). change (String.length "/") with 1%nat. change (length [c]) with 1%nat. lia.
Qed.

(** When no call is struck by a fault and nothing but directories stands in the
    way, ensuring the target directory succeeds and creates the directories of its
    path, and only those: the recursion of MkdirAll is deep enough. *)
Theorem ensure_target_creates (Hquiet : quiet E) p w :
  wf (w_fs w) → Forall plain p → free_for_dirs p (w_fs w) →
  (ensure_target (abs_path p) w).1 = None ∧ with_dirs p (w_fs w) (w_fs (ensure_target (abs_path p) w).2).
Proof.
  intros Hw Hp Hfree. unfold ensure_target. rewrite bind_run. unfold Stat. rewrite read_quiet by done.
  rewrite k_stat_clear; [|done..|by intros q r n -> _ Hn; apply (Hfree q n); [by exists r|]|by intros t Ht; apply Hfree in Ht].
  destruct (w_fs w !! p) as [n|] eqn:Hn; cbn [fst snd IsNotExist].
  - apply Hfree in Hn as Hd; [|done]. subst n. simpl. split; [done|]. by apply with_dirs_present.
  - rewrite wrapM_run. unfold MkdirAll.
    destruct (mkdir_all_quiet Hquiet p (S (String.length (abs_path p))) (w_fs w)) with (w := tick w) as [He Hd]; try done.
    + pose proof (length_abs_path p Hp). lia.
    + cbn [fst snd]. by rewrite He.
Qed.
End directories.

(** ** The build command *)

Section command.
Context {E : Env} {J : JSON} {C : ClientEnv}.

(** The value that is sent for an argument's value. *)
Definition sent_value (fs : FS) (v : string) : string :=
  if HasPrefix v "@" then match k_read fs (TrimPrefix v "@") with inr d => d | inl _ => v end else v.

Lemma ReadFile_ok s w d : (ReadFile s w).1 = Ok d → k_read (w_fs w) s = inr d.
Proof.
  unfold ReadFile, sys_read, syscall. destruct (env_fault _); [done|].
  destruct (k_read _ _); [done|]. by intros [= <-].
Qed.

Lemma ReadFile_fs s w : w_fs (ReadFile s w).2 = w_fs w.
Proof.
  unfold ReadFile, sys_read, syscall. destruct (env_fault _); [done|].
  by destruct (k_read _ _).
Qed.

Lemma read_params_ok l : ∀ params w params',
  NoDup l.*1 → (∀ k v, (k, v) ∈ l → params !! k = Some v) →
  (read_params l params w).1 = Ok params' →
  ∀ k, params' !! k = if decide (k ∈ l.*1) then sent_value (w_fs w) <$> params !! k else params !! k.
Proof.
  induction l as [|[k v] l IH]; intros params w params' Hnd Hin H q; cbn [read_params] in H.
  - injection H as <-. rewrite decide_False; [done|]. apply not_elem_of_nil.
  - rewrite fmap_cons in *. apply NoDup_cons in Hnd as [Hk Hnd]. cbn [fst] in *.
    assert (Hkv : params !! k = Some v) by (apply Hin; by left).
    destruct (HasPrefix v "@") eqn:Hat.
    + rewrite bindR_run in H. destruct (ReadFile (TrimPrefix v "@") w).1 as [d|e] eqn:Hr; [|done].
      apply ReadFile_ok in Hr. apply IH with (k := q) in H; [|done|].
      * rewrite H, ReadFile_fs. destruct (decide (q = k)) as [->|Hq].
        -- rewrite decide_False, decide_True by (done || by left). rewrite lookup_insert_eq, Hkv. simpl.
           unfold sent_value. by rewrite Hat, Hr.
        -- rewrite lookup_insert_ne by done. apply decide_ext. rewrite elem_of_cons. tauto.
      * intros k' v' Hkv'. destruct (decide (k' = k)) as [->|]; [|rewrite lookup_insert_ne by done; apply Hin; by right].
        destruct Hk. apply list_elem_of_fmap. by exists (k, v').
    + apply IH with (k := q) in H; [|done|intros k' v' ?; apply Hin; by right].
      rewrite H. destruct (decide (q = k)) as [->|Hq].
      * rewrite decide_False, decide_True by (done || by left). rewrite Hkv. simpl. unfold sent_value. by rewrite Hat.
      * apply decide_ext. rewrite elem_of_cons. tauto.
Qed.

Lemma read_params_sent params n w params' :
  (read_params (env_range n params) params w).1 = Ok params' → params' = sent_value (w_fs w) <$> params.
Proof.
  intros H. pose proof (env_range_perm n params) as Hp. apply map_eq. intros k. rewrite lookup_fmap.
  rewrite (read_params_ok (env_range n params) params w params') by
    (done || (rewrite Hp; apply NoDup_fst_map_to_list) || (intros ? ?; rewrite Hp; apply elem_of_map_to_list)).
  case_decide as Hk; [done|]. destruct (params !! k) as [v|] eqn:Hv; [|done].
  destruct Hk. rewrite Hp. apply list_elem_of_fmap. exists (k, v). by rewrite elem_of_map_to_list.
Qed.

(** The artifacts' place on the server and the command that fetches them. *)
Definition fetch_command (f : Flags) (bi : BuildInfo) : option (list string) :=
  let src := bi_Path bi +:+ "/*" in
  let login := f_transportUser f +:+ "@" +:+ f_host f in
  if decide (f_transport f = Scp) then Some ["scp"; "-r"; login +:+ ":" +:+ src; strip_target (f_target f)]
  else (λ i, ["rsync"; "-rtlp"] ++ (if f_clearTarget f then ["--delete"] else [])
             ++ [login +:+ "::mistry/" +:+ str_drop i src; strip_target (f_target f)]) <$> Index src (f_project f).

(** The request that is sent: the job with the contents of the files named by the
    arguments. *)
Definition is_request (f : Flags) (fs : FS) (args : list string) (body : string) (timeout : Z) : Prop :=
  check_flags f = None ∧ client_timeout f = Ok timeout ∧
  request_json (mkJobRequest (f_project f) (sent_value fs <$> parseDynamicArgs args) (f_group f) (f_rebuild f)) = Ok body.

(** The server accepted the request that was sent. *)
Definition accepted (n : nat) (f : Flags) (body : string) (timeout : Z) (resp : string) : Prop :=
  http_post n (jobs_url f) body timeout = Posted StatusCreated (Ok resp).

(** How a run of the command on flags [f] ends, given the request it may send, with
    the requests sent and the commands run. *)
Inductive build_outcome (f : Flags) (fs : FS) (args : list string) (n : nat) :
    ending → list (string * string * Z) → list (list string) → Prop :=
| Refused e : build_outcome f fs args n (Return (Some e)) [] []
| Failed_request body timeout e :
    is_request f fs args body timeout →
    (∀ resp, accepted n f body timeout resp → f_noWait f = false ∧
       ∃ now, (∃ e, json_unmarshal resp (NewBuildInfo now) = Err e) ∨
              (∃ bi, json_unmarshal resp (NewBuildInfo now) = Ok bi ∧ bi_ExitCode bi ≠ 0)) →
    build_outcome f fs args n (Return (Some e)) [(jobs_url f, body, timeout)] []
| Scheduled body timeout resp :
    is_request f fs args body timeout → accepted n f body timeout resp → f_noWait f = true →
    build_outcome f fs args n (Return None) [(jobs_url f, body, timeout)] []
| Finished body timeout resp now bi r cmds :
    is_request f fs args body timeout → accepted n f body timeout resp → f_noWait f = false →
    json_unmarshal resp (NewBuildInfo now) = Ok bi → bi_ExitCode bi = 0 →
    match fetch_command f bi with
    | None => r = Exit ∧ cmds = []
    | Some cmd => cmds = [cmd] ∧ (∃ w, r = Return (RunCmd cmd w).1.2) ∨
        f_transport f = Scp ∧ f_clearTarget f = true ∧ cmds = [] ∧ ∃ e, r = Return (Some e)
    end →
    build_outcome f fs args n r [(jobs_url f, body, timeout)] cmds.

Lemma on_world_run {A : Type} (m : M World A) c :
  on_world m c = ((m (cw_world c)).1, mkCW (m (cw_world c)).2 (cw_sent c) (cw_cmds c)).
Proof. unfold on_world. by destruct (m (cw_world c)). Qed.

Lemma run_cmd_run args c :
  run_cmd args c = ((RunCmd args (cw_world c)).1, mkCW (RunCmd args (cw_world c)).2 (cw_sent c) (cw_cmds c ++ [args])).
Proof. unfold run_cmd. by rewrite bind_run, on_world_run. Qed.

(** A transport runs its command, unless it stops before it. *)
Lemma transport_copy f ts bi c :
  transports !! f_transport f = Some ts →
  let r := ts (f_transportUser f) (f_host f) (f_project f) (bi_Path bi +:+ "/*") (strip_target (f_target f)) (f_clearTarget f) c in
  cw_sent r.2 = cw_sent c ∧ ∃ cmds, cw_cmds r.2 = cw_cmds c ++ cmds ∧
  match fetch_command f bi with
  | None => r.1 = None ∧ cmds = []
  | Some cmd => cmds = [cmd] ∧ (∃ w, r.1 = Some (RunCmd cmd w).1) ∨
      f_transport f = Scp ∧ f_clearTarget f = true ∧ cmds = [] ∧ ∃ e, r.1 = Some ("", Some e)
  end.
Proof.
  unfold transports, fetch_command. rewrite lookup_insert_Some, lookup_insert_Some. cbv zeta.
  intros [[Ht <-]|[_ [[Ht <-]|[_ H]]]]; [| |by rewrite lookup_empty in H].
  - rewrite decide_False by (rewrite <-Ht; by vm_compute). unfold Rsync_Copy.
    destruct (Index _ _) as [i|]; cbn [fmap option_fmap option_map]; [|by split; [|exists []; rewrite app_nil_r]].
    rewrite bind_run, run_cmd_run. cbn [fst snd mret M_ret cw_sent cw_cmds].
    rewrite (str_app_assoc (f_transportUser f)). split; [done|]. eexists. split; [done|]. left. eauto.
  - rewrite decide_True by done. unfold Scp_Copy. rewrite bind_run.
    destruct (f_clearTarget f) eqn:Hclr.
    + rewrite on_world_run. cbn [fst snd]. destruct (removeDirContents _ _) as [[e|] w]; cbn [fst snd].
      * split; [done|]. exists []. rewrite app_nil_r. split; [done|]. right. eauto 10.
      * rewrite bind_run, run_cmd_run. cbn [fst snd mret M_ret cw_sent cw_cmds].
        rewrite (str_app_assoc (f_transportUser f)). split; [done|]. eexists. split; [done|]. left. eauto.
    + cbn [fst snd mret M_ret]. rewrite bind_run, run_cmd_run. cbn [fst snd mret M_ret cw_sent cw_cmds].
      rewrite (str_app_assoc (f_transportUser f)). split; [done|]. eexists. split; [done|]. left. eauto.
Qed.

(** A run of the command from [c] comes to one of the outcomes. *)
Definition outcome_of (f : Flags) (fs : FS) (args : list string) (c : CW) (r : ending * CW) : Prop :=
  ∃ sent cmds, build_outcome f fs args (length (cw_sent c)) r.1 sent cmds ∧
    cw_sent r.2 = cw_sent c ++ sent ∧ cw_cmds r.2 = cw_cmds c ++ cmds.

Lemma outcome_refused f fs args c e w :
  outcome_of f fs args c (Return (Some e), mkCW w (cw_sent c) (cw_cmds c)).
Proof. exists [], []. simpl. rewrite !app_nil_r. split; [constructor|done]. Qed.

(** The state after the request. *)
Definition requested (f : Flags) (body : string) (timeout : Z) (w : World) (c : CW) : CW :=
  mkCW w (cw_sent c ++ [(jobs_url f, body, timeout)]) (cw_cmds c).

Lemma outcome_failed f fs args c body timeout w e :
  is_request f fs args body timeout →
  (∀ resp, accepted (length (cw_sent c)) f body timeout resp → f_noWait f = false ∧
     ∃ now, (∃ e, json_unmarshal resp (NewBuildInfo now) = Err e) ∨
            (∃ bi, json_unmarshal resp (NewBuildInfo now) = Ok bi ∧ bi_ExitCode bi ≠ 0)) →
  outcome_of f fs args c (Return (Some e), requested f body timeout w c).
Proof.
  intros Hreq Hno. exists [(jobs_url f, body, timeout)], []. rewrite app_nil_r. split; [|done]. by apply (Failed_request _ _ _ _ body timeout).
Qed.

Lemma transfer_outcome f fs args ts c body timeout resp w :
  transports !! f_transport f = Some ts → is_request f fs args body timeout →
  accepted (length (cw_sent c)) f body timeout resp → f_noWait f = false →
  outcome_of f fs args c (transfer f ts (strip_target (f_target f)) resp (requested f body timeout w c)).
Proof.
  intros Hts Hreq Hacc Hwait. unfold transfer. rewrite bind_run, on_world_run. cbn [requested fst snd cw_world cw_sent cw_cmds].
  assert (Hone : ∀ resp', accepted (length (cw_sent c)) f body timeout resp' → resp' = resp).
  { unfold accepted in *. intros resp' H'. congruence. }
  destruct (json_unmarshal _ _) as [bi|e] eqn:Hdec.
  - destruct (decide (bi_ExitCode bi ≠ ContainerSuccessExitCode)) as [Hcode|Hcode%dec_stable].
    + apply outcome_failed; [done|]. intros ? ->%Hone. split; [done|]. eexists. right. eauto.
    + rewrite bind_run. set (c2 := mkCW _ _ _).
      destruct (transport_copy f ts bi c2 Hts) as (Hs & cmds & Hc & Hf). cbv zeta in *.
      destruct (ts _ _ _ _ _ _ c2) as [r c3]. cbn [fst snd] in *.
      eexists _, cmds. split.
      * apply (Finished _ _ _ _ body timeout resp _ bi _ _ Hreq Hacc Hwait Hdec); try done.
        destruct (fetch_command f bi) as [cmd|]; [|destruct Hf as [-> ->]; done].
        destruct Hf as [[-> [w' ->]]|(?&?&->&e&->)]; [left|right; eauto 10].
        split; [done|]. exists w'. by destruct (RunCmd cmd w') as [[]].
      * by destruct r as [[]|].
  - apply outcome_failed; [done|]. intros ? ->%Hone. split; [done|]. eexists. left. eauto.
Qed.

Lemma schedule_outcome f fs args ts timeout c w :
  transports !! f_transport f = Some ts → check_flags f = None → client_timeout f = Ok timeout →
  outcome_of f fs args c
    (schedule f ts (strip_target (f_target f)) (sent_value fs <$> parseDynamicArgs args) timeout
       (mkCW w (cw_sent c) (cw_cmds c))).
Proof.
  intros Hts Hcheck Htime. unfold schedule. destruct (request_json _) as [body|e] eqn:Hbody; [|apply outcome_refused].
  assert (Hreq : is_request f fs args body timeout) by done.
  rewrite bind_run. cbn [sendRequest fst snd cw_world cw_sent cw_cmds]. fold (requested f body timeout w c).
  assert (Hfail : ∀ e, (∀ resp, ¬ accepted (length (cw_sent c)) f body timeout resp) →
    outcome_of f fs args c (Return (Some e), requested f body timeout w c)).
  { intros e Hno. apply outcome_failed; [done|]. intros resp Hacc. by destruct (Hno resp). }
  unfold accepted in Hfail.
  destruct (http_post _ _ _ _) as [t e|code [resp|e]] eqn:Hpost; [| |apply Hfail; congruence].
  { destruct (isTimeout _); apply Hfail; congruence. }
  destruct (decide (code = StatusServiceUnavailable)) as [->|Hne].
  { apply Hfail. intros resp' Hr. try rewrite Hpost in Hr. discriminate Hr. }
  destruct (decide (code ≠ StatusCreated)) as [Hne2|Heq%dec_stable]; [apply Hfail; congruence|]. subst code.
  destruct (f_noWait f) eqn:Hwait.
  - exists [(jobs_url f, body, timeout)], []. rewrite app_nil_r. split; [|done]. by eapply Scheduled.
  - by apply transfer_outcome.
Qed.

(** Every run of the command comes to one of the outcomes. *)
Lemma Action_runs f args c : outcome_of f (w_fs (cw_world c)) args c (Action f args c).
Proof.
  destruct c as [w sent cmds]. unfold Action. pose proof (λ e w', outcome_refused f (w_fs w) args (mkCW w sent cmds) e w') as Href.
  destruct (check_flags f) as [e|] eqn:Hcheck; [apply Href|].
  destruct (client_timeout f) as [timeout|e] eqn:Htime; [|apply Href].
  destruct (transports !! f_transport f) as [ts|] eqn:Hts; [|apply Href]. cbv zeta.
  rewrite !bind_run, !on_world_run. cbn [fst snd Range cw_world cw_sent cw_cmds].
  destruct (read_params _ _ (tick w)).1 as [params|e] eqn:Hparams; [|apply Href].
  apply read_params_sent in Hparams as ->. rewrite !bind_run, !on_world_run. cbn [fst snd cw_world cw_sent cw_cmds].
  destruct (ensure_target _ _).1 as [e|]; [apply Href|]. by apply schedule_outcome.
Qed.

(** C24: the build command sends at most one request, for the job its flags and
    arguments name; it fetches artifacts only after the server accepted the request
    and reported a build with exit code 0, by the one command its transport stands
    for; it returns nil only when the job was scheduled with no-wait or that command
    succeeded. *)
Theorem Action_outcome f args c : outcome_of f (w_fs (cw_world c)) args c (Action f args c).
Proof. apply Action_runs. Qed.
End command.

(** ** A client's file system *)

Definition client_fs : FS :=
  <[["out"; "old"] := File "x"]> (<[["out"] := Dir]> (<[[] := Dir]> ∅)).

Definition client_world : World := mkWorld client_fs 0 ∅ ∅ false None.

Lemma client_fs_wf : wf client_fs.
Proof. apply wf_check_sound. vm_compute. reflexivity. Qed.

Lemma plain_out : plain "out".
Proof. plain_const. Qed.

Lemma client_fs_names : names_ok client_fs.
Proof.
  unfold client_fs. repeat apply names_ok_insert; try (intros p n H; by rewrite lookup_empty in H);
    repeat constructor; try done.
Qed.

Lemma removeDirContents_clears_witness :
  let w' := (@removeDirContents (scen_env calm alone) (abs_path ["out"]) client_world).2 in
  cleared ["out"] client_fs (w_fs w') ∧ bool_decide (w_fs w' !! ["out"; "old"] = None) = true.
Proof.
  intros w'. split; [|by vm_compute].
  apply (@removeDirContents_clears (scen_env calm alone) ["out"] client_world).
  - exact client_fs_wf.
  - exact client_fs_names.
  - by apply Forall_singleton, plain_out.
  - reflexivity.
Defined.

Lemma ensure_target_creates_witness :
  (@ensure_target (scen_env calm alone) (abs_path ["out"; "new"; "dir"]) client_world).1 = None ∧
  with_dirs ["out"; "new"; "dir"] client_fs
    (w_fs (@ensure_target (scen_env calm alone) (abs_path ["out"; "new"; "dir"]) client_world).2).
Proof.
  apply (@ensure_target_creates (scen_env calm alone) (λ n, eq_refl) ["out"; "new"; "dir"] client_world).
  - exact client_fs_wf.
  - repeat constructor; done.
  - intros q n [r Hr]. destruct q as [|a q]; [by intros [= <-]|]. injection Hr as <- Hr.
    destruct q as [|b q]; [by intros [= <-]|]. injection Hr as <- Hr. intros Hq. exfalso.
    destruct q as [|d q]; [discriminate Hq|]. injection Hr as <- Hr.
    destruct q; [discriminate Hq|discriminate Hr].
Defined.

(** ** The place that rsync reads *)

Lemma HasPrefix_slash s t p :
  Contains p slash = false → HasPrefix (s +:+ "/" +:+ t) p = HasPrefix s p.
Proof.
  revert p. induction s as [|c s IH]; intros p Hp.
  - destruct p as [|d p]; [done|]. cbn [Contains] in Hp. apply orb_false_iff in Hp as [Hd%bool_decide_eq_false _].
    change ("" +:+ "/" +:+ t) with (String slash t). cbn [HasPrefix].
    by rewrite bool_decide_eq_false_2 by congruence.
  - destruct p as [|d p]; [done|]. cbn [Contains] in Hp. apply orb_false_iff in Hp as [_ Hp].
    rewrite str_app_cons. cbn [HasPrefix]. by rewrite IH.
Qed.

Lemma Index_prefix p t : Index (p +:+ t) p = Some 0%nat.
Proof. destruct (p +:+ t) eqn:Heq; cbn [Index]; rewrite <-Heq, HasPrefix_app; done. Qed.

Lemma Index_slash s t p :
  p ≠ "" → Contains p slash = false → Index s p = None →
  Index (s +:+ "/" +:+ t) p = (λ i, S (String.length s) + i)%nat <$> Index t p.
Proof.
  intros Hne Hp. induction s as [|c s IH]; intros H.
  - change ("" +:+ "/" +:+ t) with (String slash t). cbn [Index].
    pose proof (HasPrefix_slash "" t p Hp) as Hpre. change ("" +:+ "/" +:+ t) with (String slash t) in Hpre.
    rewrite Hpre. replace (HasPrefix "" p) with false by (by destruct p). by destruct (Index t p).
  - cbn [Index] in H. destruct (HasPrefix (String c s) p) eqn:Hpre; [done|].
    rewrite str_app_cons. cbn [Index]. rewrite <-str_app_cons, HasPrefix_slash, Hpre by done.
    rewrite IH by (by destruct (Index s p)). by destruct (Index t p).
Qed.

Lemma str_drop_slash s t i : str_drop (S (String.length s) + i) (s +:+ "/" +:+ t) = str_drop i t.
Proof. induction s as [|c s IH]; [done|]. rewrite str_app_cons. exact IH. Qed.

Lemma Index_path B p rest tl :
  plain p → Forall (λ c, Index c p = None) B →
  ∃ i, Index (GoStrings.Join "/" (B ++ p :: rest) +:+ tl) p = Some i ∧
       str_drop i (GoStrings.Join "/" (B ++ p :: rest) +:+ tl) = GoStrings.Join "/" (p :: rest) +:+ tl.
Proof.
  intros (Hne & _ & _ & Hp). induction 1 as [|c B Hc _ (i & Hi & Hd)].
  - exists 0%nat. split; [|by destruct (GoStrings.Join _ _ +:+ _)].
    rewrite app_nil_l. destruct rest as [|r rest]; [apply Index_prefix|].
    change (GoStrings.Join "/" (p :: r :: rest)) with (p +:+ "/" +:+ GoStrings.Join "/" (r :: rest)).
    rewrite str_app_assoc. apply Index_prefix.
  - assert (Hj : GoStrings.Join "/" ((c :: B) ++ p :: rest) = c +:+ "/" +:+ GoStrings.Join "/" (B ++ p :: rest)) by (by destruct B).
    rewrite Hj. rewrite (str_app_assoc c), (str_app_assoc "/"). rewrite Index_slash, Hi by done.
    eexists. split; [done|]. by rewrite str_drop_slash.
Qed.

(** The source that the rsync transport asks the module for is the artifacts'
    path below the build directory, provided no directory above the project's has
    the project's name in its own name. *)
Theorem rsync_source `{Env} (B rest : path) (p user host dst : string) (clearDst : bool) (c : CW) :
  plain p → Forall (λ d, Index d p = None) B →
  let cmd := ["rsync"; "-rtlp"] ++ (if clearDst then ["--delete"] else []) ++
    [user +:+ "@" +:+ host +:+ "::mistry/" +:+ GoStrings.Join "/" (p :: rest) +:+ "/*"; dst] in
  Rsync_Copy user host p (abs_path (B ++ p :: rest) +:+ "/*") dst clearDst c
  = let r := run_cmd cmd c in (Some r.1, r.2).
Proof.
  intros Hp HB. destruct (Index_path B p rest "/*" Hp HB) as (i & Hi & Hd).
  assert (Ha : abs_path (B ++ p :: rest) +:+ "/*" = "" +:+ "/" +:+ (GoStrings.Join "/" (B ++ p :: rest) +:+ "/*")) by done.
  assert (Hno : Index "" p = None) by (destruct p; [by destruct (plain_not_empty _ Hp)|done]).
  unfold Rsync_Copy. rewrite Ha, Index_slash, Hi by (apply Hp || done). cbn [fmap option_fmap option_map].
  rewrite str_drop_slash, Hd, bind_run. done.
Qed.

Lemma rsync_source_witness :
  let c := mkCW scen_world [] [] in
  @Rsync_Copy (scen_env calm alone) "u" "h" "yarn" (abs_path (["b"] ++ "yarn" :: ["ready"; "1"]) +:+ "/*") "out" false c
  = let r := @run_cmd (scen_env calm alone) (["rsync"; "-rtlp"] ++ (if false then ["--delete"] else []) ++ ["u@h::mistry/yarn/ready/1/*"; "out"]) c in (Some r.1, r.2).
Proof.
  intros c. apply (@rsync_source (scen_env calm alone) ["b"] ["ready"; "1"] "yarn" "u" "h" "out" false c).
  - exact plain_yarn.
  - by repeat constructor.
Defined.

(** With the builds of the project mistry below /srv/mistry-builds, rsync asks for
    a path that starts in the name of that directory. *)
Lemma rsync_source_wrong `{Env} (user host dst : string) (c : CW) :
  ∃ r, (Rsync_Copy user host "mistry" "/srv/mistry-builds/mistry/ready/1/data/artifacts/*" dst false c).2 = r ∧
  cw_cmds r = cw_cmds c ++ [["rsync"; "-rtlp"; user +:+ "@" +:+ host +:+ "::mistry/mistry-builds/mistry/ready/1/data/artifacts/*"; dst]].
Proof.
  eexists. split; [done|]. unfold Rsync_Copy. change (Index _ "mistry") with (Some 5%nat).
  cbv beta iota. by rewrite bind_run, run_cmd_run.
Qed.

(** ** Refused invocations *)

(** The no-wait flag does not do away with the transport. *)
Lemma no_wait_needs_transport `{Env, JSON, ClientEnv} (f : Flags) args (c : CW) timeout :
  check_flags f = None → client_timeout f = Ok timeout → f_transport f = "" →
  Action f args c = (Return (Some (ErrString "invalid transport argument ()")), c).
Proof. intros Hf Ht Htr. unfold Action. by rewrite Hf, Ht, Htr. Qed.

(** The root directory is never accepted as a target: without its slash it is the
    empty path. *)
Lemma root_target `{Env} (Hquiet : quiet _) w :
  (ensure_target (strip_target "/") w).1
  = Some (ErrString "Error creating target path (): mkdir : no such file or directory").
Proof.
  unfold ensure_target. rewrite bind_run. unfold Stat. rewrite read_quiet by done. cbn [fst snd].
  change (k_stat (w_fs w) (strip_target "/")) with (@inl errno node ENOENT). cbn [fst snd IsNotExist].
  rewrite wrapM_run. change (MkdirAll (strip_target "/")) with (mkdir_all 1 ""). cbn [mkdir_all].
  rewrite bind_run. unfold Stat. rewrite read_quiet by done.
  change (k_stat (w_fs (tick w)) "") with (@inl errno node ENOENT). cbn [fst snd].
  change (dir_of "") with (@None string). rewrite andM_run. cbn [fst snd mret M_ret]. rewrite bind_run. unfold Mkdir. rewrite write_quiet by done.
  change (k_make Dir (w_fs (tick (tick w))) "") with (@inl errno FS ENOENT). cbn [fst snd].
  rewrite bind_run. unfold Lstat. rewrite read_quiet by done.
  change (k_lstat (w_fs (tick (tick (tick w)))) "") with (@inl errno node ENOENT). done.
Qed.
