(* ===== verification/EndToEnd.v ===== *)
(** The client and the server together: a build command against a server whose workers
    run [Work], over a network that may lose requests and answers. *)
From S2P Require Import Prelude Cli GoStrings Paths World FSFacts Logic Quiet Types Filesystem Config Job Metrics Queues Worker Store WorkSafety WorkFrame Scenario WorkSpec WorkCarry JobSpec Pool Broker Http Server Mux Serve HandlerSpec ServeSpec Client ClientSpec.

Open Scope string_scope.
Open Scope list_scope.
#[local] Open Scope Z_scope.

(** ** What Work answers *)

Section reports.
Context {E : Env} {J : JSON} {D : Docker} (cfg : Config) (ctx_done : nat → bool).
Context (B : path) (j : Job) {Hc : config_ok cfg B} (Hj : job_ok B j).

(** The ready directory of the job holds a build info with exit code 0, which [info]
    was taken from: it has its path, or the one that the job gives its artifacts. *)
Definition reports (fs : FS) (info : BuildInfo) : Prop :=
  ∃ text bi, k_read fs (Join [j_ReadyBuildPath j; BuildInfoFname]) = inr text ∧
    (json_marshal bi = Ok text ∨ ∃ now, json_unmarshal text (NewBuildInfo now) = Ok bi) ∧ bi_ExitCode bi = 0 ∧
    (bi_Path info = bi_Path bi ∨ bi_Path info = Join [j_ReadyBuildPath j; DataDir; ArtifactsDir]).

(** An answer without an error is a build info, and one with exit code 0 is reported. *)
Definition answers (r : option BuildInfo * error) (fs : FS) : Prop :=
  r.2 = None → ∃ info, r.1 = Some info ∧ (bi_ExitCode info = 0 → reports fs info).

Lemma read_reports logs (P : FS → Prop) :
  triple P (ReadJobBuildInfo (j_ReadyBuildPath j) logs)
    (λ r fs, P fs ∧ ∀ prev, r = Ok prev → ∃ text bi now,
       k_read fs (Join [j_ReadyBuildPath j; BuildInfoFname]) = inr text ∧
       json_unmarshal text (NewBuildInfo now) = Ok bi ∧ bi_ExitCode prev = bi_ExitCode bi ∧ bi_Path prev = bi_Path bi).
Proof.
  unfold ReadJobBuildInfo. eapply triple_bind; [by apply (triple_pure Now P)|]. intros now.
  eapply triple_bindR.
  - apply (triple_read _ _ _ _ (λ r fs, P fs ∧ ∀ d, r = Ok d → k_read fs (Join [j_ReadyBuildPath j; BuildInfoFname]) = inr d)).
    + by intros.
    + intros fs d HP Hd. split; [done|]. by intros d' [= <-].
  - by intros e fs [? _].
  - intros d. destruct (json_unmarshal d (NewBuildInfo now)) as [bi|e] eqn:Hu; [|apply triple_ret; by intros fs [? _]].
    destruct logs.
    + eapply triple_bindR.
      * apply (triple_read _ _ _ _ (λ _ fs, P fs ∧ ∀ d0, Ok (E:=goerr) d = Ok d0 → k_read fs (Join [j_ReadyBuildPath j; BuildInfoFname]) = inr d0)); by intros.
      * by intros e fs [? _].
      * intros log. apply triple_ret. intros fs [? Hd]. split; [done|]. intros prev [= <-]. exists d, bi, now. by rewrite (Hd d).
    + apply triple_ret. intros fs [? Hd]. split; [done|]. intros prev [= <-]. exists d, bi, now. by rewrite (Hd d).
Qed.

Lemma lead_answers start bi : triple (store_ok B) (lead cfg j start bi) answers.
Proof.
  unfold lead. set (fresh := '(bi', err) ← build cfg j start bi; mret (Some bi', err)).
  assert (Hfail : ∀ b e (P : FS → Prop), triple P (mret (b, Some e) : M World _) answers) by (intros b e P; by apply triple_ret).
  assert (Hfresh : triple (store_ok B) fresh answers).
  { eapply triple_bind; [by apply (build_store cfg B j Hj)|]. intros [b e]. apply triple_ret. intros fs [Hok Hb] He. simpl in He.
    exists b. split; [done|]. intros Hcode. destruct (Hb He) as [[(text & Ht & Hm) _] _]. exists text, (set_ContainerLogs "" "" b).
    split_and!; [|by left|done|by left]. rewrite (jo_ready _ _ Hj).
    rewrite (Join_below _ _ ["build_info.json"]); [|rewrite <-(app_nil_r (build_at _ _ _ _)); by apply (plain_rd B j Hj)|done|solve_plain].
    apply k_read_file; [apply (so_wf _ _ Hok)| |done]. apply (plain_rd B j Hj). solve_plain. }
  eapply triple_bind; [apply (triple_read _ _ _ _ (λ _ fs, store_ok B fs)); by intros|]. intros [n|e].
  - eapply triple_bind.
    { apply triple_both; [apply (read_reports true (store_ok B))|apply (read_info B j Hj true)]. }
    intros [prev|e]; [|apply Hfail]. case_bool_decide as Hcode.
    + eapply triple_bind.
      * eapply triple_weaken; [apply (remove_failed_store cfg B j Hj); apply _| |intros e fs H; exact H].
        intros fs [_ [? Hp]]. split; [done|]. intros b Hb. by rewrite <-(Hp prev b).
      * intros [e|]; [apply Hfail|]. exact Hfresh.
    + eapply triple_bind; [by apply triple_pure|]. intros []. apply triple_ret. intros fs [[_ Hp] _] _.
      destruct (Hp prev eq_refl) as (text & bi0 & now & Ht & Hu & Hcode0 & Hpath).
      exists (set_Cached true prev). split; [done|]. intros _. exists text, bi0. split_and!; [done|right; eauto| |by left].
      by rewrite <-Hcode0.
  - destruct (IsNotExist e); [exact Hfresh|apply Hfail].
Qed.

Lemma coalesce_answers fuel bi (P : FS → Prop) : bi_Path bi = Join [j_ReadyBuildPath j; DataDir; ArtifactsDir] →
  (∀ n fs, P fs → P (env_others n fs)) →
  triple P (coalesce ctx_done fuel j bi) (λ r fs, ∀ a, r = Some a → answers a fs).
Proof.
  intros Hpath Ho. assert (Hfail : ∀ b e (P : FS → Prop), triple P (mret (Some (b, Some e)) : M World _) (λ r fs, ∀ a, r = Some a → answers a fs)).
  { intros b e P'. apply triple_ret. by intros fs _ a [= <-]. }
  induction fuel as [|fuel IH]; [by apply triple_ret|]. cbn [coalesce].
  apply (triple_bind _ _ (λ _ fs, P fs)); [by intros w; apply Ho|]. intros [].
  apply (triple_bind _ _ (λ _ fs, P fs)); [by apply triple_pure|]. intros now.
  destruct (ctx_done now); [apply Hfail|].
  apply (triple_bind _ _ (λ _ fs, P fs)); [by apply triple_read|]. intros [n|e].
  - unfold ExitCode. eapply triple_bind; [eapply triple_bind; [apply (read_reports false P)|]|].
    + intros r. apply (triple_ret _ _ (λ r' fs, ∀ code, r' = Ok code → ∃ prev text bi0 now,
        bi_ExitCode prev = code ∧ k_read fs (Join [j_ReadyBuildPath j; BuildInfoFname]) = inr text ∧
        json_unmarshal text (NewBuildInfo now) = Ok bi0 ∧ bi_ExitCode prev = bi_ExitCode bi0)).
      intros fs [_ Hr] code. destruct r as [prev|e]; [|done]. intros [= <-].
      destruct (Hr prev eq_refl) as (text & bi0 & now' & Ht & Hu & Hcode & _). eauto 10.
    + intros [code|e]; [|apply Hfail]. eapply triple_bind; [by apply triple_pure|]. intros []. apply triple_ret.
      intros fs Hr a [= <-] _. destruct (Hr code eq_refl) as (prev & text & bi0 & now' & Hp & Ht & Hu & Hcode).
      exists (set_Coalesced true (set_ExitCode code bi)). split; [done|]. intros Hz. exists text, bi0.
      split_and!; [done|right; eauto| |by right]. simpl in Hz. congruence.
  - destruct (IsNotExist e); [apply IH|apply Hfail].
Qed.

(** What a run of Work that returns answers, on every path. *)
Lemma Work_answers fuel w a :
  (∀ n fs, store_ok B fs → store_ok B (env_others n fs)) → store_ok B (w_fs w) →
  (Work cfg ctx_done fuel j w).1 = Some a → answers a (w_fs (Work cfg ctx_done fuel j w).2).
Proof.
  intros Ho Hok. destruct (jobs_has (w_jobs w) (j_ID j)) eqn:Hq.
  - rewrite Work_coalesces by done. intros Ha. by eapply (coalesce_answers fuel _ (store_ok B)).
  - rewrite Work_leads by done. cbv zeta. intros [= <-]. by apply lead_answers.
Qed.
End reports.

(** ** The server's answer to a request for a job *)

Section server.
Context {E : Env} {J : JSON} {T : TarFormat} {H : Sha256} {D : Docker} {JJ : JobJSON} {N : Network} {TM : Templates}.
Context (ctx_done : nat → bool) (fuel : nat).

(** The worker pool: whether its queue is full, and what else happens on the server
    before a worker takes the job.  A [Work] that still coalesces after [fuel] ticks
    counts as failed: its client gets no success either way. *)
Context (full : Job → World → bool) (queued : Job → World → World).

Definition running_pool (cfg : Config) : WorkerPool := {|
  SendWork j := λ w,
    if full j w then (Err (ErrString "queue is full"), w)
    else (Ok (λ w, let '(r, w) := Work cfg ctx_done fuel j (queued j w) in
                   (default (None, Some (ErrString "no result yet")) r, w)), w);
|}.

Context (static metrics_page : Request → M Conn ()) (redirect : string → Request → M Conn ()).

(** The response to a POST of [body] to /jobs, and the server after it. *)
Definition respond (srv : Server) (w : World) (query : list string) (body : string) : Response * World :=
  let r := mkRequest "POST" "/jobs" query "application/json" (Ok body) in
  let c := (serve (P := running_pool (srv_cfg srv)) static metrics_page redirect srv true [] r (mkConn w new_response)).2 in
  (c_resp c, c_world c).

(** The body of a response that was sent whole. *)
Lemma result_body j res w :
  rs_status (c_resp (writeWorkResult j res (mkConn w new_response)).2) = 201 →
  res.2 = None ∧ c_world (writeWorkResult j res (mkConn w new_response)).2 = w ∧
  (rs_body (c_resp (writeWorkResult j res (mkConn w new_response)).2) = "" ∨
   marshal_info res.1 = Ok (rs_body (c_resp (writeWorkResult j res (mkConn w new_response)).2))).
Proof.
  unfold writeWorkResult. destruct res as [bi [e|]]; cbn [fst snd]; [by rewrite HttpError_status|]. intros _. split; [done|].
  rewrite !bind_run. cbn [WriteHeader SetHeader on_resp modify fst snd]. unfold WriteBody, rs_Write. cbn [c_resp c_world rs_WriteHeader rs_SetHeader new_response rs_sent rs_writes rs_body rs_header].
  destruct (net_write 0); cbn [fst snd c_resp c_world rs_body]; [by split; [|left]|]. split; [done|].
  destruct (marshal_info bi); [by right|by left].
Qed.

(** A response with the status 201 and a body comes from a Work that ended without
    an error on the job of the request. *)
Lemma respond_created srv w query body :
  routes = Some (srv_mux srv) →
  let r := respond srv w query body in
  rs_status r.1 = 201 → rs_body r.1 ≠ "" →
  ∃ jr j w1 res w2, json_request body = Ok jr ∧
    NewJob (jr_Project jr) (jr_Params jr) (jr_Group jr) (Some (srv_cfg srv)) w = (Ok j, w1) ∧
    Work (srv_cfg srv) ctx_done fuel (set_Rebuild (jr_Rebuild jr) j) (queued (set_Rebuild (jr_Rebuild jr) j) w1) = (Some (res, None), w2) ∧
    r.2 = w2 ∧ marshal_info res = Ok (rs_body r.1).
Proof.
  intros Hmux. unfold respond, serve. rewrite (srv_routes srv Hmux). cbn [rq_Method rq_Path].
  replace (mux_Handler "POST" "/jobs" route_mux) with (To Jobs) by (by vm_compute). cbv zeta. rewrite bind_run. cbn [fst snd mret M_ret].
  unfold HandleNewJob. cbn [rq_Method rq_Body rq_Query]. rewrite decide_False by (by intros Hx; apply Hx).
  destruct (json_request body) as [jr|e]; [|by rewrite HttpError_status].
  rewrite bind_run, lift_run. cbn [fst snd c_world c_resp]. destruct (NewJob _ _ _ _ w) as [[j|e] w1] eqn:Hj; cbn [fst snd];
    [|by rewrite HttpError_status].
  rewrite bind_run, lift_run. cbn [fst snd c_world c_resp SendWork running_pool]. cbv zeta.
  destruct (full _ w1); cbn [fst snd]; [done|]. case_decide; [done|].
  rewrite bind_run, lift_run. cbn [fst snd c_world c_resp].
  destruct (Work _ _ _ _ _) as [[res|] w2] eqn:Hw; cbn [default from_option fst snd];
    intros Hs Hb; apply result_body in Hs as (Hnone & Hworld & Hbody); [|done].
  destruct res as [res [err|]]; [done|]. exists jr, j, w1, res, w2.
  split_and!; [done..|]. by destruct Hbody.
Qed.
End server.

(** ** The build command against the server *)

Lemma job_ok_rebuild B b j : job_ok B j → job_ok B (set_Rebuild b j).
Proof. intros []. by split. Qed.

Section build_command.
(** The client's machine, and the libraries it uses. *)
Context (Ec : Env) (ParseDuration : string → gores Z) (Duration_String : Z → string)
  (marshal_request : JobRequest → gores string).
(** The server. *)
Context {E : Env} {J : JSON} {T : TarFormat} {H : Sha256} {D : Docker} {JJ : JobJSON} {N : Network} {TM : Templates}.
Context (ctx_done : nat → bool) (fuel : nat) (full : Job → World → bool) (queued : Job → World → World).
Context (static metrics_page : Request → M Conn ()) (redirect : string → Request → M Conn ()).

(** The server's address, and the requests of which no answer comes back. *)
Context (host port : string) (lost : nat → option (bool * goerr)).

Abbreviation answer_to srv w := (respond ctx_done fuel full queued static metrics_page redirect srv w).

(** The network: a request to the server's address is answered by the server in
    state [w]. *)
Definition wire (srv : Server) (w : World) : ClientEnv := {|
  parse_duration := ParseDuration;
  duration_string := Duration_String;
  request_json := marshal_request;
  http_post n url body _ :=
    let base := "http://" +:+ host +:+ ":" +:+ port in
    let posted r := Posted (rs_status r.1) (Ok (rs_body r.1)) in
    match lost n with
    | Some (timeout, e) => PostFailed timeout e
    | None =>
        if decide (url = base +:+ "/jobs") then posted (answer_to srv w [] body)
        else if decide (url = base +:+ "/jobs?async") then posted (answer_to srv w ["async"] body)
        else PostFailed false (ErrString "connection refused")
    end;
|}.

(** The encoder on both sides. *)
Context (request_law : ∀ jr text, marshal_request jr = Ok text → json_request text = Ok jr).
Context (info_law : ∀ bi text now bi', json_info bi = Ok text → json_unmarshal text (NewBuildInfo now) = Ok bi' →
  bi_ExitCode bi' = bi_ExitCode bi ∧ bi_Path bi' = bi_Path bi).
Context (empty_law : ∀ now bi, json_unmarshal "" (NewBuildInfo now) ≠ Ok bi).

(** The server's side: a store in order, which those who act meanwhile keep so. *)
Context (B : path) (srv : Server) (Hmux : routes = Some (srv_mux srv)) {Hcfg : config_ok (srv_cfg srv) B}
  (HB : Forall plain B).
Context (others_keep : ∀ n fs, store_ok B fs → store_ok B (env_others n fs)).
Context (queued_keeps : ∀ j w, store_ok B (w_fs w) → store_ok B (w_fs (queued j w))).

(** What the server has built when it answers a request with an exit code 0. *)
Lemma answer_reports w query body project params group rebuild info now :
  store_ok B (w_fs w) → plain project → group_ok group → (∀ k v, params !! k = Some v → plain k) →
  marshal_request (mkJobRequest project params group rebuild) = Ok body →
  let r := answer_to srv w query body in
  rs_status r.1 = 201 → json_unmarshal (rs_body r.1) (NewBuildInfo now) = Ok info → bi_ExitCode info = 0 →
  ∃ j w1, NewJob project params group (Some (srv_cfg srv)) w = (Ok j, w1) ∧ reports j (w_fs r.2) info.
Proof.
  intros Hok Hp Hg Hk Hreq r Hs Hdec Hcode. assert (Hbody : rs_body r.1 ≠ "").
  { intros Hx. rewrite Hx in Hdec. by apply empty_law in Hdec. }
  apply request_law in Hreq.
  destruct (respond_created ctx_done fuel full queued static metrics_page redirect srv w query body Hmux Hs Hbody)
    as (jr & j & w1 & res & w2 & Hjr & Hj & Hw & Hw2 & Hres).
  rewrite Hreq in Hjr. injection Hjr as <-. cbn [jr_Project jr_Params jr_Group jr_Rebuild] in *.
  exists j, w1. split; [done|]. assert (Hjob : job_ok B j).
  { destruct (NewJob_inv project params group (srv_cfg srv) w j) as (_ & tar & n & now0 & now1 & ->); [by rewrite Hj|].
    apply make_job_ok; [done|apply Hcfg|done..]. }
  assert (Hw1 : store_ok B (w_fs w1)).
  { pose proof (NewJob_reads project params group (Some (srv_cfg srv)) (store_ok B) w Hok) as Hr. by rewrite Hj in Hr. }
  pose proof (Work_answers (srv_cfg srv) ctx_done B _ (job_ok_rebuild B rebuild j Hjob) fuel
    (queued (set_Rebuild rebuild j) w1) (res, None) others_keep (queued_keeps _ _ Hw1)) as Ha.
  rewrite Hw in Ha. destruct (Ha eq_refl eq_refl) as (info0 & Hinfo & Hrep). cbn [fst snd] in *. subst res.
  destruct (info_law _ _ _ _ Hres Hdec) as [Hcode0 Hpath0]. rewrite Hcode0 in Hcode. fold r in Hw2. rewrite Hw2.
  destruct (Hrep Hcode) as (text & bi & Ht & Hm & Hz & Hpi). exists text, bi. rewrite Hpath0. split_and!; [exact Ht|done|done|exact Hpi].
Qed.

End build_command.

(** ** A concrete build *)

Definition wire_request (jr : JobRequest) : gores string :=
  Ok (bits (encode (jr_Project jr, jr_Params jr, jr_Group jr, jr_Rebuild jr))).

#[export] Instance wire_json : JobJSON := {|
  time_Format := time_Format; time_Parse := time_Parse; json_views := json_views; json_struct := json_struct;
  json_info := toy_marshal;
  json_request s := match decode (of_bits s) with
                    | Some (project, params, group, rebuild) => Ok (mkJobRequest project params group rebuild)
                    | None => Err (ErrString "invalid character")
                    end;
|}.

Definition scen_flags : Flags := default_flags "alice" "yarn".
Definition scen_client : CW := mkCW scen_world [] [].

Lemma wire_request_law jr text : wire_request jr = Ok text → json_request (JobJSON := wire_json) text = Ok jr.
Proof. intros [= <-]. cbn [json_request wire_json]. rewrite of_bits_bits, decode_encode. by destruct jr. Qed.

Lemma wire_info_law bi text now bi' :
  toy_marshal bi = Ok text → toy_unmarshal text (NewBuildInfo now) = Ok bi' → bi_ExitCode bi' = bi_ExitCode bi ∧ bi_Path bi' = bi_Path bi.
Proof. intros Hm Hu. rewrite (toy_roundtrip _ _ _ Hm) in Hu. by injection Hu as ->. Qed.

Lemma scen_client_params k v :
  (sent_value (w_fs (cw_world scen_client)) <$> parseDynamicArgs ["--lockfile=left-pad@1.3.0"]) !! k = Some v → plain k.
Proof.
  replace (sent_value _ <$> parseDynamicArgs _) with scen_params by (by vm_compute).
  unfold scen_params. intros [<- _]%lookup_singleton_Some. apply plain_lockfile.
Qed.

